(* ===== verification/_CoqProject ===== *)
-Q . S2P
Prelude.v
Floats.v
CalcLength.v
Torch.v
ConvSub.v
Loops.v
Stacking.v
Interchange.v
Objects.v
Tensor.v
StackingData.v
StackingFloat.v
ConvData.v
ConvSubData.v
ConvSubValues.v
LinearData.v
Float32.v
Float32Exact.v
Float32Div.v
PackageInfo.v
Scenario.v
Contract.v
