(* ===== verification/Prelude.v ===== *)
(** * Verified model of the chrispnet subsampling layers

    The repository holds one implementation file of substance,
    [src/chrispnet/modules/encoder/prenet/subsampling.py], with two
    interchangeable subsampling layers of a speech encoder and the length
    arithmetic they share, a metadata file [src/chrispnet/package_info.py],
    and one parametrised test.  A layer takes a batch tensor of shape
    (B, T, D) with a vector of valid lengths and returns a tensor with a
    shorter time axis and the lengths recomputed for it.

    ** Files

    - [Prelude] (this file): the error type [error] and the [result] monad
      that carry Python's exceptions as values, the [for_range] combinator
      that stands for [for i in range(n)], ceiling division [cdiv] beside
      [Z.div] (which is Python's [//]; [Z.modulo] is Python's [%]), the
      lemmas on [Z] and [Q] rounding the components share, the tactic
      [divlia] and the hint database [subsampling].
    - [Floats]: the interface [FloatOps] of the float operations
      [calc_length] performs on a tensor (conversion from an integer, add,
      true division, floor, ceil, cast to int); the contracts [StepExact]
      (one stage of the length formula on the float of an integer is the
      float of the integer stage) and [HalvingExact] (the same for the two
      stages the repository uses, on a domain that halving keeps); the
      instance on [Q], which meets both on every integer.
    - [CalcLength]: the function [calc_length] of subsampling.py, generic
      in the float interface, its reference [calc_length_Z] on integers and
      the theorems relating both.
    - [Torch]: the part of the PyTorch contract the layers rely on, at the
      level of shapes: [Conv2d], [MaxPool2d] and activation layers with
      their output sizes, [Sequential], [Linear], [pad], [reshape],
      [transpose], [unsqueeze], and the constructors [Linear_new] and
      [Conv2d_new], which fail when [torch_empty] is asked for a negative
      size.  PyTorch is not part of the repository: these definitions
      follow its documented output-size formulas.
    - [ConvSub]: class [ConvSubsampling] on shapes: [ConvSubsampling_init]
      (the constructor with its configuration errors, the two
      layer-building loops with their passes [vggnet_pass] and
      [striding_pass], and the allocation of the layers) and
      [ConvSubsampling_forward].
    - [Loops]: the three [for] loops of subsampling.py as transition
      systems: [for_step] for a loop over a range, [for_step_m] for a loop
      whose body can raise, [calc_length_step], [vggnet_step] and
      [striding_step] for the loops of the source, the runner [for_run]
      with fuel, the modality [eventually].
    - [Stacking]: class [StackingSubsampling] on shapes:
      [StackingSubsampling_init] and [StackingSubsampling_forward].
    - [Interchange]: the [forward]s of the two classes on the same batch,
      and the condition [layers_agree] under which they return the same.
    - [Objects]: the constructor of [ConvSubsampling] on a heap of layer
      objects ([ConvSubsampling_init_obj], in the monad [alloc] of
      computations that create objects and can raise), the default
      activation [default_activation] created once, and [erase], which
      reads a module of references back as the module of [ConvSub].
    - [Tensor]: contiguous tensors with their values (shape and elements in
      row-major order) and the operations the two [forward] methods apply
      to them; [chunks] and its lemmas on rows of a flat list.
    - [StackingData]: [StackingSubsampling_forward_data], the [forward] of
      [StackingSubsampling] on values, and its reference [stack_item].
    - [StackingFloat]: [StackingSubsampling_forward_t], the same [forward]
      with a tensor of lengths of either dtype: the interface
      [FloorDivOps] of the floor division of floats, its contract
      [FloorDivExact], the tensor operations [add_scalar_t] and
      [div_floor_t] that keep the dtype.
    - [ConvData]: the layers of the convolution stack on values:
      [Module_forward_data] for [Conv2d], [MaxPool2d] and activations,
      [Sequential_forward_data] for the stack, with the weights as
      parameters, and the receptive field [field] of a layer.
    - [ConvSubData]: [ConvSubsampling_forward_data], the [forward] of
      [ConvSubsampling] on values, against an interface of the convolution
      stack ([conv_refines]).
    - [ConvSubValues]: [ConvSubsampling_forward_values], the same [forward]
      with the stack the constructor built computed by [ConvData].
    - [LinearData]: the output projection of both classes with its weight
      matrix and bias ([Linear_row]), and the references [time_conv_at]
      and [channel_major_at] that give the two [forward]s element by
      element.
    - [Float32]: IEEE binary32 as an instance of [FloatOps], built on the
      Standard Library's [SpecFloat] with precision 24 and exponent bound
      128.
    - [Float32Exact]: the proof that binary32 meets [HalvingExact] on the
      lengths from 0 to 2^24 - 1.
    - [Float32Div]: the floor division of binary32 tensors
      ([b32_floordiv], built on the remainder [b32_fmod] as PyTorch
      builds it on [fmod]) and the proof that it meets [FloorDivExact] on
      the same lengths.
    - [PackageInfo]: the version strings of package_info.py, and a reader
      [parse_version] of such strings, which is not in the sources and
      serves to state that a string determines its version tuple.
    - [Scenario]: the [__main__] block of subsampling.py, as the call it
      makes ([main]) and as the sequence of its statements with what they
      print ([script], [main_script], in the monad [run]), and the
      parameter grid of the test, run through the model.
    - [Contract]: the interface the callers of a layer use, a module with
      [forward], as the class [Subsampling]; its contract
      [SubsamplingLaws]; the two classes as instances ([conv_layer],
      [stack_layer]) and two layers in sequence ([compose_layer]); the
      script for any module ([main_with]).

    ** How the model corresponds to the code

    A Python integer is a [Z].  A tensor of lengths is a [tensor1]: its
    dtype ([IntT] or [FloatT]) and its elements in storage order, so that
    the same definition serves the 0-dimensional tensor the constructor
    builds from [feat_in] and the (B,) vector [forward] receives.
    [calc_length] converts it to floats and back to integers;
    [StackingSubsampling.forward] keeps its dtype, and is modelled on the
    elements of an integer tensor ([Stacking], [StackingData]) and on a
    [tensor1] ([StackingFloat]), the second proved equal to the first on
    integer tensors.  A feature tensor is modelled twice.  On shapes ([ConvSub], [Stacking]) it is a
    [list Z], and each PyTorch call computes the new shape or fails.  On
    values ([StackingData], [ConvSubData], [ConvSubValues]) it is a
    [tensor], and what the sources do themselves (padding, reshaping,
    transposing) acts on the elements.  What is learned is a parameter: the
    affine map [W] of a linear layer, the weights and biases
    [conv_params] of the convolutions, the function [act] of the
    activation.  [LinearData] instantiates [W] with the map of a weight
    matrix and a bias ([linear_params]), so that with the three parameters
    given both [forward]s compute every element of their output.
    [ConvSubData] is written against the interface
    [conv_refines] of the convolution stack, and [ConvSubValues] discharges
    it with the stack of [ConvData], whose elements are of any type with
    the operations [ElemOps].  The model on values computes its shapes with
    the model on shapes, and a refinement theorem relates the two for each
    class.  An exception is a value [Err e] of [result]; statements in
    sequence are chained with the monad's bind, so that the first error
    wins, as in Python.  Records [StackingSubsampling] and
    [ConvSubsampling] hold the attributes the constructors set; both
    constructors return a [result], since the layers they allocate raise
    [RuntimeError] for a negative size, and [stacking_module],
    [vggnet_module] and [striding_module] are the modules they return when
    they succeed.  A loop [for i in range(n)] is the fold [for_range] in
    the classes, and in [Loops] the transition system [for_step] on the
    pairs of the next index and the variables of the loop; both are proved
    to agree.  The loops of the constructor can raise: their fold carries a
    [result] and keeps the first exception, and their transition system
    [for_step_m] has no transition from a state that holds one.  A layer
    is a value in [ConvSub] and an object in [Objects]: there the heap is
    the list of the objects in the order of their creation, a reference is
    a position in it, every call of [torch.nn.Conv2d], [torch.nn.MaxPool2d]
    and [torch.nn.Linear] appends an object, and [layers.append(activation)]
    appends the reference it was given.  The constructor is the same
    sequence of statements in both, in the monad [result] and in the monad
    [alloc].  The script prints: a [run] of [Scenario] is the list of the
    lines printed with the value or the exception the script ends with, a
    line being the shape and the tensor handed to [print], and a bind
    keeps what was printed before an exception.

    ** What the theorems show

    - [CalcLength]: under [StepExact], [calc_length] is the iterated
      integer formula [(l + 2p - k) / s + 1] with floor or ceiling
      division; it is monotone in the length; with the parameters of either
      strategy and [r] repetitions it is [ceil(l / 2^r)]; lengths in
      [0, T] stay in [0, T'].  Tensors whose casts to both dtypes agree
      ([same_values], an equivalence) give the same result
      ([calc_length_proper]), and so does [ConvSubsampling.forward]: the
      float tensor the script passes and the integer tensor the test
      passes are treated alike where the conversion is exact.
    - [ConvSub]: the constructor fails exactly on an odd factor, a
      non-positive factor, an unknown strategy and a negative size
      ([sizes_ok]), in this order; it accepts even factors that are not
      powers of two; on success the layer stack,
      the output projection and the length formula agree, so [forward]
      never fails on a well-shaped input and returns lengths bounded by the
      time axis it produces.  [ConvSubsampling_forward_cases] gives
      [forward] on every batch (b, t, d) without a negative dimension: the
      first convolution raises for a module built with no channel and for
      an empty time or feature axis, the reshape with [-1] raises for an
      empty batch, the projection raises when [d] and [feat_in] do not
      reduce to the same width, and every other batch is accepted.  These
      theorems are proved against
      [HalvingExact], for any float arithmetic that meets it.
    - [Stacking]: the constructor fails exactly on a negative size of the
      projection; the output shape is (B, T / F + 1, feat_out), the time
      axis is not the [ceil(T / F)] of the contract when F divides T, the
      new lengths are bounded by the new time axis, and how the reported
      length compares with [ceil(l / F)].
      [StackingSubsampling_forward_cases] gives [forward] on every batch
      without a negative dimension: [ZeroDivisionError] for the factor 0,
      an error of the projection for a width other than [feat_in], and a
      result otherwise, empty batches and empty time axes included.
    - [Interchange]: for a factor that is a power of two the two layers
      return the same batch size and width, time axes and lengths that
      differ by at most one, and the same time axis and lengths exactly
      when the factor does not divide T and no length has a remainder that
      is positive and below that of T.
    - [Objects]: the constructor on objects refines the constructor on
      values, exceptions included ([agree] relates the two outcomes, and the
      invariant [built] is kept by every statement that appends a layer);
      it only allocates ([framed]): the objects that exist are kept, and
      the outcome does not depend on what they hold; a module owns the
      objects its constructor made, 3R + 1 for "vggnet" and R + 1 for
      "striding", each referenced once; two modules built with the same
      activation share it and nothing else, and two modules of the same
      configuration have the same [forward]; when the object of the
      activation is replaced, every module that holds it becomes the module
      built with the new activation.
    - [Contract]: both classes meet the contract of a layer: a valid batch
      (at least one item and one frame, one length per item between 0 and
      the time axis) is mapped to a valid batch, the new length grows with
      the length, and an item of full length stays of full length.  The
      clients are proved against the contract alone: the script returns a
      valid batch for every module that handles its input, and two layers
      in sequence meet the contract again, so that a stacking layer may
      follow a convolutional one.
    - [StackingData]: [forward] computes the projection of the stacked
      frames of [stack_item]; input frame [j] of an item lies in output
      frame [j / F] at offset [(j mod F) * H]; when F divides T the last
      output frame is padding alone and is counted in the length of a full
      item; a valid frame can lie outside the reported length; the output
      is well formed.
    - [StackingFloat], [Float32Div]: on an integer tensor of lengths
      [forward] is the [forward] of [Stacking], errors included; on a float
      tensor it returns floats, which under [FloorDivExact] are the
      lengths [(l + pad_size) // F]; every step of PyTorch's floor
      division (remainder, subtraction, division, correction by the signs,
      floor) is exact in binary32 on integers from 0 to 2^24 - 1 and a
      positive divisor, so binary32 meets the contract.
    - [Loops]: every loop terminates, in exactly [max(0, n)] passes and in
      the state the fold computes; the fuel [Z.to_nat n] suffices for the
      runner and no smaller fuel does; in the loops of a constructor that
      succeeds no reachable state holds an exception, every reachable state
      holds a prefix of the final stack, and every stage is eventually built
      and then kept; with a negative channel count the run is one pass, to
      a final state that holds the allocation error.
    - [ConvData]: the layers on values have the shapes and errors of the
      layers on shapes, keep tensors well formed, and are local: the output
      frames of an interval are computed from the input frames of its
      receptive field, in the same item, wherever the item stands in the
      batch.
    - [ConvSubData]: the row the projection reads for a frame joins the
      rows of the stack's output channel after channel.
    - [LinearData]: [StackingSubsampling.forward] is a convolution over
      time with kernel and stride F whose weight for kernel position [u]
      and feature [c] is column [u * H + c] of the projection, on the
      batch read as zero from frame T on; element [o] of an output frame of
      [ConvSubsampling.forward] is the bias plus the sum over channels [j]
      and features [f] of column [j * D' + f] times the stack's output at
      [(j, f)].  Both hold for every [ElemOps].  Where zero is absorbing
      for the product and neutral for the sum ([ElemLaws], as on the
      integers), the frame [StackingSubsampling] adds when F divides T is
      the bias of the projection.
    - [PackageInfo]: [__shortversion__] is "0.1.0" and [__version__] is
      "0.1.0rc0"; for every tuple of three numbers and a string the two
      are the numbers in decimal joined by dots, followed by the string for
      the second; [__version__] is read back to its tuple by
      [parse_version] when the numbers are not negative and the
      pre-release string does not start with a digit, and is ambiguous
      otherwise; a tuple whose last component is a number raises
      [TypeError].
    - [Scenario]: the script prints the shape (4, 1600, 80) with its float
      lengths and then the shape (4, 400, 320) with the integer lengths
      400, 81, 1, 167, in binary32 and in exact arithmetic; for any module,
      nothing is printed when the constructor raises and the first line
      alone when [forward] raises ([script_cases]); every point of the
      test's grid the layer accepts gives the expected shapes, and the
      placeholders -1 of the test are rejected.
    - [ConvSubValues]: [forward] on values refines [forward] on shapes and
      is total on well-formed batches; the receptive field of output frame
      [k] is [2^R k - (2^R - 1), 2^R k + (2^R - 1)] for "striding" and
      [2^R k - 2 (2^R - 1), 2^R k + 3 (2^R - 1)] for "vggnet"; output
      frames whose field ends before the length of an item do not depend on
      the padding or on the other items, and the last frames counted as
      valid do.
    - [Float32Exact]: on integers and half-integers of magnitude below 2^24
      the binary32 operations are exact ([canon] is the normalised float of
      a value; conversion, addition, division by 2, floor, ceil and the cast
      are computed on it without rounding), so every theorem proved against
      [HalvingExact] holds of binary32 for lengths below 2^24.  [Float32]
      shows that the bound is sharp: the length 2^24 + 1 is miscounted.

    ** Bounds and assumptions

    - [int(math.log(f, 2))] is modelled by [Z.log2 f] for [0 < f]: the
      rounding of the double-precision logarithm is not modelled.  The two
      differ only where the quotient of the logarithms rounds up to the
      next integer, for factors just below a large power of two: CPython
      returns 49.0 for 2^49 - 2, and the floor of the exact logarithm for
      every power of two and every even factor below 2^20.
    - The allocation of a layer fails for a negative size and succeeds
      otherwise, sizes of 0 included: running out of memory is not
      modelled.  The error is [alloc_error], PyTorch's [RuntimeError]
      with its message up to the sizes PyTorch appends.  The other checks
      of the layers' constructors ([groups], [padding_mode]) cannot fail
      for the arguments the sources pass.
    - A convolution checks, in this order, that its weight has an output
      channel, that the channels of its input are those of the weight, and
      that the kernel fits the padded input; a layer with no output channel
      is therefore built by the constructor and raises when it is applied.
      The theorems on the results of [ConvSubsampling.forward] ask for
      [1 <= conv_channels].  The layers of the model take inputs of rank 4
      and raise on any other rank.  Recent versions of PyTorch also accept
      an unbatched input of rank 3: for a batch of rank 2 [forward] then
      raises where it unpacks the four sizes instead of in the first
      convolution.  The theorems are about batches of rank 3, to which
      [forward] adds the channel axis.
    - [reshape] with one dimension [-1] infers it from the number of
      elements, and raises when the other dimensions multiply to 0, as
      PyTorch does.
    - A pooling layer raises when an output size is below 1.  PyTorch also
      checks its hyperparameters (kernel and stride positive, padding at
      most half the kernel) and that the channel axis is not empty; the
      sources build pooling layers of kernel 2, stride 2 and padding 0 and
      apply them to the output of a convolution, where these checks cannot
      fail, and the model leaves them out.
    - The cast to a 32-bit integer is modelled as truncation to [Z];
      the lengths of the theorems on binary32 are below 2^24 and fit.
    - The elements of an integer tensor are integers of [Z], and the
      wrap-around of a tensor of 32 or 64 bits is not modelled.  The model
      is that of PyTorch where nothing overflows:
      [StackingSubsampling_lengths_in_range] shows that for lengths
      between 0 and [t] the sums and quotients of
      [StackingSubsampling.forward] are in the range of the dtype
      ([int_range]) when [t + factor] is, and the lengths
      [ConvSubsampling.forward] returns are between 0 and those it was
      given.
    - The domain [int24] of [Float32Exact] is [0 <= n < 2^24]: the largest
      intermediate value of a stage is [(n + 1) / 2], whose numerator must
      keep 24 digits; for the length 2^24 - 1 it is a power of two, and
      that one length is checked by evaluation.
    - The floor division of floats follows PyTorch's kernel, which is not
      among the sources: [fmod], the division of the difference, one
      subtraction when the signs of remainder and divisor differ, [floor]
      with a correction step, and a signed zero for a zero quotient.  A
      NaN of [SpecFloat] has no sign; the kernel takes the sign of a
      quotient only where it is not a NaN.  The theorem on binary32 asks
      for [l + F < 2^24]: the sum [l + pad_size] must keep 24 digits.
    - Every loop of the source is a [for] over a [range].  The classes
      model it by a fold over the list of its indices and use no fuel.  The
      runner [for_run] of [Loops] takes fuel: [Z.to_nat n] passes are
      enough for [range(n)] ([for_run_enough]) and fewer are not
      ([for_run_out_of_fuel]).
    - The sizes of the theorems on values are natural numbers ([shape3],
      [shape4]) or integers bounded below: a well-formed tensor has no
      negative dimension.
    - The sums of a convolution are taken in the order of the indices
      (channel, row, column), those of a projection in the order of the
      columns, the bias added last.  PyTorch fixes no order; the theorems
      on values hold for every [ElemOps], associative or not, and the
      references [time_conv_at] and [channel_major_at] sum in the order of
      [Linear_row].  A pooling window takes the maximum of the elements of
      the input it covers: the padding is never the maximum.
    - A printed line is the pair of the values given to [print]; the text
      PyTorch's [repr] makes of a shape and of a tensor (the number of
      digits, the [dtype] suffix) is not modelled.
    - The theorems on the stack on values take the activation to be
      elementwise ([Elementwise nm]).
    - The heap of [Objects] holds the layers and the projections.  The
      containers (a module itself, its [Sequential]) are not objects of the
      heap, no object is freed, and a reference is the rank of its object
      in the order of creation: the theorems use only that references of
      different objects differ.

    ** Not modelled

    The random initialisation of the weights and the rounding of the float
    arithmetic inside convolution, pooling and projection (the weights are
    parameters and the elements abstract), autograd, negative lengths and
    divisors in the floor division of binary32 (the operation is defined
    on them, its exactness is proved on lengths), and the ConformerEncoder
    class the test imports, which is not among the sources.  Nothing else
    of the sources is left out: what remains of PyTorch is a library the
    sources only call.

    Three things stay out because no faithful model of them can be
    written from the sources.  The value of [calc_length] in binary32 on
    lengths of 2^24 and more depends on the rounding of every stage, and
    is given for the one length that shows the bound is sharp.  The
    wrap-around of an integer tensor depends on how PyTorch converts the
    Python integer [pad_size] to the dtype of the tensor, which the
    sources do not fix.  The test's forward and backward pass run through
    the encoder, of which the repository holds the subsampling layer
    alone. *)

From Stdlib Require Import ZArith QArith Qround Lia.
From stdpp Require Import base tactics numbers list option strings.

#[local] Open Scope Z_scope.

(** ** Exceptions as values *)

(** The exceptions the modelled code can raise: [ValueError] (raised by the
    constructors, by [math.log] and by a tuple assignment of the wrong
    arity), [ZeroDivisionError] (integer [%] and [//] by zero),
    [RuntimeError] (PyTorch shape mismatches), [IndexError] (a dimension
    that a tensor does not have) and [TypeError] ([str.join] on a value that
    is not a string). *)
Inductive error : Type :=
| ValueError (msg : string)
| ZeroDivisionError
| RuntimeError (msg : string)
| IndexError (msg : string)
| TypeError (msg : string).

#[export] Instance error_eq_dec : EqDecision error.
Proof. solve_decision. Defined.

Inductive result (A : Type) : Type :=
| Ok (a : A)
| Err (e : error).

Arguments Ok {A} a.
Arguments Err {A} e.

#[export] Instance result_eq_dec `{EqDecision A} : EqDecision (result A).
Proof. solve_decision. Defined.

#[export] Instance result_ret : MRet result := @Ok.

#[export] Instance result_bind : MBind result :=
  λ A B f m, match m with Ok a => f a | Err e => Err e end.

#[export] Instance result_fmap : FMap result :=
  λ A B f m, match m with Ok a => Ok (f a) | Err e => Err e end.

Definition is_ok {A} (m : result A) : bool :=
  match m with Ok _ => true | Err _ => false end.

(** [raise_unless c e] is [if not c: raise e]. *)
Definition raise_unless (c : bool) (e : error) : result unit :=
  if c then Ok tt else Err e.

(** ** Python loops and integer division *)

(** [for i in range(n): s = body(i, s)], started from [init]. *)
Definition for_range {S : Type} (n : Z) (body : Z → S → S) (init : S) : S :=
  foldl (λ s i, body i s) init (Z.of_nat <$> seq 0 (Z.to_nat n)).

(** [a % b] and [a // b] on Python integers: [Z.modulo] and [Z.div] (the
    remainder has the sign of the divisor), and an exception for [b = 0]. *)
Definition py_mod (a b : Z) : result Z :=
  if decide (b = 0) then Err ZeroDivisionError else Ok (a mod b).

Definition py_floordiv (a b : Z) : result Z :=
  if decide (b = 0) then Err ZeroDivisionError else Ok (a / b).

(** Ceiling division, [ceil(a / b)] for a positive [b]. *)
Definition cdiv (a b : Z) : Z := - ((- a) / b).

(** Rounding of a rational to an integer, toward zero. *)
Definition Qtrunc_Z (x : Q) : Z :=
  if Qle_bool 0 x then Qfloor x else Qceiling x.

(** ** Automation *)

Create HintDb subsampling discriminated.
Create Rewrite HintDb subsampling.

(** Linear arithmetic with [/] and [mod] turned into their equations. *)
Ltac divlia := Z.div_mod_to_equations; nia.

(** Unfold one bind whose first computation is known. *)
Ltac simplify_result :=
  repeat match goal with
  | H : Ok _ = Ok _ |- _ => injection H as H; try subst
  | H : Err _ = Ok _ |- _ => discriminate H
  | H : Ok _ = Err _ |- _ => discriminate H
  | H : Err _ = Err _ |- _ => injection H as H; try subst
  | H : mbind _ ?m = Ok _ |- _ =>
      let E := fresh "E" in destruct m eqn:E; simpl in H
  | H : raise_unless ?c _ = Ok _ |- _ =>
      let E := fresh "E" in destruct c eqn:E; simpl in H
  end.

(** ** Lemmas on [result] *)

Section result_lemmas.
Context {A B : Type}.
Implicit Types (m : result A) (f : A → result B).

Lemma bind_Ok_inv m f b :
  m ≫= f = Ok b ↔ ∃ a, m = Ok a ∧ f a = Ok b.
Proof.
  destruct m as [a|e]; simpl; split.
  - eauto.
  - by intros (a' & [= ->] & ?).
  - discriminate.
  - by intros (? & ? & ?).
Qed.

Lemma bind_Err_inv m f e :
  m ≫= f = Err e ↔ m = Err e ∨ ∃ a, m = Ok a ∧ f a = Err e.
Proof.
  destruct m as [a|e']; simpl; split.
  - eauto.
  - intros [?|(a' & Ha & ?)]; [done|by simplify_eq].
  - intros [= ->]. by left.
  - intros [[= ->]|(? & ? & ?)]; done.
Qed.

Lemma is_ok_true m : is_ok m = true ↔ ∃ a, m = Ok a.
Proof. destruct m; simpl; split; eauto; [done|by intros [? ?]]. Qed.

Lemma raise_unless_Ok c e : raise_unless c e = Ok tt ↔ c = true.
Proof. by destruct c. Qed.

Lemma raise_unless_Err c e e' : raise_unless c e = Err e' ↔ c = false ∧ e' = e.
Proof.
  destruct c; simpl; split; try done.
  - by intros [? _].
  - by intros [= ->].
  - by intros [_ ->].
Qed.

End result_lemmas.

(** ** Lemmas on [for_range] *)

Section for_range_lemmas.
Context {S : Type}.
Implicit Types (body : Z → S → S) (s : S).

Lemma for_range_nonpos n body s : n ≤ 0 → for_range n body s = s.
Proof. intros Hn. unfold for_range. by replace (Z.to_nat n) with 0%nat by lia. Qed.

Lemma for_range_succ n body s :
  0 ≤ n → for_range (n + 1) body s = body n (for_range n body s).
Proof.
  intros Hn. unfold for_range.
  replace (Z.to_nat (n + 1)) with (Z.to_nat n + 1)%nat by lia.
  rewrite seq_app, fmap_app, foldl_app. simpl. by rewrite Z2Nat.id.
Qed.

Lemma iter_ext (f g : S → S) (n : nat) s :
  (∀ x, f x = g x) → Nat.iter n f s = Nat.iter n g s.
Proof. intros Hfg. induction n as [|n IH]; simpl; [done|]. by rewrite IH, Hfg. Qed.

(** A loop whose body ignores the index is an iteration. *)
Lemma for_range_iter n (f : S → S) s :
  for_range n (λ _, f) s = Nat.iter (Z.to_nat n) f s.
Proof.
  unfold for_range. generalize 0%nat as k. revert s.
  induction (Z.to_nat n) as [|m IH]; intros s k; simpl; [done|].
  by rewrite IH, Nat.iter_swap.
Qed.

(** Invariants of a loop: what holds before it and is kept by every pass
    holds after it. *)
Lemma for_range_ind (P : S → Prop) n body s :
  P s → (∀ i s', 0 ≤ i < n → P s' → P (body i s')) → P (for_range n body s).
Proof.
  intros H0 Hstep. destruct (decide (n ≤ 0)) as [?|Hn].
  { by rewrite for_range_nonpos. }
  assert (∀ k, (k ≤ Z.to_nat n)%nat → P (for_range (Z.of_nat k) body s)) as Hk.
  { induction k as [|k IH]; intros Hle; [by rewrite for_range_nonpos|].
    rewrite Nat2Z.inj_succ, <-Z.add_1_r, for_range_succ by lia.
    apply Hstep; [lia|]. apply IH. lia. }
  specialize (Hk (Z.to_nat n)). rewrite Z2Nat.id in Hk by lia. by apply Hk.
Qed.

End for_range_lemmas.

(** Two loops over the same range, pass by pass: a relation between their
    states that may mention the number of passes made. *)
Lemma for_range_ind2 {S T : Type} (P : Z → S → T → Prop) n
    (body1 : Z → S → S) (body2 : Z → T → T) s t :
  P 0 s t →
  (∀ i s' t', 0 ≤ i < n → P i s' t' → P (i + 1) (body1 i s') (body2 i t')) →
  P (Z.max 0 n) (for_range n body1 s) (for_range n body2 t).
Proof.
  intros H0 Hstep. destruct (decide (n ≤ 0)) as [?|Hn].
  { rewrite !for_range_nonpos by done. by replace (Z.max 0 n) with 0 by lia. }
  assert (∀ k, (k ≤ Z.to_nat n)%nat →
            P (Z.of_nat k) (for_range (Z.of_nat k) body1 s)
              (for_range (Z.of_nat k) body2 t)) as Hk.
  { induction k as [|k IH]; intros Hle; [by rewrite !for_range_nonpos|].
    rewrite Nat2Z.inj_succ, <-Z.add_1_r, !for_range_succ by lia.
    apply Hstep; [lia|]. apply IH. lia. }
  specialize (Hk (Z.to_nat n)). rewrite Z2Nat.id in Hk by lia.
  replace (Z.max 0 n) with n by lia. by apply Hk.
Qed.

Section for_range_result.
Context {S : Type}.

(** A loop whose passes can raise carries a [result]: an exception raised
    by a pass is kept to the end. *)
Lemma iter_bind_Err (f : S → result S) e (k : nat) :
  Nat.iter k (λ st, st ≫= f) (Err e) = Err e.
Proof. induction k as [|k IH]; simpl; [done|]. by rewrite IH. Qed.

(** When every pass succeeds on the states that satisfy an invariant, the
    loop returns what the loop of the passes' results returns. *)
Lemma for_range_bind_Ok (P : S → Prop) (f : S → result S) (g : S → S) n s :
  (∀ s', P s' → f s' = Ok (g s') ∧ P (g s')) → P s →
  for_range n (λ _ st, st ≫= f) (Ok s) = Ok (for_range n (λ _, g) s).
Proof.
  intros Hf Hs. rewrite !for_range_iter.
  assert (∀ k : nat, Nat.iter k (λ st, st ≫= f) (Ok s) = Ok (Nat.iter k g s)
                     ∧ P (Nat.iter k g s)) as Hk; [|apply Hk].
  induction k as [|k [IH HP]]; simpl; [done|].
  rewrite IH. simpl. by apply Hf.
Qed.

(** The exception of the first pass is the result of the loop. *)
Lemma for_range_bind_Err (f : S → result S) e n s :
  0 < n → f s = Err e → for_range n (λ _ st, st ≫= f) (Ok s) = Err e.
Proof.
  intros Hn Hf. rewrite for_range_iter.
  destruct (Z.to_nat n) as [|k] eqn:Hk; [lia|].
  rewrite Nat.iter_succ_r. simpl. rewrite Hf. apply iter_bind_Err.
Qed.

End for_range_result.

(** Two maps agree on a list when they agree on its elements. *)
Lemma fmap_eq_Forall {A B : Type} (f g : A → B) (l : list A) :
  f <$> l = g <$> l ↔ Forall (λ x, f x = g x) l.
Proof.
  induction l as [|x l IH]; simpl; [by split|].
  rewrite Forall_cons, <-IH. split; [by intros [= ??]|intros [??]; by f_equal].
Qed.

(** ** Lemmas on floor and ceiling division *)

Lemma cdiv_eq a b : 0 < b → cdiv a b = (a + b - 1) / b.
Proof. intros. unfold cdiv. divlia. Qed.

Lemma cdiv_bounds a b : 0 < b → a ≤ b * cdiv a b < a + b.
Proof. intros. unfold cdiv. divlia. Qed.

Lemma cdiv_unique a b q : 0 < b → a ≤ b * q < a + b → cdiv a b = q.
Proof. intros. unfold cdiv. divlia. Qed.

Lemma cdiv_mono a a' b : 0 < b → a ≤ a' → cdiv a b ≤ cdiv a' b.
Proof. intros. unfold cdiv. divlia. Qed.

Lemma cdiv_nonneg a b : 0 < b → 0 ≤ a → 0 ≤ cdiv a b.
Proof. intros. unfold cdiv. divlia. Qed.

Lemma cdiv_pos a b : 0 < b → 0 < a → 0 < cdiv a b.
Proof. intros. unfold cdiv. divlia. Qed.

Lemma cdiv_le_self a b : 0 < b → 0 ≤ a → cdiv a b ≤ a.
Proof. intros. unfold cdiv. divlia. Qed.

Lemma fdiv_le_cdiv a b : 0 < b → a / b ≤ cdiv a b.
Proof. intros. unfold cdiv. divlia. Qed.

Lemma cdiv_exact a b : 0 < b → a mod b = 0 → cdiv a b = a / b.
Proof. intros. unfold cdiv. divlia. Qed.

Lemma cdiv_inexact a b : 0 < b → a mod b ≠ 0 → cdiv a b = a / b + 1.
Proof. intros. unfold cdiv. divlia. Qed.

Lemma cdiv_cases a b :
  0 < b → cdiv a b = a / b + (if decide (a mod b = 0) then 0 else 1).
Proof.
  intros. case_decide; [rewrite cdiv_exact|rewrite cdiv_inexact]; done || lia.
Qed.

(** Adding at most the divisor moves the quotient by at most one. *)
Lemma div_add_cases a b p :
  0 < b → 0 ≤ p ≤ b →
  (a + p) / b = a / b + (if decide (b ≤ a mod b + p) then 1 else 0).
Proof.
  intros Hb Hp. pose proof (Z.mod_pos_bound a b Hb).
  rewrite (Z.div_mod a b) at 1 by lia.
  rewrite <-Z.add_assoc, Z.mul_comm, Z.div_add_l by lia. f_equal.
  case_decide.
  - symmetry. apply (Z.div_unique _ _ 1 (a mod b + p - b)); lia.
  - apply Z.div_small. lia.
Qed.

(** Ceiling divisions compose, as floor divisions do ([Z.div_div]). *)
Lemma cdiv_cdiv a b c : 0 < b → 0 < c → cdiv (cdiv a b) c = cdiv a (b * c).
Proof.
  intros Hb Hc. unfold cdiv. rewrite Z.opp_involutive.
  rewrite Z.div_div by lia. done.
Qed.

Lemma cdiv_1 a : cdiv a 1 = a.
Proof. unfold cdiv. rewrite Z.div_1_r. lia. Qed.

(** One halving stage written the way the layers compute it. *)
Lemma halve_floor_form l : (l + (1 * 2 - 3)) / 2 + 1 = cdiv l 2.
Proof. unfold cdiv. divlia. Qed.

Lemma halve_ceil_form l : cdiv (l + (0 * 2 - 2)) 2 + 1 = cdiv l 2.
Proof. unfold cdiv. divlia. Qed.

(** Iterated halving is one division by a power of two. *)
Lemma iter_cdiv_2 (r : nat) l :
  Nat.iter r (λ x, cdiv x 2) l = cdiv l (2 ^ Z.of_nat r).
Proof.
  induction r as [|r IH]; simpl Nat.iter.
  - by rewrite cdiv_1.
  - rewrite IH, cdiv_cdiv by lia.
    f_equal. rewrite Nat2Z.inj_succ, Z.pow_succ_r by lia. lia.
Qed.

(** An even positive number has a binary logarithm of at least 1, and a
    power of two is its own power of its logarithm. *)
Lemma log2_even_pos n : n mod 2 = 0 → 0 < n → 1 ≤ Z.log2 n.
Proof.
  intros Hf Hn. assert (2 ≤ n) by divlia.
  change 1 with (Z.log2 2). by apply Z.log2_le_mono.
Qed.

Lemma pow2_log2_even n : 1 ≤ Z.log2 n → (2 ^ Z.log2 n) mod 2 = 0.
Proof.
  intros Hn. replace (Z.log2 n) with (Z.succ (Z.log2 n - 1)) by lia.
  rewrite Z.pow_succ_r by lia. by rewrite Z.mul_comm, Z.mod_mul.
Qed.

Lemma log2_pow2_log2 n : 0 ≤ Z.log2 n → Z.log2 (2 ^ Z.log2 n) = Z.log2 n.
Proof. apply Z.log2_pow2. Qed.

(** ** Lemmas on rounding of rationals *)

Lemma Qfloor_div_Z (n s : Z) : Qfloor (inject_Z n / inject_Z s) = n / s.
Proof. symmetry. apply Zdiv_Qdiv. Qed.

Lemma Qfloor_add_Z (x : Q) (k : Z) :
  Qfloor (x + inject_Z k) = Qfloor x + k.
Proof.
  destruct x as [n d]. unfold Qfloor, Qplus, inject_Z. simpl.
  rewrite Pos.mul_1_r, Z.mul_1_r. rewrite Z.div_add by lia. done.
Qed.

Lemma Qceiling_div_Z (n s : Z) : Qceiling (inject_Z n / inject_Z s) = cdiv n s.
Proof.
  unfold Qceiling, cdiv. f_equal. rewrite <-Qfloor_div_Z.
  apply Qfloor_comp. rewrite inject_Z_opp. unfold Qdiv. ring.
Qed.

Lemma Qceiling_add_Z (x : Q) (k : Z) :
  Qceiling (x + inject_Z k) = Qceiling x + k.
Proof.
  unfold Qceiling.
  rewrite (Qfloor_comp _ (- x + inject_Z (- k))),  Qfloor_add_Z by
    (rewrite inject_Z_opp; ring).
  lia.
Qed.

Lemma Qtrunc_Z_inject (z : Z) : Qtrunc_Z (inject_Z z) = z.
Proof. unfold Qtrunc_Z. destruct (Qle_bool _ _); [apply Qfloor_Z|apply Qceiling_Z]. Qed.

#[export] Hint Rewrite Qfloor_Z Qceiling_Z Qtrunc_Z_inject
  Qfloor_div_Z Qceiling_div_Z Qfloor_add_Z Qceiling_add_Z : subsampling.
#[export] Hint Resolve cdiv_mono cdiv_nonneg cdiv_pos cdiv_le_self
  fdiv_le_cdiv : subsampling.
