(* ===== verification/Floats.v ===== *)
(** * Floats: the float arithmetic [calc_length] relies on

    [calc_length] converts a tensor of lengths to floats and then only adds
    scalars, divides by a scalar, rounds with [floor] or [ceil] and casts
    back to integers.  [FloatOps] is the interface of these operations on
    one element, [tensor1] the tensors of lengths built on it, and
    [StepExact] the contract [calc_length] needs from an implementation:
    one subsampling stage computed in floats is the stage computed on
    integers.  The instance on [Q] (exact arithmetic) satisfies the contract
    everywhere; module [Float32] gives the binary32 instance. *)

From Stdlib Require Import ZArith QArith Qround Lia.
From stdpp Require Import base tactics numbers list.
From S2P Require Import Prelude.

#[local] Open Scope Z_scope.

(** ** The interface *)

Class FloatOps (F : Type) : Type := {
  f_of_Z : Z → F;          (* conversion of an integer, rounded *)
  f_add : F → F → F;
  f_div : F → F → F;       (* true division *)
  f_floor : F → F;
  f_ceil : F → F;
  f_to_int : F → Z          (* cast to an integer, toward zero *)
}.

(** A one-dimensional (or 0-dimensional) tensor with its dtype: the
    elements in storage order. *)
Inductive tensor1 (F : Type) : Type :=
| IntT (xs : list Z)
| FloatT (xs : list F).

Arguments IntT {F} xs.
Arguments FloatT {F} xs.

Section tensor_ops.
Context `{FloatOps F}.

(** [t.to(dtype=torch.float)] *)
Definition to_float (t : tensor1 F) : list F :=
  match t with
  | IntT xs => f_of_Z <$> xs
  | FloatT xs => xs
  end.

(** [t.to(dtype=torch.int)] *)
Definition to_int (t : tensor1 F) : list Z :=
  match t with
  | IntT xs => xs
  | FloatT xs => f_to_int <$> xs
  end.

(** [t + c] for a float tensor and a Python number. *)
Definition add_scalar (xs : list F) (c : Z) : list F :=
  (λ x, f_add x (f_of_Z c)) <$> xs.

(** [torch.div(t, c)] for a float tensor and a Python number. *)
Definition div_scalar (xs : list F) (c : Z) : list F :=
  (λ x, f_div x (f_of_Z c)) <$> xs.

(** [torch.floor(t)] and [torch.ceil(t)] *)
Definition floor_t (xs : list F) : list F := f_floor <$> xs.
Definition ceil_t (xs : list F) : list F := f_ceil <$> xs.

(** Number of elements of a tensor. *)
Definition numel (t : tensor1 F) : nat :=
  match t with IntT xs => length xs | FloatT xs => length xs end.

(** One stage on one element, in floats. *)
Definition f_stage (add_pad stride : Z) (ceil_mode : bool) (x : F) : F :=
  let y := f_add (f_div (f_add x (f_of_Z add_pad)) (f_of_Z stride)) (f_of_Z 1) in
  if ceil_mode then f_ceil y else f_floor y.

End tensor_ops.

(** One stage on one integer: the reference. *)
Definition z_stage (add_pad stride : Z) (ceil_mode : bool) (l : Z) : Z :=
  (if ceil_mode then cdiv (l + add_pad) stride else (l + add_pad) / stride) + 1.

(** ** The contract *)

(** [StepExact D P]: on the lengths in [D] and the stage parameters
    (add_pad, stride) in [P], conversions round-trip and a stage computed in
    floats is the conversion of the stage computed on integers. *)
Class StepExact (F : Type) `{FloatOps F} (D : Z → Prop) (P : Z → Z → Prop) : Prop := {
  f_to_int_of_Z : ∀ n, D n → f_to_int (f_of_Z n) = n;
  f_stage_of_Z : ∀ a s c n, P a s → D n →
    f_stage a s c (f_of_Z n) = f_of_Z (z_stage a s c n)
}.

(** The two stages the repository uses: stride 2 with
    [2 * padding - kernel_size] equal to -1 (striding) or -2 (vggnet). *)
Definition halving_params (a s : Z) : Prop := s = 2 ∧ (a = -1 ∨ a = -2).

(** [HalvingExact D]: the contract for these two stages, on a domain of
    lengths that halving keeps. *)
Class HalvingExact (F : Type) `{FloatOps F} (D : Z → Prop) : Prop := {
  halving_step_exact :: StepExact F D halving_params;
  halving_closed : ∀ n, D n → D (cdiv n 2)
}.

(** ** Exact arithmetic *)

#[export] Instance Q_float : FloatOps Q := {
  f_of_Z := inject_Z;
  f_add := Qplus;
  f_div := Qdiv;
  f_floor x := inject_Z (Qfloor x);
  f_ceil x := inject_Z (Qceiling x);
  f_to_int := Qtrunc_Z
}.

(** ** Lemmas *)

Section tensor_lemmas.
Context `{FloatOps F}.

Lemma length_to_float (t : tensor1 F) : length (to_float t) = numel t.
Proof. destruct t; simpl; by rewrite ?length_fmap. Qed.

Lemma length_to_int (t : tensor1 F) : length (to_int t) = numel t.
Proof. destruct t; simpl; by rewrite ?length_fmap. Qed.

Lemma to_float_FloatT (xs : list F) : to_float (FloatT xs) = xs.
Proof. done. Qed.

(** The tensor expression of one stage acts element by element. *)
Lemma stage_elementwise (a s : Z) (c : bool) (xs : list F) :
  (if c then ceil_t else floor_t) (add_scalar (div_scalar (add_scalar xs a) s) 1)
  = f_stage a s c <$> xs.
Proof.
  unfold ceil_t, floor_t, add_scalar, div_scalar, f_stage.
  destruct c; rewrite <-!list_fmap_compose; by apply list_fmap_ext.
Qed.

End tensor_lemmas.

Lemma z_stage_mono a s c l l' : 0 < s → l ≤ l' → z_stage a s c l ≤ z_stage a s c l'.
Proof.
  intros Hs Hl. unfold z_stage. destruct c.
  - apply Z.add_le_mono_r, cdiv_mono; lia.
  - apply Z.add_le_mono_r, Z.div_le_mono; lia.
Qed.

Lemma z_stage_nonneg a s c l : 0 < s → - s ≤ a → 0 ≤ l → 0 ≤ z_stage a s c l.
Proof.
  intros Hs Ha Hl. unfold z_stage.
  assert (-1 ≤ (l + a) / s) as Hfloor.
  { rewrite <-(Z.div_mul (-1) s) by lia. apply Z.div_le_mono; lia. }
  pose proof (fdiv_le_cdiv (l + a) s Hs). destruct c; lia.
Qed.

Lemma z_stage_striding l : z_stage (1 * 2 - 3) 2 false l = cdiv l 2.
Proof. apply halve_floor_form. Qed.

Lemma z_stage_vggnet l : z_stage (0 * 2 - 2) 2 true l = cdiv l 2.
Proof. apply halve_ceil_form. Qed.

Lemma Q_stage_exact a s c n :
  f_stage a s c (inject_Z n) = inject_Z (z_stage a s c n).
Proof.
  assert (inject_Z n + inject_Z a == inject_Z (n + a))%Q as Hsum
    by (by rewrite inject_Z_plus).
  unfold f_stage, z_stage, f_add, f_div, f_ceil, f_floor, f_of_Z, Q_float.
  destruct c; f_equal.
  - rewrite Qceiling_add_Z, <-Qceiling_div_Z.
    apply Z.add_cancel_r, Qceiling_comp. by rewrite Hsum.
  - rewrite Qfloor_add_Z, <-Qfloor_div_Z.
    apply Z.add_cancel_r, Qfloor_comp. by rewrite Hsum.
Qed.

(** Exact arithmetic meets the contract for every length and every stage. *)
#[export] Instance Q_step_exact : StepExact Q (λ _, True) (λ _ _, True).
Proof.
  split.
  - intros n _. apply Qtrunc_Z_inject.
  - intros a s c n _ _. apply Q_stage_exact.
Qed.

#[export] Instance Q_halving_exact : HalvingExact Q (λ _, True).
Proof.
  split; [|done]. split.
  - intros n _. apply Qtrunc_Z_inject.
  - intros a s c n _ _. apply Q_stage_exact.
Qed.

Lemma halving_params_striding : halving_params (1 * 2 - 3) 2.
Proof. split; [done|by left]. Qed.

Lemma halving_params_vggnet : halving_params (0 * 2 - 2) 2.
Proof. split; [done|by right]. Qed.

Lemma halving_closed_striding `{HalvingExact F D} n :
  D n → D (z_stage (1 * 2 - 3) 2 false n).
Proof. rewrite z_stage_striding. apply halving_closed. Qed.

Lemma halving_closed_vggnet `{HalvingExact F D} n :
  D n → D (z_stage (0 * 2 - 2) 2 true n).
Proof. rewrite z_stage_vggnet. apply halving_closed. Qed.

#[export] Hint Resolve halving_params_striding halving_params_vggnet
  : subsampling.
#[export] Hint Resolve z_stage_mono : subsampling.
#[export] Hint Rewrite z_stage_striding z_stage_vggnet : subsampling.
