(* ===== verification/CalcLength.v ===== *)
(** * CalcLength: the length calculator of subsampling.py

    [calc_length] is the function of the same name (lines 170-180): it
    applies [repeat_num] times the output-size formula of a convolution or
    pooling layer to a tensor of lengths, in floats, and casts the result
    to integers.  [calc_length_Z] is the reference on one integer.  The
    theorems: [calc_length] refines the reference under the contract
    [StepExact] of the float arithmetic, keeps the number of elements, and,
    through the reference, is monotone, bounded, and equal to
    [ceil(l / 2^r)] with the parameters of either subsampling strategy. *)

From Stdlib Require Import ZArith QArith Lia.
From stdpp Require Import base tactics numbers list.
From S2P Require Import Prelude.
From S2P Require Import Floats.

#[local] Open Scope Z_scope.

(** ** The function *)

Section definitions.
Context `{FloatOps F}.

(** The body of the loop (lines 175-179). *)
Definition calc_length_body (add_pad one stride : Z) (ceil_mode : bool)
    (lengths : tensor1 F) : tensor1 F :=
  let lengths :=
    add_scalar (div_scalar (add_scalar (to_float lengths) add_pad) stride) one in
  if ceil_mode then FloatT (ceil_t lengths) else FloatT (floor_t lengths).

Definition calc_length (lengths : tensor1 F) (padding kernel_size stride : Z)
    (ceil_mode : bool) (repeat_num : Z) : list Z :=
  let add_pad := padding * 2 - kernel_size in
  let one := 1 in
  let lengths :=
    for_range repeat_num
      (λ _ lengths, calc_length_body add_pad one stride ceil_mode lengths)
      lengths in
  to_int lengths.

End definitions.

(** The reference: the formula iterated on one integer. *)
Definition calc_length_Z (l padding kernel_size stride : Z) (ceil_mode : bool)
    (repeat_num : Z) : Z :=
  Nat.iter (Z.to_nat repeat_num)
    (z_stage (padding * 2 - kernel_size) stride ceil_mode) l.

(** ** Shape *)

Section shape.
Context `{FloatOps F}.
Implicit Types (t : tensor1 F) (c : bool).

Lemma numel_calc_length_body a o s c t :
  numel (calc_length_body a o s c t) = numel t.
Proof.
  unfold calc_length_body, ceil_t, floor_t, add_scalar, div_scalar.
  destruct c; simpl; by rewrite !length_fmap, length_to_float.
Qed.

(** The result has one length per element of the input, whatever the
    float arithmetic. *)
Lemma calc_length_length t p k s c r : length (calc_length t p k s c r) = numel t.
Proof.
  unfold calc_length. rewrite length_to_int.
  apply (for_range_ind (λ t', numel t' = numel t)); [done|].
  intros _ t' _ <-. apply numel_calc_length_body.
Qed.

Lemma calc_length_body_elementwise a s c t :
  calc_length_body a 1 s c t = FloatT (f_stage a s c <$> to_float t).
Proof.
  unfold calc_length_body. rewrite <-(stage_elementwise a s c). by destruct c.
Qed.

End shape.

(** ** Refinement of the reference *)

Section refinement.
Context `{StepExact F D P}.
Context (a s : Z) (c : bool).
Context (HP : P a s) (Hclosed : ∀ n, D n → D (z_stage a s c n)).

Lemma iter_stage_closed (k : nat) n : D n → D (Nat.iter k (z_stage a s c) n).
Proof. intros Hn. induction k; simpl; auto. Qed.

Lemma Forall_iter_stage_closed (k : nat) (ls : list Z) :
  Forall D ls → Forall D (Nat.iter k (z_stage a s c) <$> ls).
Proof.
  intros HD. rewrite Forall_fmap. eapply Forall_impl; [done|].
  intros n. apply iter_stage_closed.
Qed.

(** One pass of the loop on a tensor that holds converted integers. *)
Lemma calc_length_body_of_Z (t : tensor1 F) (ls : list Z) :
  Forall D ls → to_float t = f_of_Z <$> ls →
  calc_length_body a 1 s c t = FloatT (f_of_Z <$> (z_stage a s c <$> ls)).
Proof.
  intros HD Ht. rewrite calc_length_body_elementwise, Ht. f_equal.
  rewrite <-!list_fmap_compose. apply Forall_fmap_ext_1.
  eapply Forall_impl; [done|]. intros n Hn. simpl. by apply f_stage_of_Z.
Qed.

(** The loop, by induction on the number of passes. *)
Lemma iter_body_of_Z (k : nat) (t : tensor1 F) (ls : list Z) :
  Forall D ls → to_float t = f_of_Z <$> ls →
  to_float (Nat.iter k (calc_length_body a 1 s c) t)
  = f_of_Z <$> (Nat.iter k (z_stage a s c) <$> ls).
Proof.
  intros HD Ht. induction k as [|k IH]; simpl.
  { by rewrite list_fmap_id. }
  rewrite (calc_length_body_of_Z _ (Nat.iter k (z_stage a s c) <$> ls));
    [|by apply Forall_iter_stage_closed|done].
  simpl. by rewrite <-(list_fmap_compose (Nat.iter k _)).
Qed.

Lemma to_int_of_Z (ls : list Z) :
  Forall D ls → f_to_int <$> (f_of_Z <$> ls) = ls.
Proof.
  intros HD. rewrite <-list_fmap_compose.
  transitivity (id <$> ls); [|apply list_fmap_id].
  apply Forall_fmap_ext_1. eapply Forall_impl; [done|].
  intros n Hn. simpl. by apply f_to_int_of_Z.
Qed.

Lemma to_int_iter_body (k : nat) (t : tensor1 F) (ls : list Z) :
  Forall D ls → to_float t = f_of_Z <$> ls → to_int t = ls →
  to_int (Nat.iter k (calc_length_body a 1 s c) t)
  = Nat.iter k (z_stage a s c) <$> ls.
Proof.
  intros HD Ht Hi. destruct k as [|k].
  { simpl. by rewrite list_fmap_id. }
  pose proof (iter_body_of_Z (S k) t ls HD Ht) as Hk.
  simpl in *. rewrite calc_length_body_elementwise in *. simpl in *.
  rewrite Hk. by apply to_int_of_Z, (Forall_iter_stage_closed (S k)).
Qed.

End refinement.

(** ** Tensors that hold the same lengths

    [calc_length] reads its argument through the two casts only: tensors
    whose casts agree, whatever their dtypes, are equivalent for it. *)

Section same_values.
Context `{FloatOps F}.

Definition same_values (t1 t2 : tensor1 F) : Prop :=
  to_float t1 = to_float t2 ∧ to_int t1 = to_int t2.

#[export] Instance same_values_equivalence : Equivalence same_values.
Proof.
  split; [by intros ?|by intros ?? [??]|].
  intros ??? [??] [??]. split; congruence.
Qed.

#[export] Instance calc_length_body_proper a o s c :
  Proper (same_values ==> eq) (calc_length_body a o s c).
Proof. intros t1 t2 [Hf _]. unfold calc_length_body. by rewrite Hf. Qed.

(** Without a pass of the loop the result is the cast to integers of the
    argument; with one, it is computed from the cast to floats. *)
#[export] Instance calc_length_proper :
  Proper (same_values ==> eq ==> eq ==> eq ==> eq ==> eq ==> eq) calc_length.
Proof.
  intros t1 t2 Ht p ? <- k ? <- s ? <- c ? <- r ? <-. unfold calc_length.
  destruct (decide (r ≤ 0)) as [Hr|Hr].
  { rewrite !for_range_nonpos by done. apply Ht. }
  rewrite !for_range_iter.
  replace (Z.to_nat r) with (S (Z.to_nat r - 1)) by lia.
  rewrite !Nat.iter_succ_r. by rewrite Ht.
Qed.

(** An integer tensor and the float tensor of its conversions hold the
    same lengths where the conversion is exact. *)
Lemma same_values_of_Z `{!StepExact F D P} (ls : list Z) :
  Forall D ls → same_values (FloatT (f_of_Z <$> ls)) (IntT ls).
Proof. intros HD. split; [done|]. by apply to_int_of_Z. Qed.

End same_values.

(** ** The reference on integers *)

Section reference.
Implicit Types (l p k s r : Z) (c : bool).

Lemma calc_length_Z_0 l p k s c r : r ≤ 0 → calc_length_Z l p k s c r = l.
Proof. intros. unfold calc_length_Z. by replace (Z.to_nat r) with 0%nat by lia. Qed.

Lemma calc_length_Z_succ l p k s c r :
  0 ≤ r →
  calc_length_Z l p k s c (r + 1)
  = z_stage (p * 2 - k) s c (calc_length_Z l p k s c r).
Proof.
  intros. unfold calc_length_Z.
  by replace (Z.to_nat (r + 1)) with (S (Z.to_nat r)) by lia.
Qed.

Lemma calc_length_Z_mono l l' p k s c r :
  0 < s → l ≤ l' → calc_length_Z l p k s c r ≤ calc_length_Z l' p k s c r.
Proof.
  intros Hs Hl. unfold calc_length_Z.
  induction (Z.to_nat r); simpl; [done|]. by apply z_stage_mono.
Qed.

Lemma calc_length_Z_striding l r :
  0 ≤ r → calc_length_Z l 1 3 2 false r = cdiv l (2 ^ r).
Proof.
  intros Hr. unfold calc_length_Z.
  rewrite (iter_ext _ (λ x, cdiv x 2)) by apply z_stage_striding.
  by rewrite iter_cdiv_2, Z2Nat.id.
Qed.

Lemma calc_length_Z_vggnet l r :
  0 ≤ r → calc_length_Z l 0 2 2 true r = cdiv l (2 ^ r).
Proof.
  intros Hr. unfold calc_length_Z.
  rewrite (iter_ext _ (λ x, cdiv x 2)) by apply z_stage_vggnet.
  by rewrite iter_cdiv_2, Z2Nat.id.
Qed.

End reference.

#[export] Hint Resolve calc_length_Z_mono : subsampling.
#[export] Hint Rewrite calc_length_Z_striding calc_length_Z_vggnet
  using lia : subsampling.

(** ** Theorems *)

Section refinement_theorem.
Context `{StepExact F D P}.

(** Helper form of the refinement, shared by the components that call
    [calc_length]. *)
Lemma calc_length_spec (t : tensor1 F) (ls : list Z) p k s c r :
  P (p * 2 - k) s → (∀ n, D n → D (z_stage (p * 2 - k) s c n)) →
  Forall D ls → to_float t = f_of_Z <$> ls → to_int t = ls →
  calc_length t p k s c r = (λ l, calc_length_Z l p k s c r) <$> ls.
Proof.
  intros HP Hcl HD Ht Hi. unfold calc_length, calc_length_Z.
  rewrite for_range_iter. by apply to_int_iter_body.
Qed.

(** C2 (refinement).  Under the contract [StepExact] of the float
    arithmetic, for a stage (padding, kernel_size, stride) the contract
    covers and lengths in a domain the integer stage keeps, [calc_length]
    on a tensor holding the integers [ls] (of either dtype) returns, element
    by element, the integer formula iterated [repeat_num] times. *)
Theorem calc_length_refines (t : tensor1 F) (ls : list Z) p k s c r :
  P (p * 2 - k) s → (∀ n, D n → D (z_stage (p * 2 - k) s c n)) →
  Forall D ls → to_float t = f_of_Z <$> ls → to_int t = ls →
  calc_length t p k s c r = (λ l, calc_length_Z l p k s c r) <$> ls.
Proof. apply calc_length_spec. Qed.

End refinement_theorem.

(** On exact arithmetic the refinement has no side condition. *)
Lemma calc_length_Q_int (ls : list Z) p k s c r :
  calc_length (F:=Q) (IntT ls) p k s c r
  = (λ l, calc_length_Z l p k s c r) <$> ls.
Proof.
  apply (calc_length_spec (D:=λ _, True) (P:=λ _ _, True)); try done.
  by apply Forall_true.
Qed.

Lemma calc_length_Q_float (ls : list Z) p k s c r :
  calc_length (F:=Q) (FloatT (inject_Z <$> ls)) p k s c r
  = (λ l, calc_length_Z l p k s c r) <$> ls.
Proof.
  apply (calc_length_spec (D:=λ _, True) (P:=λ _ _, True)); try done.
  - by apply Forall_true.
  - change (f_to_int <$> (f_of_Z <$> ls) = ls).
    apply (to_int_of_Z (D:=λ _, True) (P:=λ _ _, True)). by apply Forall_true.
Qed.

(** Bounds of the reference: lengths in [0, T] stay in [0, T'], for every
    stage that keeps 0 non-negative. *)
Lemma calc_length_Z_nonneg l p k s c r :
  0 < s → - s ≤ p * 2 - k → 0 ≤ l → 0 ≤ calc_length_Z l p k s c r.
Proof.
  intros Hs Ha Hl. unfold calc_length_Z.
  induction (Z.to_nat r) as [|n IH]; simpl; [done|]. by apply z_stage_nonneg.
Qed.

Lemma calc_length_Z_bounded l T p k s c r :
  0 < s → - s ≤ p * 2 - k → 0 ≤ l ≤ T →
  0 ≤ calc_length_Z l p k s c r ≤ calc_length_Z T p k s c r.
Proof.
  intros Hs Ha [Hl HT]. split; [by apply calc_length_Z_nonneg|].
  by apply calc_length_Z_mono.
Qed.

(** C4 (functional).  With the parameters of the striding strategy (padding
    1, kernel 3, stride 2, floor) and [r] stages, [calc_length] in exact
    arithmetic maps every length [l] to [ceil(l / 2^r)]. *)
Theorem calc_length_striding_closed_form (ls : list Z) r :
  0 ≤ r →
  calc_length (F:=Q) (IntT ls) 1 3 2 false r = (λ l, cdiv l (2 ^ r)) <$> ls.
Proof.
  intros Hr. rewrite calc_length_Q_int. apply list_fmap_ext.
  intros _ l _. by apply calc_length_Z_striding.
Qed.

(** C5 (functional).  With the parameters of the vggnet strategy (padding 0,
    kernel 2, stride 2, ceiling) and [r] stages, [calc_length] in exact
    arithmetic maps every length [l] to [ceil(l / 2^r)]: both strategies
    report the same lengths. *)
Theorem calc_length_vggnet_closed_form (ls : list Z) r :
  0 ≤ r →
  calc_length (F:=Q) (IntT ls) 0 2 2 true r = (λ l, cdiv l (2 ^ r)) <$> ls.
Proof.
  intros Hr. rewrite calc_length_Q_int. apply list_fmap_ext.
  intros _ l _. by apply calc_length_Z_vggnet.
Qed.

(** C8 (bounds).  For a positive stride and a stage with
    [-stride <= 2 * padding - kernel_size], lengths between 0 and [T] are
    mapped to lengths between 0 and the image of [T]: valid lengths never
    exceed the subsampled time axis. *)
Theorem calc_length_bounded (ls : list Z) T p k s c r :
  0 < s → - s ≤ p * 2 - k → Forall (λ l, 0 ≤ l ≤ T) ls →
  Forall (λ l', 0 ≤ l' ≤ calc_length_Z T p k s c r)
    (calc_length (F:=Q) (IntT ls) p k s c r).
Proof.
  intros Hs Ha Hls. rewrite calc_length_Q_int, Forall_fmap.
  eapply Forall_impl; [done|]. intros l Hl. by apply calc_length_Z_bounded.
Qed.

(** [calc_length] returns one length per element of its input, for every
    float arithmetic, dtype and parameter. *)
Lemma calc_length_numel `{FloatOps F} (t : tensor1 F) p k s c r :
  length (calc_length t p k s c r) = numel t.
Proof. apply calc_length_length. Qed.

(** ** Witnesses *)

Lemma calc_length_refines_witness :
  calc_length (F:=Q) (IntT [1600; 324; 1; 666]) 1 3 2 false 2
  = (λ l, calc_length_Z l 1 3 2 false 2) <$> [1600; 324; 1; 666].
Proof.
  apply (calc_length_refines (F:=Q) (D:=λ _, True) (P:=λ _ _, True));
    [done|done|by apply Forall_true|done|done].
Defined.

Lemma calc_length_striding_closed_form_witness :
  calc_length (F:=Q) (IntT [1600; 324; 1; 666]) 1 3 2 false 2
  = (λ l, cdiv l (2 ^ 2)) <$> [1600; 324; 1; 666].
Proof. apply calc_length_striding_closed_form. lia. Defined.

Lemma calc_length_vggnet_closed_form_witness :
  calc_length (F:=Q) (IntT [1400; 1600]) 0 2 2 true 3
  = (λ l, cdiv l (2 ^ 3)) <$> [1400; 1600].
Proof. apply calc_length_vggnet_closed_form. lia. Defined.

Lemma calc_length_bounded_witness :
  Forall (λ l', 0 ≤ l' ≤ calc_length_Z 1600 1 3 2 false 2)
    (calc_length (F:=Q) (IntT [1600; 324; 1; 666]) 1 3 2 false 2).
Proof.
  apply calc_length_bounded; [lia|lia|].
  repeat (constructor; [lia|]). constructor.
Defined.

(** ** The two strategies under the contract [HalvingExact] *)

Section halving.
Context `{HalvingExact F D}.

Lemma calc_length_striding_spec (t : tensor1 F) (ls : list Z) r :
  0 ≤ r → Forall D ls → to_float t = f_of_Z <$> ls → to_int t = ls →
  calc_length t 1 3 2 false r = (λ l, cdiv l (2 ^ r)) <$> ls.
Proof.
  intros Hr HD Ht Hi.
  rewrite (calc_length_spec (D:=D) (P:=halving_params) t ls 1 3 2 false r
    halving_params_striding halving_closed_striding HD Ht Hi).
  apply list_fmap_ext. intros _ l _. by apply calc_length_Z_striding.
Qed.

Lemma calc_length_vggnet_spec (t : tensor1 F) (ls : list Z) r :
  0 ≤ r → Forall D ls → to_float t = f_of_Z <$> ls → to_int t = ls →
  calc_length t 0 2 2 true r = (λ l, cdiv l (2 ^ r)) <$> ls.
Proof.
  intros Hr HD Ht Hi.
  rewrite (calc_length_spec (D:=D) (P:=halving_params) t ls 0 2 2 true r
    halving_params_vggnet halving_closed_vggnet HD Ht Hi).
  apply list_fmap_ext. intros _ l _. by apply calc_length_Z_vggnet.
Qed.

End halving.
