(* ===== verification/Torch.v ===== *)
(** * Torch: the PyTorch operations the layers call, on shapes

    The subsampling layers build [Conv2d], [MaxPool2d] and [Linear] modules
    and call [pad], [reshape], [unsqueeze], [transpose] and [size].  PyTorch
    is a library the sources only call; this file states its contract at the
    level of shapes, after its documentation: the output size of a
    convolution is [floor((i + 2p - (k - 1) - 1) / s) + 1], the output size
    of a pooling layer rounds up in ceil mode and is then reduced by one
    when the last window would start in the right padding, a shape mismatch
    raises an error.  A convolution checks its weight (at least one output
    channel), then the channels of its input, then that the kernel fits the
    padded input; [reshape] infers a dimension given as [-1] and raises
    when it cannot.  A module is the record of its hyperparameters: its
    weights are not modelled, their allocation is, by what can fail in it
    ([torch_empty] refuses a negative size, so that [Linear_new] and
    [Conv2d_new], the constructors of the layers, can raise).

    The lemmas give the output sizes of the three layer configurations the
    repository uses and relate them to the stage formula [z_stage] of
    [calc_length]. *)

From Stdlib Require Import ZArith Lia.
From stdpp Require Import base tactics numbers list strings.
From S2P Require Import Prelude.
From S2P Require Import Floats.

#[local] Open Scope Z_scope.

(** ** Shapes and tensor operations *)

(** The shape of a tensor, outermost dimension first. *)
Abbreviation shape := (list Z) (only parsing).

(** Number of elements of a tensor of the given shape. *)
Definition shape_numel (x : shape) : Z := foldr Z.mul 1 x.

(** [b, t, h = x.size()] *)
Definition size3 (x : shape) : result (Z * Z * Z) :=
  match x with
  | [b; t; h] => Ok (b, t, h)
  | _ => Err (ValueError "wrong number of values to unpack")
  end.

(** [b, c, t, f = x.size()] *)
Definition size4 (x : shape) : result (Z * Z * Z * Z) :=
  match x with
  | [b; c; t; f] => Ok (b, c, t, f)
  | _ => Err (ValueError "wrong number of values to unpack")
  end.

(** [x.unsqueeze(dim)] for a non-negative [dim]. *)
Definition unsqueeze (dim : nat) (x : shape) : result shape :=
  if decide (dim ≤ length x)%nat then Ok (take dim x ++ 1 :: drop dim x)
  else Err (IndexError "Dimension out of range").

(** [x.transpose(i, j)] for non-negative dimensions. *)
Definition transpose (i j : nat) (x : shape) : result shape :=
  match x !! i, x !! j with
  | Some di, Some dj => Ok (<[j:=di]> (<[i:=dj]> x))
  | _, _ => Err (IndexError "Dimension out of range")
  end.

(** [x.reshape(target)], where one entry of [target] may be -1. *)
Definition reshape (x : shape) (target : list Z) : result shape :=
  let n := shape_numel x in
  let known := shape_numel (filter (λ d, d ≠ -1) target) in
  if negb (bool_decide (Forall (λ d, -1 ≤ d) target)) then
    Err (RuntimeError "invalid shape dimension")
  else
    match length (filter (λ d, d = -1) target) with
    | 0%nat =>
        if decide (known = n) then Ok target
        else Err (RuntimeError "shape is invalid for input size")
    | 1%nat =>
        if decide (known ≠ 0 ∧ n mod known = 0)
        then Ok ((λ d, if decide (d = -1) then n / known else d) <$> target)
        else Err (RuntimeError "shape is invalid for input size")
    | _ => Err (RuntimeError "only one dimension can be inferred")
    end.

(** Constant padding, on the reversed shape: [pads] lists (left, right) for
    the last dimension, then for the one before, and so on. *)
Fixpoint pad_rev (rx : list Z) (pads : list Z) : result (list Z) :=
  match pads, rx with
  | [], _ => Ok rx
  | l :: r :: pads', d :: rx' =>
      if decide (0 ≤ d + l + r)
      then rest ← pad_rev rx' pads'; Ok ((d + l + r) :: rest)
      else Err (RuntimeError "padding makes a dimension negative")
  | _, _ => Err (RuntimeError "padding does not match the input")
  end.

(** [torch.nn.functional.pad(x, pads)] *)
Definition pad (x : shape) (pads : list Z) : result shape :=
  rx ← pad_rev (reverse x) pads; Ok (reverse rx).

(** [t + c] for an integer tensor and a Python integer. *)
Definition int_add_scalar (xs : list Z) (c : Z) : list Z := (λ x, x + c) <$> xs.

(** [torch.div(t, c, rounding_mode="floor")] for an integer tensor and a
    Python integer: floor division, an error for [c = 0]. *)
Definition int_div_floor (xs : list Z) (c : Z) : result (list Z) :=
  if decide (c = 0) then Err (RuntimeError "ZeroDivisionError")
  else Ok ((λ x, x / c) <$> xs).

(** The integers a signed dtype of [w] bits holds ([torch.int] has 32,
    [torch.long] 64).  The two operations above are those of PyTorch on the
    tensors whose elements, sums and quotients are in this range. *)
Definition int_range (w : Z) (x : Z) : Prop := - 2 ^ (w - 1) ≤ x < 2 ^ (w - 1).

#[export] Instance int_range_dec w x : Decision (int_range w x).
Proof. unfold int_range. apply _. Defined.

(** ** Modules *)

(** [torch.nn.Linear(in_features, out_features)] *)
Record Linear : Type := {
  in_features : Z;
  out_features : Z
}.

(** A linear layer maps the last dimension, which must be [in_features]. *)
Definition Linear_forward (m : Linear) (x : shape) : result shape :=
  match last x with
  | Some d =>
      if decide (d = in_features m)
      then Ok (take (length x - 1) x ++ [out_features m])
      else Err (RuntimeError "mat1 and mat2 shapes cannot be multiplied")
  | None => Err (RuntimeError "mat1 and mat2 shapes cannot be multiplied")
  end.

(** The modules a convolution stack holds.  [Elementwise] is an activation:
    any module that maps a tensor to one of the same shape. *)
Inductive Module : Type :=
| Conv2d (in_channels out_channels kernel_size stride padding : Z)
| MaxPool2d (kernel_size stride padding : Z) (ceil_mode : bool)
| Elementwise (name : string).

#[export] Instance Module_eq_dec : EqDecision Module.
Proof. solve_decision. Defined.

(** [nn.ReLU()], the default activation. *)
Definition ReLU : Module := Elementwise "ReLU".

(** Output size of a convolution along one axis (dilation 1). *)
Definition conv_out_size (i k s p : Z) : Z :=
  (i + 2 * p - (k - 1) - 1) / s + 1.

(** Output size of a pooling layer along one axis. *)
Definition pool_out_size (i k s p : Z) (ceil_mode : bool) : Z :=
  let o := (if ceil_mode then cdiv (i + 2 * p - k) s else (i + 2 * p - k) / s) + 1 in
  if ceil_mode && bool_decide (i + p ≤ (o - 1) * s) then o - 1 else o.

(** A module applied to a batch of images (N, C, H, W).  A convolution
    checks its weight (at least one output channel), then the channels of
    the input, then the size of the padded input against the kernel. *)
Definition Module_forward (m : Module) (x : shape) : result shape :=
  match m, x with
  | Conv2d cin cout k s p, [n; c; h; w] =>
      if negb (bool_decide (1 ≤ cout)) then
        Err (RuntimeError "expected weight to be at least 1 at dimension 0")
      else if negb (bool_decide (c = cin)) then
        Err (RuntimeError "input channels do not match the weight")
      else if negb (bool_decide (k ≤ h + 2 * p ∧ k ≤ w + 2 * p)) then
        Err (RuntimeError "kernel size cannot be greater than the padded input")
      else Ok [n; cout; conv_out_size h k s p; conv_out_size w k s p]
  | MaxPool2d k s p cm, [n; c; h; w] =>
      let ho := pool_out_size h k s p cm in
      let wo := pool_out_size w k s p cm in
      if bool_decide (1 ≤ ho ∧ 1 ≤ wo) then Ok [n; c; ho; wo]
      else Err (RuntimeError "output size is too small")
  | Elementwise _, _ => Ok x
  | _, _ => Err (RuntimeError "expected a 4D input")
  end.

(** ** Constructors *)

(** The allocation of a tensor of the given sizes: PyTorch raises a
    [RuntimeError] for a negative size and accepts 0. *)
Definition alloc_error : error :=
  RuntimeError "Trying to create tensor with negative dimension".

Definition torch_empty (sizes : list Z) : result unit :=
  raise_unless (bool_decide (Forall (λ d, 0 ≤ d) sizes)) alloc_error.

(** [torch.nn.Linear(i, o)] allocates a weight (o, i) and a bias (o). *)
Definition Linear_new (i o : Z) : result Linear :=
  _ ← torch_empty [o; i];
  _ ← torch_empty [o];
  Ok {| in_features := i; out_features := o |}.

(** [torch.nn.Conv2d(i, o, kernel_size=k, stride=s, padding=p)] allocates a
    weight (o, i, k, k) and a bias (o). *)
Definition Conv2d_new (i o k s p : Z) : result Module :=
  _ ← torch_empty [o; i; k; k];
  _ ← torch_empty [o];
  Ok (Conv2d i o k s p).

(** The [torch.nn.Sequential] of a list of layers, applied to a tensor. *)
Definition Sequential_forward (layers : list Module) (x : shape) : result shape :=
  foldl (λ acc m, acc ≫= Module_forward m) (Ok x) layers.

(** ** Lemmas *)

Section constructors.
Implicit Types (i o k s p : Z).

Lemma torch_empty_Ok sizes : Forall (λ d, 0 ≤ d) sizes → torch_empty sizes = Ok tt.
Proof. intros. unfold torch_empty. by rewrite bool_decide_eq_true_2. Qed.

Lemma torch_empty_Err sizes :
  ¬ Forall (λ d, 0 ≤ d) sizes → torch_empty sizes = Err alloc_error.
Proof. intros. unfold torch_empty. by rewrite bool_decide_eq_false_2. Qed.

Lemma Linear_new_Ok i o :
  0 ≤ i → 0 ≤ o → Linear_new i o = Ok {| in_features := i; out_features := o |}.
Proof.
  intros. unfold Linear_new. by rewrite !torch_empty_Ok by (repeat constructor; lia).
Qed.

Lemma torch_empty_negative a b sizes :
  a < 0 ∨ b < 0 → torch_empty (a :: b :: sizes) = Err alloc_error.
Proof.
  intros Hab. apply torch_empty_Err. rewrite !Forall_cons. lia.
Qed.

Lemma Linear_new_Err i o : i < 0 ∨ o < 0 → Linear_new i o = Err alloc_error.
Proof. intros. unfold Linear_new. by rewrite torch_empty_negative by lia. Qed.

Lemma Linear_new_inv i o m :
  Linear_new i o = Ok m ↔
  m = {| in_features := i; out_features := o |} ∧ 0 ≤ i ∧ 0 ≤ o.
Proof.
  split.
  - destruct (decide (0 ≤ i ∧ 0 ≤ o)) as [[??]|Hn].
    + rewrite Linear_new_Ok by done. by intros [= <-].
    + rewrite Linear_new_Err by lia. done.
  - intros (-> & ? & ?). by apply Linear_new_Ok.
Qed.

Lemma Conv2d_new_Ok i o k s p :
  0 ≤ i → 0 ≤ o → 0 ≤ k → Conv2d_new i o k s p = Ok (Conv2d i o k s p).
Proof.
  intros. unfold Conv2d_new. by rewrite !torch_empty_Ok by (repeat constructor; lia).
Qed.

Lemma Conv2d_new_Err i o k s p :
  i < 0 ∨ o < 0 → Conv2d_new i o k s p = Err alloc_error.
Proof. intros. unfold Conv2d_new. by rewrite torch_empty_negative by lia. Qed.

End constructors.

Lemma Sequential_forward_nil x : Sequential_forward [] x = Ok x.
Proof. done. Qed.

Lemma foldl_bind_Err {A B} (f : B → A → result A) e (l : list B) :
  foldl (λ acc m, acc ≫= f m) (Err e) l = Err e.
Proof. induction l; simpl; auto. Qed.

Lemma Sequential_forward_cons m layers x :
  Sequential_forward (m :: layers) x
  = Module_forward m x ≫= Sequential_forward layers.
Proof.
  unfold Sequential_forward. simpl.
  destruct (Module_forward m x); simpl; [done|apply foldl_bind_Err].
Qed.

Lemma Sequential_forward_app l1 l2 x :
  Sequential_forward (l1 ++ l2) x
  = Sequential_forward l1 x ≫= Sequential_forward l2.
Proof.
  revert x. induction l1 as [|m l1 IH]; intros x; [done|].
  rewrite <-app_comm_cons, !Sequential_forward_cons.
  destruct (Module_forward m x); simpl; [apply IH|done].
Qed.

(** The convolution formula is the floor stage of [calc_length]. *)
Lemma conv_out_size_stage i k s p :
  conv_out_size i k s p = z_stage (p * 2 - k) s false i.
Proof. unfold conv_out_size, z_stage. f_equal. f_equal. lia. Qed.

(** The pooling formula is the stage of [calc_length] with the same
    rounding, unless the ceil-mode correction applies. *)
Lemma pool_out_size_stage i k s p cm :
  (cm = true → (z_stage (p * 2 - k) s true i - 1) * s < i + p) →
  pool_out_size i k s p cm = z_stage (p * 2 - k) s cm i.
Proof.
  intros Hc. unfold pool_out_size, z_stage in *.
  replace (i + 2 * p - k) with (i + (p * 2 - k)) by lia.
  destruct cm; simpl; [|done].
  rewrite bool_decide_eq_false_2; [done|]. specialize (Hc eq_refl). lia.
Qed.

Lemma conv_out_size_same i : conv_out_size i 3 1 1 = i.
Proof. unfold conv_out_size. rewrite Z.div_1_r. lia. Qed.

Lemma conv_out_size_halve i : conv_out_size i 3 2 1 = cdiv i 2.
Proof. rewrite conv_out_size_stage. apply z_stage_striding. Qed.

Lemma pool_out_size_halve i : pool_out_size i 2 2 0 true = cdiv i 2.
Proof.
  rewrite pool_out_size_stage; [apply z_stage_vggnet|].
  intros _. rewrite z_stage_vggnet. unfold cdiv. divlia.
Qed.

(** A convolution on a batch, by its three checks. *)
Lemma Conv2d_forward_cases cin cout k s p n c h w :
  Module_forward (Conv2d cin cout k s p) [n; c; h; w]
  = if decide (cout < 1) then
      Err (RuntimeError "expected weight to be at least 1 at dimension 0")
    else if decide (c ≠ cin) then
      Err (RuntimeError "input channels do not match the weight")
    else if decide (h + 2 * p < k ∨ w + 2 * p < k) then
      Err (RuntimeError "kernel size cannot be greater than the padded input")
    else Ok [n; cout; conv_out_size h k s p; conv_out_size w k s p].
Proof.
  cbn [Module_forward]. repeat case_bool_decide; repeat case_decide;
    simpl; done || lia.
Qed.

Lemma Conv2d_forward_ok cin cout k s p n h w :
  1 ≤ cout → k ≤ h + 2 * p → k ≤ w + 2 * p →
  Module_forward (Conv2d cin cout k s p) [n; cin; h; w]
  = Ok [n; cout; conv_out_size h k s p; conv_out_size w k s p].
Proof. intros. rewrite Conv2d_forward_cases. repeat case_decide; done || lia. Qed.

Lemma Conv2d_forward_no_output cin cout k s p n c h w :
  cout < 1 →
  Module_forward (Conv2d cin cout k s p) [n; c; h; w]
  = Err (RuntimeError "expected weight to be at least 1 at dimension 0").
Proof. intros. rewrite Conv2d_forward_cases. by rewrite decide_True. Qed.

Lemma Conv2d_forward_channels cin cout k s p n c h w :
  1 ≤ cout → c ≠ cin →
  Module_forward (Conv2d cin cout k s p) [n; c; h; w]
  = Err (RuntimeError "input channels do not match the weight").
Proof. intros. rewrite Conv2d_forward_cases. repeat case_decide; done || lia. Qed.

Lemma Conv2d_forward_kernel cin cout k s p n h w :
  1 ≤ cout → h + 2 * p < k ∨ w + 2 * p < k →
  Module_forward (Conv2d cin cout k s p) [n; cin; h; w]
  = Err (RuntimeError "kernel size cannot be greater than the padded input").
Proof. intros. rewrite Conv2d_forward_cases. repeat case_decide; done || lia. Qed.

Lemma MaxPool2d_forward_ok k s p cm n c h w :
  1 ≤ pool_out_size h k s p cm → 1 ≤ pool_out_size w k s p cm →
  Module_forward (MaxPool2d k s p cm) [n; c; h; w]
  = Ok [n; c; pool_out_size h k s p cm; pool_out_size w k s p cm].
Proof. intros. simpl. by rewrite bool_decide_eq_true_2 by lia. Qed.

Lemma shape_numel_cons d x : shape_numel (d :: x) = d * shape_numel x.
Proof. done. Qed.

Lemma shape_numel_nil : shape_numel [] = 1.
Proof. done. Qed.

#[export] Hint Rewrite conv_out_size_same conv_out_size_halve
  pool_out_size_halve shape_numel_cons shape_numel_nil : subsampling.

(** [x.reshape(b, t, -1)] on a tensor (b, t, c, f) merges the last two
    dimensions. *)
Lemma reshape_merge_last b t c f :
  1 ≤ b → 1 ≤ t → reshape [b; t; c; f] [b; t; -1] = Ok [b; t; c * f].
Proof.
  intros Hb Ht.
  assert (filter (λ d, d ≠ -1) [b; t; -1] = [b; t]) as Hknown.
  { rewrite !filter_cons, !filter_nil. repeat case_decide; done || lia. }
  assert (filter (λ d, d = -1) [b; t; -1] = [-1]) as Hfree.
  { rewrite !filter_cons, !filter_nil. repeat case_decide; done || lia. }
  assert (shape_numel [b; t; c; f] = (c * f) * shape_numel [b; t]) as Hn.
  { autorewrite with subsampling. lia. }
  assert (shape_numel [b; t] ≠ 0) by (autorewrite with subsampling; nia).
  unfold reshape. rewrite Hknown, Hfree, Hn.
  rewrite bool_decide_eq_true_2 by (repeat constructor; lia).
  cbn [negb length]. rewrite Z.mod_mul, Z.div_mul, decide_True by done.
  cbn [fmap list_fmap]. repeat case_decide; done || lia.
Qed.

(** On an empty batch the dimension -1 cannot be inferred. *)
Lemma reshape_merge_last_empty t c f :
  0 ≤ t →
  reshape [0; t; c; f] [0; t; -1]
  = Err (RuntimeError "shape is invalid for input size").
Proof.
  intros Ht.
  assert (filter (λ d, d ≠ -1) [0; t; -1] = [0; t]) as Hknown.
  { rewrite !filter_cons, !filter_nil. repeat case_decide; done || lia. }
  assert (filter (λ d, d = -1) [0; t; -1] = [-1]) as Hfree.
  { rewrite !filter_cons, !filter_nil. repeat case_decide; done || lia. }
  unfold reshape. rewrite Hknown, Hfree.
  rewrite bool_decide_eq_true_2 by (repeat constructor; lia).
  cbn [negb length]. rewrite decide_False; [done|].
  autorewrite with subsampling. lia.
Qed.

(** Padding the time axis of a tensor (b, t, h) on the right. *)
Lemma pad_time_axis b t h p :
  0 ≤ h → 0 ≤ t + p → pad [b; t; h] [0; 0; 0; p] = Ok [b; t + p; h].
Proof.
  intros Hh Ht. unfold pad. cbn [reverse rev_append pad_rev].
  rewrite !decide_True by lia. cbn [mbind result_bind reverse rev_append].
  by rewrite !Z.add_0_r.
Qed.

(** Reshaping (b, f * t, h) into (b, t, h * f). *)
Lemma reshape_stack b t h f :
  0 ≤ b → 0 ≤ t → 0 ≤ h → 0 < f →
  reshape [b; f * t; h] [b; t; h * f] = Ok [b; t; h * f].
Proof.
  intros Hb Ht Hh Hf.
  assert (0 ≤ h * f) by nia.
  assert (filter (λ d, d ≠ -1) [b; t; h * f] = [b; t; h * f]) as Hknown.
  { rewrite !filter_cons, !filter_nil. repeat case_decide; done || lia. }
  assert (filter (λ d, d = -1) [b; t; h * f] = []) as Hfree.
  { rewrite !filter_cons, !filter_nil. repeat case_decide; done || lia. }
  unfold reshape. rewrite Hknown, Hfree.
  rewrite bool_decide_eq_true_2 by (repeat constructor; lia).
  cbn [negb length]. rewrite decide_True; [done|].
  autorewrite with subsampling. lia.
Qed.

Lemma Linear_forward_ok m (x : list Z) d :
  in_features m = d →
  Linear_forward m (x ++ [d]) = Ok (x ++ [out_features m]).
Proof.
  intros <-. unfold Linear_forward. rewrite last_snoc, decide_True by done.
  rewrite length_app. simpl.
  replace (length x + 1 - 1)%nat with (length x) by lia.
  by rewrite take_app_length.
Qed.

Lemma Linear_forward_mismatch m (x : list Z) d :
  in_features m ≠ d →
  Linear_forward m (x ++ [d])
  = Err (RuntimeError "mat1 and mat2 shapes cannot be multiplied").
Proof.
  intros Hd. unfold Linear_forward. by rewrite last_snoc, decide_False by done.
Qed.

Lemma Linear_forward_3d m b t d :
  in_features m = d → Linear_forward m [b; t; d] = Ok [b; t; out_features m].
Proof. apply (Linear_forward_ok m [b; t]). Qed.

Lemma Linear_forward_3d_mismatch m b t d :
  in_features m ≠ d →
  Linear_forward m [b; t; d]
  = Err (RuntimeError "mat1 and mat2 shapes cannot be multiplied").
Proof. apply (Linear_forward_mismatch m [b; t]). Qed.

(** Push a shape through the first layer of a stack. *)
Ltac forward_layer :=
  rewrite Sequential_forward_cons;
  first [ rewrite Conv2d_forward_ok by lia
        | rewrite MaxPool2d_forward_ok by (autorewrite with subsampling; lia)
        | idtac ];
  cbn [Module_forward mbind result_bind];
  autorewrite with subsampling.
