(* ===== verification/ConvSub.v ===== *)
(** * ConvSub: class [ConvSubsampling] of subsampling.py

    [ConvSubsampling_init] is the constructor (lines 62-149): the check of
    the factor, the number of stages [int(math.log(factor, 2))], the two
    loops that build the layer stack for "vggnet" and "striding", the error
    for any other name, and the output projection sized with [calc_length].
    A pass of a loop ([vggnet_pass], [striding_pass]) allocates its
    convolutions and raises when PyTorch refuses a negative size, as does
    the allocation of the projection; [vggnet_module] and
    [striding_module] are the modules the constructor returns when it
    succeeds.  [ConvSubsampling_forward] is [forward] (lines 151-167) on
    the shape of the feature tensor and the tensor of lengths.

    The theorems: which arguments the constructor rejects and with which
    error; what it builds; that [forward] on a module it built never fails
    on a well-shaped batch, returns the time axis [ceil(T / 2^R)] and the
    lengths [ceil(l / 2^R)], which never exceed that time axis; and what
    [forward] returns on every batch of rank 3 without a negative
    dimension, error by error in the order raised ([forward_cases]): a
    module without channels, an empty time or feature axis, an empty batch,
    a feature width that does not reduce to that of [feat_in]. *)

From Stdlib Require Import ZArith QArith Lia.
From stdpp Require Import base tactics numbers list strings.
From S2P Require Import Prelude.
From S2P Require Import Floats.
From S2P Require Import CalcLength.
From S2P Require Import Torch.

#[local] Open Scope Z_scope.

(** ** The class *)

(** The attributes the constructor sets. *)
Record ConvSubsampling : Type := {
  _subsampling : string;
  _sampling_num : Z;
  _ceil_mode : bool;
  _padding : Z;
  _stride : Z;
  _kernel_size : Z;
  out : Linear;
  conv : list Module
}.

(** [int(math.log(x, 2))]: a [ValueError] for [x <= 0]. *)
Definition int_log2 (x : Z) : result Z :=
  if decide (0 < x) then Ok (Z.log2 x)
  else Err (ValueError "math domain error").

(** [int(t)] for a tensor: defined for one element. *)
Definition item (xs : list Z) : result Z :=
  match xs with
  | [x] => Ok x
  | _ => Err (RuntimeError "only one element tensors can be converted to Python scalars")
  end.

(** One pass of the loop of the "vggnet" branch (lines 89-117) on
    [in_channels] and [layers]: it raises when a convolution cannot be
    allocated. *)
Definition vggnet_pass (conv_channels kernel_size stride padding : Z)
    (ceil_mode : bool) (activation : Module) (st : Z * list Module) :
    result (Z * list Module) :=
  let '(in_channels, layers) := st in
  conv ← Conv2d_new in_channels conv_channels 3 1 1;
  let layers := layers ++ [conv] in
  let layers := layers ++ [activation] in
  conv ← Conv2d_new conv_channels conv_channels 3 1 1;
  let layers := layers ++ [conv] in
  let layers := layers ++ [activation] in
  let layers := layers ++ [MaxPool2d kernel_size stride padding ceil_mode] in
  let in_channels := conv_channels in
  Ok (in_channels, layers).

(** One pass of the loop of the "striding" branch (lines 125-135). *)
Definition striding_pass (conv_channels kernel_size stride padding : Z)
    (activation : Module) (st : Z * list Module) : result (Z * list Module) :=
  let '(in_channels, layers) := st in
  conv ← Conv2d_new in_channels conv_channels kernel_size stride padding;
  let layers := layers ++ [conv] in
  let layers := layers ++ [activation] in
  let in_channels := conv_channels in
  Ok (in_channels, layers).

(** The loop of the "vggnet" branch (lines 88-117), from the values of
    [in_channels] and [layers] before it to their values after it; an
    exception raised by a pass is the result of the loop. *)
Definition vggnet_loop (sampling_num conv_channels kernel_size stride padding : Z)
    (ceil_mode : bool) (activation : Module) (in_channels : Z)
    (layers : list Module) : result (Z * list Module) :=
  for_range sampling_num
    (λ _ st,
       st ≫= vggnet_pass conv_channels kernel_size stride padding ceil_mode
               activation)
    (Ok (in_channels, layers)).

(** The loop of the "striding" branch (lines 124-135). *)
Definition striding_loop (sampling_num conv_channels kernel_size stride padding : Z)
    (activation : Module) (in_channels : Z)
    (layers : list Module) : result (Z * list Module) :=
  for_range sampling_num
    (λ _ st,
       st ≫= striding_pass conv_channels kernel_size stride padding activation)
    (Ok (in_channels, layers)).

Section methods.
Context `{FloatOps F}.

(** [ConvSubsampling.__init__] *)
Definition ConvSubsampling_init (subsampling : string)
    (subsampling_factor feat_in feat_out conv_channels : Z)
    (activation : Module) : result ConvSubsampling :=
  _ ← raise_unless (bool_decide (subsampling_factor mod 2 = 0))
        (ValueError "Sampling factor should be a multiply of 2!");
  sampling_num ← int_log2 subsampling_factor;
  let in_channels := 1 in
  let layers := [] in
  '(padding, stride, kernel_size, ceil_mode, layers) ←
    (if decide (subsampling = "vggnet") then
       let padding := 0 in
       let stride := 2 in
       let kernel_size := 2 in
       let ceil_mode := true in
       st ← vggnet_loop sampling_num conv_channels kernel_size stride
              padding ceil_mode activation in_channels layers;
       Ok (padding, stride, kernel_size, ceil_mode, st.2)
     else if decide (subsampling = "striding") then
       let padding := 1 in
       let stride := 2 in
       let kernel_size := 3 in
       let ceil_mode := false in
       st ← striding_loop sampling_num conv_channels kernel_size stride
              padding activation in_channels layers;
       Ok (padding, stride, kernel_size, ceil_mode, st.2)
     else Err (ValueError ("Not valid sub-sampling: " +:+ subsampling +:+ "!")));
  let in_length := FloatT [f_of_Z feat_in] in
  let out_length :=
    calc_length in_length padding kernel_size stride ceil_mode sampling_num in
  out_length ← item out_length;
  out ← Linear_new (conv_channels * out_length) feat_out;
  Ok {| _subsampling := subsampling;
        _sampling_num := sampling_num;
        _ceil_mode := ceil_mode;
        _padding := padding;
        _stride := stride;
        _kernel_size := kernel_size;
        out := out;
        conv := layers |}.

(** [ConvSubsampling.forward] *)
Definition ConvSubsampling_forward (self : ConvSubsampling) (x : shape)
    (lengths : tensor1 F) : result (shape * list Z) :=
  let lengths :=
    calc_length lengths (_padding self) (_kernel_size self) (_stride self)
      (_ceil_mode self) (_sampling_num self) in
  x ← unsqueeze 1 x;
  x ← Sequential_forward (conv self) x;
  '(b, c, t, f) ← size4 x;
  x ← transpose 1 2 x;
  x ← reshape x [b; t; -1];
  x ← Linear_forward (out self) x;
  Ok (x, lengths).

End methods.

(** ** What the loops build *)

(** One pass of each loop, and [n] passes: the first block reads
    [in_channels], the following ones [conv_channels]. *)
Definition vgg_block (cin c : Z) (act : Module) : list Module :=
  [Conv2d cin c 3 1 1; act; Conv2d c c 3 1 1; act; MaxPool2d 2 2 0 true].

Definition striding_block (cin c : Z) (act : Module) : list Module :=
  [Conv2d cin c 3 2 1; act].

Fixpoint blocks (block : Z → list Module) (cin c : Z) (n : nat) : list Module :=
  match n with
  | O => []
  | S n => block cin ++ blocks block c c n
  end.

(** The channel count after [n] passes. *)
Definition channels_after (cin c : Z) (n : nat) : Z :=
  match n with O => cin | S _ => c end.

Section loops.
Implicit Types (c cin : Z) (act : Module) (layers : list Module) (n : nat).

Lemma iter_blocks (block : Z → list Module) c n cin layers :
  Nat.iter n (λ '(ic, ls), (c, ls ++ block ic)) (cin, layers)
  = (channels_after cin c n, layers ++ blocks block cin c n).
Proof.
  revert cin layers. induction n as [|n IH]; intros cin layers.
  { simpl. by rewrite app_nil_r. }
  rewrite Nat.iter_succ_r, IH. simpl. rewrite app_assoc. by destruct n.
Qed.

(** A pass appends a block when its convolutions can be allocated, and
    raises when the channel count is negative. *)
Lemma vggnet_pass_Ok c act cin layers :
  0 ≤ c → 0 ≤ cin →
  vggnet_pass c 2 2 0 true act (cin, layers)
  = Ok (c, layers ++ vgg_block cin c act).
Proof.
  intros. unfold vggnet_pass, vgg_block. cbv beta iota zeta.
  rewrite !Conv2d_new_Ok by lia. simpl. by rewrite <-!app_assoc.
Qed.

Lemma striding_pass_Ok c act cin layers :
  0 ≤ c → 0 ≤ cin →
  striding_pass c 3 2 1 act (cin, layers)
  = Ok (c, layers ++ striding_block cin c act).
Proof.
  intros. unfold striding_pass, striding_block. cbv beta iota zeta.
  rewrite !Conv2d_new_Ok by lia. simpl. by rewrite <-!app_assoc.
Qed.

Lemma vggnet_pass_Err c ks s p cm act cin layers :
  c < 0 → vggnet_pass c ks s p cm act (cin, layers) = Err alloc_error.
Proof.
  intros. unfold vggnet_pass. cbv beta iota zeta.
  by rewrite (Conv2d_new_Err cin c) by lia.
Qed.

Lemma striding_pass_Err c ks s p act cin layers :
  c < 0 → striding_pass c ks s p act (cin, layers) = Err alloc_error.
Proof.
  intros. unfold striding_pass. cbv beta iota zeta.
  by rewrite (Conv2d_new_Err cin c) by lia.
Qed.

(** [n] passes of a loop whose passes append a block. *)
Lemma loop_blocks (pass : Z * list Module → result (Z * list Module))
    (block : Z → list Module) r c cin layers :
  (∀ ic ls, 0 ≤ ic → pass (ic, ls) = Ok (c, ls ++ block ic)) →
  0 ≤ c → 0 ≤ cin →
  for_range r (λ _ st, st ≫= pass) (Ok (cin, layers))
  = Ok (channels_after cin c (Z.to_nat r),
        layers ++ blocks block cin c (Z.to_nat r)).
Proof.
  intros Hpass Hc Hcin.
  rewrite (for_range_bind_Ok (λ st, 0 ≤ st.1) pass
             (λ '(ic, ls), (c, ls ++ block ic))).
  - by rewrite for_range_iter, iter_blocks.
  - intros [ic ls] Hic. by rewrite Hpass.
  - done.
Qed.

Lemma vggnet_loop_blocks r c act cin layers :
  0 ≤ c → 0 ≤ cin →
  vggnet_loop r c 2 2 0 true act cin layers
  = Ok (channels_after cin c (Z.to_nat r),
        layers ++ blocks (λ ic, vgg_block ic c act) cin c (Z.to_nat r)).
Proof.
  intros. apply loop_blocks; [|done..]. intros. by apply vggnet_pass_Ok.
Qed.

Lemma striding_loop_blocks r c act cin layers :
  0 ≤ c → 0 ≤ cin →
  striding_loop r c 3 2 1 act cin layers
  = Ok (channels_after cin c (Z.to_nat r),
        layers ++ blocks (λ ic, striding_block ic c act) cin c (Z.to_nat r)).
Proof.
  intros. apply loop_blocks; [|done..]. intros. by apply striding_pass_Ok.
Qed.

(** A negative channel count stops either loop in its first pass. *)
Lemma vggnet_loop_Err r c ks s p cm act cin layers :
  c < 0 → 0 < r →
  vggnet_loop r c ks s p cm act cin layers = Err alloc_error.
Proof. intros. by apply for_range_bind_Err, vggnet_pass_Err. Qed.

Lemma striding_loop_Err r c ks s p act cin layers :
  c < 0 → 0 < r →
  striding_loop r c ks s p act cin layers = Err alloc_error.
Proof. intros. by apply for_range_bind_Err, striding_pass_Err. Qed.

Lemma length_blocks (block : Z → list Module) (k : nat) cin c n :
  (∀ ci, length (block ci) = k) → length (blocks block cin c n) = (n * k)%nat.
Proof.
  intros Hk. revert cin. induction n as [|n IH]; intros cin; [done|].
  simpl. rewrite length_app, Hk, IH. lia.
Qed.

End loops.

(** ** Shapes through the layer stack *)

Section stack_shapes.
Implicit Types (n c cin h w : Z) (nm : string).

Lemma vgg_block_forward nm cin c n h w :
  1 ≤ c → 1 ≤ h → 1 ≤ w →
  Sequential_forward (vgg_block cin c (Elementwise nm)) [n; cin; h; w]
  = Ok [n; c; cdiv h 2; cdiv w 2].
Proof.
  intros Hc Hh Hw. pose proof (cdiv_pos h 2). pose proof (cdiv_pos w 2).
  unfold vgg_block. by do 5 forward_layer.
Qed.

Lemma striding_block_forward nm cin c n h w :
  1 ≤ c → 1 ≤ h → 1 ≤ w →
  Sequential_forward (striding_block cin c (Elementwise nm)) [n; cin; h; w]
  = Ok [n; c; cdiv h 2; cdiv w 2].
Proof. intros Hc Hh Hw. unfold striding_block. by do 2 forward_layer. Qed.

(** Either block starts with a 3x3 convolution of padding 1 that reads the
    channels of its input. *)
Definition conv_first (block : Z → list Module) (c : Z) : Prop :=
  ∀ ci, ∃ s rest, block ci = Conv2d ci c 3 s 1 :: rest.

Lemma conv_first_vgg c act : conv_first (λ ic, vgg_block ic c act) c.
Proof. intros ci. by eexists _, _. Qed.

Lemma conv_first_striding c act : conv_first (λ ic, striding_block ic c act) c.
Proof. intros ci. by eexists _, _. Qed.

(** The error of the first convolution of a stack: a weight without output
    channel, or an input with an empty axis, smaller than the kernel even
    when padded. *)
Definition first_conv_error (c : Z) : error :=
  if decide (c < 1)
  then RuntimeError "expected weight to be at least 1 at dimension 0"
  else RuntimeError "kernel size cannot be greater than the padded input".

Lemma blocks_forward_Err (block : Z → list Module) c (k : nat) cin n h w :
  conv_first block c → 0 ≤ h → 0 ≤ w → c < 1 ∨ h = 0 ∨ w = 0 →
  Sequential_forward (blocks block cin c (S k)) [n; cin; h; w]
  = Err (first_conv_error c).
Proof.
  intros Hfirst Hh Hw Hbad. cbn [blocks]. destruct (Hfirst cin) as (s & rest & ->).
  rewrite <-app_comm_cons, Sequential_forward_cons, Conv2d_forward_cases.
  unfold first_conv_error. repeat case_decide; done || lia.
Qed.

(** A stack of [k] halving blocks divides both axes by [2^k], rounding up. *)
Lemma blocks_forward (block : Z → list Module) c (k : nat) cin n h w :
  (∀ ci h' w', 1 ≤ h' → 1 ≤ w' →
     Sequential_forward (block ci) [n; ci; h'; w']
     = Ok [n; c; cdiv h' 2; cdiv w' 2]) →
  1 ≤ h → 1 ≤ w →
  Sequential_forward (blocks block cin c k) [n; cin; h; w]
  = Ok [n; channels_after cin c k;
        cdiv h (2 ^ Z.of_nat k); cdiv w (2 ^ Z.of_nat k)].
Proof.
  intros Hblock. revert cin h w. induction k as [|k IH]; intros cin h w Hh Hw.
  { simpl. by rewrite !cdiv_1. }
  cbn [blocks]. rewrite Sequential_forward_app, Hblock by done.
  cbn [mbind result_bind].
  rewrite IH by (apply Z.lt_pred_le, cdiv_pos; lia).
  rewrite !cdiv_cdiv by lia.
  rewrite Nat2Z.inj_succ, Z.pow_succ_r by lia. by destruct k.
Qed.

End stack_shapes.

(** ** The constructor *)

Section init_errors.
Context `{FloatOps F}.
Implicit Types (s : string) (act : Module).

Lemma init_odd s factor feat_in feat_out c act :
  factor mod 2 ≠ 0 →
  ConvSubsampling_init (F:=F) s factor feat_in feat_out c act
  = Err (ValueError "Sampling factor should be a multiply of 2!").
Proof. intros Hf. unfold ConvSubsampling_init. by rewrite bool_decide_eq_false_2. Qed.

Lemma init_nonpos s factor feat_in feat_out c act :
  factor mod 2 = 0 → factor ≤ 0 →
  ConvSubsampling_init (F:=F) s factor feat_in feat_out c act
  = Err (ValueError "math domain error").
Proof.
  intros Hf Hn. unfold ConvSubsampling_init, int_log2.
  rewrite bool_decide_eq_true_2 by done. cbn [raise_unless mbind result_bind].
  by rewrite decide_False by lia.
Qed.

Lemma init_unknown s factor feat_in feat_out c act :
  factor mod 2 = 0 → 0 < factor → s ≠ "vggnet" → s ≠ "striding" →
  ConvSubsampling_init (F:=F) s factor feat_in feat_out c act
  = Err (ValueError ("Not valid sub-sampling: " +:+ s +:+ "!")).
Proof.
  intros Hf Hn H1 H2. unfold ConvSubsampling_init, int_log2.
  rewrite bool_decide_eq_true_2 by done. cbn [raise_unless mbind result_bind].
  rewrite decide_True by lia. cbn [mbind result_bind].
  by rewrite !decide_False by done.
Qed.

Lemma init_negative_channels s factor feat_in feat_out c act :
  factor mod 2 = 0 → 0 < factor → s = "vggnet" ∨ s = "striding" → c < 0 →
  ConvSubsampling_init (F:=F) s factor feat_in feat_out c act
  = Err alloc_error.
Proof.
  intros Hf Hn Hs Hc. pose proof (log2_even_pos factor Hf Hn) as HR.
  unfold ConvSubsampling_init, int_log2.
  rewrite bool_decide_eq_true_2 by done. cbn [raise_unless mbind result_bind].
  rewrite decide_True by lia. cbn [mbind result_bind].
  destruct Hs as [-> | ->].
  - rewrite decide_True by done. by rewrite vggnet_loop_Err by lia.
  - rewrite decide_False, decide_True by done.
    by rewrite striding_loop_Err by lia.
Qed.

End init_errors.

(** The module each strategy builds, for a factor [2^R <= factor < 2^(R+1)]. *)
Definition vggnet_module (factor feat_in feat_out c : Z) (act : Module) :
    ConvSubsampling :=
  {| _subsampling := "vggnet";
     _sampling_num := Z.log2 factor;
     _ceil_mode := true; _padding := 0; _stride := 2; _kernel_size := 2;
     out := {| in_features := c * cdiv feat_in (2 ^ Z.log2 factor);
               out_features := feat_out |};
     conv := blocks (λ ic, vgg_block ic c act) 1 c (Z.to_nat (Z.log2 factor)) |}.

Definition striding_module (factor feat_in feat_out c : Z) (act : Module) :
    ConvSubsampling :=
  {| _subsampling := "striding";
     _sampling_num := Z.log2 factor;
     _ceil_mode := false; _padding := 1; _stride := 2; _kernel_size := 3;
     out := {| in_features := c * cdiv feat_in (2 ^ Z.log2 factor);
               out_features := feat_out |};
     conv := blocks (λ ic, striding_block ic c act) 1 c (Z.to_nat (Z.log2 factor)) |}.

Section init_ok.
Context `{HalvingExact F D}.
Implicit Types (act : Module).

Lemma to_int_singleton n : D n → to_int (F:=F) (FloatT [f_of_Z n]) = [n].
Proof. intros Hn. simpl. by rewrite f_to_int_of_Z. Qed.

(** The sizes the constructor allocates: the channel count of the
    convolutions and the two sizes of the projection. *)
Definition sizes_ok (factor feat_in feat_out c : Z) : Prop :=
  0 ≤ c ∧ 0 ≤ c * cdiv feat_in (2 ^ Z.log2 factor) ∧ 0 ≤ feat_out.

#[export] Instance sizes_ok_dec factor feat_in feat_out c :
  Decision (sizes_ok factor feat_in feat_out c).
Proof. unfold sizes_ok. apply _. Defined.

Lemma sizes_ok_nonneg factor feat_in feat_out c :
  0 < factor → 0 ≤ c → 0 ≤ feat_in → 0 ≤ feat_out →
  sizes_ok factor feat_in feat_out c.
Proof.
  intros. repeat split; [done| |done].
  apply Z.mul_nonneg_nonneg, cdiv_nonneg; [done| |done].
  apply Z.pow_pos_nonneg; [lia|by apply Z.log2_nonneg].
Qed.

(** The allocation of the projection, last step of the constructor. *)
Lemma Linear_new_sizes factor feat_in feat_out c
    (k : Linear → ConvSubsampling) :
  0 ≤ c →
  Linear_new (c * cdiv feat_in (2 ^ Z.log2 factor)) feat_out
  ≫= (λ o, Ok (k o))
  = if decide (sizes_ok factor feat_in feat_out c)
    then Ok (k {| in_features := c * cdiv feat_in (2 ^ Z.log2 factor);
                  out_features := feat_out |})
    else Err alloc_error.
Proof.
  intros Hc. destruct (decide (sizes_ok _ _ _ _)) as [(_ & ? & ?)|Hno].
  - by rewrite Linear_new_Ok.
  - rewrite Linear_new_Err; [done|unfold sizes_ok in Hno; lia].
Qed.

(** The constructor after its three checks of the arguments: the loop of
    the strategy, the width of the projection and its allocation. *)
Lemma init_known (vggnet : bool) factor feat_in feat_out c act :
  factor mod 2 = 0 → 0 < factor → D feat_in →
  ConvSubsampling_init (F:=F) (if vggnet then "vggnet" else "striding")
    factor feat_in feat_out c act
  = if decide (sizes_ok factor feat_in feat_out c)
    then Ok (if vggnet then vggnet_module factor feat_in feat_out c act
             else striding_module factor feat_in feat_out c act)
    else Err alloc_error.
Proof.
  intros Hf Hn HD. pose proof (log2_even_pos factor Hf Hn) as HR.
  unfold ConvSubsampling_init, int_log2.
  rewrite bool_decide_eq_true_2 by done. cbn [raise_unless mbind result_bind].
  rewrite decide_True by lia. cbn [mbind result_bind].
  destruct (decide (0 ≤ c)) as [Hc|Hc].
  - destruct vggnet.
    + rewrite decide_True by done. rewrite vggnet_loop_blocks by lia.
      cbn [mbind result_bind snd].
      rewrite (calc_length_vggnet_spec _ [feat_in]);
        [|lia|by constructor|done|by apply to_int_singleton].
      cbn [fmap list_fmap item mbind result_bind]. by apply Linear_new_sizes.
    + rewrite decide_False, decide_True by done.
      rewrite striding_loop_blocks by lia. cbn [mbind result_bind snd].
      rewrite (calc_length_striding_spec _ [feat_in]);
        [|lia|by constructor|done|by apply to_int_singleton].
      cbn [fmap list_fmap item mbind result_bind]. by apply Linear_new_sizes.
  - rewrite (decide_False (P:=sizes_ok _ _ _ _)) by (unfold sizes_ok; lia).
    destruct vggnet.
    + rewrite decide_True by done. by rewrite vggnet_loop_Err by lia.
    + rewrite decide_False, decide_True by done.
      by rewrite striding_loop_Err by lia.
Qed.

Lemma init_vggnet factor feat_in feat_out c act :
  factor mod 2 = 0 → 0 < factor → D feat_in →
  sizes_ok factor feat_in feat_out c →
  ConvSubsampling_init (F:=F) "vggnet" factor feat_in feat_out c act
  = Ok (vggnet_module factor feat_in feat_out c act).
Proof.
  intros Hf Hn HD Hs. by rewrite (init_known true), decide_True by done.
Qed.

Lemma init_striding factor feat_in feat_out c act :
  factor mod 2 = 0 → 0 < factor → D feat_in →
  sizes_ok factor feat_in feat_out c →
  ConvSubsampling_init (F:=F) "striding" factor feat_in feat_out c act
  = Ok (striding_module factor feat_in feat_out c act).
Proof.
  intros Hf Hn HD Hs. by rewrite (init_known false), decide_True by done.
Qed.

(** A negative size makes the allocation of a layer fail, after the checks
    of the factor and of the strategy. *)
Lemma init_alloc_Err s factor feat_in feat_out c act :
  factor mod 2 = 0 → 0 < factor → D feat_in →
  s = "vggnet" ∨ s = "striding" → ¬ sizes_ok factor feat_in feat_out c →
  ConvSubsampling_init (F:=F) s factor feat_in feat_out c act
  = Err alloc_error.
Proof.
  intros Hf Hn HD [-> | ->] Hs;
    [rewrite (init_known true)|rewrite (init_known false)]; try done;
    by rewrite decide_False.
Qed.

(** A successful construction determines the module. *)
Lemma init_Ok_inv s factor feat_in feat_out c act self :
  D feat_in →
  ConvSubsampling_init (F:=F) s factor feat_in feat_out c act = Ok self →
  factor mod 2 = 0 ∧ 0 < factor ∧
  (s = "vggnet" ∧ self = vggnet_module factor feat_in feat_out c act
   ∨ s = "striding" ∧ self = striding_module factor feat_in feat_out c act).
Proof.
  intros HD Hinit.
  destruct (decide (factor mod 2 = 0)) as [Hf|Hf];
    [|by rewrite init_odd in Hinit].
  destruct (decide (0 < factor)) as [Hn|Hn];
    [|by rewrite init_nonpos in Hinit by lia].
  do 2 (split; [done|]).
  destruct (decide (s = "vggnet")) as [->|Hv].
  { left. rewrite (init_known true) in Hinit by done.
    case_decide; by simplify_eq. }
  destruct (decide (s = "striding")) as [->|Hs].
  { right. rewrite (init_known false) in Hinit by done.
    case_decide; by simplify_eq. }
  by rewrite init_unknown in Hinit.
Qed.

(** A successful construction allocated its layers: no size is negative. *)
Lemma init_Ok_sizes s factor feat_in feat_out c act self :
  D feat_in →
  ConvSubsampling_init (F:=F) s factor feat_in feat_out c act = Ok self →
  sizes_ok factor feat_in feat_out c.
Proof.
  intros HD Hinit.
  destruct (init_Ok_inv _ _ _ _ _ _ _ HD Hinit) as (Hf & Hn & [[-> _]|[-> _]]);
    [rewrite (init_known true) in Hinit by done
    |rewrite (init_known false) in Hinit by done];
    by case_decide.
Qed.

End init_ok.

(** ** The forward pass *)

Section forward.
Context `{FloatOps F}.
Implicit Types (self : ConvSubsampling) (lengths : tensor1 F).

(** [forward] succeeds whenever the output of the layer stack matches the
    projection, and fails in the projection otherwise. *)
Lemma forward_of_stack self b t d c t' f' lengths :
  Sequential_forward (conv self) [b; 1; t; d] = Ok [b; c; t'; f'] →
  1 ≤ b → 1 ≤ t' → in_features (out self) = c * f' →
  ConvSubsampling_forward self [b; t; d] lengths
  = Ok ([b; t'; out_features (out self)],
        calc_length lengths (_padding self) (_kernel_size self) (_stride self)
          (_ceil_mode self) (_sampling_num self)).
Proof.
  intros Hstack Hb Ht Hin. unfold ConvSubsampling_forward.
  change (unsqueeze 1 [b; t; d]) with (Ok [b; 1; t; d]).
  cbn [mbind result_bind]. rewrite Hstack.
  cbn [mbind result_bind size4 transpose lookup list_lookup insert list_insert].
  rewrite reshape_merge_last by done. cbn [mbind result_bind].
  by rewrite Linear_forward_3d.
Qed.

Lemma forward_of_stack_mismatch self b t d c t' f' lengths :
  Sequential_forward (conv self) [b; 1; t; d] = Ok [b; c; t'; f'] →
  1 ≤ b → 1 ≤ t' → in_features (out self) ≠ c * f' →
  ConvSubsampling_forward self [b; t; d] lengths
  = Err (RuntimeError "mat1 and mat2 shapes cannot be multiplied").
Proof.
  intros Hstack Hb Ht Hin. unfold ConvSubsampling_forward.
  change (unsqueeze 1 [b; t; d]) with (Ok [b; 1; t; d]).
  cbn [mbind result_bind]. rewrite Hstack.
  cbn [mbind result_bind size4 transpose lookup list_lookup insert list_insert].
  rewrite reshape_merge_last by done. cbn [mbind result_bind].
  by rewrite Linear_forward_3d_mismatch.
Qed.

(** An error of the layer stack is the error of [forward]. *)
Lemma forward_of_stack_Err self b t d e lengths :
  Sequential_forward (conv self) [b; 1; t; d] = Err e →
  ConvSubsampling_forward self [b; t; d] lengths = Err e.
Proof.
  intros Hstack. unfold ConvSubsampling_forward.
  change (unsqueeze 1 [b; t; d]) with (Ok [b; 1; t; d]).
  cbn [mbind result_bind]. by rewrite Hstack.
Qed.

(** On an empty batch the stack returns an empty tensor, and [reshape]
    cannot infer the width of its rows. *)
Lemma forward_of_stack_empty self t d c t' f' lengths :
  Sequential_forward (conv self) [0; 1; t; d] = Ok [0; c; t'; f'] → 0 ≤ t' →
  ConvSubsampling_forward self [0; t; d] lengths
  = Err (RuntimeError "shape is invalid for input size").
Proof.
  intros Hstack Ht. unfold ConvSubsampling_forward.
  change (unsqueeze 1 [0; t; d]) with (Ok [0; 1; t; d]).
  cbn [mbind result_bind]. rewrite Hstack.
  cbn [mbind result_bind size4 transpose lookup list_lookup insert list_insert].
  by rewrite reshape_merge_last_empty.
Qed.

(** [forward] on a stack of [R >= 1] halving blocks, on every batch
    (b, t, d): the errors in the order in which they are raised, and the
    result. *)
Lemma forward_of_blocks_cases self (block : Z → list Module) R c b t d
    lengths :
  conv self = blocks block 1 c (Z.to_nat R) →
  conv_first block c →
  (∀ n ci h w, 1 ≤ c → 1 ≤ h → 1 ≤ w →
     Sequential_forward (block ci) [n; ci; h; w]
     = Ok [n; c; cdiv h 2; cdiv w 2]) →
  1 ≤ R → 0 ≤ b → 0 ≤ t → 0 ≤ d →
  ConvSubsampling_forward self [b; t; d] lengths
  = if decide (c < 1 ∨ t = 0 ∨ d = 0) then Err (first_conv_error c)
    else if decide (b = 0)
    then Err (RuntimeError "shape is invalid for input size")
    else if decide (in_features (out self) ≠ c * cdiv d (2 ^ R))
    then Err (RuntimeError "mat1 and mat2 shapes cannot be multiplied")
    else Ok ([b; cdiv t (2 ^ R); out_features (out self)],
             calc_length lengths (_padding self) (_kernel_size self)
               (_stride self) (_ceil_mode self) (_sampling_num self)).
Proof.
  intros Hconv Hfirst Hblock HR Hb Ht Hd.
  destruct (Z.to_nat R) as [|k] eqn:E; [lia|]. case_decide as Hbad.
  { apply forward_of_stack_Err. rewrite Hconv. by apply blocks_forward_Err. }
  assert (Sequential_forward (conv self) [b; 1; t; d]
          = Ok [b; c; cdiv t (2 ^ R); cdiv d (2 ^ R)]) as Hstack.
  { rewrite Hconv, (blocks_forward _ c)
      by (lia || (intros; apply Hblock; lia)).
    cbn [channels_after]. by rewrite <-E, Z2Nat.id by lia. }
  assert (1 ≤ cdiv t (2 ^ R)) by (apply Z.lt_pred_le, cdiv_pos; lia).
  repeat case_decide; subst;
    first [ eapply forward_of_stack_empty; [done|lia]
          | eapply forward_of_stack_mismatch; [done|lia..|done]
          | eapply forward_of_stack; [done|lia..|done] ].
Qed.

Lemma forward_of_blocks self (block : Z → list Module) R c b t d lengths :
  conv self = blocks block 1 c (Z.to_nat R) →
  conv_first block c →
  (∀ n ci h w, 1 ≤ c → 1 ≤ h → 1 ≤ w →
     Sequential_forward (block ci) [n; ci; h; w]
     = Ok [n; c; cdiv h 2; cdiv w 2]) →
  1 ≤ R → in_features (out self) = c * cdiv d (2 ^ R) →
  1 ≤ c → 1 ≤ b → 1 ≤ t → 1 ≤ d →
  ConvSubsampling_forward self [b; t; d] lengths
  = Ok ([b; cdiv t (2 ^ R); out_features (out self)],
        calc_length lengths (_padding self) (_kernel_size self) (_stride self)
          (_ceil_mode self) (_sampling_num self)).
Proof.
  intros Hconv Hfirst Hblock HR Hin Hc Hb Ht Hd.
  rewrite (forward_of_blocks_cases _ block R c) by (done || lia).
  repeat case_decide; done || lia.
Qed.

End forward.

Section forward_ok.
Context `{HalvingExact F D}.
Implicit Types (nm : string) (lengths : tensor1 F) (ls : list Z).

(** What a successful construction fixes about the module: [R >= 1] blocks
    that start with a convolution and halve both axes, and the projection. *)
Lemma init_blocks s factor feat_in feat_out c nm self :
  D feat_in →
  ConvSubsampling_init (F:=F) s factor feat_in feat_out c (Elementwise nm)
  = Ok self →
  ∃ block : Z → list Module,
    1 ≤ _sampling_num self ∧ 0 ≤ c
    ∧ conv self = blocks block 1 c (Z.to_nat (_sampling_num self))
    ∧ out self = {| in_features := c * cdiv feat_in (2 ^ _sampling_num self);
                    out_features := feat_out |}
    ∧ conv_first block c
    ∧ (∀ n ci h w, 1 ≤ c → 1 ≤ h → 1 ≤ w →
         Sequential_forward (block ci) [n; ci; h; w]
         = Ok [n; c; cdiv h 2; cdiv w 2]).
Proof.
  intros HD Hinit. destruct (init_Ok_sizes _ _ _ _ _ _ _ HD Hinit) as [Hc _].
  destruct (init_Ok_inv _ _ _ _ _ _ _ HD Hinit)
    as (Hf & Hn & [[-> ->]|[-> ->]]); pose proof (log2_even_pos factor Hf Hn).
  - exists (λ ic, vgg_block ic c (Elementwise nm)).
    repeat split; try done; intros;
      eauto using vgg_block_forward, conv_first_vgg.
  - exists (λ ic, striding_block ic c (Elementwise nm)).
    repeat split; try done; intros;
      eauto using striding_block_forward, conv_first_striding.
Qed.

(** The lengths [forward] returns. *)
Lemma init_calc_length s factor feat_in feat_out c nm self lengths ls :
  D feat_in →
  ConvSubsampling_init (F:=F) s factor feat_in feat_out c (Elementwise nm)
  = Ok self →
  Forall D ls → to_float lengths = f_of_Z <$> ls → to_int lengths = ls →
  calc_length lengths (_padding self) (_kernel_size self) (_stride self)
    (_ceil_mode self) (_sampling_num self)
  = (λ l, cdiv l (2 ^ _sampling_num self)) <$> ls.
Proof.
  intros HD Hinit Hls Hfl Hin.
  destruct (init_Ok_inv _ _ _ _ _ _ _ HD Hinit)
    as (Hf & Hn & [[-> ->]|[-> ->]]); cbn.
  - apply calc_length_vggnet_spec; (done || apply Z.log2_nonneg).
  - apply calc_length_striding_spec; (done || apply Z.log2_nonneg).
Qed.

(** [forward] of a module the constructor returned, on every batch
    (b, t, d): the errors in the order in which they are raised, and the
    result. *)
Lemma forward_cases s factor feat_in feat_out c nm self b t d lengths :
  D feat_in →
  ConvSubsampling_init (F:=F) s factor feat_in feat_out c (Elementwise nm)
  = Ok self →
  0 ≤ b → 0 ≤ t → 0 ≤ d →
  let m := 2 ^ _sampling_num self in
  ConvSubsampling_forward self [b; t; d] lengths
  = if decide (c = 0)
    then Err (RuntimeError "expected weight to be at least 1 at dimension 0")
    else if decide (t = 0 ∨ d = 0)
    then Err (RuntimeError "kernel size cannot be greater than the padded input")
    else if decide (b = 0)
    then Err (RuntimeError "shape is invalid for input size")
    else if decide (cdiv d m ≠ cdiv feat_in m)
    then Err (RuntimeError "mat1 and mat2 shapes cannot be multiplied")
    else Ok ([b; cdiv t m; feat_out],
             calc_length lengths (_padding self) (_kernel_size self)
               (_stride self) (_ceil_mode self) (_sampling_num self)).
Proof.
  intros HD Hinit Hb Ht Hd m.
  destruct (init_blocks _ _ _ _ _ _ _ HD Hinit)
    as (block & HR & Hc & Hconv & Hout & Hfirst & Hblock).
  rewrite (forward_of_blocks_cases _ block (_sampling_num self) c) by done.
  rewrite Hout. cbn [in_features out_features]. unfold first_conv_error.
  fold m. repeat case_decide; done || nia.
Qed.

(** Both strategies, on a batch of the width the module was built for. *)
Lemma forward_spec s factor feat_in feat_out c nm self b t lengths ls :
  ConvSubsampling_init (F:=F) s factor feat_in feat_out c (Elementwise nm)
  = Ok self →
  D feat_in → 1 ≤ c → 1 ≤ feat_in → 1 ≤ b → 1 ≤ t →
  Forall D ls → to_float lengths = f_of_Z <$> ls → to_int lengths = ls →
  ConvSubsampling_forward self [b; t; feat_in] lengths
  = Ok ([b; cdiv t (2 ^ _sampling_num self); feat_out],
        (λ l, cdiv l (2 ^ _sampling_num self)) <$> ls).
Proof.
  intros Hinit HDf Hc Hd Hb Ht HD Hfl Hin.
  rewrite (forward_cases s factor feat_in feat_out c nm) by (done || lia).
  rewrite (init_calc_length s factor feat_in feat_out c nm self lengths ls)
    by done.
  repeat case_decide; done || lia.
Qed.

End forward_ok.

Lemma Forall_cdiv_bounded (ls : list Z) t k :
  0 < k → Forall (λ l, 0 ≤ l ≤ t) ls →
  Forall (λ l', 0 ≤ l' ≤ cdiv t k) ((λ l, cdiv l k) <$> ls).
Proof.
  intros Hk Hls. rewrite Forall_fmap. eapply Forall_impl; [done|].
  intros l [??]. simpl. split; [by apply cdiv_nonneg|by apply cdiv_mono].
Qed.

(** [forward] reads the lengths through [calc_length] alone: it returns
    the same, errors included, for tensors that hold the same lengths. *)
#[export] Instance ConvSubsampling_forward_proper `{FloatOps F} :
  Proper (eq ==> eq ==> same_values ==> eq) (ConvSubsampling_forward (F:=F)).
Proof.
  intros self ? <- x ? <- t1 t2 Ht. unfold ConvSubsampling_forward.
  assert (calc_length t1 (_padding self) (_kernel_size self) (_stride self)
            (_ceil_mode self) (_sampling_num self)
          = calc_length t2 (_padding self) (_kernel_size self) (_stride self)
              (_ceil_mode self) (_sampling_num self)) as -> by by rewrite Ht.
  done.
Qed.

(** The dtype of the lengths does not matter where the conversion is
    exact: the float tensor the script passes and the integer tensor the
    test passes give the same result. *)
Corollary ConvSubsampling_forward_dtype `{StepExact F D P} self x ls :
  Forall D ls →
  ConvSubsampling_forward self x (FloatT (f_of_Z <$> ls))
  = ConvSubsampling_forward self x (IntT ls).
Proof. intros HD. by rewrite (same_values_of_Z ls HD). Qed.

(** ** Theorems *)

(** C1 (invariant).  The consistency of lengths and time axis, the reason
    the length formula exists: for a module the constructor returned with an
    elementwise activation and at least one channel, a batch of shape
    (b, t, feat_in) with positive dimensions and valid lengths between 0 and
    [t], [forward] does not fail,
    returns a tensor of shape (b, t', feat_out) with
    [t' = ceil(t / 2^_sampling_num) >= 1], and one length per item, each
    between 0 and [t']. *)
Theorem forward_lengths_consistent `{HalvingExact F D}
    s factor feat_in feat_out c nm self b t (lengths : tensor1 F) ls :
  ConvSubsampling_init (F:=F) s factor feat_in feat_out c (Elementwise nm)
  = Ok self →
  D feat_in → 1 ≤ c → 1 ≤ feat_in → 1 ≤ b → 1 ≤ t →
  Forall D ls → Forall (λ l, 0 ≤ l ≤ t) ls →
  to_float lengths = f_of_Z <$> ls → to_int lengths = ls →
  ∃ t' ls',
    ConvSubsampling_forward self [b; t; feat_in] lengths
    = Ok ([b; t'; feat_out], ls')
    ∧ t' = cdiv t (2 ^ _sampling_num self) ∧ 1 ≤ t'
    ∧ length ls' = length ls ∧ Forall (λ l', 0 ≤ l' ≤ t') ls'.
Proof.
  intros Hinit HDf Hc Hd Hb Ht HD Hls Hfl Hin.
  destruct (init_Ok_inv _ _ _ _ _ _ _ HDf Hinit) as (Hf & Hn & Hself).
  assert (0 < 2 ^ _sampling_num self) as Hpow.
  { apply Z.pow_pos_nonneg; [lia|].
    destruct Hself as [[_ ->]|[_ ->]]; apply Z.log2_nonneg. }
  eexists _, _. split; [by eapply forward_spec|].
  split; [done|]. split; [apply Z.lt_pred_le, cdiv_pos; lia|].
  split; [by rewrite length_fmap|by apply Forall_cdiv_bounded].
Qed.

(** C3 (error).  The constructor raises, in this order: a [ValueError] for a
    factor that is not a multiple of 2; the [ValueError] of [math.log] for a
    multiple of 2 that is not positive; a [ValueError] naming the strategy
    when it is neither "vggnet" nor "striding"; the [RuntimeError] of
    PyTorch's allocation for a negative channel count, in the first pass of
    the loop. *)
Theorem ConvSubsampling_init_errors `{FloatOps F}
    s factor feat_in feat_out c act :
  (factor mod 2 ≠ 0 →
     ConvSubsampling_init (F:=F) s factor feat_in feat_out c act
     = Err (ValueError "Sampling factor should be a multiply of 2!"))
  ∧ (factor mod 2 = 0 → factor ≤ 0 →
     ConvSubsampling_init (F:=F) s factor feat_in feat_out c act
     = Err (ValueError "math domain error"))
  ∧ (factor mod 2 = 0 → 0 < factor → s ≠ "vggnet" → s ≠ "striding" →
     ConvSubsampling_init (F:=F) s factor feat_in feat_out c act
     = Err (ValueError ("Not valid sub-sampling: " +:+ s +:+ "!")))
  ∧ (factor mod 2 = 0 → 0 < factor → s = "vggnet" ∨ s = "striding" → c < 0 →
     ConvSubsampling_init (F:=F) s factor feat_in feat_out c act
     = Err alloc_error).
Proof.
  split; [apply init_odd|]. split; [apply init_nonpos|].
  split; [apply init_unknown|apply init_negative_channels].
Qed.

(** C6 (functional).  The constructor succeeds exactly for a positive
    multiple of 2, one of the two strategy names and sizes PyTorch can
    allocate: a channel count, a width [conv_channels * ceil(feat_in / 2^R)]
    and an output width that are not negative. *)
Theorem ConvSubsampling_init_ok_iff `{HalvingExact F D}
    s factor feat_in feat_out c act :
  D feat_in →
  is_ok (ConvSubsampling_init (F:=F) s factor feat_in feat_out c act) = true
  ↔ factor mod 2 = 0 ∧ 0 < factor ∧ (s = "vggnet" ∨ s = "striding")
    ∧ 0 ≤ c ∧ 0 ≤ c * cdiv feat_in (2 ^ Z.log2 factor) ∧ 0 ≤ feat_out.
Proof.
  intros HD. rewrite is_ok_true. split.
  - intros [self Hinit]. pose proof (init_Ok_sizes _ _ _ _ _ _ _ HD Hinit).
    destruct (init_Ok_inv _ _ _ _ _ _ _ HD Hinit) as (? & ? & [[? _]|[? _]]);
      auto.
  - intros (Hf & Hn & [->| ->] & Hs); eexists;
      [by apply init_vggnet|by apply init_striding].
Qed.

(** C7 (functional).  The constructor reads the factor only through the
    floor of its binary logarithm: a positive multiple of 2 that is not a
    power of two (6, 10, 12, ...) is accepted and gives the module of the
    power of two below it, although the class documents the factor as a
    power of 2. *)
Theorem ConvSubsampling_init_rounds_factor `{FloatOps F}
    s factor feat_in feat_out c act :
  factor mod 2 = 0 → 0 < factor →
  ConvSubsampling_init (F:=F) s factor feat_in feat_out c act
  = ConvSubsampling_init (F:=F) s (2 ^ Z.log2 factor) feat_in feat_out c act.
Proof.
  intros Hf Hn. pose proof (log2_even_pos factor Hf Hn) as HR.
  unfold ConvSubsampling_init, int_log2.
  rewrite !bool_decide_eq_true_2 by (done || by apply pow2_log2_even).
  cbn [raise_unless mbind result_bind].
  rewrite !decide_True by (done || (apply Z.pow_pos_nonneg; lia)).
  by rewrite log2_pow2_log2 by lia.
Qed.

(** C9 (functional).  What the constructor builds for "vggnet": [R]
    blocks of two 3x3 convolutions of stride 1 and padding 1, each followed
    by the activation, and a 2x2 max-pooling of stride 2 in ceil mode, the
    first block with 1 input channel; the projection reads
    [conv_channels * ceil(feat_in / 2^R)] features.  The sizes are those
    PyTorch can allocate: none is negative. *)
Theorem ConvSubsampling_init_vggnet `{HalvingExact F D}
    factor feat_in feat_out c act :
  factor mod 2 = 0 → 0 < factor → D feat_in →
  0 ≤ c ∧ 0 ≤ c * cdiv feat_in (2 ^ Z.log2 factor) ∧ 0 ≤ feat_out →
  ConvSubsampling_init (F:=F) "vggnet" factor feat_in feat_out c act
  = Ok {| _subsampling := "vggnet";
          _sampling_num := Z.log2 factor;
          _ceil_mode := true; _padding := 0; _stride := 2; _kernel_size := 2;
          out := {| in_features := c * cdiv feat_in (2 ^ Z.log2 factor);
                    out_features := feat_out |};
          conv := blocks (λ ic, vgg_block ic c act) 1 c
                    (Z.to_nat (Z.log2 factor)) |}.
Proof. apply init_vggnet. Qed.

(** C10 (functional).  What the constructor builds for "striding": [R]
    blocks of one 3x3 convolution of stride 2 and padding 1 followed by the
    activation, the first with 1 input channel; the projection reads
    [conv_channels * ceil(feat_in / 2^R)] features.  The sizes are those
    PyTorch can allocate: none is negative. *)
Theorem ConvSubsampling_init_striding `{HalvingExact F D}
    factor feat_in feat_out c act :
  factor mod 2 = 0 → 0 < factor → D feat_in →
  0 ≤ c ∧ 0 ≤ c * cdiv feat_in (2 ^ Z.log2 factor) ∧ 0 ≤ feat_out →
  ConvSubsampling_init (F:=F) "striding" factor feat_in feat_out c act
  = Ok {| _subsampling := "striding";
          _sampling_num := Z.log2 factor;
          _ceil_mode := false; _padding := 1; _stride := 2; _kernel_size := 3;
          out := {| in_features := c * cdiv feat_in (2 ^ Z.log2 factor);
                    out_features := feat_out |};
          conv := blocks (λ ic, striding_block ic c act) 1 c
                    (Z.to_nat (Z.log2 factor)) |}.
Proof. apply init_striding. Qed.

(** C11 (error).  [forward] of a module the constructor returned, on every
    batch (b, t, d) and whatever the lengths.  It raises a [RuntimeError],
    in this order: in the first convolution for a module built with 0
    channels, and for an empty time or feature axis; in [reshape] for an
    empty batch; in the projection when [d] and [feat_in] do not reduce to
    the same width.  Otherwise it returns the shape
    (b, ceil(t / 2^R), feat_out) and the lengths of [calc_length]: the
    feature axis is checked through the projection alone, and [d] need not
    be [feat_in]. *)
Theorem ConvSubsampling_forward_cases `{HalvingExact F D}
    s factor feat_in feat_out c nm self b t d (lengths : tensor1 F) :
  D feat_in →
  ConvSubsampling_init (F:=F) s factor feat_in feat_out c (Elementwise nm)
  = Ok self →
  0 ≤ b → 0 ≤ t → 0 ≤ d →
  let m := 2 ^ _sampling_num self in
  ConvSubsampling_forward self [b; t; d] lengths
  = if decide (c = 0)
    then Err (RuntimeError "expected weight to be at least 1 at dimension 0")
    else if decide (t = 0 ∨ d = 0)
    then Err (RuntimeError "kernel size cannot be greater than the padded input")
    else if decide (b = 0)
    then Err (RuntimeError "shape is invalid for input size")
    else if decide (cdiv d m ≠ cdiv feat_in m)
    then Err (RuntimeError "mat1 and mat2 shapes cannot be multiplied")
    else Ok ([b; cdiv t m; feat_out],
             calc_length lengths (_padding self) (_kernel_size self)
               (_stride self) (_ceil_mode self) (_sampling_num self)).
Proof. apply forward_cases. Qed.

(** For a factor that is a power of two, [2^R] with
    [R >= 1], [forward] divides the time axis and the lengths by the
    factor, rounding up: it returns the shape
    (b, ceil(t / factor), feat_out) and the lengths [ceil(l / factor)]. *)
Theorem forward_power_of_two `{HalvingExact F D}
    s R feat_in feat_out c nm self b t (lengths : tensor1 F) ls :
  1 ≤ R →
  ConvSubsampling_init (F:=F) s (2 ^ R) feat_in feat_out c (Elementwise nm)
  = Ok self →
  D feat_in → 1 ≤ c → 1 ≤ feat_in → 1 ≤ b → 1 ≤ t →
  Forall D ls → to_float lengths = f_of_Z <$> ls → to_int lengths = ls →
  ConvSubsampling_forward self [b; t; feat_in] lengths
  = Ok ([b; cdiv t (2 ^ R); feat_out], (λ l, cdiv l (2 ^ R)) <$> ls).
Proof.
  intros HR Hinit HDf Hc Hd Hb Ht HD Hfl Hin.
  destruct (init_Ok_inv _ _ _ _ _ _ _ HDf Hinit) as (_ & _ & Hself).
  assert (_sampling_num self = R) as <-.
  { destruct Hself as [[_ ->]|[_ ->]]; apply Z.log2_pow2; lia. }
  by eapply forward_spec.
Qed.

(** ** Witnesses

    The theorems applied to the configuration of the [__main__] block
    (striding, factor 4, 80 features in, 320 out, 256 channels, a batch of
    4 sequences of 1600 frames) and to the grid of the test, in exact
    arithmetic. *)

Lemma forward_lengths_consistent_witness :
  ∃ t' ls',
    ConvSubsampling_forward (F:=Q) (striding_module 4 80 320 256 ReLU)
      [4; 1600; 80] (FloatT (inject_Z <$> [1600; 324; 1; 666]))
    = Ok ([4; t'; 320], ls')
    ∧ t' = cdiv 1600 (2 ^ 2) ∧ 1 ≤ t'
    ∧ length ls' = 4%nat ∧ Forall (λ l', 0 ≤ l' ≤ t') ls'.
Proof.
  apply (forward_lengths_consistent (F:=Q) (D:=λ _, True)
           "striding" 4 80 320 256 "ReLU" (striding_module 4 80 320 256 ReLU)
           4 1600 (FloatT (inject_Z <$> [1600; 324; 1; 666]))
           [1600; 324; 1; 666]); try done.
  - by apply Forall_true.
  - repeat (constructor; [lia|]). constructor.
Defined.

Lemma ConvSubsampling_init_ok_iff_witness :
  is_ok (ConvSubsampling_init (F:=Q) "vggnet" 8 80 256 32 ReLU) = true
  ↔ 8 mod 2 = 0 ∧ 0 < 8 ∧ ("vggnet" = "vggnet" ∨ "vggnet" = "striding")
    ∧ 0 ≤ 32 ∧ 0 ≤ 32 * cdiv 80 (2 ^ Z.log2 8) ∧ 0 ≤ 256.
Proof. by apply (ConvSubsampling_init_ok_iff (F:=Q) (D:=λ _, True)). Defined.

Lemma ConvSubsampling_init_rounds_factor_witness :
  ConvSubsampling_init (F:=Q) "striding" 6 80 320 256 ReLU
  = ConvSubsampling_init (F:=Q) "striding" (2 ^ Z.log2 6) 80 320 256 ReLU.
Proof. apply ConvSubsampling_init_rounds_factor; [done|lia]. Defined.

Lemma ConvSubsampling_init_vggnet_witness :
  ConvSubsampling_init (F:=Q) "vggnet" 8 80 256 32 ReLU
  = Ok {| _subsampling := "vggnet";
          _sampling_num := Z.log2 8;
          _ceil_mode := true; _padding := 0; _stride := 2; _kernel_size := 2;
          out := {| in_features := 32 * cdiv 80 (2 ^ Z.log2 8);
                    out_features := 256 |};
          conv := blocks (λ ic, vgg_block ic 32 ReLU) 1 32
                    (Z.to_nat (Z.log2 8)) |}.
Proof.
  apply (ConvSubsampling_init_vggnet (F:=Q) (D:=λ _, True));
    [done|lia|done|by vm_compute].
Defined.

Lemma ConvSubsampling_init_striding_witness :
  ConvSubsampling_init (F:=Q) "striding" 4 80 320 256 ReLU
  = Ok {| _subsampling := "striding";
          _sampling_num := Z.log2 4;
          _ceil_mode := false; _padding := 1; _stride := 2; _kernel_size := 3;
          out := {| in_features := 256 * cdiv 80 (2 ^ Z.log2 4);
                    out_features := 320 |};
          conv := blocks (λ ic, striding_block ic 256 ReLU) 1 256
                    (Z.to_nat (Z.log2 4)) |}.
Proof.
  apply (ConvSubsampling_init_striding (F:=Q) (D:=λ _, True));
    [done|lia|done|by vm_compute].
Defined.

Lemma forward_power_of_two_witness :
  ConvSubsampling_forward (F:=Q) (vggnet_module 8 80 256 32 ReLU)
    [2; 1600; 80] (IntT [1400; 1600])
  = Ok ([2; cdiv 1600 (2 ^ 3); 256], (λ l, cdiv l (2 ^ 3)) <$> [1400; 1600]).
Proof.
  apply (forward_power_of_two (F:=Q) (D:=λ _, True) "vggnet" 3 80 256 32 "ReLU"
           (vggnet_module 8 80 256 32 ReLU) 2 1600 (IntT [1400; 1600])
           [1400; 1600]); try done.
  by apply Forall_true.
Defined.

(** A batch of width 79 on the module of the script, built for width 80. *)
Lemma ConvSubsampling_forward_cases_witness :
  let self := striding_module 4 80 320 256 ReLU in
  let m := 2 ^ _sampling_num self in
  ConvSubsampling_forward (F:=Q) self [4; 1600; 79] (IntT [])
  = if decide (256 = 0)
    then Err (RuntimeError "expected weight to be at least 1 at dimension 0")
    else if decide (1600 = 0 ∨ 79 = 0)
    then Err (RuntimeError "kernel size cannot be greater than the padded input")
    else if decide (4 = 0)
    then Err (RuntimeError "shape is invalid for input size")
    else if decide (cdiv 79 m ≠ cdiv 80 m)
    then Err (RuntimeError "mat1 and mat2 shapes cannot be multiplied")
    else Ok ([4; cdiv 1600 m; 320],
             calc_length (IntT []) (_padding self) (_kernel_size self)
               (_stride self) (_ceil_mode self) (_sampling_num self)).
Proof.
  apply (ConvSubsampling_forward_cases (F:=Q) (D:=λ _, True) "striding" 4 80
           320 256 "ReLU" (striding_module 4 80 320 256 ReLU) 4 1600 79
           (IntT [])); first [done | lia | by apply init_striding].
Defined.

(** The boundary inputs on the module of the script, and a module built
    with 0 channels: an empty time axis, an empty batch, a width that does
    not fit; a batch of width 79 is accepted. *)
Example forward_boundaries :
  let self := striding_module 4 80 320 256 ReLU in
  ConvSubsampling_forward (F:=Q) self [4; 0; 80] (IntT [0; 0; 0; 0])
  = Err (RuntimeError "kernel size cannot be greater than the padded input")
  ∧ ConvSubsampling_forward (F:=Q) self [0; 1600; 80] (IntT [])
    = Err (RuntimeError "shape is invalid for input size")
  ∧ ConvSubsampling_forward (F:=Q) self [4; 1600; 76] (IntT [])
    = Err (RuntimeError "mat1 and mat2 shapes cannot be multiplied")
  ∧ ConvSubsampling_forward (F:=Q) self [4; 1600; 79] (IntT [3; 5])
    = Ok ([4; 400; 320], [1; 2])
  ∧ (model ← ConvSubsampling_init (F:=Q) "striding" 4 80 320 0 ReLU;
     ConvSubsampling_forward model [4; 1600; 80] (IntT []))
    = Err (RuntimeError "expected weight to be at least 1 at dimension 0").
Proof. repeat split; vm_compute; reflexivity. Qed.
