(* ===== verification/Loops.v ===== *)
(** * Loops: the [for] loops of subsampling.py as transition systems

    subsampling.py has three loops, all of the form [for i in range(n)]:
    the loop of [calc_length] (lines 174-179) and the two loops of
    [ConvSubsampling.__init__] that append the layers of a stage (lines
    88-117 and 124-135).  The other files model them by [for_range], a fold
    over the list of indices.  This file gives them a small-step semantics:
    a state holds the index the range yields next and the variables the
    loop assigns, and one transition is one pass through the body.

    The generic part: the relation [for_step], its executable form
    [for_next] and the runner [for_run] with fuel, the modality
    [eventually] (every run reaches a state with the property) and
    [stable].  A loop over a range is deterministic and strongly
    normalising, takes exactly [max(0, n)] passes and ends in the state
    [for_range] computes; [Z.to_nat n] is the fuel that suffices, and no
    smaller fuel does.  [for_step_m] is the loop whose body can raise: its
    state holds the value of the variables or the exception, and a state
    with an exception has no transition, as the exception leaves the loop.

    The loops of the source: [calc_length_step], [vggnet_step] and
    [striding_step], with termination of [calc_length], the invariant of
    the layer-building loops, the run that yields the stack the constructor
    stores, that every stage is eventually built and then kept, and the run
    of one pass that ends in PyTorch's allocation error when the channel
    count is negative. *)

From Stdlib Require Import ZArith QArith Lia Wf_nat.
From stdpp Require Import base tactics numbers list relations strings.
From S2P Require Import Prelude.
From S2P Require Import Floats.
From S2P Require Import CalcLength.
From S2P Require Import Torch.
From S2P Require Import ConvSub.

#[local] Open Scope Z_scope.

(** ** Runs of a transition system *)

(** [eventually R P a]: every run of [R] from [a] reaches a state where [P]
    holds, and no run is stuck before. *)
Inductive eventually {A : Type} (R : relation A) (P : A → Prop) : A → Prop :=
| eventually_now a : P a → eventually R P a
| eventually_later a :
    red R a → (∀ b, R a b → eventually R P b) → eventually R P a.

(** [stable R a P]: in the runs of [R] from [a], once [P] holds it holds
    after every transition. *)
Definition stable {A : Type} (R : relation A) (a : A) (P : A → Prop) : Prop :=
  ∀ b c, rtc R a b → R b c → P b → P c.

(** ** A [for] loop over a range *)

Section for_loop.
Context {S : Type} (n : Z) (body : Z → S → S).

(** One pass of [for i in range(n): s = body(i, s)].  The state is the
    index the range yields next and the value of [s]. *)
Inductive for_step : relation (Z * S) :=
| for_pass i s : 0 ≤ i < n → for_step (i, s) (i + 1, body i s).

(** The same as a function: [None] when the range is exhausted. *)
Definition for_next (st : Z * S) : option (Z * S) :=
  if decide (0 ≤ st.1 < n) then Some (st.1 + 1, body st.1 st.2) else None.

(** The loop run from a state, for at most [fuel] passes: [None] when the
    fuel does not suffice. *)
Fixpoint for_run (fuel : nat) (st : Z * S) : option (Z * S) :=
  match for_next st with
  | None => Some st
  | Some st' =>
      match fuel with
      | O => None
      | Datatypes.S fuel => for_run fuel st'
      end
  end.

(** The number of passes left. *)
Definition for_measure (st : Z * S) : nat := Z.to_nat (n - st.1).

End for_loop.

(** ** A [for] loop whose body can raise *)

Section for_loop_raise.
Context {S : Type} (n : Z) (body : Z → S → result S).

(** One pass of [for i in range(n): s = body(i, s)] when [body] can raise.
    The state is the index the range yields next and the value of [s], or
    the exception a pass raised; the exception leaves the loop, so a state
    that holds one has no transition. *)
Inductive for_step_m : relation (Z * result S) :=
| for_pass_m i s : 0 ≤ i < n → for_step_m (i, Ok s) (i + 1, body i s).

(** The same as a function: [None] when the range is exhausted or an
    exception was raised. *)
Definition for_next_m (st : Z * result S) : option (Z * result S) :=
  match st.2 with
  | Ok s => if decide (0 ≤ st.1 < n) then Some (st.1 + 1, body st.1 s) else None
  | Err _ => None
  end.

End for_loop_raise.

(** ** The loops of subsampling.py *)

Section calc_length_loop.
Context `{FloatOps F}.

(** The loop of [calc_length] (lines 174-179): the state is [i] and
    [lengths]. *)
Definition calc_length_step (add_pad one stride : Z) (ceil_mode : bool)
    (repeat_num : Z) : relation (Z * tensor1 F) :=
  for_step repeat_num
    (λ _ lengths, calc_length_body add_pad one stride ceil_mode lengths).

(** [calc_length] with its loop run pass by pass, for at most [fuel]
    passes. *)
Definition calc_length_run (fuel : nat) (lengths : tensor1 F)
    (padding kernel_size stride : Z) (ceil_mode : bool) (repeat_num : Z) :
    option (list Z) :=
  let add_pad := padding * 2 - kernel_size in
  let one := 1 in
  st ← for_run repeat_num
         (λ _ lengths, calc_length_body add_pad one stride ceil_mode lengths)
         fuel (0, lengths);
  Some (to_int st.2).

End calc_length_loop.

(** The two loops of the constructor: the state is [i] and either
    [in_channels] and [layers] or the exception the allocation of a
    convolution raised.  The passes are [vggnet_pass] and [striding_pass]. *)
Definition vggnet_step (sampling_num conv_channels kernel_size stride padding : Z)
    (ceil_mode : bool) (activation : Module) :
    relation (Z * result (Z * list Module)) :=
  for_step_m sampling_num
    (λ _, vggnet_pass conv_channels kernel_size stride padding ceil_mode
            activation).

Definition striding_step (sampling_num conv_channels kernel_size stride padding : Z)
    (activation : Module) : relation (Z * result (Z * list Module)) :=
  for_step_m sampling_num
    (λ _, striding_pass conv_channels kernel_size stride padding activation).

(** The loop of the strategy a module was built with. *)
Definition init_step (self : ConvSubsampling) (conv_channels : Z)
    (activation : Module) : relation (Z * result (Z * list Module)) :=
  if decide (_subsampling self = "vggnet") then
    vggnet_step (_sampling_num self) conv_channels (_kernel_size self)
      (_stride self) (_padding self) (_ceil_mode self) activation
  else
    striding_step (_sampling_num self) conv_channels (_kernel_size self)
      (_stride self) (_padding self) activation.

(** The state in which the constructor enters either loop (lines 78-79). *)
Definition init_state : Z * result (Z * list Module) := (0, Ok (1, [])).

(** The layers one pass of the loop of strategy [subsampling] appends. *)
Definition stage_of (subsampling : string) (conv_channels : Z)
    (activation : Module) (in_channels : Z) : list Module :=
  if decide (subsampling = "vggnet")
  then vgg_block in_channels conv_channels activation
  else striding_block in_channels conv_channels activation.

(** Stages [0] to [k] are built: no exception was raised and the layer list
    starts with their layers. *)
Definition stages_built (block : Z → list Module) (conv_channels k : Z)
    (st : Z * result (Z * list Module)) : Prop :=
  match st.2 with
  | Ok (_, layers) =>
      blocks block 1 conv_channels (Z.to_nat (k + 1)) `prefix_of` layers
  | Err _ => False
  end.

(** ** Lemmas on runs *)

Section runs.
Context {A : Type} (R : relation A).
Implicit Types (a b c : A) (P Q : A → Prop).

Lemma eventually_weaken P Q a :
  (∀ b, P b → Q b) → eventually R P a → eventually R Q a.
Proof.
  intros HPQ. induction 1 as [a Ha|a Hred _ IH].
  - apply eventually_now; auto.
  - apply eventually_later; auto.
Qed.

Lemma eventually_trans P Q a :
  eventually R P a → (∀ b, P b → eventually R Q b) → eventually R Q a.
Proof.
  intros Ha HPQ. induction Ha as [a Ha|a Hred _ IH]; [by apply HPQ|].
  apply eventually_later; auto.
Qed.

Lemma stable_rtc P a b c :
  stable R a P → rtc R a b → rtc R b c → P b → P c.
Proof.
  intros HP Hab Hbc Hb. revert c Hbc. apply rtc_ind_r; [done|].
  intros c c' Hbc Hstep Hc. eapply HP; [|done..]. by etrans.
Qed.

(** Termination seen as a property of runs. *)
Lemma eventually_nf_sn a : eventually R (nf R) a → sn R a.
Proof.
  induction 1 as [a Ha|a _ _ IH]; [by apply nf_sn|].
  constructor. intros b Hb. by apply IH.
Qed.

Section deterministic.
Hypothesis R_det : deterministic R.

Lemma eventually_nsteps P k a b :
  nsteps R k a b → P b → eventually R P a.
Proof.
  induction 1 as [a|k a a' b Hstep _ IH]; intros Hb; [by apply eventually_now|].
  apply eventually_later; [by exists a'|].
  intros c Hc. rewrite (R_det _ _ _ Hc Hstep). auto.
Qed.

(** A run of a deterministic system that ends has one final state. *)
Lemma final_unique a b c :
  rtc R a b → nf R b → rtc R a c → nf R c → b = c.
Proof.
  intros Hb Hnb Hc Hnc.
  destruct (deterministic_confluent R_det a b c Hb Hc) as (z & Hbz & Hcz).
  by rewrite (rtc_nf _ _ Hbz Hnb), (rtc_nf _ _ Hcz Hnc).
Qed.

End deterministic.
End runs.

(** ** Lemmas on [for_step] *)

Section for_loop_lemmas.
Context {S : Type} (n : Z) (body : Z → S → S).
Implicit Types (i : Z) (s : S) (st : Z * S) (k fuel : nat).

#[local] Abbreviation step := (for_step n body).

Lemma for_step_next st st' : step st st' ↔ for_next n body st = Some st'.
Proof.
  unfold for_next. split.
  - intros [i s Hi]. simpl. by rewrite decide_True.
  - destruct st as [i s]. simpl. destruct (decide _); [|done].
    intros [= <-]. by constructor.
Qed.

Lemma for_step_deterministic : deterministic step.
Proof. intros st st1 st2. rewrite !for_step_next. congruence. Qed.

Lemma for_step_measure st st' :
  step st st' → (for_measure n st' < for_measure n st)%nat.
Proof. intros [i s Hi]. unfold for_measure. simpl. lia. Qed.

Lemma for_step_sn st : sn step st.
Proof.
  apply (well_founded_lt_compat _ (for_measure n)). intros st1 st2.
  apply for_step_measure.
Qed.

Lemma for_red i s : red step (i, s) ↔ 0 ≤ i < n.
Proof.
  split; [by intros [st' Hst]; inversion Hst|].
  intros Hi. eexists. by constructor.
Qed.

Lemma for_nf i s : nf step (i, s) ↔ ¬ 0 ≤ i < n.
Proof. unfold nf. by rewrite for_red. Qed.

Lemma for_nf_final s : nf step (Z.max 0 n, s).
Proof. apply for_nf. lia. Qed.

(** After [k] passes the index is [k] and the state is that of the loop
    over [range(k)]. *)
Lemma for_nsteps_prefix k init :
  (k ≤ Z.to_nat n)%nat →
  nsteps step k (0, init) (Z.of_nat k, for_range (Z.of_nat k) body init).
Proof.
  induction k as [|k IH]; intros Hk.
  { rewrite for_range_nonpos by done. constructor. }
  eapply nsteps_r; [apply IH; lia|].
  rewrite Nat2Z.inj_succ, <-Z.add_1_r, for_range_succ by lia.
  constructor. lia.
Qed.

Lemma for_range_to_nat init :
  for_range (Z.of_nat (Z.to_nat n)) body init = for_range n body init.
Proof.
  destruct (decide (0 ≤ n)); [by rewrite Z2Nat.id|].
  rewrite !for_range_nonpos; [done|lia|lia].
Qed.

(** The whole loop: exactly [max(0, n)] passes, to the state of
    [for_range]. *)
Lemma for_nsteps init :
  nsteps step (Z.to_nat n) (0, init) (Z.max 0 n, for_range n body init).
Proof.
  replace (Z.max 0 n) with (Z.of_nat (Z.to_nat n)) by lia.
  rewrite <-for_range_to_nat. by apply for_nsteps_prefix.
Qed.

(** The states a run from the start passes through. *)
Lemma for_reachable st init :
  rtc step (0, init) st →
  ∃ k, (k ≤ Z.to_nat n)%nat
       ∧ st = (Z.of_nat k, for_range (Z.of_nat k) body init).
Proof.
  revert st. apply rtc_ind_r.
  { exists 0%nat. split; [lia|]. by rewrite for_range_nonpos. }
  intros st st' _ Hstep (k & Hk & ->). inversion Hstep as [i s Hi]; subst.
  exists (Datatypes.S k). split; [lia|].
  by rewrite Nat2Z.inj_succ, <-Z.add_1_r, for_range_succ by lia.
Qed.

Lemma for_eventually (P : Z * S → Prop) k init :
  (k ≤ Z.to_nat n)%nat →
  P (Z.of_nat k, for_range (Z.of_nat k) body init) →
  eventually step P (0, init).
Proof.
  intros Hk. eapply eventually_nsteps;
    [apply for_step_deterministic|by apply for_nsteps_prefix].
Qed.

(** Every run that ends ends in the state of [for_range]. *)
Lemma for_final st init :
  rtc step (0, init) st → nf step st →
  st = (Z.max 0 n, for_range n body init).
Proof.
  intros Hrun Hnf.
  eapply (final_unique _ for_step_deterministic); eauto using for_nf_final.
  eapply rtc_nsteps_2, for_nsteps.
Qed.

(** The runner agrees with the relation. *)
Lemma for_run_nsteps k fuel st st' :
  nsteps step k st st' → nf step st' → (k ≤ fuel)%nat →
  for_run n body fuel st = Some st'.
Proof.
  intros Hrun Hnf. revert fuel.
  induction Hrun as [st|k st st1 st' Hstep _ IH]; intros fuel Hk.
  - destruct st as [i s]. apply for_nf in Hnf.
    destruct fuel; simpl; unfold for_next; simpl; by rewrite decide_False.
  - apply for_step_next in Hstep. destruct fuel as [|fuel]; [lia|].
    simpl. rewrite Hstep. apply IH; [done|lia].
Qed.

Lemma for_run_short k fuel st st' :
  nsteps step k st st' → (fuel < k)%nat → for_run n body fuel st = None.
Proof.
  intros Hrun. revert fuel.
  induction Hrun as [st|k st st1 st' Hstep _ IH]; intros fuel Hk; [lia|].
  apply for_step_next in Hstep. destruct fuel as [|fuel]; simpl; rewrite Hstep;
    [done|apply IH; lia].
Qed.

(** Enough fuel gives the result of [for_range]; less does not. *)
Lemma for_run_enough fuel init :
  (Z.to_nat n ≤ fuel)%nat →
  for_run n body fuel (0, init) = Some (Z.max 0 n, for_range n body init).
Proof. eauto using for_run_nsteps, for_nsteps, for_nf_final. Qed.

Lemma for_run_out_of_fuel fuel init :
  (fuel < Z.to_nat n)%nat → for_run n body fuel (0, init) = None.
Proof. eauto using for_run_short, for_nsteps. Qed.

End for_loop_lemmas.

(** ** Lemmas on [for_step_m] *)

Section for_loop_raise_lemmas.
Context {S : Type} (n : Z) (body : Z → S → result S).
Implicit Types (i : Z) (s init : S) (st : Z * result S) (k : nat).

#[local] Abbreviation step_m := (for_step_m n body).

Lemma for_step_m_next st st' : step_m st st' ↔ for_next_m n body st = Some st'.
Proof.
  unfold for_next_m. split.
  - intros [i s Hi]. simpl. by rewrite decide_True.
  - destruct st as [i [s|e]]; simpl; [|done]. destruct (decide _); [|done].
    intros [= <-]. by constructor.
Qed.

Lemma for_step_m_deterministic : deterministic step_m.
Proof. intros st st1 st2. rewrite !for_step_m_next. congruence. Qed.

Lemma for_step_m_sn st : sn step_m st.
Proof.
  apply (well_founded_lt_compat _ (for_measure n)). intros st1 st2 [i s Hi].
  unfold for_measure. simpl. lia.
Qed.

(** A state that holds an exception is final. *)
Lemma for_m_nf_Err i e : nf step_m (i, Err e).
Proof. intros [st' Hst]. inversion Hst. Qed.

Lemma for_m_nf i s : nf step_m (i, Ok s) ↔ ¬ 0 ≤ i < n.
Proof.
  split.
  - intros Hnf Hi. apply Hnf. eexists. by constructor.
  - intros Hi [st' Hst]. by inversion Hst.
Qed.

(** The states a run from the start passes through are those of the fold
    that keeps the exception. *)
Lemma for_m_reachable st init :
  rtc step_m (0, Ok init) st →
  ∃ k, (k ≤ Z.to_nat n)%nat
       ∧ st = (Z.of_nat k,
               for_range (Z.of_nat k) (λ i r, r ≫= body i) (Ok init)).
Proof.
  revert st. apply rtc_ind_r.
  { exists 0%nat. split; [lia|]. by rewrite for_range_nonpos. }
  intros st st' _ Hstep (k & Hk & ->).
  inversion Hstep as [i s Hi [Hik Hs]]; subst i.
  exists (Datatypes.S k). split; [lia|].
  by rewrite Nat2Z.inj_succ, <-Z.add_1_r, for_range_succ, <-Hs by lia.
Qed.

(** The passes before the loop's value [s] after [k] passes. *)
Lemma for_m_nsteps_prefix k init s :
  (k ≤ Z.to_nat n)%nat →
  for_range (Z.of_nat k) (λ i r, r ≫= body i) (Ok init) = Ok s →
  nsteps step_m k (0, Ok init) (Z.of_nat k, Ok s).
Proof.
  revert s. induction k as [|k IH]; intros s Hk.
  { rewrite for_range_nonpos by done. intros [= ->]. constructor. }
  rewrite Nat2Z.inj_succ, <-Z.add_1_r, for_range_succ by lia.
  intros (s' & Hs' & Hs)%bind_Ok_inv.
  eapply nsteps_r; [apply IH; [lia|done]|]. rewrite <-Hs. constructor. lia.
Qed.

(** The whole loop, when no pass raises. *)
Lemma for_m_nsteps init s :
  for_range n (λ i r, r ≫= body i) (Ok init) = Ok s →
  nsteps step_m (Z.to_nat n) (0, Ok init) (Z.max 0 n, Ok s).
Proof.
  intros Hs. replace (Z.max 0 n) with (Z.of_nat (Z.to_nat n)) by lia.
  apply for_m_nsteps_prefix; [done|]. by rewrite for_range_to_nat.
Qed.

(** The pass that raises is the last one. *)
Lemma for_m_raises k init s e :
  for_range (Z.of_nat k) (λ i r, r ≫= body i) (Ok init) = Ok s →
  Z.of_nat k < n → body (Z.of_nat k) s = Err e →
  nsteps step_m (Datatypes.S k) (0, Ok init) (Z.of_nat k + 1, Err e).
Proof.
  intros Hs Hk He. eapply nsteps_r; [apply for_m_nsteps_prefix; [lia|done]|].
  rewrite <-He. constructor. lia.
Qed.

Lemma for_m_eventually (P : Z * result S → Prop) k init s :
  (k ≤ Z.to_nat n)%nat →
  for_range (Z.of_nat k) (λ i r, r ≫= body i) (Ok init) = Ok s →
  P (Z.of_nat k, Ok s) → eventually step_m P (0, Ok init).
Proof.
  intros Hk Hs. eapply eventually_nsteps;
    [apply for_step_m_deterministic|by apply for_m_nsteps_prefix].
Qed.

(** Every run that ends ends in the state of the fold. *)
Lemma for_m_final st init s :
  for_range n (λ i r, r ≫= body i) (Ok init) = Ok s →
  rtc step_m (0, Ok init) st → nf step_m st → st = (Z.max 0 n, Ok s).
Proof.
  intros Hs Hrun Hnf.
  eapply (final_unique _ for_step_m_deterministic); [done..| |].
  - by eapply rtc_nsteps_2, for_m_nsteps.
  - apply for_m_nf. lia.
Qed.

End for_loop_raise_lemmas.

#[export] Hint Resolve for_step_deterministic for_step_sn for_nf_final
  for_nsteps for_step_m_deterministic for_step_m_sn for_m_nf_Err : subsampling.

(** ** The loop of [calc_length] *)

Section calc_length_loop_lemmas.
Context `{FloatOps F}.
Implicit Types (lengths : tensor1 F) (c : bool).

Lemma calc_length_run_enough fuel lengths p k s c r :
  (Z.to_nat r ≤ fuel)%nat →
  calc_length_run fuel lengths p k s c r = Some (calc_length lengths p k s c r).
Proof. intros Hf. unfold calc_length_run. by rewrite for_run_enough. Qed.

Lemma calc_length_run_out_of_fuel fuel lengths p k s c r :
  (fuel < Z.to_nat r)%nat → calc_length_run fuel lengths p k s c r = None.
Proof. intros Hf. unfold calc_length_run. by rewrite for_run_out_of_fuel. Qed.

End calc_length_loop_lemmas.

(** ** The loops of the constructor *)

Section init_loops.
Implicit Types (c r j : Z) (act : Module) (k : nat).
Implicit Types (block : Z → list Module).

Lemma channels_after_nonneg c k : 0 ≤ c → 0 ≤ channels_after 1 c k.
Proof. destruct k; simpl; lia. Qed.

(** The state after [k] passes. *)
Lemma vggnet_prefix c act k :
  0 ≤ c →
  for_range (Z.of_nat k) (λ _ st, st ≫= vggnet_pass c 2 2 0 true act)
    (Ok (1, []))
  = Ok (channels_after 1 c k, blocks (λ ic, vgg_block ic c act) 1 c k).
Proof.
  intros Hc. pose proof (vggnet_loop_blocks (Z.of_nat k) c act 1 []) as Hl.
  rewrite Nat2Z.id in Hl. apply Hl; [done|lia].
Qed.

Lemma striding_prefix c act k :
  0 ≤ c →
  for_range (Z.of_nat k) (λ _ st, st ≫= striding_pass c 3 2 1 act)
    (Ok (1, []))
  = Ok (channels_after 1 c k, blocks (λ ic, striding_block ic c act) 1 c k).
Proof.
  intros Hc. pose proof (striding_loop_blocks (Z.of_nat k) c act 1 []) as Hl.
  rewrite Nat2Z.id in Hl. apply Hl; [done|lia].
Qed.

Lemma blocks_prefix block cin c k n :
  (k ≤ n)%nat → blocks block cin c k `prefix_of` blocks block cin c n.
Proof.
  revert cin n. induction k as [|k IH]; intros cin [|n] Hk; simpl;
    try lia; try apply prefix_nil.
  apply prefix_app, IH. lia.
Qed.

(** The states the loops pass through. *)
Lemma vggnet_reachable r c act st :
  0 ≤ c → rtc (vggnet_step r c 2 2 0 true act) init_state st →
  ∃ k, (k ≤ Z.to_nat r)%nat
       ∧ st = (Z.of_nat k, Ok (channels_after 1 c k,
                               blocks (λ ic, vgg_block ic c act) 1 c k)).
Proof.
  intros Hc (k & Hk & ->)%for_m_reachable. exists k.
  split; [done|]. f_equal. by apply vggnet_prefix.
Qed.

Lemma striding_reachable r c act st :
  0 ≤ c → rtc (striding_step r c 3 2 1 act) init_state st →
  ∃ k, (k ≤ Z.to_nat r)%nat
       ∧ st = (Z.of_nat k, Ok (channels_after 1 c k,
                               blocks (λ ic, striding_block ic c act) 1 c k)).
Proof.
  intros Hc (k & Hk & ->)%for_m_reachable. exists k.
  split; [done|]. f_equal. by apply striding_prefix.
Qed.

(** The layer list only grows. *)
Lemma vggnet_stable r c act block j :
  0 ≤ c →
  stable (vggnet_step r c 2 2 0 true act) init_state (stages_built block c j).
Proof.
  intros Hc st st' (k & Hk & ->)%vggnet_reachable Hstep; [|done].
  inversion Hstep as [i s Hi]; subst. unfold stages_built. cbn [snd].
  rewrite vggnet_pass_Ok by auto using channels_after_nonneg.
  apply prefix_app_r.
Qed.

Lemma striding_stable r c act block j :
  0 ≤ c →
  stable (striding_step r c 3 2 1 act) init_state (stages_built block c j).
Proof.
  intros Hc st st' (k & Hk & ->)%striding_reachable Hstep; [|done].
  inversion Hstep as [i s Hi]; subst. unfold stages_built. cbn [snd].
  rewrite striding_pass_Ok by auto using channels_after_nonneg.
  apply prefix_app_r.
Qed.

Lemma vggnet_eventually r c act j :
  0 ≤ c → 0 ≤ j < r →
  eventually (vggnet_step r c 2 2 0 true act)
    (stages_built (λ ic, vgg_block ic c act) c j) init_state.
Proof.
  intros Hc Hj. eapply (for_m_eventually _ _ _ (Z.to_nat (j + 1)));
    [lia|by apply vggnet_prefix|by unfold stages_built; cbn [snd]].
Qed.

Lemma striding_eventually r c act j :
  0 ≤ c → 0 ≤ j < r →
  eventually (striding_step r c 3 2 1 act)
    (stages_built (λ ic, striding_block ic c act) c j) init_state.
Proof.
  intros Hc Hj. eapply (for_m_eventually _ _ _ (Z.to_nat (j + 1)));
    [lia|by apply striding_prefix|by unfold stages_built; cbn [snd]].
Qed.

(** The run of the whole loop. *)
Lemma vggnet_run r c act :
  0 ≤ c →
  nsteps (vggnet_step r c 2 2 0 true act) (Z.to_nat r) init_state
    (Z.max 0 r, Ok (channels_after 1 c (Z.to_nat r),
                    blocks (λ ic, vgg_block ic c act) 1 c (Z.to_nat r))).
Proof.
  intros Hc. apply for_m_nsteps.
  by apply (vggnet_loop_blocks r c act 1 []).
Qed.

Lemma striding_run r c act :
  0 ≤ c →
  nsteps (striding_step r c 3 2 1 act) (Z.to_nat r) init_state
    (Z.max 0 r, Ok (channels_after 1 c (Z.to_nat r),
                    blocks (λ ic, striding_block ic c act) 1 c (Z.to_nat r))).
Proof.
  intros Hc. apply for_m_nsteps.
  by apply (striding_loop_blocks r c act 1 []).
Qed.

(** A negative channel count: the first pass raises and the run is over. *)
Lemma vggnet_raises r c ks s p cm act :
  c < 0 → 0 < r →
  nsteps (vggnet_step r c ks s p cm act) 1 init_state (1, Err alloc_error).
Proof.
  intros Hc Hr.
  apply (for_m_raises _ _ 0 (1, []) (1, []));
    [done|lia|by apply vggnet_pass_Err].
Qed.

Lemma striding_raises r c ks s p act :
  c < 0 → 0 < r →
  nsteps (striding_step r c ks s p act) 1 init_state (1, Err alloc_error).
Proof.
  intros Hc Hr.
  apply (for_m_raises _ _ 0 (1, []) (1, []));
    [done|lia|by apply striding_pass_Err].
Qed.

End init_loops.

(** ** The loop of a module the constructor built *)

Section init_machine.
Context `{HalvingExact F D}.
Implicit Types (c : Z) (act : Module) (self : ConvSubsampling).

(** What a successful construction fixes: the number of passes, the loop
    and the stack. *)
Lemma init_step_cases s factor feat_in feat_out c act self :
  D feat_in →
  ConvSubsampling_init (F:=F) s factor feat_in feat_out c act = Ok self →
  0 ≤ c ∧ 0 ≤ _sampling_num self
  ∧ conv self = blocks (stage_of s c act) 1 c (Z.to_nat (_sampling_num self))
  ∧ (s = "vggnet"
     ∧ init_step self c act = vggnet_step (_sampling_num self) c 2 2 0 true act
     ∨ s = "striding"
       ∧ init_step self c act = striding_step (_sampling_num self) c 3 2 1 act).
Proof.
  intros HD Hinit. destruct (init_Ok_sizes _ _ _ _ _ _ _ HD Hinit) as [Hc _].
  destruct (init_Ok_inv _ _ _ _ _ _ _ HD Hinit)
    as (_ & Hpos & [[-> ->]|[-> ->]]);
    (split; [done|split; [by apply Z.log2_nonneg|split; [done|]]]);
    [left|right]; done.
Qed.

Lemma blocks_stage_of s c act cin n :
  blocks (stage_of s c act) cin c n
  = if decide (s = "vggnet") then blocks (λ ic, vgg_block ic c act) cin c n
    else blocks (λ ic, striding_block ic c act) cin c n.
Proof. unfold stage_of. by destruct (decide _). Qed.

Lemma length_stage_of s c act ic :
  length (stage_of s c act ic) = if decide (s = "vggnet") then 5%nat else 2%nat.
Proof. unfold stage_of. by destruct (decide _). Qed.

(** The run of the loop, in the terms of the module. *)
Lemma init_run s factor feat_in feat_out c act self :
  D feat_in →
  ConvSubsampling_init (F:=F) s factor feat_in feat_out c act = Ok self →
  nsteps (init_step self c act) (Z.to_nat (_sampling_num self)) init_state
    (_sampling_num self,
     Ok (channels_after 1 c (Z.to_nat (_sampling_num self)), conv self)).
Proof.
  intros HD Hinit.
  destruct (init_step_cases _ _ _ _ _ _ _ HD Hinit)
    as (Hc & Hn & -> & [[-> ->]|[-> ->]]); rewrite blocks_stage_of; simpl.
  - pose proof (vggnet_run (_sampling_num self) c act Hc) as Hrun.
    by rewrite Z.max_r in Hrun.
  - pose proof (striding_run (_sampling_num self) c act Hc) as Hrun.
    by rewrite Z.max_r in Hrun.
Qed.

Lemma init_reachable s factor feat_in feat_out c act self st :
  D feat_in →
  ConvSubsampling_init (F:=F) s factor feat_in feat_out c act = Ok self →
  rtc (init_step self c act) init_state st →
  ∃ k, (k ≤ Z.to_nat (_sampling_num self))%nat
       ∧ st = (Z.of_nat k, Ok (channels_after 1 c k,
                               blocks (stage_of s c act) 1 c k)).
Proof.
  intros HD Hinit.
  destruct (init_step_cases _ _ _ _ _ _ _ HD Hinit)
    as (Hc & Hn & _ & [[-> ->]|[-> ->]]); intros Hrun;
    setoid_rewrite blocks_stage_of; simpl.
  - by apply vggnet_reachable.
  - by apply striding_reachable.
Qed.

End init_machine.

(** ** Theorems *)


(** C39 (liveness).  In the loop of a module the constructor built, every
    stage is eventually built and then kept: for each stage index [j] below
    the number of stages, every run from the state in which the constructor
    enters the loop reaches a state that holds no exception and whose layer
    list starts with the layers of stages 0 to [j], and no later pass of
    the run removes them or raises. *)
Theorem stages_eventually_built `{HalvingExact F D} s factor feat_in feat_out
    c act self j :
  D feat_in →
  ConvSubsampling_init (F:=F) s factor feat_in feat_out c act = Ok self →
  0 ≤ j < _sampling_num self →
  eventually (init_step self c act) (stages_built (stage_of s c act) c j)
    init_state
  ∧ stable (init_step self c act) init_state
      (stages_built (stage_of s c act) c j).
Proof.
  intros HD Hinit Hj.
  destruct (init_step_cases _ _ _ _ _ _ _ HD Hinit)
    as (Hc & _ & _ & [[-> ->]|[-> ->]]).
  - split; [by apply vggnet_eventually|by apply vggnet_stable].
  - split; [by apply striding_eventually|by apply striding_stable].
Qed.

(** C40 (invariant).  In every state the loop of a module the constructor
    built can reach, no exception was raised, the index is between 0 and
    the number of stages, [in_channels] is 1 before the first pass and
    [conv_channels] after it, and [layers] holds the stages built so far: a
    prefix of the stack the module stores, of 5 layers a stage for "vggnet"
    and 2 for "striding". *)
Theorem init_loop_invariant `{HalvingExact F D} s factor feat_in feat_out
    c act self i st :
  D feat_in →
  ConvSubsampling_init (F:=F) s factor feat_in feat_out c act = Ok self →
  rtc (init_step self c act) init_state (i, st) →
  ∃ in_channels layers,
    st = Ok (in_channels, layers)
    ∧ 0 ≤ i ≤ _sampling_num self
    ∧ in_channels = (if decide (i = 0) then 1 else c)
    ∧ layers `prefix_of` conv self
    ∧ Z.of_nat (length layers) = i * (if decide (s = "vggnet") then 5 else 2).
Proof.
  intros HD Hinit Hrun.
  destruct (init_reachable _ _ _ _ _ _ _ _ HD Hinit Hrun) as (k & Hk & [= -> ->]).
  destruct (init_step_cases _ _ _ _ _ _ _ HD Hinit) as (_ & Hn & -> & _).
  do 2 eexists. split; [done|].
  split; [lia|]. split; [by destruct k|].
  split; [by apply blocks_prefix|].
  rewrite (length_blocks _ (if decide (s = "vggnet") then 5 else 2)%nat)
    by apply length_stage_of.
  destruct (decide _); lia.
Qed.

(** The loop of the constructor terminates, and its run yields the stack
    the module stores: no state starts an infinite run, the run from the
    initial state takes [_sampling_num] passes and stops, with [layers]
    equal to [conv self], and every run that stops ends there. *)
Theorem init_loop_terminates `{HalvingExact F D} s factor feat_in feat_out
    c act self :
  D feat_in →
  ConvSubsampling_init (F:=F) s factor feat_in feat_out c act = Ok self →
  let final := (_sampling_num self,
                Ok (channels_after 1 c (Z.to_nat (_sampling_num self)),
                    conv self)) in
  (∀ st, sn (init_step self c act) st)
  ∧ nsteps (init_step self c act) (Z.to_nat (_sampling_num self))
      init_state final
  ∧ ∀ st, rtc (init_step self c act) init_state st →
          nf (init_step self c act) st → st = final.
Proof.
  intros HD Hinit final. pose proof (init_run _ _ _ _ _ _ _ HD Hinit) as Hrun.
  destruct (init_step_cases _ _ _ _ _ _ _ HD Hinit)
    as (_ & Hn & _ & [[_ Hstep]|[_ Hstep]]); rewrite Hstep in *;
    (split; [intros st; apply for_step_m_sn|split; [done|]]);
    intros st Hst Hnf;
    (eapply (final_unique _ (for_step_m_deterministic _ _));
       [done|done|by eapply rtc_nsteps_2|apply for_m_nf; simpl; lia]).
Qed.

(** The loop of a constructor called with a negative channel count, for
    either strategy: the first pass raises PyTorch's allocation error, and
    the state that holds it is final. *)
Theorem init_loop_raises r c act :
  c < 0 → 0 < r →
  nsteps (vggnet_step r c 2 2 0 true act) 1 init_state (1, Err alloc_error)
  ∧ nsteps (striding_step r c 3 2 1 act) 1 init_state (1, Err alloc_error)
  ∧ nf (vggnet_step r c 2 2 0 true act) (1, Err alloc_error)
  ∧ nf (striding_step r c 3 2 1 act) (1, Err alloc_error).
Proof.
  intros Hc Hr. split; [by apply vggnet_raises|].
  split; [by apply striding_raises|]. split; apply for_m_nf_Err.
Qed.

(** The runner of [calc_length] returns the result of [calc_length] when
    the fuel is at least the number of passes, and runs out of fuel
    otherwise. *)
Theorem calc_length_run_fuel `{FloatOps F} fuel (lengths : tensor1 F)
    padding kernel_size stride ceil_mode repeat_num :
  calc_length_run fuel lengths padding kernel_size stride ceil_mode repeat_num
  = if decide (Z.to_nat repeat_num ≤ fuel)%nat
    then Some (calc_length lengths padding kernel_size stride ceil_mode
                 repeat_num)
    else None.
Proof.
  destruct (decide _).
  - by apply calc_length_run_enough.
  - apply calc_length_run_out_of_fuel. lia.
Qed.

(** ** Witnesses *)

Lemma stages_eventually_built_witness :
  eventually (init_step (vggnet_module 8 80 256 32 ReLU) 32 ReLU)
    (stages_built (stage_of "vggnet" 32 ReLU) 32 2) init_state
  ∧ stable (init_step (vggnet_module 8 80 256 32 ReLU) 32 ReLU) init_state
      (stages_built (stage_of "vggnet" 32 ReLU) 32 2).
Proof.
  apply (stages_eventually_built (F:=Q) (D:=λ _, True) "vggnet" 8 80 256);
    [done|by apply init_vggnet|by vm_compute].
Defined.

Lemma init_loop_invariant_witness :
  ∃ in_channels layers,
    Ok (256, striding_block 1 256 ReLU) = Ok (in_channels, layers)
    ∧ 0 ≤ 1 ≤ _sampling_num (striding_module 4 80 320 256 ReLU)
    ∧ in_channels = (if decide (1 = 0) then 1 else 256)
    ∧ layers `prefix_of` conv (striding_module 4 80 320 256 ReLU)
    ∧ Z.of_nat (length layers)
      = 1 * (if decide ("striding" = "vggnet") then 5 else 2).
Proof.
  apply (init_loop_invariant (F:=Q) (D:=λ _, True) "striding" 4 80 320 256
           ReLU (striding_module 4 80 320 256 ReLU) 1
           (Ok (256, striding_block 1 256 ReLU)));
    [done|by apply init_striding|].
  apply rtc_once. unfold init_step. rewrite decide_False by done.
  by apply for_step_m_next.
Defined.

Lemma init_loop_terminates_witness :
  let self := striding_module 4 80 320 256 ReLU in
  let final := (_sampling_num self,
                Ok (channels_after 1 256 (Z.to_nat (_sampling_num self)),
                    conv self)) in
  (∀ st, sn (init_step self 256 ReLU) st)
  ∧ nsteps (init_step self 256 ReLU) (Z.to_nat (_sampling_num self))
      init_state final
  ∧ ∀ st, rtc (init_step self 256 ReLU) init_state st →
          nf (init_step self 256 ReLU) st → st = final.
Proof.
  apply (init_loop_terminates (F:=Q) (D:=λ _, True) "striding" 4 80 320);
    [done|by apply init_striding].
Defined.
