(* ===== verification/Stacking.v ===== *)
(** * Stacking: class [StackingSubsampling] of subsampling.py

    [StackingSubsampling_init] is the constructor (lines 29-32), which
    fails when [torch.nn.Linear] cannot allocate the projection, and
    [StackingSubsampling_forward] is [forward] (lines 34-46), on the shape
    of the feature tensor and an integer tensor of lengths: the time axis is
    padded on the right by [factor - t % factor] frames, groups of [factor]
    frames are stacked into one, and the lengths become
    [(length + pad_size) // factor].

    The theorems: the output shape and lengths for every positive factor;
    the time axis is [t // factor + 1], which is the [ceil(t / factor)] of
    the documented contract only when [factor] does not divide [t]; the new
    lengths are bounded by the new time axis; how the new length of an item
    compares with the number of stacked frames that hold its valid frames;
    a factor of 0 raises [ZeroDivisionError]; [forward] on every batch
    without a negative dimension, error by error in the order raised
    ([Stacking_forward_cases]), empty batches included. *)

From Stdlib Require Import ZArith Lia.
From stdpp Require Import base tactics numbers list strings.
From S2P Require Import Prelude.
From S2P Require Import Torch.

#[local] Open Scope Z_scope.

(** ** The class *)

Record StackingSubsampling : Type := {
  subsampling_factor : Z;
  proj_out : Linear
}.

(** [StackingSubsampling.__init__] *)
Definition StackingSubsampling_init (subsampling_factor feat_in feat_out : Z) :
    result StackingSubsampling :=
  proj_out ← Linear_new (subsampling_factor * feat_in) feat_out;
  Ok {| subsampling_factor := subsampling_factor; proj_out := proj_out |}.

(** [StackingSubsampling.forward] *)
Definition StackingSubsampling_forward (self : StackingSubsampling)
    (x : shape) (lengths : list Z) : result (shape * list Z) :=
  '(b, t, h) ← size3 x;
  r ← py_mod t (subsampling_factor self);
  let pad_size := subsampling_factor self - r in
  x ← pad x [0; 0; 0; pad_size];
  '(_, t, _) ← size3 x;
  q ← py_floordiv t (subsampling_factor self);
  x ← reshape x [b; q; h * subsampling_factor self];
  x ← Linear_forward (proj_out self) x;
  lengths ← int_div_floor (int_add_scalar lengths pad_size)
               (subsampling_factor self);
  Ok (x, lengths).

(** The module the constructor returns when it returns one. *)
Definition stacking_module (f feat_in feat_out : Z) : StackingSubsampling :=
  {| subsampling_factor := f;
     proj_out := {| in_features := f * feat_in; out_features := feat_out |} |}.

(** The padding [forward] adds, and the length it reports for one item. *)
Definition pad_size_of (t factor : Z) : Z := factor - t mod factor.

Definition stacked_length (t factor l : Z) : Z :=
  (l + pad_size_of t factor) / factor.

(** ** Lemmas *)

Section arithmetic.
Implicit Types (t f l : Z).

Lemma pad_size_bounds t f : 0 < f → 1 ≤ pad_size_of t f ≤ f.
Proof. intros. unfold pad_size_of. divlia. Qed.

(** The padded time axis is a multiple of the factor. *)
Lemma padded_time t f : 0 < f → t + pad_size_of t f = f * (t / f + 1).
Proof. intros. unfold pad_size_of. divlia. Qed.

Lemma padded_time_div t f : 0 < f → (t + pad_size_of t f) / f = t / f + 1.
Proof.
  intros. rewrite padded_time by done.
  rewrite Z.mul_comm, Z.div_mul; lia.
Qed.

Lemma stacked_length_mono t f l l' :
  0 < f → l ≤ l' → stacked_length t f l ≤ stacked_length t f l'.
Proof. intros. unfold stacked_length. apply Z.div_le_mono; lia. Qed.

Lemma stacked_length_full t f : 0 < f → stacked_length t f t = t / f + 1.
Proof. intros. unfold stacked_length. by apply padded_time_div. Qed.

Lemma stacked_length_nonneg t f l : 0 < f → 0 ≤ l → 0 ≤ stacked_length t f l.
Proof.
  intros. unfold stacked_length. pose proof (pad_size_bounds t f).
  apply Z.div_pos; lia.
Qed.

(** The reported length, by the remainders of the length and of the time
    axis: the number of groups that hold a valid frame is [cdiv l f]. *)
Lemma stacked_length_cases t f l :
  0 < f →
  stacked_length t f l
  = cdiv l f
    + (if decide (l mod f = 0 ∧ t mod f = 0) then 1
       else if decide (0 < l mod f < t mod f) then -1 else 0).
Proof.
  intros Hf. pose proof (pad_size_bounds t f Hf).
  pose proof (Z.mod_pos_bound l f Hf). pose proof (Z.mod_pos_bound t f Hf).
  unfold stacked_length. rewrite div_add_cases, cdiv_cases by lia.
  unfold pad_size_of in *. repeat case_decide; lia.
Qed.

(** A length whose remainder is positive and below that of the time axis
    is reported as its floor quotient. *)
Lemma stacked_length_short t f l :
  0 < f → 0 < l mod f < t mod f → stacked_length t f l = l / f.
Proof.
  intros Hf Hl. rewrite stacked_length_cases, cdiv_cases by done.
  repeat case_decide; lia.
Qed.

End arithmetic.

Section forward.
Implicit Types (self : StackingSubsampling) (b t h f : Z) (lengths : list Z).

(** The constructor succeeds when the sizes of the projection are not
    negative, and raises the allocation error otherwise. *)
Lemma Stacking_init_Ok f feat_in feat_out :
  0 ≤ f * feat_in → 0 ≤ feat_out →
  StackingSubsampling_init f feat_in feat_out
  = Ok (stacking_module f feat_in feat_out).
Proof.
  intros. unfold StackingSubsampling_init. by rewrite Linear_new_Ok by done.
Qed.

Lemma Stacking_init_Err f feat_in feat_out :
  f * feat_in < 0 ∨ feat_out < 0 →
  StackingSubsampling_init f feat_in feat_out = Err alloc_error.
Proof.
  intros. unfold StackingSubsampling_init. by rewrite Linear_new_Err by done.
Qed.

(** The constructor returns a module exactly when the sizes of the
    projection are not negative. *)
Lemma Stacking_init_inv f feat_in feat_out self :
  StackingSubsampling_init f feat_in feat_out = Ok self ↔
  self = stacking_module f feat_in feat_out ∧ 0 ≤ f * feat_in ∧ 0 ≤ feat_out.
Proof.
  split.
  - destruct (decide (0 ≤ f * feat_in ∧ 0 ≤ feat_out)) as [[??]|Hn].
    + rewrite Stacking_init_Ok by done. by intros [= <-].
    + rewrite Stacking_init_Err by lia. done.
  - intros (-> & ? & ?). by apply Stacking_init_Ok.
Qed.

Lemma Stacking_forward_zero feat_in feat_out b t h lengths :
  StackingSubsampling_forward (stacking_module 0 feat_in feat_out)
    [b; t; h] lengths
  = Err ZeroDivisionError.
Proof. done. Qed.

(** [forward] up to the projection: the padded and stacked batch. *)
Lemma Stacking_forward_positive (m : Linear) f b t h lengths :
  0 < f → 0 ≤ b → 0 ≤ t → 0 ≤ h →
  StackingSubsampling_forward {| subsampling_factor := f; proj_out := m |}
    [b; t; h] lengths
  = x ← Linear_forward m [b; t / f + 1; h * f];
    Ok (x, stacked_length t f <$> lengths).
Proof.
  intros Hf Hb Ht Hh. pose proof (pad_size_bounds t f Hf) as Hpad.
  unfold StackingSubsampling_forward, py_mod, py_floordiv, int_div_floor,
    int_add_scalar.
  cbn [size3 mbind result_bind subsampling_factor proj_out].
  destruct (decide (f = 0)) as [?|_]; [lia|]. cbn [mbind result_bind].
  fold (pad_size_of t f). rewrite pad_time_axis by lia.
  cbn [size3 mbind result_bind]. rewrite padded_time_div by done.
  rewrite (padded_time t f), reshape_stack by (done || divlia).
  cbn [mbind result_bind]. by rewrite <-list_fmap_compose.
Qed.

(** [forward] on every batch (b, t, h), for a factor that is not
    negative. *)
Lemma Stacking_forward_cases f feat_in feat_out b t h lengths :
  0 ≤ f → 0 ≤ b → 0 ≤ t → 0 ≤ h →
  StackingSubsampling_forward (stacking_module f feat_in feat_out)
    [b; t; h] lengths
  = if decide (f = 0) then Err ZeroDivisionError
    else if decide (h ≠ feat_in)
    then Err (RuntimeError "mat1 and mat2 shapes cannot be multiplied")
    else Ok ([b; t / f + 1; feat_out], stacked_length t f <$> lengths).
Proof.
  intros Hf Hb Ht Hh. case_decide as Hf0; [by subst|].
  unfold stacking_module. rewrite Stacking_forward_positive by lia.
  case_decide as Hw.
  - rewrite Linear_forward_3d_mismatch; [done|simpl; nia].
  - rewrite Linear_forward_3d; [done|simpl; nia].
Qed.

Lemma Stacking_forward_spec f feat_in feat_out b t lengths :
  0 < f → 0 ≤ b → 0 ≤ t → 0 ≤ feat_in →
  StackingSubsampling_forward (stacking_module f feat_in feat_out)
    [b; t; feat_in] lengths
  = Ok ([b; t / f + 1; feat_out], stacked_length t f <$> lengths).
Proof.
  intros. rewrite Stacking_forward_cases by lia.
  repeat case_decide; done || lia.
Qed.

End forward.

(** A module the constructor returned, in a goal about it. *)
Ltac stacking_init H :=
  apply Stacking_init_inv in H as (-> & ? & ?).

#[export] Hint Resolve stacked_length_mono stacked_length_nonneg : subsampling.

(** ** Theorems *)

(** For a positive factor [f] and a batch (b, t, feat_in) [forward] returns
    a tensor of shape (b, t // f + 1, feat_out) and, for every item, the
    length [(l + f - t % f) // f]. *)
Corollary StackingSubsampling_forward_shape f feat_in feat_out self b t lengths :
  StackingSubsampling_init f feat_in feat_out = Ok self →
  0 < f → 0 ≤ b → 0 ≤ t → 0 ≤ feat_in →
  StackingSubsampling_forward self [b; t; feat_in] lengths
  = Ok ([b; t / f + 1; feat_out],
        (λ l, (l + (f - t mod f)) / f) <$> lengths).
Proof. intros Hinit. stacking_init Hinit. apply Stacking_forward_spec. Qed.

(** C14 (functional).  The time axis [forward] produces is the
    [ceil(t / f)] of the documented contract exactly when [f] does not
    divide [t]; when it does, a whole group of padding is added and the
    time axis is [ceil(t / f) + 1]. *)
Theorem StackingSubsampling_time_axis f feat_in feat_out self b t lengths :
  StackingSubsampling_init f feat_in feat_out = Ok self →
  0 < f → 0 ≤ b → 0 ≤ t → 0 ≤ feat_in →
  ∃ t' ls',
    StackingSubsampling_forward self [b; t; feat_in] lengths
    = Ok ([b; t'; feat_out], ls')
    ∧ t' = cdiv t f + (if decide (t mod f = 0) then 1 else 0).
Proof.
  intros Hinit Hf Hb Ht Hh. stacking_init Hinit.
  eexists _, _. split; [by apply Stacking_forward_spec|].
  unfold cdiv. case_decide; divlia.
Qed.

(** Lengths between 0 and [t] are mapped to lengths between 0 and the new
    time axis, and an item of full length [t] gets exactly the new time
    axis. *)
Theorem StackingSubsampling_lengths_bounded f feat_in feat_out self b t
    lengths :
  StackingSubsampling_init f feat_in feat_out = Ok self →
  0 < f → 0 ≤ b → 0 ≤ t → 0 ≤ feat_in →
  Forall (λ l, 0 ≤ l ≤ t) lengths →
  ∃ t' ls',
    StackingSubsampling_forward self [b; t; feat_in] lengths
    = Ok ([b; t'; feat_out], ls')
    ∧ Forall (λ l', 0 ≤ l' ≤ t') ls'
    ∧ Forall2 (λ l l', l = t → l' = t') lengths ls'.
Proof.
  intros Hinit Hf Hb Ht Hh Hls. stacking_init Hinit. eexists _, _.
  split; [by apply Stacking_forward_spec|]. split.
  - rewrite Forall_fmap. eapply Forall_impl; [done|]. intros l [??]. simpl.
    split; [by apply stacked_length_nonneg|].
    rewrite <-(stacked_length_full t f) by done. by apply stacked_length_mono.
  - apply Forall2_fmap_r, Forall_Forall2_diag, Forall_forall.
    intros l _ ->. by apply stacked_length_full.
Qed.

(** C16 (functional).  The reported length of an item against the number
    [ceil(l / f)] of stacked frames that hold its valid frames: one more
    when [f] divides both [l] and [t] (a frame of pure padding is counted),
    one less when [0 < l % f < t % f] (the last valid frames fall outside
    the length), equal otherwise. *)
Theorem StackingSubsampling_length_vs_frames f feat_in feat_out self b t
    lengths :
  StackingSubsampling_init f feat_in feat_out = Ok self →
  0 < f → 0 ≤ b → 0 ≤ t → 0 ≤ feat_in →
  ∃ x',
    StackingSubsampling_forward self [b; t; feat_in] lengths
    = Ok (x', (λ l, cdiv l f
                    + (if decide (l mod f = 0 ∧ t mod f = 0) then 1
                       else if decide (0 < l mod f < t mod f) then -1
                       else 0)) <$> lengths).
Proof.
  intros Hinit Hf Hb Ht Hh. stacking_init Hinit.
  eexists. rewrite Stacking_forward_spec by done.
  do 2 f_equal. apply list_fmap_ext. intros _ l _.
  by apply stacked_length_cases.
Qed.

(** The constructor accepts a factor of 0 whenever the output width is not
    negative, and [forward] of the module it returns raises
    [ZeroDivisionError] in [t % factor], for every input of rank 3, negative
    sizes included; the constructor itself raises a [RuntimeError] exactly
    when a size of the projection, [factor * feat_in] or [feat_out], is
    negative. *)
Corollary StackingSubsampling_forward_zero_factor f feat_in feat_out b t h
    lengths :
  (0 ≤ feat_out →
   ∃ self, StackingSubsampling_init 0 feat_in feat_out = Ok self
           ∧ StackingSubsampling_forward self [b; t; h] lengths
             = Err ZeroDivisionError)
  ∧ (StackingSubsampling_init f feat_in feat_out = Err alloc_error
     ↔ f * feat_in < 0 ∨ feat_out < 0).
Proof.
  split.
  - intros Ho. eexists. split; [by apply Stacking_init_Ok; lia|].
    apply Stacking_forward_zero.
  - split; [|apply Stacking_init_Err].
    destruct (decide (0 ≤ f * feat_in ∧ 0 ≤ feat_out)) as [[??]|?]; [|lia].
    by rewrite Stacking_init_Ok.
Qed.

(** C13 (error).  [forward] of a module the constructor returned, on every
    batch (b, t, h), for a factor that is not negative: a
    [ZeroDivisionError] for the factor 0, a [RuntimeError] in the
    projection when the width [h] is not [feat_in], and otherwise the shape
    (b, t // f + 1, feat_out) with the lengths [(l + f - t % f) // f].  An
    empty batch, an empty time axis (the output is one frame of padding)
    and a width of 0 are accepted, and the lengths are never examined. *)
Theorem StackingSubsampling_forward_cases f feat_in feat_out self b t h
    lengths :
  StackingSubsampling_init f feat_in feat_out = Ok self →
  0 ≤ f → 0 ≤ b → 0 ≤ t → 0 ≤ h →
  StackingSubsampling_forward self [b; t; h] lengths
  = if decide (f = 0) then Err ZeroDivisionError
    else if decide (h ≠ feat_in)
    then Err (RuntimeError "mat1 and mat2 shapes cannot be multiplied")
    else Ok ([b; t / f + 1; feat_out],
             (λ l, (l + (f - t mod f)) / f) <$> lengths).
Proof. intros Hinit. stacking_init Hinit. apply Stacking_forward_cases. Qed.

(** The boundary case of the documented contract: when the factor divides
    the number of frames, a whole group of padding is added; the time axis
    is [t // f + 1] and every length becomes [(l + f) // f], that is
    [l // f + 1] and not [l // f]. *)
Corollary StackingSubsampling_forward_divisible f feat_in feat_out self b t
    lengths :
  StackingSubsampling_init f feat_in feat_out = Ok self →
  0 < f → 0 ≤ b → 0 ≤ t → 0 ≤ feat_in → t mod f = 0 →
  StackingSubsampling_forward self [b; t; feat_in] lengths
  = Ok ([b; t / f + 1; feat_out], (λ l, l / f + 1) <$> lengths).
Proof.
  intros Hinit Hf Hb Ht Hh Hmod. stacking_init Hinit.
  rewrite Stacking_forward_spec by done.
  do 2 f_equal. apply list_fmap_ext. intros _ l _.
  unfold stacked_length, pad_size_of. rewrite Hmod, Z.sub_0_r.
  rewrite <-(Z.mul_1_l f) at 1. by rewrite Z.div_add by lia.
Qed.

(** No overflow in an integer tensor of [w] bits: for lengths between 0 and
    [t] and [t + f] in the range of the dtype, the padding, every sum
    [l + pad_size] and every quotient are in the range, so that the
    integers of the model are the elements PyTorch computes. *)
Theorem StackingSubsampling_lengths_in_range w f t lengths :
  0 < f → 0 ≤ t → int_range w (t + f) →
  Forall (λ l, 0 ≤ l ≤ t) lengths →
  int_range w (pad_size_of t f)
  ∧ Forall (int_range w) (int_add_scalar lengths (pad_size_of t f))
  ∧ Forall (int_range w) (stacked_length t f <$> lengths).
Proof.
  intros Hf Ht [Hlo Hhi] Hls. pose proof (pad_size_bounds t f Hf).
  unfold int_range, int_add_scalar. split_and!; [lia..| |].
  - rewrite Forall_fmap. eapply Forall_impl; [done|]. intros l [??]. simpl. lia.
  - rewrite Forall_fmap. eapply Forall_impl; [done|]. intros l [??]. simpl.
    pose proof (stacked_length_nonneg t f l Hf).
    pose proof (stacked_length_mono t f l t Hf).
    rewrite stacked_length_full in * by done.
    assert (t / f ≤ t) by (apply Z.div_le_upper_bound; nia). lia.
Qed.

(** The bound is the one that matters for a tensor of 32 bits: with
    [t = 2^31 - 4] frames and the factor 4, the sum for an item of full
    length is 2^31. *)
Example lengths_out_of_range :
  ¬ Forall (int_range 32) (int_add_scalar [2 ^ 31 - 4] (pad_size_of (2 ^ 31 - 4) 4)).
Proof. apply (bool_decide_unpack _). by vm_compute. Qed.

(** ** Witnesses *)

(** The module of the examples: the one the script of subsampling.py names
    in a comment, [StackingSubsampling(subsampling_factor=4, feat_in=80,
    feat_out=256)]. *)
Lemma Stacking_init_example :
  StackingSubsampling_init 4 80 256 = Ok (stacking_module 4 80 256).
Proof. reflexivity. Defined.

(** An empty batch of the script's module: no frame, one frame of padding
    for every item there is none of. *)
Lemma StackingSubsampling_forward_cases_witness :
  StackingSubsampling_forward (stacking_module 4 80 256) [0; 0; 80] []
  = if decide (4 = 0) then Err ZeroDivisionError
    else if decide (80 ≠ 80)
    then Err (RuntimeError "mat1 and mat2 shapes cannot be multiplied")
    else Ok ([0; 0 / 4 + 1; 256], (λ l, (l + (4 - 0 mod 4)) / 4) <$> []).
Proof.
  apply (StackingSubsampling_forward_cases 4 80 256);
    [exact Stacking_init_example|lia..].
Defined.

Lemma StackingSubsampling_time_axis_witness :
  ∃ t' ls',
    StackingSubsampling_forward (stacking_module 4 80 256)
      [4; 1600; 80] [1600; 324; 1; 666] = Ok ([4; t'; 256], ls')
    ∧ t' = cdiv 1600 4 + (if decide (1600 mod 4 = 0) then 1 else 0).
Proof.
  apply (StackingSubsampling_time_axis 4 80 256);
    [exact Stacking_init_example|lia..].
Defined.

Lemma StackingSubsampling_lengths_bounded_witness :
  ∃ t' ls',
    StackingSubsampling_forward (stacking_module 4 80 256)
      [4; 1600; 80] [1600; 324; 1; 666] = Ok ([4; t'; 256], ls')
    ∧ Forall (λ l', 0 ≤ l' ≤ t') ls'
    ∧ Forall2 (λ l l', l = 1600 → l' = t') [1600; 324; 1; 666] ls'.
Proof.
  apply (StackingSubsampling_lengths_bounded 4 80 256);
    [exact Stacking_init_example|lia..|].
  repeat (constructor; [lia|]). constructor.
Defined.

Lemma StackingSubsampling_forward_divisible_witness :
  StackingSubsampling_forward (stacking_module 4 80 256)
    [4; 1600; 80] [1600; 324; 1; 666]
  = Ok ([4; 1600 / 4 + 1; 256], (λ l, l / 4 + 1) <$> [1600; 324; 1; 666]).
Proof.
  apply (StackingSubsampling_forward_divisible 4 80 256);
    [exact Stacking_init_example|lia..|done].
Defined.

Lemma StackingSubsampling_length_vs_frames_witness :
  ∃ x',
    StackingSubsampling_forward (stacking_module 4 80 256)
      [1; 10; 80] [5; 10]
    = Ok (x', (λ l, cdiv l 4
                    + (if decide (l mod 4 = 0 ∧ 10 mod 4 = 0) then 1
                       else if decide (0 < l mod 4 < 10 mod 4) then -1
                       else 0)) <$> [5; 10]).
Proof.
  apply (StackingSubsampling_length_vs_frames 4 80 256);
    [exact Stacking_init_example|lia..].
Defined.
