(* ===== verification/Interchange.v ===== *)
(** * Interchange: the two subsampling layers on the same batch

    [StackingSubsampling] and [ConvSubsampling] are the two strategies an
    encoder chooses between: both are built from a factor and the two
    feature widths, and both map a batch (B, T, feat_in) with its lengths
    to a batch (B, T', feat_out) with new lengths.  This file runs both
    [forward] methods of subsampling.py on the same batch, for a factor
    that is a power of two, and compares what they return.

    [layers_agree t f ls] is the condition under which the results are the
    same; the theorem shows that it is exact, and that otherwise the time
    axes and the lengths differ by one. *)

From Stdlib Require Import ZArith QArith Lia.
From stdpp Require Import base tactics numbers list strings.
From S2P Require Import Prelude.
From S2P Require Import Floats.
From S2P Require Import CalcLength.
From S2P Require Import Torch.
From S2P Require Import ConvSub.
From S2P Require Import Stacking.

#[local] Open Scope Z_scope.

(** ** The condition of agreement *)

(** The factor does not divide the time axis, and no length has a
    remainder that is positive and below that of the time axis. *)
Definition layers_agree (t f : Z) (ls : list Z) : Prop :=
  t mod f ≠ 0 ∧ Forall (λ l, ¬ 0 < l mod f < t mod f) ls.

#[export] Instance layers_agree_dec t f ls : Decision (layers_agree t f ls).
Proof. unfold layers_agree. apply _. Defined.

(** ** Lemmas *)

Section arithmetic.
Implicit Types (t f l : Z) (ls : list Z).

(** The time axes: the stacking layer adds a frame when the factor divides
    the time axis. *)
Lemma stacked_time_cases t f :
  0 < f → t / f + 1 = cdiv t f + (if decide (t mod f = 0) then 1 else 0).
Proof. intros. rewrite cdiv_cases by done. case_decide; lia. Qed.

Lemma stacked_length_near t f l :
  0 < f → cdiv l f - 1 ≤ stacked_length t f l ≤ cdiv l f + 1.
Proof. intros. rewrite stacked_length_cases by done. repeat case_decide; lia. Qed.

Lemma stacked_length_eq_cdiv t f l :
  0 < f → t mod f ≠ 0 →
  stacked_length t f l = cdiv l f ↔ ¬ 0 < l mod f < t mod f.
Proof. intros. rewrite stacked_length_cases by done. repeat case_decide; lia. Qed.

Lemma stacked_lengths_near t f ls :
  0 < f →
  Forall2 (λ lc lk, lc - 1 ≤ lk ≤ lc + 1)
    ((λ l, cdiv l f) <$> ls) (stacked_length t f <$> ls).
Proof.
  intros. apply Forall2_fmap, Forall_Forall2_diag, Forall_forall.
  intros l _. by apply stacked_length_near.
Qed.

(** The results of the two layers are the same exactly under
    [layers_agree]. *)
Lemma results_agree t f ls :
  0 < f →
  cdiv t f = t / f + 1
  ∧ (λ l, cdiv l f) <$> ls = stacked_length t f <$> ls
  ↔ layers_agree t f ls.
Proof.
  intros Hf. unfold layers_agree. rewrite stacked_time_cases, fmap_eq_Forall by done.
  split.
  - intros [Ht Hls]. assert (t mod f ≠ 0) by (case_decide; lia).
    split; [done|]. eapply Forall_impl; [done|]. intros l Hl. simpl in Hl.
    by apply (stacked_length_eq_cdiv t f l).
  - intros [Ht Hls]. split; [case_decide; lia|].
    eapply Forall_impl; [done|]. intros l Hl. simpl.
    symmetry. by apply stacked_length_eq_cdiv.
Qed.

End arithmetic.

Section layers.
Context `{HalvingExact F D}.
Implicit Types (lengths : tensor1 F) (ls : list Z).

(** The two [forward]s on the same batch. *)
Lemma layers_forward s R feat_in feat_out c nm conv_self stack_self b t
    lengths ls :
  1 ≤ R → D feat_in →
  ConvSubsampling_init (F:=F) s (2 ^ R) feat_in feat_out c (Elementwise nm)
  = Ok conv_self →
  StackingSubsampling_init (2 ^ R) feat_in feat_out = Ok stack_self →
  1 ≤ c → 1 ≤ feat_in → 1 ≤ b → 1 ≤ t →
  Forall D ls → to_float lengths = f_of_Z <$> ls → to_int lengths = ls →
  ConvSubsampling_forward conv_self [b; t; feat_in] lengths
  = Ok ([b; cdiv t (2 ^ R); feat_out], (λ l, cdiv l (2 ^ R)) <$> ls)
  ∧ StackingSubsampling_forward stack_self [b; t; feat_in] ls
    = Ok ([b; t / 2 ^ R + 1; feat_out], stacked_length t (2 ^ R) <$> ls).
Proof.
  intros HR HDf Hconv Hstack Hc Hd Hb Ht HD Hfl Hin. stacking_init Hstack.
  assert (0 < 2 ^ R) by (apply Z.pow_pos_nonneg; lia).
  split; [|apply Stacking_forward_spec; lia].
  destruct (init_Ok_inv _ _ _ _ _ _ _ HDf Hconv) as (_ & _ & Hself).
  assert (_sampling_num conv_self = R) as <-.
  { destruct Hself as [[_ ->]|[_ ->]]; apply Z.log2_pow2; lia. }
  by eapply forward_spec.
Qed.

End layers.

(** ** Theorems *)

(** C33 (equivalence).  The two layers on the same batch, for a factor
    [2^R] with [R >= 1], modules the two constructors returned for the same
    widths (the convolutional one with at least one channel), a batch
    (b, t, feat_in) with positive dimensions and lengths the float
    arithmetic represents.  Both [forward]s succeed, with the
    same batch size and feature width; the time axis of the stacking layer
    is that of the convolutional layer or one more, every length differs by
    at most one, and time axis and lengths are the same exactly when the
    factor does not divide [t] and no length has a remainder that is
    positive and below the remainder of [t]. *)
Theorem subsampling_layers_agree `{HalvingExact F D}
    s R feat_in feat_out c nm conv_self stack_self b t
    (lengths : tensor1 F) ls :
  1 ≤ R → D feat_in →
  ConvSubsampling_init (F:=F) s (2 ^ R) feat_in feat_out c (Elementwise nm)
  = Ok conv_self →
  StackingSubsampling_init (2 ^ R) feat_in feat_out = Ok stack_self →
  1 ≤ c → 1 ≤ feat_in → 1 ≤ b → 1 ≤ t →
  Forall D ls → to_float lengths = f_of_Z <$> ls → to_int lengths = ls →
  ∃ tc tk lc lk,
    ConvSubsampling_forward conv_self [b; t; feat_in] lengths
    = Ok ([b; tc; feat_out], lc)
    ∧ StackingSubsampling_forward stack_self [b; t; feat_in] ls
      = Ok ([b; tk; feat_out], lk)
    ∧ tc ≤ tk ≤ tc + 1
    ∧ Forall2 (λ x y, x - 1 ≤ y ≤ x + 1) lc lk
    ∧ (tc = tk ∧ lc = lk ↔ layers_agree t (2 ^ R) ls).
Proof.
  intros HR HDf Hconv Hstack Hc Hd Hb Ht HD Hfl Hin.
  assert (0 < 2 ^ R) by (apply Z.pow_pos_nonneg; lia).
  destruct (layers_forward s R feat_in feat_out c nm conv_self stack_self b t
              lengths ls) as [-> ->]; [done..|].
  do 4 eexists. do 2 (split; [done|]).
  split; [rewrite stacked_time_cases by done; case_decide; lia|].
  split; [by apply stacked_lengths_near|by apply results_agree].
Qed.

(** ** Witnesses *)

(** The batch of the [__main__] block, on which the layers differ, and its
    condition evaluated. *)
Lemma subsampling_layers_agree_witness :
  ∃ tc tk lc lk,
    ConvSubsampling_forward (F:=Q) (striding_module 4 80 256 256 ReLU)
      [4; 1600; 80] (IntT [1600; 324; 1; 666])
    = Ok ([4; tc; 256], lc)
    ∧ StackingSubsampling_forward (stacking_module 4 80 256) [4; 1600; 80]
        [1600; 324; 1; 666]
      = Ok ([4; tk; 256], lk)
    ∧ tc ≤ tk ≤ tc + 1
    ∧ Forall2 (λ x y, x - 1 ≤ y ≤ x + 1) lc lk
    ∧ (tc = tk ∧ lc = lk ↔ layers_agree 1600 (2 ^ 2) [1600; 324; 1; 666]).
Proof.
  apply (subsampling_layers_agree (F:=Q) (D:=λ _, True) "striding" 2 80 256
           256 "ReLU" (striding_module 4 80 256 256 ReLU)
           (stacking_module 4 80 256) 4 1600 (IntT [1600; 324; 1; 666])
           [1600; 324; 1; 666]);
    first [done | lia | by apply init_striding | by apply Forall_true].
Defined.

(** On the batch of the script the layers return 400 and 401 frames; on a
    batch of 1601 frames both return 401 frames and the same lengths. *)
Example layers_on_script :
  ¬ layers_agree 1600 4 [1600; 324; 1; 666]
  ∧ layers_agree 1601 4 [1601; 324; 1; 666]
  ∧ ¬ layers_agree 1603 4 [1603; 325].
Proof. split; [|split]; apply (bool_decide_unpack _); by vm_compute. Qed.

(** The boundary batches: the stacking layer accepts an empty batch and an
    empty time axis, the convolutional layer raises on both. *)
Example layers_on_empty_batches :
  let conv_self := striding_module 4 80 256 256 ReLU in
  let stack_self := stacking_module 4 80 256 in
  StackingSubsampling_forward stack_self [0; 1600; 80] []
  = Ok ([0; 401; 256], [])
  ∧ ConvSubsampling_forward (F:=Q) conv_self [0; 1600; 80] (IntT [])
    = Err (RuntimeError "shape is invalid for input size")
  ∧ StackingSubsampling_forward stack_self [4; 0; 80] [0; 0; 0; 0]
    = Ok ([4; 1; 256], [1; 1; 1; 1])
  ∧ ConvSubsampling_forward (F:=Q) conv_self [4; 0; 80] (IntT [0; 0; 0; 0])
    = Err (RuntimeError "kernel size cannot be greater than the padded input").
Proof. repeat split; vm_compute; reflexivity. Qed.
