(* ===== verification/Objects.v ===== *)
(** * Objects: the layers of a [ConvSubsampling] module as Python objects

    [ConvSub] models a layer by its value.  In Python a layer is an object:
    the constructor of [ConvSubsampling] (subsampling.py, lines 62-149)
    allocates a new object for every convolution, every pooling layer and
    the projection, and appends the one object [activation] it was given
    after every convolution.  The default of that argument, [nn.ReLU()], is
    evaluated once, when the class is defined (line 69), so that every module
    built with the default holds the same object.

    This file models the constructor on a heap of objects: a reference is
    the position of an object in the order of allocation, [alloc] is the
    monad of computations that allocate and can raise, and
    [ConvSubsampling_init_obj] is the constructor in it.  [erase] reads a
    module of references back as the module of [ConvSub].

    The theorems: the constructor on objects refines the constructor on
    values, errors included; it keeps the objects that exist and allocates
    3R + 1 or R + 1 new ones; the references of the stack are the
    activation or new, and the new ones are distinct; two modules built
    with one activation share it and nothing else, and two modules of the
    same configuration are different objects with the same [forward];
    replacing the object of the activation changes every stage of every
    module that holds it.

    The heap holds the layers and the projections.  The containers (the
    module, its [Sequential]) and the tensors are not objects of the heap,
    and no object is freed. *)

From Stdlib Require Import ZArith QArith Lia.
From stdpp Require Import base tactics numbers list strings.
From S2P Require Import Prelude.
From S2P Require Import Floats.
From S2P Require Import CalcLength.
From S2P Require Import Torch.
From S2P Require Import ConvSub.

#[local] Open Scope Z_scope.

(** ** The heap and the monad of allocation *)

(** What the heap holds: the layers of a stack and linear layers. *)
Inductive object : Type :=
| ModuleObj (m : Module)
| LinearObj (m : Linear).

#[export] Instance Linear_eq_dec : EqDecision Linear.
Proof. solve_decision. Defined.

#[export] Instance object_eq_dec : EqDecision object.
Proof. solve_decision. Defined.

(** A reference is the position of its object in the order of allocation;
    no object is ever freed. *)
Abbreviation ref := nat (only parsing).
Abbreviation heap := (list object) (only parsing).

(** A computation that reads and extends the heap, or raises. *)
Definition alloc (A : Type) : Type := heap → result (A * heap).

#[export] Instance alloc_ret : MRet alloc := λ A a h, Ok (a, h).

#[export] Instance alloc_bind : MBind alloc :=
  λ A B f m h, '(a, h') ← m h; f a h'.

(** A computation that does not touch the heap. *)
Definition lift {A} (m : result A) : alloc A := λ h, a ← m; Ok (a, h).

(** The creation of an object. *)
Definition new (o : object) : alloc ref := λ h, Ok (length h, h ++ [o]).

(** ** The constructors of the layers *)

(** [torch.nn.Conv2d(...)], [torch.nn.MaxPool2d(...)] and
    [torch.nn.Linear(...)] as expressions: each call returns a new object. *)
Definition Conv2d_obj (i o k s p : Z) : alloc ref :=
  m ← lift (Conv2d_new i o k s p); new (ModuleObj m).

Definition MaxPool2d_obj (k s p : Z) (ceil_mode : bool) : alloc ref :=
  new (ModuleObj (MaxPool2d k s p ceil_mode)).

Definition Linear_obj (i o : Z) : alloc ref :=
  m ← lift (Linear_new i o); new (LinearObj m).

(** ** Class [ConvSubsampling] on objects *)

(** The attributes of a module: those of [ConvSub.ConvSubsampling], with
    references for [out] and for the entries of [conv]. *)
Record ConvSubsampling_obj : Type := {
  obj_subsampling : string;
  obj_sampling_num : Z;
  obj_ceil_mode : bool;
  obj_padding : Z;
  obj_stride : Z;
  obj_kernel_size : Z;
  obj_out : ref;
  obj_conv : list ref
}.

(** One pass of the loop of the "vggnet" branch (lines 89-117):
    [layers] receives two new convolutions, a new pooling layer and, twice,
    the object [activation]. *)
Definition vggnet_pass_obj (conv_channels kernel_size stride padding : Z)
    (ceil_mode : bool) (activation : ref) (st : Z * list ref) :
    alloc (Z * list ref) :=
  let '(in_channels, layers) := st in
  conv ← Conv2d_obj in_channels conv_channels 3 1 1;
  let layers := layers ++ [conv] in
  let layers := layers ++ [activation] in
  conv ← Conv2d_obj conv_channels conv_channels 3 1 1;
  let layers := layers ++ [conv] in
  let layers := layers ++ [activation] in
  pool ← MaxPool2d_obj kernel_size stride padding ceil_mode;
  let layers := layers ++ [pool] in
  let in_channels := conv_channels in
  mret (in_channels, layers).

(** One pass of the loop of the "striding" branch (lines 125-135). *)
Definition striding_pass_obj (conv_channels kernel_size stride padding : Z)
    (activation : ref) (st : Z * list ref) : alloc (Z * list ref) :=
  let '(in_channels, layers) := st in
  conv ← Conv2d_obj in_channels conv_channels kernel_size stride padding;
  let layers := layers ++ [conv] in
  let layers := layers ++ [activation] in
  let in_channels := conv_channels in
  mret (in_channels, layers).

(** The two loops (lines 88-117 and 124-135). *)
Definition vggnet_loop_obj (sampling_num conv_channels kernel_size stride
    padding : Z) (ceil_mode : bool) (activation : ref) (in_channels : Z)
    (layers : list ref) : alloc (Z * list ref) :=
  for_range sampling_num
    (λ _ st,
       st ≫= vggnet_pass_obj conv_channels kernel_size stride padding
               ceil_mode activation)
    (mret (in_channels, layers)).

Definition striding_loop_obj (sampling_num conv_channels kernel_size stride
    padding : Z) (activation : ref) (in_channels : Z) (layers : list ref) :
    alloc (Z * list ref) :=
  for_range sampling_num
    (λ _ st,
       st ≫= striding_pass_obj conv_channels kernel_size stride padding
               activation)
    (mret (in_channels, layers)).

Section methods.
Context `{FloatOps F}.

(** [ConvSubsampling.__init__], with the object [activation]. *)
Definition ConvSubsampling_init_obj (subsampling : string)
    (subsampling_factor feat_in feat_out conv_channels : Z)
    (activation : ref) : alloc ConvSubsampling_obj :=
  _ ← lift (raise_unless (bool_decide (subsampling_factor mod 2 = 0))
              (ValueError "Sampling factor should be a multiply of 2!"));
  sampling_num ← lift (int_log2 subsampling_factor);
  let in_channels := 1 in
  let layers := [] in
  '(padding, stride, kernel_size, ceil_mode, layers) ←
    (if decide (subsampling = "vggnet") then
       let padding := 0 in
       let stride := 2 in
       let kernel_size := 2 in
       let ceil_mode := true in
       st ← vggnet_loop_obj sampling_num conv_channels kernel_size stride
              padding ceil_mode activation in_channels layers;
       mret (padding, stride, kernel_size, ceil_mode, st.2)
     else if decide (subsampling = "striding") then
       let padding := 1 in
       let stride := 2 in
       let kernel_size := 3 in
       let ceil_mode := false in
       st ← striding_loop_obj sampling_num conv_channels kernel_size stride
              padding activation in_channels layers;
       mret (padding, stride, kernel_size, ceil_mode, st.2)
     else
       lift (Err (ValueError ("Not valid sub-sampling: " +:+ subsampling +:+ "!"))));
  let in_length := FloatT [f_of_Z feat_in] in
  let out_length :=
    calc_length in_length padding kernel_size stride ceil_mode sampling_num in
  out_length ← lift (item out_length);
  out ← Linear_obj (conv_channels * out_length) feat_out;
  mret {| obj_subsampling := subsampling;
          obj_sampling_num := sampling_num;
          obj_ceil_mode := ceil_mode;
          obj_padding := padding;
          obj_stride := stride;
          obj_kernel_size := kernel_size;
          obj_out := out;
          obj_conv := layers |}.

End methods.

(** The default of the argument [activation] (line 69): the expression
    [nn.ReLU()] is evaluated when the class is defined. *)
Definition default_activation : alloc ref := new (ModuleObj ReLU).

(** ** Reading a module back *)

Definition module_at (h : heap) (r : ref) : option Module :=
  match h !! r with Some (ModuleObj m) => Some m | _ => None end.

Definition linear_at (h : heap) (r : ref) : option Linear :=
  match h !! r with Some (LinearObj m) => Some m | _ => None end.

(** The module of [ConvSub] a module of references stands for in a heap. *)
Definition erase (h : heap) (self : ConvSubsampling_obj) :
    option ConvSubsampling :=
  layers ← mapM (module_at h) (obj_conv self);
  o ← linear_at h (obj_out self);
  Some {| _subsampling := obj_subsampling self;
          _sampling_num := obj_sampling_num self;
          _ceil_mode := obj_ceil_mode self;
          _padding := obj_padding self;
          _stride := obj_stride self;
          _kernel_size := obj_kernel_size self;
          out := o;
          conv := layers |}.

(** [forward] of a module of references: the [forward] of [ConvSub] on the
    layers its references hold. *)
Definition ConvSubsampling_forward_obj `{FloatOps F} (h : heap)
    (self : ConvSubsampling_obj) (x : shape) (lengths : tensor1 F) :
    option (result (shape * list Z)) :=
  self ← erase h self; Some (ConvSubsampling_forward self x lengths).

(** ** Lemmas *)

(** *** The monad *)

Section monad.
Context {A B C : Type}.
Implicit Types (h : heap) (o : object).

Lemma bind_ret (a : A) (f : A → alloc B) h : (mret a ≫= f) h = f a h.
Proof. done. Qed.

Lemma ret_bind (m : alloc A) h : (m ≫= mret) h = m h.
Proof. unfold mbind, alloc_bind. by destruct (m h) as [[a h']|e]. Qed.

Lemma bind_assoc (m : alloc A) (f : A → alloc B) (g : B → alloc C) h :
  ((m ≫= f) ≫= g) h = (m ≫= λ a, f a ≫= g) h.
Proof. unfold mbind, alloc_bind. by destruct (m h) as [[a h']|e]. Qed.

Lemma bind_lift (m : result A) (f : A → alloc B) h :
  (lift m ≫= f) h = m ≫= λ a, f a h.
Proof. by destruct m. Qed.

Lemma bind_new o (f : ref → alloc B) h :
  (new o ≫= f) h = f (length h) (h ++ [o]).
Proof. done. Qed.

Lemma bind_run (m : alloc A) (f : A → alloc B) h :
  (m ≫= f) h = m h ≫= λ '(a, h'), f a h'.
Proof. done. Qed.

End monad.

(** *** Reading the heap *)

Section heap_lemmas.
Implicit Types (h : heap) (r : ref) (m : Module).

Lemma module_at_lt h r m : module_at h r = Some m → (r < length h)%nat.
Proof.
  unfold module_at. destruct (h !! r) eqn:E; [|done]. intros _.
  by eapply lookup_lt_Some.
Qed.

Lemma module_at_prefix h h' r m :
  h `prefix_of` h' → module_at h r = Some m → module_at h' r = Some m.
Proof.
  unfold module_at. intros Hp. destruct (h !! r) as [o|] eqn:E; [|done].
  by rewrite (prefix_lookup_Some _ _ _ _ E Hp).
Qed.

Lemma linear_at_prefix h h' r l :
  h `prefix_of` h' → linear_at h r = Some l → linear_at h' r = Some l.
Proof.
  unfold linear_at. intros Hp. destruct (h !! r) as [o|] eqn:E; [|done].
  by rewrite (prefix_lookup_Some _ _ _ _ E Hp).
Qed.

Lemma module_at_new h m : module_at (h ++ [ModuleObj m]) (length h) = Some m.
Proof. unfold module_at. by rewrite list_lookup_middle. Qed.

Lemma linear_at_new h l : linear_at (h ++ [LinearObj l]) (length h) = Some l.
Proof. unfold linear_at. by rewrite list_lookup_middle. Qed.

(** A module that can be read in a heap reads the same in every heap that
    extends it: allocation does not change the modules that exist. *)
Lemma erase_prefix h h' self s :
  h `prefix_of` h' → erase h self = Some s → erase h' self = Some s.
Proof.
  unfold erase. intros Hp He.
  destruct (mapM (module_at h) (obj_conv self)) as [ls|] eqn:E1; [|done].
  destruct (linear_at h (obj_out self)) as [l|] eqn:E2; [|done].
  assert (mapM (module_at h') (obj_conv self) = Some ls) as ->.
  { apply mapM_Some. apply mapM_Some in E1. eapply Forall2_impl; [done|].
    intros r m. by apply module_at_prefix. }
  by rewrite (linear_at_prefix _ _ _ _ Hp E2).
Qed.

End heap_lemmas.

(** *** Computations that only allocate *)

(** A computation is framed when its outcome depends on the heap only by
    the number of its objects: it raises, or it returns a result with the
    heap extended by objects that do not depend on those it found. *)
Definition framed {A : Type} (m : alloc A) : Prop :=
  ∀ n, ∃ r : result (A * list object),
    ∀ h, length h = n → m h = (λ '(a, news), (a, h ++ news)) <$> r.

Section framed.
Context {A B : Type}.
Implicit Types (h : heap) (o : object).

Lemma framed_ret (a : A) : framed (mret a).
Proof. intros n. exists (Ok (a, [])). intros h _. simpl. by rewrite app_nil_r. Qed.

Lemma framed_lift (m : result A) : framed (lift m).
Proof.
  intros n. exists ((λ a, (a, [])) <$> m). intros h _.
  destruct m; simpl; [|done]. by rewrite app_nil_r.
Qed.

Lemma framed_new o : framed (new o).
Proof. intros n. exists (Ok (n, [o])). by intros h <-. Qed.

Lemma framed_bind (m : alloc A) (f : A → alloc B) :
  framed m → (∀ a, framed (f a)) → framed (m ≫= f).
Proof.
  intros Hm Hf n. destruct (Hm n) as [[[a news]|e] Hr].
  - destruct (Hf a (n + length news)%nat) as [[[b news2]|e] Hr2].
    + exists (Ok (b, news ++ news2)). intros h Hh.
      rewrite bind_run, Hr by done. simpl.
      rewrite Hr2 by (rewrite length_app; lia). simpl. by rewrite app_assoc.
    + exists (Err e). intros h Hh. rewrite bind_run, Hr by done. simpl.
      by rewrite Hr2 by (rewrite length_app; lia).
  - exists (Err e). intros h Hh. by rewrite bind_run, Hr.
Qed.

(** A framed computation keeps the objects that exist. *)
Lemma framed_prefix (m : alloc A) h a h' :
  framed m → m h = Ok (a, h') → h `prefix_of` h'.
Proof.
  intros Hm Hr. destruct (Hm (length h)) as [[[a' news]|e] Hh];
    rewrite Hh in Hr by done; [|done].
  injection Hr as <- <-. by apply prefix_app_r.
Qed.

(** It does the same when an object that exists is replaced. *)
Lemma framed_insert (m : alloc A) h a h' (r : ref) o :
  framed m → m h = Ok (a, h') → (r < length h)%nat →
  m (<[r:=o]> h) = Ok (a, <[r:=o]> h').
Proof.
  intros Hm Hr Hlt. destruct (Hm (length h)) as [[[a' news]|e] Hh].
  - rewrite Hh in Hr by done. injection Hr as <- <-.
    rewrite Hh by apply length_insert. simpl. by rewrite insert_app_l.
  - by rewrite Hh in Hr.
Qed.

End framed.

Lemma framed_for_range {S : Type} n (pass : S → alloc S) (init : alloc S) :
  framed init → (∀ s, framed (pass s)) →
  framed (for_range n (λ _ st, st ≫= pass) init).
Proof. intros Hi Hp. apply for_range_ind; [done|]. intros. by apply framed_bind. Qed.

#[export] Hint Resolve framed_ret framed_lift framed_new framed_bind
  framed_for_range : subsampling.

(** *** The invariant of the construction *)

(** [built h0 act m_act h refs mods]: from the heap [h0], in which [act]
    holds [m_act], the constructor has reached the heap [h] and the list
    [refs] of layers, which hold the modules [mods].  Every reference of the
    list is [act] or a new object, every new object is in the list, once. *)
Definition built (h0 : heap) (act : ref) (m_act : Module) (h : heap)
    (refs : list ref) (mods : list Module) : Prop :=
  module_at h0 act = Some m_act
  ∧ h0 `prefix_of` h
  ∧ Forall2 (λ r m, module_at h r = Some m ∧ (r = act ∨ length h0 ≤ r)%nat)
      refs mods
  ∧ NoDup (filter (λ r, r ≠ act) refs)
  ∧ length h = (length h0 + length (filter (λ r, r ≠ act) refs))%nat.

Section built.
Context (h0 : heap) (act : ref) (m_act : Module).
Implicit Types (h : heap) (refs : list ref) (mods : list Module).

Lemma built_nil : module_at h0 act = Some m_act → built h0 act m_act h0 [] [].
Proof. intros. split_and!; [done..|constructor|simpl; lia]. Qed.

Lemma built_ref_lt h refs mods r :
  built h0 act m_act h refs mods → r ∈ refs → (r < length h)%nat.
Proof.
  intros (_ & _ & Hrefs & _) Hr.
  destruct (list_elem_of_lookup_1 _ _ Hr) as [i Hi].
  destruct (Forall2_lookup_l _ _ _ _ _ Hrefs Hi) as (m & _ & Hm & _).
  by eapply module_at_lt.
Qed.

(** A new layer is appended. *)
Lemma built_new h refs mods m :
  built h0 act m_act h refs mods →
  built h0 act m_act (h ++ [ModuleObj m]) (refs ++ [length h]) (mods ++ [m]).
Proof.
  intros Hb. pose proof (built_ref_lt _ _ _ (length h) Hb) as Hlt.
  destruct Hb as (Hact & Hp & Hrefs & Hnd & Hlen).
  pose proof (module_at_lt _ _ _ Hact). pose proof (prefix_length _ _ Hp).
  assert (filter (λ r, r ≠ act) [length h] = [length h]) as Hf.
  { by rewrite filter_cons_True by lia. }
  split_and!; [done|by apply prefix_app_r| | |].
  - apply Forall2_app;
      [|constructor; [split; [apply module_at_new|lia]|done]].
    eapply Forall2_impl; [done|]. intros r m' [??]. split; [|done].
    eapply module_at_prefix; [|done]. by apply prefix_app_r.
  - rewrite filter_app, Hf. apply NoDup_app. split_and!; [done| |apply NoDup_singleton].
    intros r [_ Hr]%list_elem_of_filter ->%list_elem_of_singleton.
    specialize (Hlt Hr). lia.
  - rewrite filter_app, Hf, !length_app. simpl. lia.
Qed.

(** The activation is appended. *)
Lemma built_act h refs mods :
  built h0 act m_act h refs mods →
  built h0 act m_act h (refs ++ [act]) (mods ++ [m_act]).
Proof.
  intros (Hact & Hp & Hrefs & Hnd & Hlen).
  assert (filter (λ r, r ≠ act) [act] = []) as Hf.
  { by rewrite filter_cons_False by (intros ?; done). }
  split_and!; [done..| | |].
  - apply Forall2_app; [done|]. constructor; [|done].
    split; [by eapply module_at_prefix|by left].
  - by rewrite filter_app, Hf, app_nil_r.
  - by rewrite filter_app, Hf, app_nil_r.
Qed.

(** The layers read in a heap that extends the one they were built in. *)
Lemma built_mapM h h' refs mods :
  built h0 act m_act h refs mods → h `prefix_of` h' →
  mapM (module_at h') refs = Some mods.
Proof.
  intros (_ & _ & Hrefs & _) Hp. apply mapM_Some.
  eapply Forall2_impl; [done|]. intros r m [? _]. by eapply module_at_prefix.
Qed.

Lemma built_owned h refs mods :
  built h0 act m_act h refs mods →
  Forall (λ r, r = act ∨ (length h0 ≤ r < length h)%nat) refs.
Proof.
  intros Hb. apply Forall_forall. intros r Hr.
  pose proof (built_ref_lt _ _ _ _ Hb Hr). destruct Hb as (_ & _ & Hrefs & _).
  destruct (list_elem_of_lookup_1 _ _ Hr) as [i Hi].
  destruct (Forall2_lookup_l _ _ _ _ _ Hrefs Hi) as (m & _ & _ & [?|?]);
    [by left|right; lia].
Qed.

End built.

(** *** The passes and the loops, on objects and on values *)

(** The outcome of a computation on objects beside the outcome of a
    computation on values: both raise the same exception, or both succeed
    with results that [R] relates in the heap reached. *)
Definition agree {A B : Type} (R : A → heap → B → Prop)
    (ro : result (A * heap)) (rv : result B) : Prop :=
  match ro, rv with
  | Ok (a, h), Ok b => R a h b
  | Err e, Err e' => e = e'
  | _, _ => False
  end.

(** The outcomes of a loop or of a pass, started from the heap [h] and the
    layers [refs]: the computation on objects has made [no] objects and
    [nr] layers, which hold the modules of the computation on values. *)
Definition sim (h0 : heap) (act : ref) (m_act : Module) (no nr : nat)
    (h : heap) (refs : list ref) :
    result (Z * list ref * heap) → result (Z * list Module) → Prop :=
  agree (λ '(co, refs') h' '(cv, mods'),
           co = cv ∧ built h0 act m_act h' refs' mods'
           ∧ length refs' = (length refs + nr)%nat
           ∧ length h' = (length h + no)%nat).

Section agree.
Context {A B A' B' : Type}.
Implicit Types (R : A → heap → B → Prop) (Q : A' → heap → B' → Prop).

Lemma agree_bind R Q ro rv (fo : A → alloc A') (fv : B → result B') :
  agree R ro rv →
  (∀ a h b, R a h b → agree Q (fo a h) (fv b)) →
  agree Q (ro ≫= λ '(a, h), fo a h) (rv ≫= fv).
Proof.
  intros Hr Hf. destruct ro as [[a h]|e], rv as [b|e']; simpl; try done.
  by apply Hf.
Qed.

Lemma agree_lift Q (m : result A) (fo : A → alloc A') (fv : A → result B') h :
  (∀ a, agree Q (fo a h) (fv a)) → agree Q ((lift m ≫= fo) h) (m ≫= fv).
Proof. intros Hf. rewrite bind_lift. destruct m; simpl; [apply Hf|done]. Qed.

Lemma agree_impl R (R2 : A → heap → B → Prop) ro rv :
  agree R ro rv → (∀ a h b, R a h b → R2 a h b) → agree R2 ro rv.
Proof.
  intros Hr Himpl. destruct ro as [[a h]|e], rv as [b|e']; simpl; try done.
  by apply Himpl.
Qed.

End agree.

(** What a pass on objects owes to the pass on values. *)
Definition pass_sim (h0 : heap) (act : ref) (m_act : Module) (no nr : nat)
    (passo : Z * list ref → alloc (Z * list ref))
    (passv : Z * list Module → result (Z * list Module)) : Prop :=
  ∀ h cin refs mods,
    built h0 act m_act h refs mods →
    sim h0 act m_act no nr h refs (passo (cin, refs) h) (passv (cin, mods)).

Section sim.
Context (h0 : heap) (act : ref) (m_act : Module).
Implicit Types (h : heap) (refs : list ref) (mods : list Module).

Lemma vggnet_pass_sim c k s p cm :
  pass_sim h0 act m_act 3 5 (vggnet_pass_obj c k s p cm act)
    (vggnet_pass c k s p cm m_act).
Proof.
  intros h cin refs mods Hb. unfold sim, agree, vggnet_pass_obj, vggnet_pass.
  cbv [Conv2d_obj MaxPool2d_obj mbind alloc_bind mret alloc_ret lift new].
  destruct (Conv2d_new cin c 3 1 1) as [m1|e]; simpl; [|done].
  destruct (Conv2d_new c c 3 1 1) as [m2|e]; simpl; [|done].
  split_and!; [done| |rewrite !length_app; simpl; lia..].
  by apply built_new, built_act, built_new, built_act, built_new.
Qed.

Lemma striding_pass_sim c k s p :
  pass_sim h0 act m_act 1 2 (striding_pass_obj c k s p act)
    (striding_pass c k s p m_act).
Proof.
  intros h cin refs mods Hb.
  unfold sim, agree, striding_pass_obj, striding_pass.
  cbv [Conv2d_obj mbind alloc_bind mret alloc_ret lift new].
  destruct (Conv2d_new cin c k s p) as [m1|e]; simpl; [|done].
  split_and!; [done| |rewrite !length_app; simpl; lia..].
  by apply built_act, built_new.
Qed.

(** One more pass. *)
Lemma sim_pass no nr n1 k1 passo passv ro rv :
  pass_sim h0 act m_act no nr passo passv →
  sim h0 act m_act n1 k1 h0 [] ro rv →
  sim h0 act m_act (n1 + no) (k1 + nr) h0 []
    (ro ≫= λ '(st, h), passo st h) (rv ≫= passv).
Proof.
  intros Hpass Hsim. eapply agree_bind; [done|].
  intros [co refs] h [cv mods] (-> & Hb & Hl1 & Hl2).
  eapply agree_impl; [by apply Hpass|].
  intros [co' refs'] h' [cv' mods'] (-> & ? & ? & ?).
  split_and!; [done..|simpl in *; lia|lia].
Qed.

(** The loops, pass by pass. *)
Lemma loop_sim no nr passo passv n cin :
  pass_sim h0 act m_act no nr passo passv →
  module_at h0 act = Some m_act →
  sim h0 act m_act (no * Z.to_nat n) (nr * Z.to_nat n) h0 []
    (for_range n (λ _ st, st ≫= passo) (mret (cin, [])) h0)
    (for_range n (λ _ st, st ≫= passv) (Ok (cin, []))).
Proof.
  intros Hpass Hact.
  pose proof (for_range_ind2
    (λ i (mo : alloc (Z * list ref)) mv,
       sim h0 act m_act (no * Z.to_nat i) (nr * Z.to_nat i) h0 [] (mo h0) mv)
    n (λ _ st, st ≫= passo) (λ _ st, st ≫= passv) (mret (cin, []))
    (Ok (cin, []))) as Hind.
  cbv beta in Hind.
  replace (Z.to_nat (Z.max 0 n)) with (Z.to_nat n) in Hind by lia.
  apply Hind; clear Hind.
  - split_and!; [done|by apply built_nil|simpl; lia..].
  - intros i mo mv Hi Hsim. rewrite bind_run.
    replace (Z.to_nat (i + 1)) with (S (Z.to_nat i)) by lia.
    rewrite !Nat.mul_succ_r. by apply sim_pass.
Qed.

End sim.

(** *** The constructor *)

(** The objects and the layers a stage adds, by strategy. *)
Definition objects_per_stage (subsampling : string) : nat :=
  if decide (subsampling = "vggnet") then 3 else 1.

Definition layers_per_stage (subsampling : string) : nat :=
  if decide (subsampling = "vggnet") then 5 else 2.

(** What the constructor on objects returns, beside the module [self] the
    constructor on values returns: the module of references stands for
    [self]; the stack was built in a heap [h1], and the projection is the
    one object made after it. *)
Definition init_rel (h0 : heap) (act : ref) (m_act : Module)
    (selfo : ConvSubsampling_obj) (h' : heap) (self : ConvSubsampling) : Prop :=
  erase h' selfo = Some self
  ∧ ∃ h1,
      built h0 act m_act h1 (obj_conv selfo) (conv self)
      ∧ h' = h1 ++ [LinearObj (out self)]
      ∧ obj_out selfo = length h1
      ∧ length (obj_conv selfo)
        = (layers_per_stage (obj_subsampling selfo)
           * Z.to_nat (obj_sampling_num selfo))%nat
      ∧ length h1
        = (length h0 + objects_per_stage (obj_subsampling selfo)
                       * Z.to_nat (obj_sampling_num selfo))%nat.

(** The stack with the attributes the branch of a strategy sets. *)
Definition stack_rel (h0 : heap) (act : ref) (m_act : Module) (s : string)
    (R : Z) (ao : Z * Z * Z * bool * list ref) (h1 : heap)
    (av : Z * Z * Z * bool * list Module) : Prop :=
  ao.1 = av.1
  ∧ built h0 act m_act h1 ao.2 av.2
  ∧ length ao.2 = (layers_per_stage s * Z.to_nat R)%nat
  ∧ length h1 = (length h0 + objects_per_stage s * Z.to_nat R)%nat.

Section init.
Context `{FloatOps F}.
Context (h0 : heap) (act : ref) (m_act : Module).

(** The branch of the strategy: the attributes it sets and the stack its
    loop builds. *)
Lemma init_stack_sim s R c :
  module_at h0 act = Some m_act →
  agree (stack_rel h0 act m_act s R)
    ((if decide (s = "vggnet") then
        st ← vggnet_loop_obj R c 2 2 0 true act 1 [];
        mret (0, 2, 2, true, st.2)
      else if decide (s = "striding") then
        st ← striding_loop_obj R c 3 2 1 act 1 [];
        mret (1, 2, 3, false, st.2)
      else
        lift (Err (ValueError ("Not valid sub-sampling: " +:+ s +:+ "!"))))
       h0)
    (if decide (s = "vggnet") then
       st ← vggnet_loop R c 2 2 0 true m_act 1 [];
       Ok (0, 2, 2, true, st.2)
     else if decide (s = "striding") then
       st ← striding_loop R c 3 2 1 m_act 1 [];
       Ok (1, 2, 3, false, st.2)
     else Err (ValueError ("Not valid sub-sampling: " +:+ s +:+ "!"))).
Proof.
  intros Hact. unfold stack_rel, layers_per_stage, objects_per_stage.
  repeat case_decide; [| |done]; rewrite bind_run;
    (eapply agree_bind;
       [apply loop_sim; [apply vggnet_pass_sim || apply striding_pass_sim|done]|]);
    intros [co refs] h1 [cv mods] (-> & Hb & Hl1 & Hl2); by split_and!.
Qed.

Lemma init_obj_sim s factor feat_in feat_out c :
  module_at h0 act = Some m_act →
  agree (init_rel h0 act m_act)
    (ConvSubsampling_init_obj s factor feat_in feat_out c act h0)
    (ConvSubsampling_init s factor feat_in feat_out c m_act).
Proof.
  intros Hact. unfold ConvSubsampling_init_obj, ConvSubsampling_init.
  apply agree_lift. intros [].
  apply agree_lift. intros R.
  rewrite bind_run. eapply agree_bind; [by apply (init_stack_sim s R c)|].
  intros [[[[p st] k] cm] refs] h1 [[[[p' st'] k'] cm'] mods].
  intros ([= <- <- <- <-] & Hb & Hl1 & Hl2). cbn [fst snd] in *.
  apply agree_lift. intros out_length.
  unfold Linear_obj. rewrite bind_assoc. apply agree_lift. intros l.
  rewrite bind_new. cbv [agree mret alloc_ret]. split.
  - unfold erase. cbn [obj_conv obj_out].
    rewrite (built_mapM _ _ _ _ _ _ _ Hb) by by apply prefix_app_r.
    by rewrite linear_at_new.
  - by exists h1.
Qed.

(** The constructor on objects succeeds only where the constructor on
    values does. *)
Lemma init_obj_Ok_inv s factor feat_in feat_out c selfo h' :
  module_at h0 act = Some m_act →
  ConvSubsampling_init_obj s factor feat_in feat_out c act h0 = Ok (selfo, h') →
  ∃ self,
    ConvSubsampling_init s factor feat_in feat_out c m_act = Ok self
    ∧ init_rel h0 act m_act selfo h' self.
Proof.
  intros Hact Hinit.
  pose proof (init_obj_sim s factor feat_in feat_out c Hact) as Hsim.
  rewrite Hinit in Hsim.
  destruct (ConvSubsampling_init s factor feat_in feat_out c m_act) as [self|];
    [by exists self|done].
Qed.

(** The constructor only allocates. *)
Lemma init_obj_framed s factor feat_in feat_out c :
  framed (ConvSubsampling_init_obj s factor feat_in feat_out c act).
Proof.
  unfold ConvSubsampling_init_obj, vggnet_loop_obj, striding_loop_obj,
    vggnet_pass_obj, striding_pass_obj, Conv2d_obj, MaxPool2d_obj, Linear_obj.
  repeat first
    [ apply framed_ret | apply framed_lift | apply framed_new
    | apply framed_for_range | apply framed_bind
    | lazymatch goal with
      | |- framed (match ?p with _ => _ end) => destruct p
      | |- ∀ _, _ => intro
      end ].
Qed.

(** What a module owns: the references of its stack are the activation or
    objects the constructor made, each of these is in the stack once, and
    the projection is the last object made. *)
Lemma init_obj_owns s factor feat_in feat_out c selfo h' :
  module_at h0 act = Some m_act →
  ConvSubsampling_init_obj s factor feat_in feat_out c act h0 = Ok (selfo, h') →
  let R := Z.to_nat (obj_sampling_num selfo) in
  h0 `prefix_of` h'
  ∧ Forall (λ r, r = act ∨ (length h0 ≤ r < obj_out selfo)%nat) (obj_conv selfo)
  ∧ NoDup (filter (λ r, r ≠ act) (obj_conv selfo))
  ∧ length (filter (λ r, r ≠ act) (obj_conv selfo))
    = (objects_per_stage (obj_subsampling selfo) * R)%nat
  ∧ length (obj_conv selfo) = (layers_per_stage (obj_subsampling selfo) * R)%nat
  ∧ obj_out selfo
    = (length h0 + objects_per_stage (obj_subsampling selfo) * R)%nat
  ∧ length h' = S (obj_out selfo).
Proof.
  intros Hact Hinit.
  destruct (init_obj_Ok_inv _ _ _ _ _ _ _ Hact Hinit)
    as (self & _ & _ & h1 & Hb & -> & -> & Hl1 & Hl2).
  pose proof (built_owned _ _ _ _ _ _ Hb).
  destruct Hb as (_ & Hp & _ & Hnd & Hlen).
  split_and!; [by apply prefix_app_r|done..|lia|done|done|].
  rewrite length_app. simpl. lia.
Qed.

End init.

(** ** Theorems *)

(** C17 (refinement).  The constructor on objects refines the constructor
    on values: from any heap in which the reference [act] holds a module
    [m_act], [ConvSubsampling_init_obj] raises the exception
    [ConvSubsampling_init] raises for [m_act], or returns a module of
    references that stands, in the heap it returns, for the module
    [ConvSubsampling_init] returns. *)
Theorem ConvSubsampling_init_obj_refines `{FloatOps F} s factor feat_in
    feat_out c (act : ref) m_act (h : heap) :
  module_at h act = Some m_act →
  (λ '(selfo, h'), erase h' selfo)
    <$> ConvSubsampling_init_obj (F:=F) s factor feat_in feat_out c act h
  = Some <$> ConvSubsampling_init (F:=F) s factor feat_in feat_out c m_act.
Proof.
  intros Hact.
  pose proof (init_obj_sim h act m_act s factor feat_in feat_out c Hact) as Hsim.
  destruct (ConvSubsampling_init_obj _ _ _ _ _ _ _) as [[selfo h']|e],
    (ConvSubsampling_init _ _ _ _ _ _) as [self|e']; simpl in *; try done.
  - destruct Hsim as [-> _]. done.
  - by subst.
Qed.

(** C35 (safety).  Two modules built one after the other with the same
    activation object share that object and nothing else: a reference that
    is in both stacks is the activation, the projections are two objects
    and neither is in a stack, and the first module stands for the same
    layers after the second is built. *)
Theorem modules_share_only_activation `{FloatOps F} s1 factor1 feat_in1
    feat_out1 c1 s2 factor2 feat_in2 feat_out2 c2 (act : ref) m_act
    (h h1 h2 : heap) self1 self2 :
  module_at h act = Some m_act →
  ConvSubsampling_init_obj (F:=F) s1 factor1 feat_in1 feat_out1 c1 act h
  = Ok (self1, h1) →
  ConvSubsampling_init_obj (F:=F) s2 factor2 feat_in2 feat_out2 c2 act h1
  = Ok (self2, h2) →
  (∀ r, r ∈ obj_conv self1 → r ∈ obj_conv self2 → r = act)
  ∧ obj_out self1 ≠ obj_out self2
  ∧ (obj_out self1 ∉ obj_conv self1 ++ obj_conv self2)
  ∧ (obj_out self2 ∉ obj_conv self1 ++ obj_conv self2)
  ∧ erase h2 self1 = erase h1 self1.
Proof.
  intros Hact Hinit1 Hinit2.
  destruct (init_obj_owns _ _ _ _ _ _ _ _ _ _ Hact Hinit1)
    as (Hp1 & Hown1 & _ & _ & _ & Hout1 & Hlen1).
  assert (module_at h1 act = Some m_act) as Hact1 by by eapply module_at_prefix.
  destruct (init_obj_owns _ _ _ _ _ _ _ _ _ _ Hact1 Hinit2)
    as (Hp2 & Hown2 & _ & _ & _ & Hout2 & Hlen2).
  destruct (init_obj_Ok_inv _ _ _ _ _ _ _ _ _ _ Hact Hinit1)
    as (self & _ & Herase & _).
  pose proof (module_at_lt _ _ _ Hact). pose proof (prefix_length _ _ Hp1).
  rewrite Forall_forall in Hown1, Hown2.
  split_and!.
  - intros r Hr1%Hown1 Hr2%Hown2. lia.
  - lia.
  - intros [Hr%Hown1|Hr%Hown2]%elem_of_app; lia.
  - intros [Hr%Hown1|Hr%Hown2]%elem_of_app; lia.
  - by rewrite Herase, (erase_prefix _ _ _ _ Hp2 Herase).
Qed.

(** The object of the activation is replaced in the heap: every module
    that holds it stands for the module the constructor builds with the new
    activation. *)
Theorem activation_replaced `{FloatOps F} s factor feat_in feat_out c
    (act : ref) m_act m_new (h h' : heap) selfo :
  module_at h act = Some m_act →
  ConvSubsampling_init_obj (F:=F) s factor feat_in feat_out c act h
  = Ok (selfo, h') →
  ∃ self,
    ConvSubsampling_init (F:=F) s factor feat_in feat_out c m_new = Ok self
    ∧ erase (<[act:=ModuleObj m_new]> h') selfo = Some self.
Proof.
  intros Hact Hinit. pose proof (module_at_lt _ _ _ Hact) as Hlt.
  apply (framed_insert _ _ _ _ act (ModuleObj m_new)) in Hinit;
    [|apply init_obj_framed|done].
  assert (module_at (<[act:=ModuleObj m_new]> h) act = Some m_new) as Hnew.
  { unfold module_at. by rewrite list_lookup_insert_eq. }
  destruct (init_obj_Ok_inv _ _ _ _ _ _ _ _ _ _ Hnew Hinit) as (self & ? & ? & _).
  by exists self.
Qed.

(** [forward] of a module the constructor returned is the [forward] of the
    module on values, in the heap the constructor returned and in every
    heap that extends it. *)
Theorem forward_obj_stable `{FloatOps F} s factor feat_in feat_out c
    (act : ref) m_act (h h' h2 : heap) selfo x (lengths : tensor1 F) :
  module_at h act = Some m_act →
  ConvSubsampling_init_obj (F:=F) s factor feat_in feat_out c act h
  = Ok (selfo, h') →
  h' `prefix_of` h2 →
  ∃ self,
    ConvSubsampling_init (F:=F) s factor feat_in feat_out c m_act = Ok self
    ∧ ConvSubsampling_forward_obj h2 selfo x lengths
      = Some (ConvSubsampling_forward self x lengths).
Proof.
  intros Hact Hinit Hp.
  destruct (init_obj_Ok_inv _ _ _ _ _ _ _ _ _ _ Hact Hinit)
    as (self & ? & Herase & _).
  exists self. split; [done|]. unfold ConvSubsampling_forward_obj.
  by rewrite (erase_prefix _ _ _ _ Hp Herase).
Qed.

(** The same configuration twice: the two modules are made of different
    objects, stand for the same layers, and their [forward]s return the
    same on every input. *)
Theorem same_configuration `{FloatOps F} s factor feat_in feat_out c
    (act : ref) m_act (h h1 h2 : heap) self1 self2 :
  module_at h act = Some m_act →
  ConvSubsampling_init_obj (F:=F) s factor feat_in feat_out c act h
  = Ok (self1, h1) →
  ConvSubsampling_init_obj (F:=F) s factor feat_in feat_out c act h1
  = Ok (self2, h2) →
  obj_out self1 ≠ obj_out self2
  ∧ (∃ self, erase h2 self1 = Some self ∧ erase h2 self2 = Some self)
  ∧ ∀ x (lengths : tensor1 F),
      ConvSubsampling_forward_obj h2 self1 x lengths
      = ConvSubsampling_forward_obj h2 self2 x lengths.
Proof.
  intros Hact Hinit1 Hinit2.
  destruct (init_obj_owns _ _ _ _ _ _ _ _ _ _ Hact Hinit1)
    as (Hp1 & _ & _ & _ & _ & _ & Hlen1).
  assert (module_at h1 act = Some m_act) as Hact1 by by eapply module_at_prefix.
  destruct (init_obj_owns _ _ _ _ _ _ _ _ _ _ Hact1 Hinit2)
    as (Hp2 & _ & _ & _ & _ & Hout2 & _).
  destruct (init_obj_Ok_inv _ _ _ _ _ _ _ _ _ _ Hact Hinit1)
    as (self & Hself & Hs1 & _).
  destruct (init_obj_Ok_inv _ _ _ _ _ _ _ _ _ _ Hact1 Hinit2)
    as (self' & Hself' & Hs2 & _).
  assert (self' = self) as -> by congruence.
  apply (erase_prefix _ _ _ _ Hp2) in Hs1.
  split; [lia|]. split; [by exists self|].
  intros x lengths. unfold ConvSubsampling_forward_obj. by rewrite Hs1, Hs2.
Qed.

(** ** Witnesses *)

(** The module of the [__main__] block (lines 186-192), built with the
    default activation, and the heap after its construction; a second
    module, of the other strategy, built after it. *)
Definition main_model_obj : ConvSubsampling_obj :=
  {| obj_subsampling := "striding"; obj_sampling_num := 2;
     obj_ceil_mode := false; obj_padding := 1; obj_stride := 2;
     obj_kernel_size := 3; obj_out := 3; obj_conv := [1; 0; 2; 0]%nat |}.

Definition main_heap : heap :=
  [ModuleObj ReLU; ModuleObj (Conv2d 1 256 3 2 1);
   ModuleObj (Conv2d 256 256 3 2 1);
   LinearObj {| in_features := 5120; out_features := 320 |}].

Definition second_model_obj : ConvSubsampling_obj :=
  {| obj_subsampling := "vggnet"; obj_sampling_num := 2;
     obj_ceil_mode := true; obj_padding := 0; obj_stride := 2;
     obj_kernel_size := 2; obj_out := 10;
     obj_conv := [4; 0; 5; 0; 6; 7; 0; 8; 0; 9]%nat |}.

Definition second_heap : heap :=
  main_heap ++
  [ModuleObj (Conv2d 1 256 3 1 1); ModuleObj (Conv2d 256 256 3 1 1);
   ModuleObj (MaxPool2d 2 2 0 true);
   ModuleObj (Conv2d 256 256 3 1 1); ModuleObj (Conv2d 256 256 3 1 1);
   ModuleObj (MaxPool2d 2 2 0 true);
   LinearObj {| in_features := 5120; out_features := 320 |}].

(** The class is defined, then the two modules are built with the
    default. *)
Example main_objects :
  (act ← default_activation;
   model ← ConvSubsampling_init_obj (F:=Q) "striding" 4 80 320 256 act;
   second ← ConvSubsampling_init_obj (F:=Q) "vggnet" 4 80 320 256 act;
   mret (act, model, second)) []
  = Ok ((0%nat, main_model_obj, second_model_obj), second_heap).
Proof. vm_compute. reflexivity. Qed.

Lemma ConvSubsampling_init_obj_refines_witness :
  (λ '(selfo, h'), erase h' selfo)
    <$> ConvSubsampling_init_obj (F:=Q) "striding" 4 80 320 256 0%nat
          [ModuleObj ReLU]
  = Some <$> ConvSubsampling_init (F:=Q) "striding" 4 80 320 256 ReLU.
Proof.
  by apply (ConvSubsampling_init_obj_refines (F:=Q) "striding" 4 80 320 256
              0%nat ReLU [ModuleObj ReLU]).
Defined.

Lemma modules_share_only_activation_witness :
  (∀ r, r ∈ obj_conv main_model_obj → r ∈ obj_conv second_model_obj → r = 0%nat)
  ∧ obj_out main_model_obj ≠ obj_out second_model_obj
  ∧ (obj_out main_model_obj ∉ obj_conv main_model_obj ++ obj_conv second_model_obj)
  ∧ (obj_out second_model_obj ∉ obj_conv main_model_obj ++ obj_conv second_model_obj)
  ∧ erase second_heap main_model_obj = erase main_heap main_model_obj.
Proof.
  apply (modules_share_only_activation (F:=Q) "striding" 4 80 320 256
           "vggnet" 4 80 320 256 0%nat ReLU [ModuleObj ReLU] main_heap
           second_heap);
    [done|vm_compute; reflexivity..].
Defined.

(** The default activation is replaced by a pooling layer: both modules
    pool after every convolution, and the [forward] of the first, whose
    projection was sized for the stack it was built with, raises. *)
Example default_activation_replaced :
  let h := <[0%nat:=ModuleObj (MaxPool2d 2 2 0 true)]> second_heap in
  (conv <$> erase h main_model_obj)
  = Some [Conv2d 1 256 3 2 1; MaxPool2d 2 2 0 true;
          Conv2d 256 256 3 2 1; MaxPool2d 2 2 0 true]
  ∧ ConvSubsampling_forward_obj (F:=Q) h main_model_obj [4; 1600; 80]
      (IntT [1600; 324; 1; 666])
    = Some (Err (RuntimeError "mat1 and mat2 shapes cannot be multiplied"))
  ∧ ConvSubsampling_forward_obj (F:=Q) second_heap main_model_obj [4; 1600; 80]
      (IntT [1600; 324; 1; 666])
    = Some (Ok ([4; 400; 320], [400; 81; 1; 167])).
Proof. repeat split; vm_compute; reflexivity. Qed.
