(* ===== verification/Tensor.v ===== *)
(** * Tensor: tensors with their values, as PyTorch stores them

    A contiguous tensor is its shape and the list of its elements in
    row-major order.  [reshape_data] and [unsqueeze_data] keep the elements
    and change the shape, [pad_time] is
    [torch.nn.functional.pad(x, (0, 0, 0, p))] on a 3-D tensor (the only
    padding the sources use), [transpose12_data] is [x.transpose(1, 2)] on a
    4-D tensor, [Linear_forward_data] applies the affine map of a linear
    layer to every row of the last dimension.  Each operation computes its
    shape with the operation of [Torch] and fails when that one fails.

    [chunks n k l] cuts the first [k] rows of [n] elements out of a flat
    list; its lemmas (lookup, concatenation, regrouping) carry the proofs
    about frames and stacked frames. *)

From Stdlib Require Import ZArith Lia.
From stdpp Require Import base tactics numbers list strings.
From S2P Require Import Prelude.
From S2P Require Import Torch.

#[local] Open Scope Z_scope.

(** ** Rows of a flat list *)

(** The first [k] rows of [n] elements of [l]. *)
Fixpoint chunks {A} (n k : nat) (l : list A) : list (list A) :=
  match k with
  | O => []
  | S k => take n l :: chunks n k (drop n l)
  end.

Section chunks.
Context {A : Type}.
Implicit Types (l : list A) (ls : list (list A)) (n k m i : nat).

Lemma length_chunks n k l : length (chunks n k l) = k.
Proof. revert l. induction k; intros; simpl; auto. Qed.

Lemma chunks_lookup n k l i :
  (i < k)%nat → chunks n k l !! i = Some (take n (drop (i * n) l)).
Proof.
  revert l i. induction k as [|k IH]; intros l [|i] Hi; try lia; [done|].
  simpl. rewrite IH by lia. by rewrite drop_drop.
Qed.

Lemma chunks_lookup_ge n k l i : (k ≤ i)%nat → chunks n k l !! i = None.
Proof. intros. apply lookup_ge_None_2. by rewrite length_chunks. Qed.

(** Rows cut out of a list that is long enough are full. *)
Lemma Forall_length_chunks n k l :
  (k * n ≤ length l)%nat → Forall (λ c, length c = n) (chunks n k l).
Proof.
  revert l. induction k as [|k IH]; intros l Hl; simpl; constructor.
  - rewrite length_take. lia.
  - apply IH. rewrite length_drop. lia.
Qed.

Lemma chunks_app n k1 k2 l1 l2 :
  length l1 = (k1 * n)%nat →
  chunks n (k1 + k2) (l1 ++ l2) = chunks n k1 l1 ++ chunks n k2 l2.
Proof.
  revert l1. induction k1 as [|k1 IH]; intros l1 Hl; simpl in *.
  - by destruct l1.
  - rewrite take_app_le, drop_app_le by lia. f_equal.
    apply IH. rewrite length_drop. lia.
Qed.

(** Cutting into rows and concatenating gives the list back. *)
Lemma concat_chunks n k l : (length l ≤ k * n)%nat → concat (chunks n k l) = l.
Proof.
  revert l. induction k as [|k IH]; intros l Hl; simpl in *.
  - destruct l; [done|simpl in *; lia].
  - rewrite IH by (rewrite length_drop; lia). apply take_drop.
Qed.

(** Concatenating rows of one length and cutting gives the rows back. *)
Lemma chunks_concat n ls :
  Forall (λ c, length c = n) ls → chunks n (length ls) (concat ls) = ls.
Proof.
  induction 1 as [|c ls Hc _ IH]; simpl; [done|].
  rewrite take_app_length', drop_app_length' by done. by rewrite IH.
Qed.

Lemma length_concat_uniform n ls :
  Forall (λ c, length c = n) ls → length (concat ls) = (length ls * n)%nat.
Proof.
  induction 1 as [|c ls Hc _ IH]; simpl; [done|]. rewrite length_app. lia.
Qed.

(** Rows of blocks: cutting a concatenation of blocks of [m] rows each. *)
Lemma chunks_concat_blocks n m ls :
  Forall (λ c, length c = (m * n)%nat) ls →
  chunks n (length ls * m) (concat ls) = concat (chunks n m <$> ls).
Proof.
  induction 1 as [|c ls Hc _ IH]; simpl; [done|].
  rewrite chunks_app by done. by rewrite IH.
Qed.

(** Rows of [n * m] elements are groups of [n] rows of [m] elements. *)
Lemma chunks_group n m k ls :
  Forall (λ c, length c = m) ls →
  chunks (n * m) k (concat ls) = @concat A <$> chunks n k ls.
Proof.
  intros Hls. revert ls Hls. induction k as [|k IH]; intros ls Hls; [done|].
  simpl. rewrite <-(take_drop n ls) at 1 2. rewrite concat_app.
  assert (Forall (λ c, length c = m) (take n ls)) as Ht by by apply Forall_take.
  assert (Forall (λ c, length c = m) (drop n ls)) as Hd by by apply Forall_drop.
  destruct (decide (n ≤ length ls)%nat) as [Hn|Hn].
  - assert (length (concat (take n ls)) = (n * m)%nat) as Hlen.
    { by rewrite (length_concat_uniform m), length_take, Nat.min_l
        by (done || lia). }
    rewrite take_app_length', drop_app_length' by done. by rewrite IH.
  - assert (length (concat (take n ls)) ≤ n * m)%nat as Hlen.
    { rewrite (length_concat_uniform m), length_take by done. nia. }
    rewrite (drop_ge ls) by lia. cbn [concat].
    rewrite app_nil_r, take_ge, drop_ge by lia. f_equal. by apply (IH []).
Qed.

(** Row [i] of a concatenation of rows of one length. *)
Lemma concat_row n ls i c :
  Forall (λ c, length c = n) ls → ls !! i = Some c →
  take n (drop (i * n) (concat ls)) = c.
Proof.
  intros Hls Hi. apply (inj Some). rewrite <-Hi.
  rewrite <-(chunks_concat n ls) at 2 by done.
  symmetry. apply chunks_lookup. by eapply lookup_lt_Some.
Qed.

Lemma concat_lookup_row n ls i k c :
  Forall (λ c, length c = n) ls → ls !! i = Some c → (k < n)%nat →
  concat ls !! (i * n + k)%nat = c !! k.
Proof.
  intros Hls Hi Hk. rewrite <-(concat_row n ls i c) by done.
  by rewrite lookup_take_lt, lookup_drop by done.
Qed.

Lemma concat_fmap_concat (lss : list (list (list A))) :
  concat (@concat A <$> lss) = concat (concat lss).
Proof.
  induction lss as [|ls lss IH]; [done|]. csimpl. by rewrite concat_app, IH.
Qed.

Lemma fmap_concat {B} (f : A → B) ls :
  fmap (M:=list) f (concat ls) = concat (fmap (M:=list) (fmap f) ls).
Proof. induction ls as [|c ls IH]; [done|]. csimpl. by rewrite fmap_app, IH. Qed.

Lemma concat_replicate n m (x : A) :
  concat (replicate n (replicate m x)) = replicate (n * m) x.
Proof. induction n as [|n IH]; [done|]. simpl. by rewrite replicate_add, IH. Qed.

End chunks.

(** ** Tensors *)

(** A contiguous tensor: its shape and its elements in row-major order. *)
Record tensor (A : Type) : Type := {
  t_shape : list Z;
  t_data : list A
}.
Arguments t_shape {A} _.
Arguments t_data {A} _.
Arguments Build_tensor {A} _ _.

Section tensor.
Context {A : Type}.
Implicit Types (x : tensor A) (W : list A → list A).

(** The tensor holds as many elements as its shape says. *)
Definition tensor_wf (x : tensor A) : Prop :=
  Forall (λ d, 0 ≤ d) (t_shape x)
  ∧ Z.of_nat (length (t_data x)) = shape_numel (t_shape x).

#[export] Instance tensor_wf_dec x : Decision (tensor_wf x).
Proof. unfold tensor_wf. apply _. Defined.

(** [x[i, j, :]] of a 3-D tensor: frame [j] of item [i]. *)
Definition frame (x : tensor A) (i j : nat) : list A :=
  match t_shape x with
  | [_; t; h] =>
      take (Z.to_nat h) (drop ((i * Z.to_nat t + j) * Z.to_nat h) (t_data x))
  | _ => []
  end.

(** [x.reshape(target)] of a contiguous tensor keeps the elements. *)
Definition reshape_data (x : tensor A) (target : list Z) : result (tensor A) :=
  s ← reshape (t_shape x) target;
  Ok {| t_shape := s; t_data := t_data x |}.

(** [torch.nn.functional.pad(x, (0, 0, 0, pad_size))] of a 3-D tensor with
    the constant [zero]: every item gets [pad_size] frames of [zero] at its
    end, or loses its last frames when [pad_size] is negative. *)
Definition pad_time (zero : A) (x : tensor A) (pad_size : Z) :
    result (tensor A) :=
  s ← pad (t_shape x) [0; 0; 0; pad_size];
  '(b, t, h) ← size3 (t_shape x);
  let pad_item item :=
    take (Z.to_nat ((t + pad_size) * h))
      (item ++ replicate (Z.to_nat (pad_size * h)) zero) in
  Ok {| t_shape := s;
        t_data := concat (pad_item
                            <$> chunks (Z.to_nat (t * h)) (Z.to_nat b)
                                  (t_data x)) |}.

(** A linear layer applied to a tensor: the affine map [W] of the layer on
    every row of the last dimension. *)
Definition Linear_forward_data (m : Linear) W (x : tensor A) :
    result (tensor A) :=
  s ← Linear_forward m (t_shape x);
  let rows := shape_numel (take (length (t_shape x) - 1) (t_shape x)) in
  Ok {| t_shape := s;
        t_data := concat (W <$> chunks (Z.to_nat (in_features m))
                                  (Z.to_nat rows) (t_data x)) |}.

End tensor.

(** ** Tensors of shape (B, T, H) *)

(** Sizes given as natural numbers. *)
Definition shape3 (B T H : nat) : list Z :=
  [Z.of_nat B; Z.of_nat T; Z.of_nat H].

(** The frames of a 3-D tensor, item by item. *)
Definition frames {A} (x : tensor A) : list (list (list A)) :=
  match t_shape x with
  | [b; t; h] =>
      chunks (Z.to_nat h) (Z.to_nat t)
        <$> chunks (Z.to_nat (t * h)) (Z.to_nat b) (t_data x)
  | _ => []
  end.

(** Bring casts of sums and products of natural numbers to the outside and
    cancel them. *)
Ltac nat_cast :=
  rewrite <-?Nat2Z.inj_mul, <-?Nat2Z.inj_add, ?Nat2Z.id.

Section tensor_lemmas.
Context {A : Type}.
Implicit Types (x : tensor A) (B T H P i j : nat).

(** A list of [B] items of [T] frames of [H] elements. *)
Definition frames_wf B T H (fss : list (list (list A))) : Prop :=
  length fss = B
  ∧ Forall (λ fs, length fs = T ∧ Forall (λ fr, length fr = H) fs) fss.

Lemma tensor_wf_shape3 x B T H :
  t_shape x = shape3 B T H → tensor_wf x →
  length (t_data x) = (B * (T * H))%nat.
Proof.
  intros Hs [_ Hn]. rewrite Hs in Hn. unfold shape3 in Hn.
  autorewrite with subsampling in Hn.
  apply Nat2Z.inj. by rewrite Hn, !Nat2Z.inj_mul, Z.mul_1_r.
Qed.

Lemma frames_shape3 x B T H :
  t_shape x = shape3 B T H →
  frames x = chunks H T <$> chunks (T * H) B (t_data x).
Proof. intros Hs. unfold frames. rewrite Hs. simpl. by nat_cast. Qed.

Lemma frames_wf_frames x B T H :
  t_shape x = shape3 B T H → tensor_wf x → frames_wf B T H (frames x).
Proof.
  intros Hs Hwf. rewrite (frames_shape3 x B T H) by done.
  split; [by rewrite length_fmap, length_chunks|].
  apply Forall_fmap.
  eapply Forall_impl;
    [apply Forall_length_chunks; rewrite (tensor_wf_shape3 x B T H); done|].
  intros item Hitem. simpl in *. split; [apply length_chunks|].
  apply Forall_length_chunks. lia.
Qed.

(** The elements of a tensor are its frames, in order. *)
Lemma concat_frames x B T H :
  t_shape x = shape3 B T H → tensor_wf x →
  concat (@concat A <$> frames x) = t_data x.
Proof.
  intros Hs Hwf. rewrite (frames_shape3 x B T H), <-list_fmap_compose by done.
  rewrite (Forall_fmap_ext_1 _ id), list_fmap_id.
  - apply concat_chunks. rewrite (tensor_wf_shape3 x B T H); done.
  - eapply Forall_impl;
      [apply Forall_length_chunks; rewrite (tensor_wf_shape3 x B T H); done|].
    intros item Hitem. simpl in *. apply concat_chunks. lia.
Qed.

Lemma frames_wf_concat B T H fss :
  frames_wf B T H fss →
  length (concat fss) = (B * T)%nat ∧ Forall (λ fr, length fr = H) (concat fss).
Proof.
  intros [<- Hfss]. split.
  - apply length_concat_uniform. eapply Forall_impl; [done|]. by intros ? [? _].
  - apply Forall_concat. eapply Forall_impl; [done|]. by intros ? [_ ?].
Qed.

Lemma frames_item x B T H i :
  t_shape x = shape3 B T H → tensor_wf x → (i < B)%nat →
  ∃ fs, frames x !! i = Some fs
        ∧ length fs = T ∧ Forall (λ fr, length fr = H) fs.
Proof.
  intros Hs Hwf Hi. destruct (frames_wf_frames x B T H Hs Hwf) as [HB Hfss].
  destruct (lookup_lt_is_Some_2 (frames x) i) as [fs Hfs]; [lia|].
  exists fs. split; [done|]. by apply (Forall_lookup_1 _ _ _ _ Hfss Hfs).
Qed.

(** Frame [j] of item [i] is [x[i, j, :]]. *)
Lemma frames_lookup x B T H i j :
  t_shape x = shape3 B T H → (i < B)%nat → (j < T)%nat →
  ∃ fs, frames x !! i = Some fs ∧ fs !! j = Some (frame x i j).
Proof.
  intros Hs Hi Hj. rewrite (frames_shape3 x B T H) by done.
  eexists. rewrite list_lookup_fmap, chunks_lookup by done. split; [done|].
  rewrite chunks_lookup by done. f_equal. unfold frame. rewrite Hs.
  cbn [shape3]. rewrite !Nat2Z.id.
  rewrite take_drop_commute, take_take, Nat.min_l by nia.
  rewrite <-take_drop_commute, drop_drop. do 2 f_equal. lia.
Qed.

(** Frame [k] of item [i] of a tensor (B, Q, O) given by its rows. *)
Lemma frame_of_rows B Q O (o : Z) (rows : list (list A)) i k row :
  o = Z.of_nat O → Forall (λ r, length r = O) rows →
  rows !! (i * Q + k)%nat = Some row →
  frame {| t_shape := [Z.of_nat B; Z.of_nat Q; o]; t_data := concat rows |} i k
  = row.
Proof.
  intros -> Hrows Hrow. unfold frame. cbn [t_shape t_data].
  rewrite !Nat2Z.id. by apply concat_row.
Qed.

(** Rows of [F] frames: cutting the elements of [B] items of [Q * F]
    frames into rows of [F * H] elements groups the frames of every item by
    [F]. *)
Lemma chunks_frames B Q F H fss :
  frames_wf B (Q * F) H fss →
  chunks (F * H) (B * Q) (concat (@concat A <$> fss))
  = concat ((λ fs, @concat A <$> chunks F Q fs) <$> fss).
Proof.
  intros Hfss. destruct (frames_wf_concat _ _ _ _ Hfss) as [_ Hfr].
  destruct Hfss as [<- Hfss].
  rewrite concat_fmap_concat, (chunks_group F H) by done.
  rewrite chunks_concat_blocks, fmap_concat, <-list_fmap_compose; [done|].
  eapply Forall_impl; [done|]. by intros ? [? _].
Qed.

(** Padding appends [P] frames of [zero] to the frames of every item. *)
Lemma pad_time_spec zero x B T H P :
  t_shape x = shape3 B T H → tensor_wf x →
  pad_time zero x (Z.of_nat P)
  = Ok {| t_shape := shape3 B (T + P) H;
          t_data := concat (@concat A
                      <$> ((λ fs, fs ++ replicate P (replicate H zero))
                             <$> frames x)) |}.
Proof.
  intros Hs Hwf. unfold pad_time. rewrite Hs. unfold shape3.
  rewrite pad_time_axis by lia. cbn [mbind result_bind size3].
  rewrite (frames_shape3 x B T H), <-!list_fmap_compose by done.
  nat_cast. do 3 f_equal. apply Forall_fmap_ext_1.
  eapply Forall_impl;
    [apply Forall_length_chunks; rewrite (tensor_wf_shape3 x B T H); done|].
  intros item Hitem. simpl in *.
  rewrite take_ge by (rewrite length_app, length_replicate; lia).
  by rewrite concat_app, concat_chunks, concat_replicate by lia.
Qed.

Lemma frames_wf_pad zero B T H P fss :
  frames_wf B T H fss →
  frames_wf B (T + P) H ((λ fs, fs ++ replicate P (replicate H zero)) <$> fss).
Proof.
  intros [HB Hfss]. split; [by rewrite length_fmap|].
  apply Forall_fmap. eapply Forall_impl; [done|]. intros fs [Hlen Hfs]. simpl.
  rewrite length_app, length_replicate, Forall_app. repeat split; [lia|done|].
  apply Forall_replicate, length_replicate.
Qed.

(** The linear layer maps every frame of a tensor (B, T, H). *)
Lemma Linear_forward_data_3d m W x B T H :
  t_shape x = shape3 B T H → in_features m = Z.of_nat H →
  Linear_forward_data m W x
  = Ok {| t_shape := [Z.of_nat B; Z.of_nat T; out_features m];
          t_data := concat (W <$> chunks H (B * T) (t_data x)) |}.
Proof.
  intros Hs Hin. unfold Linear_forward_data. rewrite Hs. unfold shape3.
  rewrite Linear_forward_3d, Hin by done. cbn [mbind result_bind length].
  cbn [Nat.sub take]. autorewrite with subsampling.
  by rewrite Z.mul_1_r; nat_cast.
Qed.

End tensor_lemmas.

(** ** Tensors of shape (B, C, T, F) *)

Definition shape4 (B C T F : nat) : list Z :=
  [Z.of_nat B; Z.of_nat C; Z.of_nat T; Z.of_nat F].

Section tensor4.
Context {A : Type}.
Implicit Types (x : tensor A) (B C T F i j k : nat).

(** [x[i, j, k, :]] of a 4-D tensor. *)
Definition frame4 (x : tensor A) (i j k : nat) : list A :=
  match t_shape x with
  | [_; c; t; f] =>
      take (Z.to_nat f)
        (drop (((i * Z.to_nat c + j) * Z.to_nat t + k) * Z.to_nat f) (t_data x))
  | _ => []
  end.

(** [x.unsqueeze(dim)] keeps the elements. *)
Definition unsqueeze_data (dim : nat) (x : tensor A) : result (tensor A) :=
  s ← unsqueeze dim (t_shape x);
  Ok {| t_shape := s; t_data := t_data x |}.

(** [x.transpose(1, 2)] of a 4-D tensor (b, c, t, f), in the row-major
    order of its new shape (b, t, c, f): element [i, k, j, :] of the result
    is [x[i, j, k, :]].  (PyTorch returns a view; the [reshape] that follows
    in the sources reads it in this order.) *)
Definition transpose12_data (x : tensor A) : result (tensor A) :=
  s ← transpose 1 2 (t_shape x);
  '(b, c, t, f) ← size4 (t_shape x);
  Ok {| t_shape := s;
        t_data :=
          concat (concat ((λ i,
            concat ((λ k, (λ j, frame4 x i j k) <$> seq 0 (Z.to_nat c))
                      <$> seq 0 (Z.to_nat t)))
            <$> seq 0 (Z.to_nat b))) |}.

(** Row [i * m + k] of [n] blocks of [m] rows. *)
Lemma lookup_concat_fmap_seq {X} (g : nat → list X) n m i k :
  (∀ i, (i < n)%nat → length (g i) = m) → (i < n)%nat → (k < m)%nat →
  concat (g <$> seq 0 n) !! (i * m + k)%nat = g i !! k.
Proof.
  intros Hg Hi Hk. apply concat_lookup_row; [|by rewrite list_lookup_fmap, lookup_seq_lt|done].
  apply Forall_fmap, Forall_forall. intros j [_ ?]%elem_of_seq. by apply Hg.
Qed.

Lemma frame4_shape4 x B C T F i j k :
  t_shape x = shape4 B C T F →
  frame4 x i j k = take F (drop (((i * C + j) * T + k) * F) (t_data x)).
Proof. intros Hs. unfold frame4. rewrite Hs. simpl. by rewrite !Nat2Z.id. Qed.

Lemma length_frame4 x B C T F i j k :
  t_shape x = shape4 B C T F → tensor_wf x →
  (i < B)%nat → (j < C)%nat → (k < T)%nat → length (frame4 x i j k) = F.
Proof.
  intros Hs [_ Hn] Hi Hj Hk. rewrite (frame4_shape4 x B C T F) by done.
  rewrite Hs in Hn. unfold shape4 in Hn. autorewrite with subsampling in Hn.
  rewrite Z.mul_1_r, <-!Nat2Z.inj_mul in Hn. apply Nat2Z.inj in Hn.
  rewrite length_take, length_drop, Hn.
  assert (i * C + j + 1 ≤ B * C)%nat as Hij by nia.
  apply (Nat.mul_le_mono_r _ _ T) in Hij.
  assert ((i * C + j) * T + k + 1 ≤ B * C * T)%nat as Hidx by lia.
  apply (Nat.mul_le_mono_r _ _ F) in Hidx. lia.
Qed.

(** The transposed tensor, by the rows of its new shape (B, T, C * F). *)
Lemma transpose12_data_spec x B C T F :
  t_shape x = shape4 B C T F →
  transpose12_data x
  = Ok {| t_shape := shape4 B T C F;
          t_data :=
            concat (concat ((λ i,
              concat ((λ k, (λ j, frame4 x i j k) <$> seq 0 C) <$> seq 0 T))
              <$> seq 0 B)) |}.
Proof.
  intros Hs. unfold transpose12_data. rewrite Hs.
  cbn [shape4 transpose size4 lookup list_lookup mbind result_bind].
  by rewrite !Nat2Z.id.
Qed.

(** The rows of [C * F] elements of the transposed tensor: row [k] of item
    [i] joins [x[i, j, k, :]] for the channels [j] in order. *)
Lemma chunks_transposed x B C T F :
  t_shape x = shape4 B C T F → tensor_wf x →
  chunks (C * F) (B * T)
    (concat (concat ((λ i,
       concat ((λ k, (λ j, frame4 x i j k) <$> seq 0 C) <$> seq 0 T))
       <$> seq 0 B)))
  = concat ((λ i, (λ k, concat ((λ j, frame4 x i j k) <$> seq 0 C))
                    <$> seq 0 T) <$> seq 0 B).
Proof.
  intros Hs Hwf.
  set (G := λ i, (λ k, (λ j, frame4 x i j k) <$> seq 0 C) <$> seq 0 T).
  assert (Forall (λ gs, length gs = T
                        ∧ Forall (λ g, length g = C
                                       ∧ Forall (λ r, length r = F) g) gs)
            (G <$> seq 0 B)) as HG.
  { apply Forall_fmap, Forall_forall. intros i [_ Hi]%elem_of_seq.
    unfold G. simpl.
    split; [by rewrite length_fmap, length_seq|].
    apply Forall_fmap, Forall_forall. intros k [_ Hk]%elem_of_seq. simpl.
    split; [by rewrite length_fmap, length_seq|].
    apply Forall_fmap, Forall_forall. intros j [_ Hj]%elem_of_seq. simpl.
    apply (length_frame4 x B C T F); done || lia. }
  change (concat (concat ((λ i, concat (G i)) <$> seq 0 B)))
    with (concat (concat ((λ gs, concat gs) <$> (G <$> seq 0 B)))).
  rewrite (list_fmap_compose G (λ gs, concat gs)), concat_fmap_concat.
  assert (Forall (λ g, length g = C ∧ Forall (λ r, length r = F) g)
            (concat (G <$> seq 0 B))) as Hgroups.
  { apply Forall_concat. eapply Forall_impl; [done|]. by intros ? [_ ?]. }
  rewrite (chunks_group C F).
  - replace (B * T)%nat with (length (concat (G <$> seq 0 B))).
    + rewrite chunks_concat by (eapply Forall_impl; [done|]; by intros ? [? _]).
      rewrite fmap_concat, <-list_fmap_compose. f_equal.
      apply list_fmap_ext. intros _ i _. unfold G. simpl.
      by rewrite <-list_fmap_compose.
    + rewrite (length_concat_uniform T), length_fmap, length_seq; [done|].
      eapply Forall_impl; [done|]. by intros ? [? _].
  - apply Forall_concat. eapply Forall_impl; [done|]. by intros ? [_ ?].
Qed.

End tensor4.
