(* ===== verification/StackingData.v ===== *)
(** * StackingData: [StackingSubsampling.forward] on the values of the tensor

    [StackingSubsampling_forward_data] is [forward] (subsampling.py, lines
    34-46) on a tensor with its elements: the same statements as
    [StackingSubsampling_forward], each operation now acting on the data
    ([pad_time], [reshape_data], [Linear_forward_data] of [Tensor]).  The
    padding constant [zero] and the affine map [W] of the projection are
    parameters.

    [stack_item] is the reference: the frames of one item, followed by the
    padding frames, grouped by the factor.  The theorems show that [forward]
    on data has the shapes and lengths of [forward] on shapes, that it
    computes [W] of the stacked frames of [stack_item], which input frames
    every output frame holds, and how the reported lengths relate to the
    output frames that hold valid input. *)

From Stdlib Require Import ZArith Lia.
From stdpp Require Import base tactics numbers list strings.
From S2P Require Import Prelude.
From S2P Require Import Torch.
From S2P Require Import Stacking.
From S2P Require Import Tensor.

#[local] Open Scope Z_scope.

Section forward_data.
Context {A : Type} (zero : A).
Implicit Types (self : StackingSubsampling) (W : list A → list A).
Implicit Types (x y : tensor A) (lengths : list Z) (B T H F P Q O i j k : nat).

(** [StackingSubsampling.forward] *)
Definition StackingSubsampling_forward_data self W
    (x : tensor A) (lengths : list Z) : result (tensor A * list Z) :=
  '(b, t, h) ← size3 (t_shape x);
  r ← py_mod t (subsampling_factor self);
  let pad_size := subsampling_factor self - r in
  x ← pad_time zero x pad_size;
  '(_, t, _) ← size3 (t_shape x);
  q ← py_floordiv t (subsampling_factor self);
  x ← reshape_data x [b; q; h * subsampling_factor self];
  x ← Linear_forward_data (proj_out self) W x;
  lengths ← int_div_floor (int_add_scalar lengths pad_size)
               (subsampling_factor self);
  Ok (x, lengths).

(** The stacked frames of one item of frames of [H] elements, for a
    positive factor [F]: [F - t % F] padding frames are appended, then
    every [F] consecutive frames are joined ([t // F + 1] groups). *)
Definition stack_item F H (fs : list (list A)) : list (list A) :=
  let P := (F - length fs mod F)%nat in
  let Q := (length fs / F + 1)%nat in
  @concat A <$> chunks F Q (fs ++ replicate P (replicate H zero)).

(** ** Lemmas *)

Lemma pad_size_nat T F :
  (0 < F)%nat →
  Z.of_nat F - Z.of_nat T mod Z.of_nat F = Z.of_nat (F - T mod F).
Proof.
  intros. pose proof (Nat.mod_upper_bound T F).
  rewrite Nat2Z.inj_sub, Nat2Z.inj_mod by lia. done.
Qed.

Lemma padded_time_nat T F :
  (0 < F)%nat → (T + (F - T mod F) = (T / F + 1) * F)%nat.
Proof.
  intros. pose proof (Nat.mod_upper_bound T F).
  pose proof (Nat.div_mod_eq T F). nia.
Qed.

Lemma stacked_time_nat T F : Z.of_nat T / Z.of_nat F + 1 = Z.of_nat (T / F + 1).
Proof. by rewrite Nat2Z.inj_add, Nat2Z.inj_div. Qed.

Lemma padded_time_div_nat T F :
  (0 < F)%nat →
  Z.of_nat (T + (F - T mod F)) / Z.of_nat F = Z.of_nat (T / F + 1).
Proof.
  intros. rewrite padded_time_nat, Nat2Z.inj_mul, Z.div_mul by lia. done.
Qed.

Lemma stacked_length_nat T F l :
  (0 < F)%nat →
  (l + Z.of_nat (F - T mod F)) / Z.of_nat F
  = stacked_length (Z.of_nat T) (Z.of_nat F) l.
Proof.
  intros. unfold stacked_length, pad_size_of. by rewrite pad_size_nat.
Qed.

(** Reshaping a padded tensor keeps its elements. *)
Lemma reshape_data_stack x B Q H F :
  (0 < F)%nat → t_shape x = shape3 B (Q * F) H →
  reshape_data x [Z.of_nat B; Z.of_nat Q; Z.of_nat H * Z.of_nat F]
  = Ok {| t_shape := shape3 B Q (F * H); t_data := t_data x |}.
Proof.
  intros HF Hs. unfold reshape_data, shape3. rewrite Hs. unfold shape3.
  rewrite Nat2Z.inj_mul, (Z.mul_comm _ (Z.of_nat F)), reshape_stack by lia.
  cbn [mbind result_bind].
  by rewrite (Nat2Z.inj_mul F), (Z.mul_comm (Z.of_nat F)).
Qed.

(** The rows the projection sees are the stacked frames of [stack_item]. *)
Lemma stacked_rows x B T H F :
  (0 < F)%nat → t_shape x = shape3 B T H → tensor_wf x →
  chunks (F * H) (B * (T / F + 1))
    (concat (@concat A
               <$> ((λ fs, fs ++ replicate (F - T mod F) (replicate H zero))
                      <$> frames x)))
  = concat (stack_item F H <$> frames x).
Proof.
  intros HF Hs Hwf. pose proof (frames_wf_frames x B T H Hs Hwf) as Hfss.
  rewrite (chunks_frames B (T / F + 1) F H).
  - rewrite <-list_fmap_compose. f_equal. apply Forall_fmap_ext_1.
    eapply Forall_impl; [apply Hfss|]. intros fs [Hlen _]. simpl.
    unfold stack_item. by rewrite Hlen.
  - rewrite <-padded_time_nat by done. by apply frames_wf_pad.
Qed.

(** [forward] on data, step by step: the projection of the stacked frames
    of every item. *)
Lemma forward_data_spec W F (feat_out : Z) x B T H lengths :
  (0 < F)%nat → t_shape x = shape3 B T H → tensor_wf x →
  StackingSubsampling_forward_data
    (stacking_module (Z.of_nat F) (Z.of_nat H) feat_out) W x lengths
  = Ok ({| t_shape := [Z.of_nat B; Z.of_nat (T / F + 1); feat_out];
           t_data := concat (W <$> concat (stack_item F H <$> frames x)) |},
        stacked_length (Z.of_nat T) (Z.of_nat F) <$> lengths).
Proof.
  intros HF Hs Hwf.
  unfold StackingSubsampling_forward_data, stacking_module, py_mod,
    py_floordiv, int_div_floor, int_add_scalar.
  cbn [subsampling_factor proj_out]. rewrite Hs at 1.
  cbn [shape3 size3 mbind result_bind].
  destruct (decide (Z.of_nat F = 0)) as [?|_]; [lia|]. cbn [mbind result_bind].
  rewrite pad_size_nat, (pad_time_spec zero x B T H) by done.
  cbn [mbind result_bind t_shape shape3 size3].
  rewrite padded_time_div_nat by done.
  erewrite reshape_data_stack;
    [|done|by cbn [t_shape]; rewrite padded_time_nat by done].
  cbn [mbind result_bind t_data].
  erewrite (Linear_forward_data_3d _ _ _ B (T / F + 1) (F * H));
    [|done|by cbn [in_features]; rewrite Nat2Z.inj_mul].
  cbn [mbind result_bind t_data out_features].
  rewrite (stacked_rows x B T H F), <-list_fmap_compose by done.
  do 2 f_equal. apply list_fmap_ext. intros _ l _. simpl.
  by apply stacked_length_nat.
Qed.

Lemma length_stack_item F H fs :
  length (stack_item F H fs) = (length fs / F + 1)%nat.
Proof. unfold stack_item. by rewrite length_fmap, length_chunks. Qed.

(** Frame [j] of the padded item lies in stacked frame [j / F], at offset
    [(j mod F) * H]. *)
Lemma stack_item_lookup F H fs j fr :
  (0 < F)%nat → Forall (λ fr, length fr = H) fs →
  (fs ++ replicate (F - length fs mod F) (replicate H zero)) !! j = Some fr →
  ∃ g, stack_item F H fs !! (j / F)%nat = Some g
       ∧ length g = (F * H)%nat
       ∧ take H (drop (j mod F * H) g) = fr.
Proof.
  intros HF Hfs Hj. unfold stack_item. set (padded := fs ++ _) in *.
  assert (length padded = ((length fs / F + 1) * F)%nat) as Hlen.
  { unfold padded. rewrite length_app, length_replicate.
    by apply padded_time_nat. }
  assert (Forall (λ fr, length fr = H) padded) as Hpadded.
  { apply Forall_app. split; [done|]. apply Forall_replicate, length_replicate. }
  pose proof (lookup_lt_Some _ _ _ Hj) as Hlt.
  pose proof (Nat.div_mod_eq j F) as Hdm. pose proof (Nat.mod_upper_bound j F).
  assert (j / F < length fs / F + 1)%nat as Hk
    by (apply Nat.Div0.div_lt_upper_bound; lia).
  set (group := take F (drop (j / F * F) padded)).
  assert (group !! (j mod F)%nat = Some fr) as Hgr.
  { unfold group. rewrite lookup_take_lt, lookup_drop by lia.
    rewrite <-Hj. f_equal. lia. }
  assert (Forall (λ fr, length fr = H) group) as HgrH
    by by apply Forall_take, Forall_drop.
  assert (length group = F) as HgrF.
  { unfold group. rewrite length_take, length_drop. nia. }
  exists (concat group). split; [|split].
  - by rewrite list_lookup_fmap, chunks_lookup by done.
  - by rewrite (length_concat_uniform H), HgrF.
  - by apply concat_row.
Qed.

(** When the factor divides the number of frames, the last stacked frame
    holds padding only. *)
Lemma stack_item_last F H fs :
  (0 < F)%nat → (length fs mod F = 0)%nat →
  stack_item F H fs !! (length fs / F)%nat = Some (replicate (F * H) zero).
Proof.
  intros HF Hmod. unfold stack_item.
  rewrite list_lookup_fmap, chunks_lookup by lia. cbn [fmap option_fmap option_map].
  pose proof (Nat.div_mod_eq (length fs) F).
  rewrite drop_app_length' by lia.
  by rewrite Hmod, Nat.sub_0_r, take_replicate, Nat.min_id, concat_replicate.
Qed.

(** Output frame [k] of item [i] is [W] of stacked frame [k] of the item. *)
Lemma forward_data_stacked W F O x B T H lengths i fs k g :
  (0 < F)%nat → t_shape x = shape3 B T H → tensor_wf x →
  (∀ v, length (W v) = O) →
  frames x !! i = Some fs → stack_item F H fs !! k = Some g →
  ∃ y,
    StackingSubsampling_forward_data
      (stacking_module (Z.of_nat F) (Z.of_nat H) (Z.of_nat O))
      W x lengths
    = Ok (y, stacked_length (Z.of_nat T) (Z.of_nat F) <$> lengths)
    ∧ frame y i k = W g.
Proof.
  intros HF Hs Hwf HW Hfs Hg. eexists. split; [by apply forward_data_spec|].
  destruct (frames_wf_frames x B T H Hs Hwf) as [_ Hfss].
  apply (frame_of_rows B (T / F + 1) O); [done|by apply Forall_fmap, Forall_true|].
  rewrite list_lookup_fmap.
  erewrite (concat_lookup_row (T / F + 1) _ i k (stack_item F H fs)).
  - by rewrite Hg.
  - apply Forall_fmap. eapply Forall_impl; [done|]. intros fs' [Hlen _].
    simpl. by rewrite length_stack_item, Hlen.
  - by rewrite list_lookup_fmap, Hfs.
  - apply lookup_lt_Some in Hg. rewrite length_stack_item in Hg.
    rewrite Forall_lookup in Hfss. destruct (Hfss i fs Hfs) as [<- _]. done.
Qed.

(** The frame before one whose index is not a multiple of [F] is in the
    same group. *)
Lemma pred_div_mod L F :
  (0 < F)%nat → (0 < L mod F)%nat →
  ((L - 1) / F = L / F ∧ (L - 1) mod F = L mod F - 1)%nat.
Proof.
  intros HF HL. pose proof (Nat.div_mod_eq L F) as Hdm.
  pose proof (Nat.mod_upper_bound L F).
  assert ((L - 1) / F = L / F)%nat as Hq.
  { symmetry. apply (Nat.div_unique _ _ _ (L mod F - 1)); lia. }
  split; [done|]. pose proof (Nat.div_mod_eq (L - 1) F). rewrite Hq in *. lia.
Qed.

Lemma stacked_length_short_nat T F L :
  (0 < F)%nat → (0 < L mod F < T mod F)%nat →
  stacked_length (Z.of_nat T) (Z.of_nat F) (Z.of_nat L) = Z.of_nat (L / F).
Proof.
  intros HF HL. rewrite stacked_length_short, Nat2Z.inj_div; [done|lia|].
  rewrite <-!Nat2Z.inj_mod. lia.
Qed.

End forward_data.

(** ** Theorems *)

Section theorems.
Context {A : Type} (zero : A).
Implicit Types (self : StackingSubsampling) (W : list A → list A).
Implicit Types (x y : tensor A) (lengths : list Z) (B T H F L O i j : nat).


(** C23 (equivalence).  On a well-formed batch (B, T, H) and for a positive
    factor F, [forward] returns the projection [W] of the stacked frames of
    the reference [stack_item], item after item, and the lengths
    [(l + F - T % F) // F]. *)
Theorem StackingSubsampling_forward_data_stack
    W F (feat_out : Z) self x B T H lengths :
  StackingSubsampling_init (Z.of_nat F) (Z.of_nat H) feat_out = Ok self →
  (0 < F)%nat → t_shape x = shape3 B T H → tensor_wf x →
  StackingSubsampling_forward_data zero self W x lengths
  = Ok ({| t_shape := [Z.of_nat B; Z.of_nat (T / F + 1); feat_out];
           t_data := concat (W <$> concat (stack_item zero F H <$> frames x)) |},
        stacked_length (Z.of_nat T) (Z.of_nat F) <$> lengths).
Proof. intros Hinit. stacking_init Hinit. apply forward_data_spec. Qed.

(** C24 (functional).  Input frame [j] of item [i] is found in output frame
    [j // F] of the item: that frame is [W g] for a stacked frame [g] of
    [F * H] elements whose slice at offset [(j % F) * H] is the input
    frame. *)
Theorem StackingSubsampling_forward_data_frame
    W F O self x B T H lengths i j :
  StackingSubsampling_init (Z.of_nat F) (Z.of_nat H) (Z.of_nat O) = Ok self →
  (0 < F)%nat → t_shape x = shape3 B T H → tensor_wf x →
  (∀ v, length (W v) = O) → (i < B)%nat → (j < T)%nat →
  ∃ y ls g,
    StackingSubsampling_forward_data zero self W x lengths = Ok (y, ls)
    ∧ frame y i (j / F) = W g
    ∧ length g = (F * H)%nat
    ∧ take H (drop (j mod F * H) g) = frame x i j.
Proof.
  intros Hinit HF Hs Hwf HW Hi Hj. stacking_init Hinit.
  destruct (frames_lookup x B T H i j) as (fs & Hfs & Hfr); [done..|].
  destruct (frames_wf_frames x B T H Hs Hwf) as [_ Hfss].
  rewrite Forall_lookup in Hfss. destruct (Hfss i fs Hfs) as [_ HfsH].
  destruct (stack_item_lookup zero F H fs j (frame x i j))
    as (g & Hg & Hlen & Hslice); [done|done|by apply lookup_app_l_Some|].
  destruct (forward_data_stacked zero W F O x B T H lengths i fs (j / F) g)
    as (y & Hy & Hframe); [done..|].
  by eexists y, _, g.
Qed.

(** C25 (functional).  When the factor divides the number of frames, the
    last output frame of every item is [W] of padding alone, whatever the
    input holds, and an item of full length [T] is reported with that
    frame included: its new length is [T // F + 1]. *)
Theorem StackingSubsampling_forward_data_padding
    W F O self x B T H lengths i :
  StackingSubsampling_init (Z.of_nat F) (Z.of_nat H) (Z.of_nat O) = Ok self →
  (0 < F)%nat → t_shape x = shape3 B T H → tensor_wf x →
  (∀ v, length (W v) = O) → (i < B)%nat → (T mod F = 0)%nat →
  lengths !! i = Some (Z.of_nat T) →
  ∃ y ls,
    StackingSubsampling_forward_data zero self W x lengths = Ok (y, ls)
    ∧ frame y i (T / F) = W (replicate (F * H) zero)
    ∧ ls !! i = Some (Z.of_nat (T / F + 1)).
Proof.
  intros Hinit HF Hs Hwf HW Hi Hmod Hl. stacking_init Hinit.
  destruct (frames_item x B T H i) as (fs & Hfs & HfsT & _); [done..|].
  destruct (forward_data_stacked zero W F O x B T H lengths i fs (T / F)
              (replicate (F * H) zero)) as (y & Hy & Hframe); [done..| |].
  { rewrite <-HfsT. apply stack_item_last; [done|by rewrite HfsT]. }
  eexists y, _. split; [done|]. split; [done|].
  rewrite list_lookup_fmap, Hl. simpl.
  by rewrite stacked_length_full, stacked_time_nat by lia.
Qed.

(** C26 (safety).  A valid frame can lie outside the reported length: when
    the length [L] of item [i] has a remainder by [F] that is positive and
    smaller than that of [T], the reported length is [L // F], while the
    output frame of that index still holds the valid input frame [L - 1].
    The output frames below the reported length miss it. *)
Theorem StackingSubsampling_forward_data_drops_frame
    W F O self x B T H lengths i L :
  StackingSubsampling_init (Z.of_nat F) (Z.of_nat H) (Z.of_nat O) = Ok self →
  (0 < F)%nat → t_shape x = shape3 B T H → tensor_wf x →
  (∀ v, length (W v) = O) → (i < B)%nat →
  lengths !! i = Some (Z.of_nat L) → (0 < L mod F < T mod F)%nat → (L ≤ T)%nat →
  ∃ y ls g,
    StackingSubsampling_forward_data zero self W x lengths = Ok (y, ls)
    ∧ ls !! i = Some (Z.of_nat (L / F))
    ∧ frame y i (L / F) = W g
    ∧ take H (drop ((L - 1) mod F * H) g) = frame x i (L - 1).
Proof.
  intros Hinit HF Hs Hwf HW Hi Hl HL HLT. stacking_init Hinit.
  destruct (pred_div_mod L F) as [Hq _]; [lia..|].
  pose proof (Nat.Div0.mod_le L F).
  destruct (frames_lookup x B T H i (L - 1)) as (fs & Hfs & Hfr); [done|done|lia|].
  destruct (frames_item x B T H i) as (fs' & Hfs' & _ & HfsH); [done..|].
  assert (fs' = fs) as -> by congruence.
  destruct (stack_item_lookup zero F H fs (L - 1) (frame x i (L - 1)))
    as (g & Hg & _ & Hslice); [done|done|by apply lookup_app_l_Some|].
  rewrite Hq in Hg.
  destruct (forward_data_stacked zero W F O x B T H lengths i fs (L / F) g)
    as (y & Hy & Hframe); [done..|].
  eexists y, _, g. split; [done|]. split; [|done].
  rewrite list_lookup_fmap, Hl. simpl. by rewrite stacked_length_short_nat.
Qed.

(** The tensor [forward] returns is well formed: it holds
    [B * (T // F + 1) * O] elements when the projection returns [O]
    elements for every stacked frame. *)
Theorem StackingSubsampling_forward_data_wf W F O self x B T H lengths :
  StackingSubsampling_init (Z.of_nat F) (Z.of_nat H) (Z.of_nat O) = Ok self →
  (0 < F)%nat → t_shape x = shape3 B T H → tensor_wf x →
  (∀ v, length (W v) = O) →
  ∃ y ls,
    StackingSubsampling_forward_data zero self W x lengths = Ok (y, ls)
    ∧ tensor_wf y.
Proof.
  intros Hinit HF Hs Hwf HW. stacking_init Hinit.
  eexists _, _. split; [by apply forward_data_spec|].
  destruct (frames_wf_frames x B T H Hs Hwf) as [HB Hfss].
  split; [repeat constructor; lia|]. cbn [t_shape t_data].
  rewrite (length_concat_uniform O) by by apply Forall_fmap, Forall_true.
  rewrite length_fmap, (length_concat_uniform (T / F + 1)), length_fmap, HB.
  - autorewrite with subsampling. lia.
  - apply Forall_fmap. eapply Forall_impl; [done|]. intros fs [Hlen _].
    simpl. by rewrite length_stack_item, Hlen.
Qed.


End theorems.

(** ** Witnesses

    One item of three frames of two integers, padded with 0; the projection
    sums the stacked frame. *)

Ltac example_wf := split; [repeat constructor; lia|reflexivity].

Lemma StackingSubsampling_forward_data_stack_witness :
  StackingSubsampling_forward_data 0
    (stacking_module (Z.of_nat 2) (Z.of_nat 2) 1)
    (λ v, [foldr Z.add 0 v])
    {| t_shape := [1; 3; 2]; t_data := [1; 2; 3; 4; 5; 6] |} [3]
  = Ok ({| t_shape := [Z.of_nat 1; Z.of_nat (3 / 2 + 1); 1];
           t_data := concat ((λ v, [foldr Z.add 0 v])
                      <$> concat (stack_item 0 2 2
                            <$> frames {| t_shape := [1; 3; 2];
                                          t_data := [1; 2; 3; 4; 5; 6] |})) |},
        stacked_length (Z.of_nat 3) (Z.of_nat 2) <$> [3]).
Proof.
  apply (StackingSubsampling_forward_data_stack 0 _ 2 1 _ _ 1 3 2);
    [done|lia|done|example_wf].
Defined.

Lemma StackingSubsampling_forward_data_frame_witness :
  ∃ y ls g,
    StackingSubsampling_forward_data 0
      (stacking_module (Z.of_nat 2) (Z.of_nat 2) (Z.of_nat 1))
      (λ v, [foldr Z.add 0 v])
      {| t_shape := [1; 3; 2]; t_data := [1; 2; 3; 4; 5; 6] |} [3]
    = Ok (y, ls)
    ∧ frame y 0 (2 / 2) = [foldr Z.add 0 g]
    ∧ length g = (2 * 2)%nat
    ∧ take 2 (drop (2 mod 2 * 2) g)
      = frame {| t_shape := [1; 3; 2]; t_data := [1; 2; 3; 4; 5; 6] |} 0 2.
Proof.
  apply (StackingSubsampling_forward_data_frame 0 (λ v, [foldr Z.add 0 v])
           2 1 _ _ 1 3 2 [3] 0 2); [done|lia|done|example_wf|done|lia|lia].
Defined.

Lemma StackingSubsampling_forward_data_padding_witness :
  ∃ y ls,
    StackingSubsampling_forward_data 0
      (stacking_module (Z.of_nat 2) (Z.of_nat 2) (Z.of_nat 1))
      (λ v, [foldr Z.add 0 v])
      {| t_shape := [1; 2; 2]; t_data := [1; 2; 3; 4] |} [2]
    = Ok (y, ls)
    ∧ frame y 0 (2 / 2) = [foldr Z.add 0 (replicate (2 * 2) 0)]
    ∧ ls !! 0%nat = Some (Z.of_nat (2 / 2 + 1)).
Proof.
  apply (StackingSubsampling_forward_data_padding 0 (λ v, [foldr Z.add 0 v])
           2 1 _ _ 1 2 2 [2] 0);
    [done|lia|done|example_wf|done|lia|done|done].
Defined.

Lemma StackingSubsampling_forward_data_drops_frame_witness :
  ∃ y ls g,
    StackingSubsampling_forward_data 0
      (stacking_module (Z.of_nat 4) (Z.of_nat 2) (Z.of_nat 1))
      (λ v, [foldr Z.add 0 v])
      {| t_shape := [1; 3; 2]; t_data := [1; 2; 3; 4; 5; 6] |} [1]
    = Ok (y, ls)
    ∧ ls !! 0%nat = Some (Z.of_nat (1 / 4))
    ∧ frame y 0 (1 / 4) = [foldr Z.add 0 g]
    ∧ take 2 (drop ((1 - 1) mod 4 * 2) g)
      = frame {| t_shape := [1; 3; 2]; t_data := [1; 2; 3; 4; 5; 6] |}
          0 (1 - 1).
Proof.
  apply (StackingSubsampling_forward_data_drops_frame 0
           (λ v, [foldr Z.add 0 v]) 4 1 _ _ 1 3 2 [1] 0 1);
    [done|lia|done|example_wf|done|lia|done|simpl; lia|lia].
Defined.


Lemma StackingSubsampling_forward_data_wf_witness :
  ∃ y ls,
    StackingSubsampling_forward_data 0
      (stacking_module (Z.of_nat 2) (Z.of_nat 2) (Z.of_nat 1))
      (λ v, [foldr Z.add 0 v])
      {| t_shape := [1; 3; 2]; t_data := [1; 2; 3; 4; 5; 6] |} [3]
    = Ok (y, ls)
    ∧ tensor_wf y.
Proof.
  apply (StackingSubsampling_forward_data_wf 0 (λ v, [foldr Z.add 0 v])
           2 1 _ _ 1 3 2 [3]); [done|lia|done|example_wf|done].
Defined.
