(* ===== verification/StackingFloat.v ===== *)
(** * StackingFloat: [StackingSubsampling.forward] on lengths of either dtype

    [StackingSubsampling.forward] (subsampling.py, lines 34-46) computes
    the new lengths with [torch.div(lengths + pad_size, factor,
    rounding_mode="floor")] and never converts them: an integer tensor
    stays an integer tensor, a float tensor (the one the script of the
    file builds with [torch.Tensor]) stays a float tensor, divided by
    PyTorch's floor division of floats.

    [FloorDivOps] adds that division to the float interface and
    [FloorDivExact] is the contract [forward] needs from it: on integers
    of a domain, the sum and the floor division computed in floats are
    those of the integers.  [add_scalar_t] and [div_floor_t] are the two
    tensor operations with their dispatch on the dtype, and
    [StackingSubsampling_forward_t] and [StackingSubsampling_forward_data_t]
    are [forward] on the shape and on the values of the batch with a
    tensor of lengths of either dtype.

    The lemmas: on an integer tensor [forward] is the [forward] of
    [Stacking] and [StackingData], errors included; on a float tensor whose
    arithmetic meets the contract it returns the lengths
    [(l + pad_size) // factor] as floats.  Exact arithmetic meets the
    contract everywhere; [Float32Div] proves it of binary32. *)

From Stdlib Require Import ZArith QArith Qround Lia.
From stdpp Require Import base tactics numbers list strings.
From S2P Require Import Prelude.
From S2P Require Import Floats.
From S2P Require Import Torch.
From S2P Require Import Stacking.
From S2P Require Import Tensor.
From S2P Require Import StackingData.

#[local] Open Scope Z_scope.

(** ** The interface *)

(** [torch.div(x, y, rounding_mode="floor")] on one float element. *)
Class FloorDivOps (F : Type) : Type := {
  f_floordiv : F → F → F
}.

(** [FloorDivExact D]: on the integers in [D], a sum that stays in [D] and
    the floor division by a positive integer computed in floats are the
    conversions of the sum and of the quotient of the integers. *)
Class FloorDivExact (F : Type) `{FloatOps F} `{FloorDivOps F}
    (D : Z → Prop) : Prop := {
  f_add_of_Z : ∀ n m, D n → D m → D (n + m) →
    f_add (f_of_Z n) (f_of_Z m) = f_of_Z (n + m);
  f_floordiv_of_Z : ∀ n d, D n → D d → 0 < d →
    f_floordiv (f_of_Z n) (f_of_Z d) = f_of_Z (n / d)
}.

(** Exact arithmetic. *)
#[export] Instance Q_floordiv : FloorDivOps Q := {
  f_floordiv x y := inject_Z (Qfloor (x / y))
}.

(** ** The tensor operations *)

Section tensor_ops.
Context `{FloatOps F} `{FloorDivOps F}.

(** [t + c] for a tensor of either dtype and a Python integer: the dtype
    of the tensor is kept. *)
Definition add_scalar_t (t : tensor1 F) (c : Z) : tensor1 F :=
  match t with
  | IntT xs => IntT (int_add_scalar xs c)
  | FloatT xs => FloatT (add_scalar xs c)
  end.

(** [torch.div(t, c, rounding_mode="floor")] for a tensor of either dtype
    and a Python integer: the dtype of the tensor is kept; the division of
    an integer tensor by 0 is an error, that of a float tensor is not. *)
Definition div_floor_t (t : tensor1 F) (c : Z) : result (tensor1 F) :=
  match t with
  | IntT xs => IntT <$> int_div_floor xs c
  | FloatT xs => Ok (FloatT ((λ x, f_floordiv x (f_of_Z c)) <$> xs))
  end.

(** ** [forward] *)

(** The new lengths (lines 43-45):
    [torch.div(lengths + pad_size, factor, rounding_mode="floor")]. *)
Definition stacked_lengths_t (lengths : tensor1 F) (pad_size factor : Z) :
    result (tensor1 F) :=
  div_floor_t (add_scalar_t lengths pad_size) factor.

(** [StackingSubsampling.forward], on the shape of the batch. *)
Definition StackingSubsampling_forward_t (self : StackingSubsampling)
    (x : shape) (lengths : tensor1 F) : result (shape * tensor1 F) :=
  '(b, t, h) ← size3 x;
  r ← py_mod t (subsampling_factor self);
  let pad_size := subsampling_factor self - r in
  x ← pad x [0; 0; 0; pad_size];
  '(_, t, _) ← size3 x;
  q ← py_floordiv t (subsampling_factor self);
  x ← reshape x [b; q; h * subsampling_factor self];
  x ← Linear_forward (proj_out self) x;
  lengths ← stacked_lengths_t lengths pad_size (subsampling_factor self);
  Ok (x, lengths).

(** [StackingSubsampling.forward], on the values of the batch. *)
Definition StackingSubsampling_forward_data_t {A} (zero : A)
    (self : StackingSubsampling) (W : list A → list A)
    (x : tensor A) (lengths : tensor1 F) : result (tensor A * tensor1 F) :=
  '(b, t, h) ← size3 (t_shape x);
  r ← py_mod t (subsampling_factor self);
  let pad_size := subsampling_factor self - r in
  x ← pad_time zero x pad_size;
  '(_, t, _) ← size3 (t_shape x);
  q ← py_floordiv t (subsampling_factor self);
  x ← reshape_data x [b; q; h * subsampling_factor self];
  x ← Linear_forward_data (proj_out self) W x;
  lengths ← stacked_lengths_t lengths pad_size (subsampling_factor self);
  Ok (x, lengths).

End tensor_ops.

(** ** Lemmas *)

(** Case analysis on the steps of a computation in [result], first step
    first. *)
Ltac first_step m :=
  lazymatch m with
  | mbind _ ?m' => first_step m'
  | fmap _ ?m' => first_step m'
  | Ok _ => fail
  | Err _ => fail
  | _ => m
  end.

Ltac result_steps :=
  repeat (cbn [mbind result_bind fmap result_fmap t_shape];
          lazymatch goal with
          | |- context [let '(_, _) := ?p in _] => destruct p
          | |- ?l = _ =>
              let m := first_step l in destruct m as [?|?]; [|done]
          end).

Lemma Q_add_of_Z n m : (inject_Z n + inject_Z m)%Q = inject_Z (n + m).
Proof. unfold inject_Z, Qplus. simpl. by rewrite !Z.mul_1_r. Qed.

Lemma Q_floordiv_of_Z n d :
  f_floordiv (inject_Z n) (inject_Z d) = inject_Z (n / d).
Proof. unfold f_floordiv, Q_floordiv. by rewrite Qfloor_div_Z. Qed.

#[export] Instance Q_floordiv_exact : FloorDivExact Q (λ _, True).
Proof.
  split.
  - intros n m _ _ _. apply Q_add_of_Z.
  - intros n d _ _ _. apply Q_floordiv_of_Z.
Qed.

Section lemmas.
Context `{FloatOps F} `{FloorDivOps F}.
Implicit Types (self : StackingSubsampling) (lengths : tensor1 F).
Implicit Types (ls : list Z) (b t f : Z).

Lemma numel_add_scalar_t lengths c : numel (add_scalar_t lengths c) = numel lengths.
Proof.
  destruct lengths; unfold add_scalar_t, int_add_scalar, add_scalar, numel;
    by rewrite length_fmap.
Qed.

(** The lengths of an integer tensor. *)
Lemma stacked_lengths_int ls t f :
  f ≠ 0 →
  stacked_lengths_t (F:=F) (IntT ls) (pad_size_of t f) f
  = Ok (IntT (stacked_length t f <$> ls)).
Proof.
  intros Hf.
  unfold stacked_lengths_t, div_floor_t, add_scalar_t, int_div_floor,
    int_add_scalar.
  rewrite decide_False by done. simpl. by rewrite <-list_fmap_compose.
Qed.

(** The lengths of a float tensor that holds integers of the domain of the
    contract. *)
Lemma stacked_lengths_float `{!FloorDivExact F D} ls t f :
  0 < f → D f → D (pad_size_of t f) →
  Forall (λ l, D l ∧ D (l + pad_size_of t f)) ls →
  stacked_lengths_t (FloatT (f_of_Z <$> ls)) (pad_size_of t f) f
  = Ok (FloatT (f_of_Z <$> (stacked_length t f <$> ls))).
Proof.
  intros Hf HDf HDp Hls.
  unfold stacked_lengths_t, div_floor_t, add_scalar_t, add_scalar.
  do 2 f_equal. rewrite <-!list_fmap_compose.
  apply Forall_fmap_ext_1. eapply Forall_impl; [done|].
  intros l [??]. simpl. by rewrite f_add_of_Z, f_floordiv_of_Z.
Qed.

(** [forward] on shapes, step by step: the shape of [Stacking], and the
    two tensor operations on the lengths. *)
Lemma forward_t_spec f feat_in feat_out b t lengths :
  0 < f → 0 ≤ b → 0 ≤ t → 0 ≤ feat_in →
  StackingSubsampling_forward_t (stacking_module f feat_in feat_out)
    [b; t; feat_in] lengths
  = fmap (M:=result) (λ r, ([b; t / f + 1; feat_out], r))
      (stacked_lengths_t lengths (pad_size_of t f) f).
Proof.
  intros Hf Hb Ht Hh. pose proof (pad_size_bounds t f Hf) as Hpad.
  unfold StackingSubsampling_forward_t, stacking_module, py_mod, py_floordiv.
  cbn [size3 mbind result_bind subsampling_factor proj_out].
  destruct (decide (f = 0)) as [?|_]; [lia|]. cbn [mbind result_bind].
  fold (pad_size_of t f). rewrite pad_time_axis by lia.
  cbn [size3 mbind result_bind]. rewrite padded_time_div by done.
  rewrite (padded_time t f), reshape_stack by (done || divlia).
  cbn [mbind result_bind]. rewrite Linear_forward_3d by (simpl; lia).
  cbn [mbind result_bind out_features]. by destruct (stacked_lengths_t _ _ _).
Qed.

(** [forward] on a float tensor that holds integers of the domain of the
    contract: the lengths of [Stacking], as floats. *)
Lemma forward_t_float `{!FloorDivExact F D} f feat_in feat_out b t ls :
  0 < f → 0 ≤ b → 0 ≤ t → 0 ≤ feat_in →
  D f → D (pad_size_of t f) →
  Forall (λ l, D l ∧ D (l + pad_size_of t f)) ls →
  StackingSubsampling_forward_t (stacking_module f feat_in feat_out)
    [b; t; feat_in] (FloatT (f_of_Z <$> ls))
  = Ok ([b; t / f + 1; feat_out],
        FloatT (f_of_Z <$> (stacked_length t f <$> ls))).
Proof.
  intros. by rewrite forward_t_spec, (stacked_lengths_float (D:=D)).
Qed.

(** On an integer tensor [forward] is the [forward] of [Stacking], on
    every input. *)
Lemma forward_t_int self x ls :
  StackingSubsampling_forward_t (F:=F) self x (IntT ls)
  = fmap (M:=result) (λ r, (r.1, IntT r.2))
      (StackingSubsampling_forward self x ls).
Proof.
  unfold StackingSubsampling_forward_t, StackingSubsampling_forward.
  unfold stacked_lengths_t. cbn [add_scalar_t div_floor_t].
  result_steps; by simplify_eq/=.
Qed.

Lemma forward_data_t_int {A} (zero : A) self W (x : tensor A) ls :
  StackingSubsampling_forward_data_t (F:=F) zero self W x (IntT ls)
  = fmap (M:=result) (λ r, (r.1, IntT r.2))
      (StackingSubsampling_forward_data zero self W x ls).
Proof.
  unfold StackingSubsampling_forward_data_t, StackingSubsampling_forward_data.
  unfold stacked_lengths_t. cbn [add_scalar_t div_floor_t].
  result_steps; by simplify_eq/=.
Qed.

(** The two models of [forward] compute the same lengths, and the shape of
    the first is the shape of the tensor of the second. *)
Lemma forward_data_t_shapes {A} (zero : A) self W (x : tensor A) lengths :
  fmap (M:=result) (λ r, (t_shape r.1, r.2))
    (StackingSubsampling_forward_data_t zero self W x lengths)
  = StackingSubsampling_forward_t self (t_shape x) lengths.
Proof.
  unfold StackingSubsampling_forward_data_t, StackingSubsampling_forward_t,
    pad_time, reshape_data, Linear_forward_data.
  result_steps; by simplify_eq/=.
Qed.

End lemmas.
