(* ===== verification/ConvData.v ===== *)
(** * ConvData: the layers of the convolution stack on values

    [ConvSubsampling.forward] calls [self.conv(x)], the [Sequential] of
    [Conv2d], activation and [MaxPool2d] modules the constructor built.
    This file gives those modules their values, after PyTorch's
    documentation: a convolution is the cross-correlation of the input,
    padded with zeros, with the weights of the layer, plus the bias; a
    pooling layer takes the maximum of the elements of the input its window
    covers (the padding is never the maximum); an activation maps every
    element.  The learned weights and the function of an activation are
    parameters: [conv_params] per layer, [act] per activation name.  The
    elements are of any type with the operations [ElemOps].  Sums are taken
    in the order of the indices (channel, row, column); PyTorch fixes no
    order, and nothing proved here depends on it.

    [Module_forward_data] computes the shape with [Module_forward] of
    [Torch] and fails when that one fails.  [field] is the receptive field
    of a layer along the time axis: the input frames an interval of output
    frames is computed from.

    The lemmas: the shapes of the model on values are those of the model on
    shapes ([Sequential_forward_data_shape]); a well-formed input gives a
    well-formed output; and locality: two inputs of which an item each
    agree on the frames of the receptive field give outputs that agree on
    the interval for these items ([Sequential_forward_data_local]). *)

From Stdlib Require Import ZArith Lia.
From stdpp Require Import base tactics numbers list strings.
From S2P Require Import Prelude.
From S2P Require Import Torch.
From S2P Require Import Tensor.

#[local] Open Scope Z_scope.

(** ** Elements, weights and indexing *)

(** The operations on elements the layers use. *)
Class ElemOps (A : Type) : Type := {
  e_zero : A;
  e_add : A → A → A;
  e_mul : A → A → A;
  e_max : A → A → A
}.

(** The parameters of a convolution: [weight o c u v] for output channel
    [o], input channel [c] and kernel position [(u, v)], and [bias o]. *)
Record conv_params (A : Type) : Type := {
  weight : nat → nat → nat → nat → A;
  bias : nat → A
}.
Arguments weight {A} _ _ _ _ _.
Arguments bias {A} _ _.

(** The elements [g b c i j] of a tensor (B, C, T, F), in row-major
    order. *)
Definition tabulate4 {A} (B C T F : nat) (g : nat → nat → nat → nat → A) :
    list A :=
  concat ((λ b,
    concat ((λ c,
      concat ((λ i, (λ j, g b c i j) <$> seq 0 F) <$> seq 0 T))
      <$> seq 0 C))
    <$> seq 0 B).

(** The positions a window of size [k] at output index [i] covers along one
    axis, each with its index in the kernel. *)
Definition taps (k s p : Z) (i : nat) : list (nat * Z) :=
  (λ u, (u, Z.of_nat i * s + Z.of_nat u - p)) <$> seq 0 (Z.to_nat k).

Section layers.
Context `{ElemOps A}.
Implicit Types (x : tensor A) (θ : conv_params A) (act : string → A → A).

(** [x[b, c, i, j]] of a 4-D tensor, [None] outside of it. *)
Definition get4 (x : tensor A) (b c : nat) (i j : Z) : option A :=
  match t_shape x with
  | [_; C; T; F] =>
      if decide (0 ≤ i < T ∧ 0 ≤ j < F ∧ (c < Z.to_nat C)%nat)
      then t_data x !! (((b * Z.to_nat C + c) * Z.to_nat T + Z.to_nat i)
                        * Z.to_nat F + Z.to_nat j)%nat
      else None
  | _ => None
  end.

(** Sum and maximum of a family over a list of indices. *)
Definition sum_with {X} (f : X → A) (l : list X) : A :=
  foldr (λ i acc, e_add (f i) acc) e_zero l.

Definition omax (a b : option A) : option A :=
  match a, b with
  | Some a, Some b => Some (e_max a b)
  | Some a, None => Some a
  | None, b => b
  end.

Definition max_with {X} (f : X → option A) (l : list X) : option A :=
  foldr (λ i acc, omax (f i) acc) None l.

(** One element of the output of [Conv2d]: the input is read as zero
    outside of its bounds. *)
Definition conv_at θ (k s p : Z) (cin : nat) (x : tensor A)
    (b o i j : nat) : A :=
  e_add (bias θ o)
    (sum_with (λ c,
       sum_with (λ '(u, i'),
         sum_with (λ '(v, j'),
           e_mul (weight θ o c u v) (default e_zero (get4 x b c i' j')))
           (taps k s p j))
         (taps k s p i))
       (seq 0 cin)).

(** One element of the output of [MaxPool2d]: the maximum over the part of
    the window inside the input. *)
Definition pool_at (k s p : Z) (x : tensor A) (b c i j : nat) : A :=
  default e_zero
    (max_with (λ '(_, i'),
       max_with (λ '(_, j'), get4 x b c i' j') (taps k s p j))
       (taps k s p i)).

(** A module applied to a batch of images (N, C, H, W) with values. *)
Definition Module_forward_data act θ (m : Module) (x : tensor A) :
    result (tensor A) :=
  s ← Module_forward m (t_shape x);
  match m, s with
  | Conv2d cin cout k st p, [n; co; ho; wo] =>
      Ok {| t_shape := s;
            t_data := tabulate4 (Z.to_nat n) (Z.to_nat co) (Z.to_nat ho)
                        (Z.to_nat wo) (conv_at θ k st p (Z.to_nat cin) x) |}
  | MaxPool2d k st p cm, [n; c; ho; wo] =>
      Ok {| t_shape := s;
            t_data := tabulate4 (Z.to_nat n) (Z.to_nat c) (Z.to_nat ho)
                        (Z.to_nat wo) (pool_at k st p x) |}
  | Elementwise name, _ =>
      Ok {| t_shape := s; t_data := act name <$> t_data x |}
  | _, _ => Err (RuntimeError "expected a 4D input")
  end.

(** The [torch.nn.Sequential] of a list of layers on values; layer number
    [idx + n] of the list has the parameters [θs (idx + n)]. *)
Fixpoint Sequential_forward_data act (θs : nat → conv_params A) (idx : nat)
    (layers : list Module) (x : tensor A) : result (tensor A) :=
  match layers with
  | [] => Ok x
  | m :: layers =>
      x ← Module_forward_data act (θs idx) m x;
      Sequential_forward_data act θs (S idx) layers x
  end.

(** Item [b] of [x] and item [b'] of [x'] agree on the frames [lo] to
    [hi]: the two batches have the same shape but for their numbers of
    items, both items exist, and the elements of those frames are equal. *)
Definition agree (b b' : nat) (lo hi : Z) (x x' : tensor A) : Prop :=
  ∃ n n' sh,
    t_shape x = n :: sh ∧ t_shape x' = n' :: sh
    ∧ Z.of_nat b < n ∧ Z.of_nat b' < n'
    ∧ ∀ c i j, lo ≤ i ≤ hi → get4 x b c i j = get4 x' b' c i j.

End layers.

(** ** Receptive fields *)

(** The input frames from which a layer computes the output frames [lo] to
    [hi]: a window of size [k] at output index [i] starts at [i * s - p]. *)
Definition field (m : Module) (w : Z * Z) : Z * Z :=
  match m with
  | Conv2d _ _ k s p | MaxPool2d k s p _ => (w.1 * s - p, w.2 * s - p + k - 1)
  | Elementwise _ => w
  end.

(** The same for a stack of layers, the first of the list applied first. *)
Definition stack_field (layers : list Module) (w : Z * Z) : Z * Z :=
  foldr field w layers.

(** The hyperparameters PyTorch requires of a layer: a positive stride and
    no negative channel count. *)
Definition layer_ok (m : Module) : Prop :=
  match m with
  | Conv2d _ cout _ s _ => 0 ≤ cout ∧ 0 < s
  | MaxPool2d _ s _ _ => 0 < s
  | Elementwise _ => True
  end.

#[export] Instance layer_ok_dec m : Decision (layer_ok m).
Proof. destruct m; apply _. Defined.

(** ** Integers as elements

    Integer elements for the examples: exact arithmetic, [nn.ReLU()] as
    [max(0, v)], any other activation as the identity. *)

#[export] Instance Z_elem : ElemOps Z :=
  {| e_zero := 0; e_add := Z.add; e_mul := Z.mul; e_max := Z.max |}.

Definition Z_act (name : string) (v : Z) : Z :=
  if decide (name = "ReLU") then Z.max 0 v else v.

(** Every weight 1 and every bias [b]. *)
Definition ones (b : Z) : conv_params Z :=
  {| weight := λ _ _ _ _, 1; bias := λ _, b |}.

(** ** Lemmas on [tabulate4] and [get4] *)

Section tabulate.
Context {A : Type}.
Implicit Types (g : nat → nat → nat → nat → A) (B C T F b c i j : nat).

Lemma length_concat_fmap_seq {X} (f : nat → list X) n m :
  (∀ i, (i < n)%nat → length (f i) = m) →
  length (concat (f <$> seq 0 n)) = (n * m)%nat.
Proof.
  intros Hf. rewrite (length_concat_uniform m), length_fmap, length_seq; [done|].
  apply Forall_fmap, Forall_forall. intros i [_ ?]%elem_of_seq. by apply Hf.
Qed.

Lemma length_tabulate4 B C T F g :
  length (tabulate4 B C T F g) = (B * C * T * F)%nat.
Proof.
  unfold tabulate4.
  rewrite (length_concat_fmap_seq _ B (C * T * F)); [lia|]. intros b _.
  rewrite (length_concat_fmap_seq _ C (T * F)); [lia|]. intros c _.
  rewrite (length_concat_fmap_seq _ T F); [lia|]. intros i _.
  by rewrite length_fmap, length_seq.
Qed.

Lemma lookup_tabulate4 B C T F g b c i j :
  (b < B)%nat → (c < C)%nat → (i < T)%nat → (j < F)%nat →
  tabulate4 B C T F g !! (((b * C + c) * T + i) * F + j)%nat
  = Some (g b c i j).
Proof.
  intros Hb Hc Hi Hj. unfold tabulate4.
  replace (((b * C + c) * T + i) * F + j)%nat
    with (b * (C * T * F) + (c * (T * F) + (i * F + j)))%nat by lia.
  assert (i * F + j < T * F)%nat by nia.
  assert (c * (T * F) + (i * F + j) < C * T * F)%nat by nia.
  rewrite (lookup_concat_fmap_seq _ B (C * T * F)); [|intros b' _|done..].
  2:{ rewrite (length_concat_fmap_seq _ C (T * F)); [lia|]. intros c' _.
      rewrite (length_concat_fmap_seq _ T F); [lia|]. intros i' _.
      by rewrite length_fmap, length_seq. }
  rewrite (lookup_concat_fmap_seq _ C (T * F)); [|intros c' _|done..].
  2:{ rewrite (length_concat_fmap_seq _ T F); [lia|]. intros i' _.
      by rewrite length_fmap, length_seq. }
  rewrite (lookup_concat_fmap_seq _ T F);
    [|intros; by rewrite length_fmap, length_seq|done..].
  by rewrite list_lookup_fmap, lookup_seq_lt.
Qed.

End tabulate.

Section access.
Context `{ElemOps A}.
Implicit Types (x y : tensor A) (b c : nat) (i j lo hi : Z).

Lemma get4_tabulate n C T F (g : nat → nat → nat → nat → A) b c i j :
  get4 {| t_shape := [n; C; T; F];
          t_data := tabulate4 (Z.to_nat n) (Z.to_nat C) (Z.to_nat T)
                      (Z.to_nat F) g |} b c i j
  = if decide ((b < Z.to_nat n)%nat ∧ (c < Z.to_nat C)%nat
               ∧ 0 ≤ i < T ∧ 0 ≤ j < F)
    then Some (g b c (Z.to_nat i) (Z.to_nat j)) else None.
Proof.
  unfold get4. cbn [t_shape t_data].
  destruct (decide (0 ≤ i < T ∧ _)) as [(Hi & Hj & Hc)|Hn];
    [|by rewrite decide_False by tauto].
  destruct (decide (b < Z.to_nat n)%nat) as [Hb|Hb].
  - rewrite decide_True by done. apply lookup_tabulate4; lia.
  - rewrite decide_False by tauto. apply lookup_ge_None_2.
    rewrite length_tabulate4. nia.
Qed.

Lemma get4_fmap (f : A → A) x s b c i j :
  s = t_shape x →
  get4 {| t_shape := s; t_data := f <$> t_data x |} b c i j
  = f <$> get4 x b c i j.
Proof.
  intros ->. unfold get4. cbn [t_shape t_data].
  destruct (t_shape x) as [|? [|? [|? [|? [|]]]]]; try done.
  destruct (decide _); [apply list_lookup_fmap|done].
Qed.

(** A row of a 4-D tensor, element by element. *)
Lemma frame4_lookup x B C T F b c (k j : nat) :
  t_shape x = shape4 B C T F → (c < C)%nat → (k < T)%nat → (j < F)%nat →
  frame4 x b c k !! j = get4 x b c (Z.of_nat k) (Z.of_nat j).
Proof.
  intros Hs Hc Hk Hj. rewrite (frame4_shape4 x B C T F) by done.
  unfold get4. rewrite Hs. cbn [shape4]. rewrite decide_True, !Nat2Z.id by lia.
  by rewrite lookup_take_lt, lookup_drop by done.
Qed.

Lemma get4_tabulate_item n C T F (g : nat → nat → nat → nat → A) b c i j :
  Z.of_nat b < n →
  get4 {| t_shape := [n; C; T; F];
          t_data := tabulate4 (Z.to_nat n) (Z.to_nat C) (Z.to_nat T)
                      (Z.to_nat F) g |} b c i j
  = if decide ((c < Z.to_nat C)%nat ∧ 0 ≤ i < T ∧ 0 ≤ j < F)
    then Some (g b c (Z.to_nat i) (Z.to_nat j)) else None.
Proof.
  intros Hb. rewrite get4_tabulate.
  destruct (decide ((c < _)%nat ∧ _)) as [?|?];
    [rewrite decide_True|rewrite decide_False]; (done || tauto || (split; [lia|done])).
Qed.

Lemma agree_weaken b b' lo hi lo' hi' x y :
  lo ≤ lo' → hi' ≤ hi → agree b b' lo hi x y → agree b b' lo' hi' x y.
Proof.
  intros ?? (n & n' & sh & ? & ? & ? & ? & Hxy). exists n, n', sh.
  do 4 (split; [done|]). intros. apply Hxy. lia.
Qed.

(** Items that agree on frame [k] have the same rows there. *)
Lemma agree_frame4 x y B B' C T F b b' c (k : nat) :
  t_shape x = shape4 B C T F → t_shape y = shape4 B' C T F →
  agree b b' (Z.of_nat k) (Z.of_nat k) x y → (c < C)%nat → (k < T)%nat →
  frame4 x b c k = frame4 y b' c k.
Proof.
  intros Hs Hs' (_ & _ & _ & _ & _ & _ & _ & Hxy) Hc Hk.
  apply list_eq. intros j. destruct (decide (j < F)%nat) as [Hj|Hj].
  - rewrite (frame4_lookup x B C T F), (frame4_lookup y B' C T F) by done.
    apply Hxy. lia.
  - rewrite (frame4_shape4 x B C T F), (frame4_shape4 y B' C T F) by done.
    by rewrite !lookup_take_ge by lia.
Qed.

Lemma sum_with_ext {X} (f g : X → A) (l : list X) :
  (∀ a, a ∈ l → f a = g a) → sum_with f l = sum_with g l.
Proof.
  induction l as [|a l IH]; intros Hfg; [done|]. simpl.
  rewrite Hfg by left. rewrite IH; [done|]. intros. apply Hfg. by right.
Qed.

Lemma max_with_ext {X} (f g : X → option A) (l : list X) :
  (∀ a, a ∈ l → f a = g a) → max_with f l = max_with g l.
Proof.
  induction l as [|a l IH]; intros Hfg; [done|]. simpl.
  rewrite Hfg by left. rewrite IH; [done|]. intros. apply Hfg. by right.
Qed.

Lemma elem_of_taps k s p (i u : nat) i' :
  (u, i') ∈ taps k s p i →
  i' = Z.of_nat i * s + Z.of_nat u - p ∧ Z.of_nat u < k.
Proof.
  unfold taps. intros (u' & [= -> ->] & [_ Hu]%elem_of_seq)%list_elem_of_fmap.
  split; [done|lia].
Qed.

End access.

(** ** One layer *)

Section layer_lemmas.
Context `{ElemOps A}.
Implicit Types (x y : tensor A) (θ : conv_params A) (act : string → A → A).
Implicit Types (m : Module) (b c o : nat) (k s p lo hi : Z).

(** An element of the output reads the frames of its window only. *)
Lemma conv_at_local θ k s p (cin : nat) x x' b b' o (i j : nat) :
  agree b b' (Z.of_nat i * s - p) (Z.of_nat i * s - p + k - 1) x x' →
  conv_at θ k s p cin x b o i j = conv_at θ k s p cin x' b' o i j.
Proof.
  intros (_ & _ & _ & _ & _ & _ & _ & Hxx). unfold conv_at. f_equal.
  apply sum_with_ext. intros c _.
  apply sum_with_ext. intros [u i'] [-> Hu]%elem_of_taps.
  apply sum_with_ext. intros [v j'] _. by rewrite Hxx by lia.
Qed.

Lemma pool_at_local k s p x x' b b' c (i j : nat) :
  agree b b' (Z.of_nat i * s - p) (Z.of_nat i * s - p + k - 1) x x' →
  pool_at k s p x b c i j = pool_at k s p x' b' c i j.
Proof.
  intros (_ & _ & _ & _ & _ & _ & _ & Hxx). unfold pool_at. f_equal.
  apply max_with_ext. intros [u i'] [-> Hu]%elem_of_taps.
  apply max_with_ext. intros [v j'] _. by rewrite Hxx by lia.
Qed.

(** The shape of the output is the shape [Module_forward] computes. *)
Lemma Module_forward_data_shape act θ m x :
  t_shape <$> Module_forward_data act θ m x = Module_forward m (t_shape x).
Proof.
  unfold Module_forward_data.
  destruct (Module_forward m (t_shape x)) as [s|e] eqn:Hm; [|done].
  cbn [mbind result_bind].
  destruct m, (t_shape x) as [|? [|? [|? [|? [|]]]]]; simpl in Hm;
    try done; repeat case_match; by simplify_eq.
Qed.

Lemma Module_forward_data_Ok act θ m x y :
  Module_forward_data act θ m x = Ok y →
  Module_forward m (t_shape x) = Ok (t_shape y).
Proof.
  intros Hy. by rewrite <-(Module_forward_data_shape act θ), Hy.
Qed.

(** The output by cases. *)
Lemma Conv2d_forward_data act θ cin cout k s p x y :
  Module_forward_data act θ (Conv2d cin cout k s p) x = Ok y →
  ∃ n h w,
    t_shape x = [n; cin; h; w] ∧ k ≤ h + 2 * p ∧ k ≤ w + 2 * p
    ∧ y = {| t_shape := [n; cout; conv_out_size h k s p;
                         conv_out_size w k s p];
             t_data := tabulate4 (Z.to_nat n) (Z.to_nat cout)
                         (Z.to_nat (conv_out_size h k s p))
                         (Z.to_nat (conv_out_size w k s p))
                         (conv_at θ k s p (Z.to_nat cin) x) |}.
Proof.
  unfold Module_forward_data.
  destruct (t_shape x) as [|n [|c [|h [|w [|]]]]]; try done.
  cbn [Module_forward]. repeat case_bool_decide; try done.
  cbn [negb mbind result_bind]. intros [= <-]. subst c.
  exists n, h, w. tauto.
Qed.

Lemma MaxPool2d_forward_data act θ k s p cm x y :
  Module_forward_data act θ (MaxPool2d k s p cm) x = Ok y →
  ∃ n ch h w : Z,
    t_shape x = [n; ch; h; w]
    ∧ 1 ≤ pool_out_size h k s p cm ∧ 1 ≤ pool_out_size w k s p cm
    ∧ y = {| t_shape := [n; ch; pool_out_size h k s p cm;
                         pool_out_size w k s p cm];
             t_data := tabulate4 (Z.to_nat n) (Z.to_nat ch)
                         (Z.to_nat (pool_out_size h k s p cm))
                         (Z.to_nat (pool_out_size w k s p cm))
                         (pool_at k s p x) |}.
Proof.
  unfold Module_forward_data.
  destruct (t_shape x) as [|n [|c [|h [|w [|]]]]]; try done.
  cbn [Module_forward]. case_bool_decide as Hsz; [|done].
  cbn [mbind result_bind]. intros [= <-]. exists n, c, h, w. tauto.
Qed.

Lemma Elementwise_forward_data act θ name x :
  Module_forward_data act θ (Elementwise name) x
  = Ok {| t_shape := t_shape x; t_data := act name <$> t_data x |}.
Proof. done. Qed.

Lemma tabulate4_wf (n C T F : Z) (g : nat → nat → nat → nat → A) :
  0 ≤ n → 0 ≤ C → 0 ≤ T → 0 ≤ F →
  tensor_wf {| t_shape := [n; C; T; F];
               t_data := tabulate4 (Z.to_nat n) (Z.to_nat C) (Z.to_nat T)
                           (Z.to_nat F) g |}.
Proof.
  intros. split; cbn [t_shape t_data]; [by repeat constructor|].
  rewrite length_tabulate4, !Nat2Z.inj_mul, !Z2Nat.id by done.
  autorewrite with subsampling. lia.
Qed.

Lemma conv_out_size_pos h k s p : k ≤ h + 2 * p → 0 < s → 1 ≤ conv_out_size h k s p.
Proof. intros. unfold conv_out_size. divlia. Qed.

(** A layer keeps tensors well formed. *)
Lemma Module_forward_data_wf act θ m x y :
  layer_ok m → tensor_wf x → Module_forward_data act θ m x = Ok y →
  tensor_wf y.
Proof.
  intros Hok [Hpos Hlen] Hy. destruct m as [cin cout k s p|k s p cm|name].
  - apply Conv2d_forward_data in Hy as (n & h & w & Hs & Hh & Hw & ->).
    rewrite Hs in Hpos. destruct Hok. apply Forall_cons_1 in Hpos as [? _].
    apply tabulate4_wf; [done..| |];
      by eapply Z.le_trans, conv_out_size_pos.
  - apply MaxPool2d_forward_data in Hy as (n & c & h & w & Hs & Hh & Hw & ->).
    rewrite Hs in Hpos. apply Forall_cons_1 in Hpos as [? Hpos].
    apply Forall_cons_1 in Hpos as [? _]. apply tabulate4_wf; lia.
  - rewrite Elementwise_forward_data in Hy. simplify_eq.
    split; cbn [t_shape t_data]; [done|by rewrite length_fmap].
Qed.

(** Locality of a layer: the frames [lo] to [hi] of the output are computed
    from the frames of the receptive field. *)
Lemma Module_forward_data_local act θ m x x' y y' b b' lo hi :
  layer_ok m →
  agree b b' (field m (lo, hi)).1 (field m (lo, hi)).2 x x' →
  Module_forward_data act θ m x = Ok y →
  Module_forward_data act θ m x' = Ok y' →
  agree b b' lo hi y y'.
Proof.
  intros Hok Hxx Hy Hy'.
  pose proof Hxx as (n0 & n0' & sh & Hsh & Hsh' & Hb & Hb' & Hel).
  destruct m as [cin cout k s p|k s p cm|name]; cbn [field fst snd] in Hxx.
  - apply Conv2d_forward_data in Hy as (n & h & w & Hs & _ & _ & ->).
    apply Conv2d_forward_data in Hy' as (n' & h' & w' & Hs' & _ & _ & ->).
    rewrite Hs in Hsh. rewrite Hs' in Hsh'. simplify_eq.
    eexists _, _, _. do 4 (split; [done|]). intros c i j Hi.
    rewrite !get4_tabulate_item by done. case_decide as Hc; [|done]. f_equal.
    apply conv_at_local. destruct Hok.
    eapply agree_weaken; [..|exact Hxx]; nia.
  - apply MaxPool2d_forward_data in Hy as (n & c0 & h & w & Hs & _ & _ & ->).
    apply MaxPool2d_forward_data in Hy'
      as (n' & c0' & h' & w' & Hs' & _ & _ & ->).
    rewrite Hs in Hsh. rewrite Hs' in Hsh'. simplify_eq.
    eexists _, _, _. do 4 (split; [done|]). intros c i j Hi.
    rewrite !get4_tabulate_item by done. case_decide as Hc; [|done]. f_equal.
    apply pool_at_local. simpl in Hok.
    eapply agree_weaken; [..|exact Hxx]; nia.
  - rewrite Elementwise_forward_data in Hy, Hy'. simplify_eq.
    exists n0, n0', sh. do 4 (split; [done|]). intros c i j Hi.
    rewrite !get4_fmap by done. f_equal. by apply Hel.
Qed.

End layer_lemmas.

(** ** The stack *)

Section stack_lemmas.
Context `{ElemOps A}.
Implicit Types (x y : tensor A) (θs : nat → conv_params A).
Implicit Types (act : string → A → A) (layers : list Module) (idx b : nat).

Lemma stack_field_cons m layers w :
  stack_field (m :: layers) w = field m (stack_field layers w).
Proof. done. Qed.

Lemma stack_field_app l1 l2 w :
  stack_field (l1 ++ l2) w = stack_field l1 (stack_field l2 w).
Proof. unfold stack_field. by rewrite foldr_app. Qed.

(** The shapes, and the errors, of the stack on values are those of the
    stack on shapes. *)
Lemma Sequential_forward_data_shape act θs idx layers x :
  t_shape <$> Sequential_forward_data act θs idx layers x
  = Sequential_forward layers (t_shape x).
Proof.
  revert idx x. induction layers as [|m layers IH]; intros idx x; [done|].
  rewrite Sequential_forward_cons, <-(Module_forward_data_shape act (θs idx)).
  cbn [Sequential_forward_data].
  destruct (Module_forward_data _ _ _ _) as [x1|]; [apply IH|done].
Qed.

Lemma Sequential_forward_data_wf act θs idx layers x y :
  Forall layer_ok layers → tensor_wf x →
  Sequential_forward_data act θs idx layers x = Ok y → tensor_wf y.
Proof.
  intros Hok. revert idx x.
  induction Hok as [|m layers Hm _ IH]; intros idx x Hx Hy;
    [simpl in Hy; by simplify_eq|].
  cbn [Sequential_forward_data] in Hy.
  destruct (Module_forward_data _ _ _ _) as [x1|] eqn:Hx1; [|done].
  eauto using Module_forward_data_wf.
Qed.

(** Locality of the stack. *)
Lemma Sequential_forward_data_local act θs idx layers x x' y y' b b' lo hi :
  Forall layer_ok layers →
  agree b b' (stack_field layers (lo, hi)).1 (stack_field layers (lo, hi)).2
    x x' →
  Sequential_forward_data act θs idx layers x = Ok y →
  Sequential_forward_data act θs idx layers x' = Ok y' →
  agree b b' lo hi y y'.
Proof.
  intros Hok. revert idx x x'.
  induction Hok as [|m layers Hm _ IH]; intros idx x x' Hxx Hy Hy';
    [simpl in *; by simplify_eq|].
  cbn [Sequential_forward_data] in Hy, Hy'.
  destruct (Module_forward_data _ _ _ x) as [x1|] eqn:Hx1; [|done].
  destruct (Module_forward_data _ _ _ x') as [x1'|] eqn:Hx1'; [|done].
  rewrite stack_field_cons in Hxx.
  destruct (stack_field layers (lo, hi)) as [lo1 hi1] eqn:Hf.
  eapply IH; [|done..]. eapply Module_forward_data_local; eauto.
Qed.

End stack_lemmas.
