(* ===== verification/ConvSubData.v ===== *)
(** * ConvSubData: [ConvSubsampling.forward] on the values of the tensor

    [ConvSubsampling_forward_data] is [forward] (subsampling.py, lines
    151-167) on a tensor with its elements, against an interface of the
    convolution stack: the stack is a parameter [conv_data], a function on
    tensors of which [conv_refines] asks the shapes of the layer stack, and
    the projection is the map [W] on rows.  What the sources do themselves
    is modelled on the data: [unsqueeze], the unpacking of the size of the
    stack's output, [transpose(1, 2)], [reshape(b, t, -1)].  [ConvSubValues]
    instantiates [conv_data] with the layers on values of [ConvData].

    The lemmas and theorems: [forward] on data refines [forward] on shapes
    whenever [conv_data] meets [conv_refines]; and the row the projection
    receives for frame [k] of item [i] is the concatenation, channel after
    channel, of the rows [x[i, j, k, :]] of the stack's output. *)

From Stdlib Require Import ZArith QArith Lia.
From stdpp Require Import base tactics numbers list strings.
From S2P Require Import Prelude.
From S2P Require Import Floats.
From S2P Require Import CalcLength.
From S2P Require Import Torch.
From S2P Require Import ConvSub.
From S2P Require Import Tensor.

#[local] Open Scope Z_scope.

Section forward_data.
Context `{FloatOps F} {A : Type}.
Implicit Types (self : ConvSubsampling) (W : list A → list A).
Implicit Types (conv_data : tensor A → result (tensor A)).
Implicit Types (x y : tensor A) (lengths : tensor1 F) (B C T D O i j k : nat).

(** [ConvSubsampling.forward] *)
Definition ConvSubsampling_forward_data self conv_data W
    (x : tensor A) (lengths : tensor1 F) : result (tensor A * list Z) :=
  let lengths :=
    calc_length lengths (_padding self) (_kernel_size self) (_stride self)
      (_ceil_mode self) (_sampling_num self) in
  x ← unsqueeze_data 1 x;
  x ← conv_data x;
  '(b, c, t, f) ← size4 (t_shape x);
  x ← transpose12_data x;
  x ← reshape_data x [b; t; -1];
  x ← Linear_forward_data (out self) W x;
  Ok (x, lengths).

(** [conv_data] has the shapes, and the errors, of the layer stack. *)
Definition conv_refines self conv_data : Prop :=
  ∀ x, t_shape <$> conv_data x = Sequential_forward (conv self) (t_shape x).

(** ** Lemmas *)

(** Transposing and merging the last two axes of a tensor (B, C, T, D). *)
Lemma transpose_reshape_spec x B C T D :
  t_shape x = shape4 B C T D → (1 ≤ B)%nat → (1 ≤ T)%nat →
  transpose12_data x
    ≫= (λ x, reshape_data x [Z.of_nat B; Z.of_nat T; -1])
  = Ok {| t_shape := shape3 B T (C * D);
          t_data :=
            concat (concat ((λ i,
              concat ((λ k, (λ j, frame4 x i j k) <$> seq 0 C) <$> seq 0 T))
              <$> seq 0 B)) |}.
Proof.
  intros Hs HB HT. rewrite (transpose12_data_spec x B C T D) by done.
  cbn [mbind result_bind]. unfold reshape_data, shape4, shape3.
  cbn [t_shape t_data]. rewrite reshape_merge_last by lia.
  cbn [mbind result_bind]. by rewrite Nat2Z.inj_mul.
Qed.

(** [forward] step by step, from the output [x'] of the stack. *)
Lemma ConvSub_forward_data_spec self conv_data W x x1 x' B C T D lengths :
  unsqueeze_data 1 x = Ok x1 → conv_data x1 = Ok x' →
  t_shape x' = shape4 B C T D → tensor_wf x' → (1 ≤ B)%nat → (1 ≤ T)%nat →
  in_features (out self) = Z.of_nat (C * D) →
  ConvSubsampling_forward_data self conv_data W x lengths
  = Ok ({| t_shape := [Z.of_nat B; Z.of_nat T; out_features (out self)];
           t_data :=
             concat (W <$> concat ((λ i,
               (λ k, concat ((λ j, frame4 x' i j k) <$> seq 0 C))
                 <$> seq 0 T) <$> seq 0 B)) |},
        calc_length lengths (_padding self) (_kernel_size self)
          (_stride self) (_ceil_mode self) (_sampling_num self)).
Proof.
  intros Hx1 Hx' Hs Hwf HB HT Hin. unfold ConvSubsampling_forward_data.
  rewrite Hx1. cbn [mbind result_bind]. rewrite Hx'. cbn [mbind result_bind].
  rewrite Hs at 1. cbn [shape4 size4 mbind result_bind].
  pose proof (transpose_reshape_spec x' B C T D Hs HB HT) as Htr.
  destruct (transpose12_data x') as [xt|]; [|done].
  cbn [mbind result_bind] in *. rewrite Htr. cbn [mbind result_bind].
  erewrite (Linear_forward_data_3d _ _ _ B T (C * D)); [|done..].
  cbn [mbind result_bind t_data]. by rewrite (chunks_transposed x' B C T D).
Qed.

(** A frame of the tensor [forward] returns. *)
Lemma ConvSub_forward_data_frame (o : Z) W x' B C T O i k :
  o = Z.of_nat O → (∀ v, length (W v) = O) →
  (i < B)%nat → (k < T)%nat →
  frame {| t_shape := [Z.of_nat B; Z.of_nat T; o];
           t_data :=
             concat (W <$> concat ((λ i,
               (λ k, concat ((λ j, frame4 x' i j k) <$> seq 0 C))
                 <$> seq 0 T) <$> seq 0 B)) |} i k
  = W (concat ((λ j, frame4 x' i j k) <$> seq 0 C)).
Proof.
  intros Hout HW Hi Hk.
  apply (frame_of_rows B T O); [done|by apply Forall_fmap, Forall_true|].
  rewrite list_lookup_fmap, (lookup_concat_fmap_seq _ B T) by
    (done || (intros; by rewrite length_fmap, length_seq)).
  by rewrite list_lookup_fmap, lookup_seq_lt.
Qed.

(** [forward] on data refines [forward] on shapes: when the stack on data
    has the shapes and errors of the layer stack, [forward] on data fails
    when the other fails and otherwise returns a tensor of the shape, and
    the lengths, the other returns. *)
Lemma ConvSubsampling_forward_data_shapes self conv_data W x lengths :
  conv_refines self conv_data →
  (λ r, (t_shape r.1, r.2))
    <$> ConvSubsampling_forward_data self conv_data W x lengths
  = ConvSubsampling_forward self (t_shape x) lengths.
Proof.
  intros Hconv.
  unfold ConvSubsampling_forward_data, ConvSubsampling_forward,
    unsqueeze_data, transpose12_data, reshape_data, Linear_forward_data.
  destruct (unsqueeze 1 (t_shape x)) as [s1|]; [|done].
  cbn [mbind result_bind].
  specialize (Hconv {| t_shape := s1; t_data := t_data x |}).
  cbn [t_shape] in Hconv. rewrite <-Hconv.
  destruct (conv_data _) as [x2|]; [|done]. cbn [fmap result_fmap mbind result_bind].
  destruct (size4 (t_shape x2)) as [[[[b c] t] f]|]; [|done].
  cbn [mbind result_bind]. destruct (transpose 1 2 (t_shape x2)); [|done].
  cbn [mbind result_bind t_shape].
  destruct (reshape _ _); [|done]. cbn [mbind result_bind t_shape].
  by destruct (Linear_forward _ _).
Qed.

(** ** Theorems *)

(** The layout of the features the projection reads, for any stack:
    output frame [k] of item [i] is [W] of the rows [x'[i, j, k, :]] of the
    stack's output [x'], joined channel after channel ([j] from 0 to
    [C - 1]). *)
Theorem ConvSubsampling_forward_data_layout
    self conv_data W x x1 x' B C T D O lengths i k :
  unsqueeze_data 1 x = Ok x1 → conv_data x1 = Ok x' →
  t_shape x' = shape4 B C T D → tensor_wf x' →
  in_features (out self) = Z.of_nat (C * D) →
  out_features (out self) = Z.of_nat O → (∀ v, length (W v) = O) →
  (i < B)%nat → (k < T)%nat →
  ∃ y ls,
    ConvSubsampling_forward_data self conv_data W x lengths = Ok (y, ls)
    ∧ t_shape y = [Z.of_nat B; Z.of_nat T; Z.of_nat O]
    ∧ frame y i k = W (concat ((λ j, frame4 x' i j k) <$> seq 0 C)).
Proof.
  intros Hx1 Hx' Hs Hwf Hin Hout HW Hi Hk. eexists _, _.
  split; [by eapply ConvSub_forward_data_spec; (done || lia)|].
  split; [by cbn [t_shape]; rewrite Hout|].
  by apply (ConvSub_forward_data_frame _ _ _ _ _ _ O).
Qed.

End forward_data.

(** ** Witnesses

    A striding module of factor 2 for 4 input features, 2 channels and 3
    output features; the projection repeats the sum of its row. *)

Lemma ConvSubsampling_forward_data_layout_witness :
  ∃ y ls,
    ConvSubsampling_forward_data (F:=Q) (striding_module 2 4 3 2 ReLU)
      (λ _, Ok {| t_shape := [1; 2; 1; 2]; t_data := [10; 20; 30; 40] |})
      (λ v, replicate 3 (foldr Z.add 0 v))
      {| t_shape := [1; 2; 4]; t_data := [1; 2; 3; 4; 5; 6; 7; 8] |}
      (IntT [2])
    = Ok (y, ls)
    ∧ t_shape y = [Z.of_nat 1; Z.of_nat 1; Z.of_nat 3]
    ∧ frame y 0 0
      = replicate 3
          (foldr Z.add 0
             (concat ((λ j, frame4 {| t_shape := [1; 2; 1; 2];
                                      t_data := [10; 20; 30; 40] |} 0 j 0)
                        <$> seq 0 2))).
Proof.
  apply (ConvSubsampling_forward_data_layout (F:=Q)
           (striding_module 2 4 3 2 ReLU) _ (λ v, replicate 3 (foldr Z.add 0 v))
           _ {| t_shape := [1; 1; 2; 4]; t_data := [1; 2; 3; 4; 5; 6; 7; 8] |}
           _ 1 2 1 2 3 (IntT [2]) 0 0);
    try done; try lia.
  split; [repeat constructor; lia|reflexivity].
Defined.
