(* ===== verification/ConvSubValues.v ===== *)
(** * ConvSubValues: [ConvSubsampling.forward] with the values of its layers

    [ConvSubsampling_forward_values] is [forward] (subsampling.py, lines
    151-167) in which [self.conv(x)] is the stack of layers the constructor
    built, computed on values by [ConvData]; the weights of the layers, the
    function of the activation and the map [W] of the output projection
    are the parameters.  [receptive_field] gives the input frames an output
    frame is computed from.

    The theorems: on a well-formed batch [forward] returns a well-formed
    tensor of shape (B, ceil(T / 2^R), feat_out) with the lengths
    [ceil(l / 2^R)]; the receptive field of output frame [k] is
    [2^R k - (2^R - 1), 2^R k + (2^R - 1)] for "striding" and
    [2^R k - 2 (2^R - 1), 2^R k + 3 (2^R - 1)] for "vggnet"; an output frame
    of an item is computed from the frames of its receptive field in the
    same item alone, so that the frames whose field ends before the length
    [l] of an item do not depend on what the batch holds after frame [l]
    or in other items, nor on the position of the item or the number of
    items of the batch; and the last frame [calc_length] counts as valid
    can depend on the padding. *)

From Stdlib Require Import ZArith QArith Lia.
From stdpp Require Import base tactics numbers list strings.
From S2P Require Import Prelude.
From S2P Require Import Floats.
From S2P Require Import CalcLength.
From S2P Require Import Torch.
From S2P Require Import ConvSub.
From S2P Require Import Tensor.
From S2P Require Import ConvData.
From S2P Require Import ConvSubData.

#[local] Open Scope Z_scope.

(** ** Definitions *)

Section definitions.
Context `{FloatOps F} `{ElemOps A}.
Implicit Types (self : ConvSubsampling) (W : list A → list A).
Implicit Types (act : string → A → A) (θs : nat → conv_params A).

(** [self.conv(x)] (line 164): the layers of the module, the first with
    the parameters [θs 0]. *)
Definition conv_stack act θs self (x : tensor A) : result (tensor A) :=
  Sequential_forward_data act θs 0 (conv self) x.

(** [ConvSubsampling.forward] *)
Definition ConvSubsampling_forward_values act θs W self
    (x : tensor A) (lengths : tensor1 F) : result (tensor A * list Z) :=
  ConvSubsampling_forward_data self (conv_stack act θs self) W x lengths.

(** Item [b] of the batch [x] and item [b'] of the batch [x'] have the
    same first [l] frames. *)
Definition same_prefix (b b' : nat) (l : Z) (x x' : tensor A) : Prop :=
  ∀ i : nat, Z.of_nat i < l → frame x b i = frame x' b' i.

End definitions.

(** The input frames from which output frame [k] is computed. *)
Definition receptive_field (self : ConvSubsampling) (k : Z) : Z * Z :=
  stack_field (conv self) (k, k).

(** ** The stack of a module *)

Section stack.
Implicit Types (c cin : Z) (nm : string) (w : Z * Z) (n : nat).

Lemma field_striding_block cin c nm w :
  stack_field (striding_block cin c (Elementwise nm)) w
  = (2 * w.1 - 1, 2 * w.2 + 1).
Proof. unfold stack_field. simpl. f_equal; lia. Qed.

Lemma field_vgg_block cin c nm w :
  stack_field (vgg_block cin c (Elementwise nm)) w
  = (2 * w.1 - 2, 2 * w.2 + 3).
Proof. unfold stack_field. simpl. f_equal; lia. Qed.

(** The receptive field of [n] blocks that each double the interval. *)
Lemma stack_field_blocks (block : Z → list Module) a b cin c n w :
  (∀ ci w, stack_field (block ci) w = (2 * w.1 - a, 2 * w.2 + b)) →
  stack_field (blocks block cin c n) w
  = (2 ^ Z.of_nat n * w.1 - a * (2 ^ Z.of_nat n - 1),
     2 ^ Z.of_nat n * w.2 + b * (2 ^ Z.of_nat n - 1)).
Proof.
  intros Hblock. revert cin. induction n as [|n IH]; intros cin.
  { destruct w. simpl. f_equal; lia. }
  cbn [blocks]. rewrite stack_field_app, IH, Hblock. cbn [fst snd].
  rewrite Nat2Z.inj_succ, Z.pow_succ_r by lia. f_equal; lia.
Qed.

Lemma layer_ok_striding_block cin c nm :
  0 ≤ c → Forall layer_ok (striding_block cin c (Elementwise nm)).
Proof. intros. repeat constructor; simpl; lia. Qed.

Lemma layer_ok_vgg_block cin c nm :
  0 ≤ c → Forall layer_ok (vgg_block cin c (Elementwise nm)).
Proof. intros. repeat constructor; simpl; lia. Qed.

Lemma layer_ok_blocks (block : Z → list Module) cin c n :
  (∀ ci, Forall layer_ok (block ci)) → Forall layer_ok (blocks block cin c n).
Proof.
  intros Hblock. revert cin. induction n as [|n IH]; intros cin; [constructor|].
  cbn [blocks]. apply Forall_app. auto.
Qed.

End stack.

Section init_stack.
Context `{HalvingExact F D}.
Implicit Types (self : ConvSubsampling) (c b t : Z) (nm : string).

(** What a successful construction fixes about the stack: [R >= 1] blocks
    that halve both axes and double the receptive field. *)
Lemma init_stack s factor feat_in feat_out c nm self :
  D feat_in →
  ConvSubsampling_init (F:=F) s factor feat_in feat_out c (Elementwise nm)
  = Ok self →
  ∃ (block : Z → list Module) a a',
    1 ≤ _sampling_num self
    ∧ conv self = blocks block 1 c (Z.to_nat (_sampling_num self))
    ∧ out self = {| in_features := c * cdiv feat_in (2 ^ _sampling_num self);
                    out_features := feat_out |}
    ∧ (∀ n ci h w, 1 ≤ c → 1 ≤ h → 1 ≤ w →
         Sequential_forward (block ci) [n; ci; h; w]
         = Ok [n; c; cdiv h 2; cdiv w 2])
    ∧ (∀ ci w, stack_field (block ci) w = (2 * w.1 - a, 2 * w.2 + a'))
    ∧ (0 ≤ c → ∀ ci, Forall layer_ok (block ci))
    ∧ (s = "vggnet" ∧ a = 2 ∧ a' = 3 ∨ s = "striding" ∧ a = 1 ∧ a' = 1).
Proof.
  intros HD Hinit.
  destruct (init_Ok_inv _ _ _ _ _ _ _ HD Hinit)
    as (Hf & Hn & [[-> ->]|[-> ->]]); pose proof (log2_even_pos factor Hf Hn).
  - exists (λ ic, vgg_block ic c (Elementwise nm)), 2, 3.
    repeat split; try done; intros;
      eauto using vgg_block_forward, field_vgg_block, layer_ok_vgg_block.
  - exists (λ ic, striding_block ic c (Elementwise nm)), 1, 1.
    repeat split; try done; intros;
      eauto using striding_block_forward, field_striding_block,
        layer_ok_striding_block.
Qed.

(** The shape the stack of a module returns. *)
Lemma init_stack_shape s factor feat_in feat_out c nm self b t :
  D feat_in →
  ConvSubsampling_init (F:=F) s factor feat_in feat_out c (Elementwise nm)
  = Ok self →
  1 ≤ c → 1 ≤ feat_in → 1 ≤ t →
  Sequential_forward (conv self) [b; 1; t; feat_in]
  = Ok [b; c; cdiv t (2 ^ _sampling_num self);
        cdiv feat_in (2 ^ _sampling_num self)].
Proof.
  intros HD Hinit Hc Hd Ht.
  destruct (init_stack _ _ _ _ _ _ _ HD Hinit)
    as (block & a & a' & HR & -> & _ & Hblock & _).
  rewrite (blocks_forward _ c) by (done || (intros; by apply Hblock)).
  rewrite Z2Nat.id by lia.
  by destruct (Z.to_nat (_sampling_num self)) eqn:E; [lia|].
Qed.

Lemma init_layer_ok s factor feat_in feat_out c nm self :
  D feat_in →
  ConvSubsampling_init (F:=F) s factor feat_in feat_out c (Elementwise nm)
  = Ok self →
  0 ≤ c → Forall layer_ok (conv self).
Proof.
  intros HD Hinit Hc.
  destruct (init_stack _ _ _ _ _ _ _ HD Hinit)
    as (block & a & a' & _ & -> & _ & _ & _ & Hok & _).
  apply layer_ok_blocks. auto.
Qed.

(** The receptive field of an output frame, by strategy. *)
Lemma receptive_field_init s factor feat_in feat_out c nm self k :
  D feat_in →
  ConvSubsampling_init (F:=F) s factor feat_in feat_out c (Elementwise nm)
  = Ok self →
  let m := 2 ^ _sampling_num self in
  receptive_field self k
  = if decide (s = "vggnet")
    then (m * k - 2 * (m - 1), m * k + 3 * (m - 1))
    else (m * k - (m - 1), m * k + (m - 1)).
Proof.
  intros HD Hinit m. unfold receptive_field.
  destruct (init_stack _ _ _ _ _ _ _ HD Hinit)
    as (block & a & a' & HR & -> & _ & _ & Hfield & _ & Hs).
  rewrite (stack_field_blocks _ a a') by done. cbn [fst snd].
  rewrite Z2Nat.id by lia. fold m.
  destruct Hs as [(-> & -> & ->)|(-> & -> & ->)]; simpl; f_equal; lia.
Qed.

End init_stack.

(** ** From the batch to the input of the stack *)

Section unsqueeze.
Context `{ElemOps A}.
Implicit Types (x : tensor A) (b : nat) (l lo hi : Z).

Lemma unsqueeze_data_3d x (n t d : Z) :
  t_shape x = [n; t; d] →
  unsqueeze_data 1 x = Ok {| t_shape := [n; 1; t; d]; t_data := t_data x |}.
Proof. intros Hs. unfold unsqueeze_data. by rewrite Hs. Qed.

Lemma unsqueeze_wf x (n t d : Z) :
  t_shape x = [n; t; d] → tensor_wf x →
  tensor_wf {| t_shape := [n; 1; t; d]; t_data := t_data x |}.
Proof.
  intros Hs [Hpos Hlen]. rewrite Hs in Hpos, Hlen.
  split; cbn [t_shape t_data].
  - apply Forall_cons_1 in Hpos as [? Hpos].
    constructor; [done|constructor; [lia|done]].
  - rewrite Hlen. autorewrite with subsampling. lia.
Qed.

(** An element of the input of the stack is an element of a frame. *)
Lemma get4_unsqueeze x (n t d : Z) b (c : nat) (i j : Z) :
  t_shape x = [n; t; d] →
  get4 {| t_shape := [n; 1; t; d]; t_data := t_data x |} b c i j
  = if decide (0 ≤ i < t ∧ 0 ≤ j < d ∧ c = 0%nat)
    then frame x b (Z.to_nat i) !! Z.to_nat j else None.
Proof.
  intros Hs. unfold get4, frame. rewrite Hs. cbn [t_shape t_data].
  destruct (decide (0 ≤ i < t ∧ _)) as [(Hi & Hj & Hc)|Hn].
  - rewrite !decide_True by (repeat split; lia).
    rewrite lookup_take_lt, lookup_drop by lia. f_equal.
    change (Z.to_nat 1) with 1%nat. lia.
  - by rewrite decide_False by (change (Z.to_nat 1) with 1%nat; lia).
Qed.

(** Batches that agree on the first [l] frames of an item give inputs of
    the stack that agree on every interval below [l]. *)
Lemma same_prefix_agree x x' (n n' t d : Z) b b' l lo hi :
  t_shape x = [n; t; d] → t_shape x' = [n'; t; d] →
  Z.of_nat b < n → Z.of_nat b' < n' → same_prefix b b' l x x' → hi < l →
  agree b b' lo hi {| t_shape := [n; 1; t; d]; t_data := t_data x |}
    {| t_shape := [n'; 1; t; d]; t_data := t_data x' |}.
Proof.
  intros Hs Hs' Hb Hb' Hxx Hhi. eexists _, _, _. do 4 (split; [done|]).
  intros c i j Hi.
  rewrite (get4_unsqueeze x n t d), (get4_unsqueeze x' n' t d) by done.
  case_decide as Hc; [|done]. rewrite Hxx; [done|lia].
Qed.

End unsqueeze.

(** ** [forward] on a module the constructor built *)

Section values.
Context `{HalvingExact F D} `{ElemOps A}.
Implicit Types (self : ConvSubsampling) (W : list A → list A).
Implicit Types (act : string → A → A) (θs : nat → conv_params A).
Implicit Types (x y : tensor A) (lengths : tensor1 F) (c n t : Z) (b k : nat).

(** The stack does not fail on a well-formed input, and returns a
    well-formed tensor of the shape of the stack. *)
Lemma conv_stack_Ok act θs s factor feat_in feat_out c nm self x n t :
  D feat_in →
  ConvSubsampling_init (F:=F) s factor feat_in feat_out c (Elementwise nm)
  = Ok self →
  1 ≤ c → 1 ≤ feat_in → 1 ≤ t → t_shape x = [n; 1; t; feat_in] →
  tensor_wf x →
  ∃ y, conv_stack act θs self x = Ok y
       ∧ t_shape y = [n; c; cdiv t (2 ^ _sampling_num self);
                      cdiv feat_in (2 ^ _sampling_num self)]
       ∧ tensor_wf y.
Proof.
  intros HD Hinit Hc Hd Ht Hs Hwf. unfold conv_stack.
  pose proof (Sequential_forward_data_shape act θs 0 (conv self) x) as Hy.
  rewrite Hs, (init_stack_shape s factor feat_in feat_out c nm) in Hy by done.
  destruct (Sequential_forward_data _ _ _ _ _) as [y|] eqn:Hstack; [|done].
  exists y. split; [done|]. split; [by simplify_eq/=|].
  eapply Sequential_forward_data_wf; [|done..].
  eapply init_layer_ok; [done..|lia].
Qed.

(** [forward] step by step: the tensor it returns, from the output [y] of
    the stack. *)
Lemma forward_values_spec act θs W s factor feat_in feat_out c nm self x
    lengths n t :
  D feat_in →
  ConvSubsampling_init (F:=F) s factor feat_in feat_out c (Elementwise nm)
  = Ok self →
  1 ≤ c → 1 ≤ feat_in → 1 ≤ n → 1 ≤ t → t_shape x = [n; t; feat_in] →
  tensor_wf x →
  let t' := cdiv t (2 ^ _sampling_num self) in
  ∃ y, conv_stack act θs self
         {| t_shape := [n; 1; t; feat_in]; t_data := t_data x |} = Ok y
       ∧ t_shape y = [n; c; t'; cdiv feat_in (2 ^ _sampling_num self)]
       ∧ tensor_wf y
       ∧ ConvSubsampling_forward_values act θs W self x lengths
         = Ok ({| t_shape := [n; t'; feat_out];
                  t_data :=
                    concat (W <$> concat ((λ i,
                      (λ k, concat ((λ j, frame4 y i j k)
                                      <$> seq 0 (Z.to_nat c)))
                        <$> seq 0 (Z.to_nat t')) <$> seq 0 (Z.to_nat n))) |},
               calc_length lengths (_padding self) (_kernel_size self)
                 (_stride self) (_ceil_mode self) (_sampling_num self)).
Proof.
  intros HD Hinit Hc Hd Hn Ht Hs Hwf t'.
  destruct (conv_stack_Ok act θs s factor feat_in feat_out c nm self
              {| t_shape := [n; 1; t; feat_in]; t_data := t_data x |} n t)
    as (y & Hy & Hsy & Hwfy); [done..|by apply unsqueeze_wf|].
  destruct (init_stack _ _ _ _ _ _ _ HD Hinit)
    as (_ & _ & _ & HR & _ & Hout & _).
  assert (0 < 2 ^ _sampling_num self) by (apply Z.pow_pos_nonneg; lia).
  pose proof (cdiv_pos t (2 ^ _sampling_num self)).
  pose proof (cdiv_pos feat_in (2 ^ _sampling_num self)).
  exists y. do 3 (split; [done|]). unfold ConvSubsampling_forward_values.
  rewrite (ConvSub_forward_data_spec self _ W x
             {| t_shape := [n; 1; t; feat_in]; t_data := t_data x |}
             y (Z.to_nat n) (Z.to_nat c)
             (Z.to_nat t') (Z.to_nat (cdiv feat_in (2 ^ _sampling_num self)))
             lengths); try done; try lia.
  - rewrite Hout. cbn [out_features]. by rewrite !Z2Nat.id by (fold t'; lia).
  - by apply unsqueeze_data_3d.
  - rewrite Hsy. unfold shape4. by rewrite !Z2Nat.id by (fold t'; lia).
  - rewrite Hout. cbn [in_features]. rewrite Nat2Z.inj_mul.
    by rewrite !Z2Nat.id by lia.
Qed.

(** A frame of that tensor. *)
Lemma forward_values_frame W y (n t' c o : Z) b k :
  0 ≤ n → 0 ≤ t' → 0 ≤ o → (∀ v, length (W v) = Z.to_nat o) →
  (b < Z.to_nat n)%nat → (k < Z.to_nat t')%nat →
  frame {| t_shape := [n; t'; o];
           t_data :=
             concat (W <$> concat ((λ i,
               (λ k, concat ((λ j, frame4 y i j k) <$> seq 0 (Z.to_nat c)))
                 <$> seq 0 (Z.to_nat t')) <$> seq 0 (Z.to_nat n))) |} b k
  = W (concat ((λ j, frame4 y b j k) <$> seq 0 (Z.to_nat c))).
Proof.
  intros Hn Ht Ho HW Hb Hk.
  rewrite <-(Z2Nat.id n), <-(Z2Nat.id t') at 1 by done.
  by apply (ConvSub_forward_data_frame o W y _ _ _ (Z.to_nat o));
    rewrite ?Z2Nat.id.
Qed.

(** The shape of the output of the stack, with natural numbers. *)
Lemma stack_shape4 s factor feat_in feat_out c nm self n t :
  D feat_in →
  ConvSubsampling_init (F:=F) s factor feat_in feat_out c (Elementwise nm)
  = Ok self →
  0 ≤ c → 1 ≤ feat_in → 1 ≤ n → 1 ≤ t →
  [n; c; cdiv t (2 ^ _sampling_num self);
   cdiv feat_in (2 ^ _sampling_num self)]
  = shape4 (Z.to_nat n) (Z.to_nat c)
      (Z.to_nat (cdiv t (2 ^ _sampling_num self)))
      (Z.to_nat (cdiv feat_in (2 ^ _sampling_num self))).
Proof.
  intros HD Hinit Hc Hd Hn Ht. unfold shape4.
  destruct (init_stack _ _ _ _ _ _ _ HD Hinit) as (_ & _ & _ & HR & _).
  assert (0 < 2 ^ _sampling_num self) by (apply Z.pow_pos_nonneg; lia).
  pose proof (cdiv_pos t (2 ^ _sampling_num self)).
  pose proof (cdiv_pos feat_in (2 ^ _sampling_num self)).
  by rewrite !Z2Nat.id by lia.
Qed.

(** Locality of [forward]: when item [b] of [x] and item [b'] of [x'] have
    the same first [l] frames, and the batches the same number of frames,
    output frame [k] is the same for both items when the receptive field
    of [k] ends before [l]. *)
Lemma forward_values_local act θs W s factor feat_in feat_out c nm self
    x x' lengths lengths' n n' t b b' k l :
  D feat_in →
  ConvSubsampling_init (F:=F) s factor feat_in feat_out c (Elementwise nm)
  = Ok self →
  1 ≤ c → 1 ≤ feat_in → 1 ≤ t → 0 ≤ feat_out →
  (∀ v, length (W v) = Z.to_nat feat_out) →
  t_shape x = [n; t; feat_in] → t_shape x' = [n'; t; feat_in] →
  tensor_wf x → tensor_wf x' →
  Z.of_nat b < n → Z.of_nat b' < n' → same_prefix b b' l x x' →
  Z.of_nat k < cdiv t (2 ^ _sampling_num self) →
  (receptive_field self (Z.of_nat k)).2 < l →
  ∃ y ls y' ls',
    ConvSubsampling_forward_values act θs W self x lengths = Ok (y, ls)
    ∧ ConvSubsampling_forward_values act θs W self x' lengths' = Ok (y', ls')
    ∧ frame y b k = frame y' b' k.
Proof.
  intros HD Hinit Hc1 Hd Ht Ho HW Hs Hs' Hwf Hwf' Hb Hb' Hpre Hk Hl.
  assert (0 ≤ c) as Hc by lia.
  destruct (forward_values_spec act θs W s factor feat_in feat_out c nm self
              x lengths n t) as (y & Hy & Hsy & Hwfy & ->); [done || lia..|].
  destruct (forward_values_spec act θs W s factor feat_in feat_out c nm self
              x' lengths' n' t) as (y' & Hy' & Hsy' & Hwfy' & ->);
    [done || lia..|].
  eexists _, _, _, _. do 2 (split; [done|]).
  rewrite !forward_values_frame by (done || lia). f_equal. f_equal.
  apply Forall_fmap_ext_1, Forall_forall. intros j [_ Hj]%elem_of_seq.
  eapply (agree_frame4 y y'); [rewrite Hsy|rewrite Hsy'| |done|];
    [by eapply stack_shape4; (done || lia)..| |lia].
  eapply (Sequential_forward_data_local act θs 0 (conv self));
    [by eapply init_layer_ok| |exact Hy|exact Hy'].
  by eapply same_prefix_agree.
Qed.

(** The tensor [forward] returns is well formed. *)
Lemma forward_values_wf W y (n t' c o : Z) :
  0 ≤ n → 0 ≤ t' → 0 ≤ o → (∀ v, length (W v) = Z.to_nat o) →
  tensor_wf
    {| t_shape := [n; t'; o];
       t_data :=
         concat (W <$> concat ((λ i,
           (λ k, concat ((λ j, frame4 y i j k) <$> seq 0 (Z.to_nat c)))
             <$> seq 0 (Z.to_nat t')) <$> seq 0 (Z.to_nat n))) |}.
Proof.
  intros Hn Ht Ho HW. split; cbn [t_shape t_data]; [by repeat constructor|].
  rewrite (length_concat_uniform (Z.to_nat o))
    by (by apply Forall_fmap, Forall_true).
  rewrite length_fmap, (length_concat_fmap_seq _ _ (Z.to_nat t'))
    by (intros; by rewrite length_fmap, length_seq).
  rewrite !Nat2Z.inj_mul, !Z2Nat.id by done.
  autorewrite with subsampling. lia.
Qed.

End values.

(** ** Theorems *)


(** C32 (type).  On a module the constructor built with at least one
    channel, [forward] on values does not fail on a well-formed batch
    (B, T, feat_in) with [B, T >= 1]: it returns a well-formed tensor of
    shape (B, ceil(T / 2^R), feat_out) and the lengths [ceil(l / 2^R)]. *)
Theorem ConvSubsampling_forward_values_total `{HalvingExact F D} `{ElemOps A}
    act θs W s factor feat_in feat_out c nm self (x : tensor A)
    (lengths : tensor1 F) ls n t :
  D feat_in →
  ConvSubsampling_init (F:=F) s factor feat_in feat_out c (Elementwise nm)
  = Ok self →
  1 ≤ c → 1 ≤ feat_in → 1 ≤ n → 1 ≤ t →
  (∀ v, length (W v) = Z.to_nat feat_out) →
  t_shape x = [n; t; feat_in] → tensor_wf x →
  Forall D ls → to_float lengths = f_of_Z <$> ls → to_int lengths = ls →
  ∃ y,
    ConvSubsampling_forward_values act θs W self x lengths
    = Ok (y, (λ l, cdiv l (2 ^ _sampling_num self)) <$> ls)
    ∧ t_shape y = [n; cdiv t (2 ^ _sampling_num self); feat_out]
    ∧ tensor_wf y.
Proof.
  intros HD Hinit Hc Hd Hn Ht HW Hs Hwf Hls Hfl Hin.
  destruct (init_Ok_sizes _ _ _ _ _ _ _ HD Hinit) as (_ & _ & Ho).
  destruct (forward_values_spec act θs W s factor feat_in feat_out c nm self
              x lengths n t) as (y & _ & _ & _ & ->); [done..|].
  destruct (init_stack _ _ _ _ _ _ _ HD Hinit) as (_ & _ & _ & HR & _).
  assert (0 < 2 ^ _sampling_num self) by (apply Z.pow_pos_nonneg; lia).
  pose proof (cdiv_pos t (2 ^ _sampling_num self)).
  erewrite init_calc_length by done. eexists. do 2 (split; [done|]).
  apply forward_values_wf; (done || lia).
Qed.

(** C34 (functional).  The receptive field of output frame [k] of a module
    the constructor built, with [m = 2^R]: the input frames
    [m k - (m - 1)] to [m k + (m - 1)] for "striding", and
    [m k - 2 (m - 1)] to [m k + 3 (m - 1)] for "vggnet". *)
Theorem receptive_field_closed_form `{HalvingExact F D}
    s factor feat_in feat_out c nm self k :
  D feat_in →
  ConvSubsampling_init (F:=F) s factor feat_in feat_out c (Elementwise nm)
  = Ok self →
  let m := 2 ^ _sampling_num self in
  receptive_field self k
  = if decide (s = "vggnet")
    then (m * k - 2 * (m - 1), m * k + 3 * (m - 1))
    else (m * k - (m - 1), m * k + (m - 1)).
Proof. apply receptive_field_init. Qed.

(** C19 (safety).  Locality of [forward]: output frame [k] of an item is
    computed from the frames of its receptive field in that item alone.
    Take two well-formed batches with the same number of frames, of any
    numbers of items, and an item of each, at any positions [b] and [b'],
    with the same first [l] frames.  Then output frame [k] is the same for
    both items whenever the receptive field of [k] ends before [l],
    whatever the other items and the frames from [l] on hold.  The module
    has at least one channel, without which [forward] raises. *)
Theorem ConvSubsampling_forward_values_local `{HalvingExact F D} `{ElemOps A}
    act θs W s factor feat_in feat_out c nm self (x x' : tensor A)
    (lengths lengths' : tensor1 F) n n' t b b' k l :
  D feat_in →
  ConvSubsampling_init (F:=F) s factor feat_in feat_out c (Elementwise nm)
  = Ok self →
  1 ≤ c → 1 ≤ feat_in → 1 ≤ t →
  (∀ v, length (W v) = Z.to_nat feat_out) →
  t_shape x = [n; t; feat_in] → t_shape x' = [n'; t; feat_in] →
  tensor_wf x → tensor_wf x' →
  Z.of_nat b < n → Z.of_nat b' < n' → same_prefix b b' l x x' →
  Z.of_nat k < cdiv t (2 ^ _sampling_num self) →
  (receptive_field self (Z.of_nat k)).2 < l →
  ∃ y ls y' ls',
    ConvSubsampling_forward_values act θs W self x lengths = Ok (y, ls)
    ∧ ConvSubsampling_forward_values act θs W self x' lengths' = Ok (y', ls')
    ∧ frame y b k = frame y' b' k.
Proof.
  intros HD Hinit Hc Hd Ht.
  destruct (init_Ok_sizes _ _ _ _ _ _ _ HD Hinit) as (_ & _ & Ho).
  by apply (forward_values_local _ _ _ s factor feat_in feat_out c nm).
Qed.


(** ** Witnesses

    Modules of factor 2 and 4 with integer elements, weights 1, biases 1
    and a projection that sums its row. *)

(** The side conditions of the examples. *)
Ltac example_side :=
  first [ done | lia | by apply init_striding | by apply Forall_true
        | by (split; [repeat constructor; lia|reflexivity]) | idtac ].

Lemma ConvSubsampling_forward_values_total_witness :
  ∃ y,
    ConvSubsampling_forward_values (F:=Q) Z_act (λ _, ones 1)
      (λ v, [foldr Z.add 0 v]) (striding_module 2 1 1 1 ReLU)
      {| t_shape := [1; 2; 1]; t_data := [5; 7] |} (IntT [2])
    = Ok (y, (λ l, cdiv l (2 ^ _sampling_num (striding_module 2 1 1 1 ReLU)))
               <$> [2])
    ∧ t_shape y
      = [1; cdiv 2 (2 ^ _sampling_num (striding_module 2 1 1 1 ReLU)); 1]
    ∧ tensor_wf y.
Proof.
  apply (ConvSubsampling_forward_values_total (F:=Q) (D:=λ _, True) Z_act
           (λ _, ones 1) (λ v, [foldr Z.add 0 v]) "striding" 2 1 1 1 "ReLU"
           (striding_module 2 1 1 1 ReLU)
           {| t_shape := [1; 2; 1]; t_data := [5; 7] |} (IntT [2]) [2] 1 2);
    example_side.
Defined.

Lemma receptive_field_closed_form_witness :
  let m := 2 ^ _sampling_num (striding_module 4 80 320 256 ReLU) in
  receptive_field (striding_module 4 80 320 256 ReLU) 5
  = if decide ("striding" = "vggnet")
    then (m * 5 - 2 * (m - 1), m * 5 + 3 * (m - 1))
    else (m * 5 - (m - 1), m * 5 + (m - 1)).
Proof.
  apply (receptive_field_closed_form (F:=Q) (D:=λ _, True) "striding" 4 80
           320 256 "ReLU"); [done|by apply init_striding].
Defined.

Lemma ConvSubsampling_forward_values_local_witness :
  ∃ y ls y' ls',
    ConvSubsampling_forward_values (F:=Q) Z_act (λ _, ones 1)
      (λ v, [foldr Z.add 0 v]) (striding_module 2 1 1 1 ReLU)
      {| t_shape := [1; 4; 1]; t_data := [5; 6; 7; 8] |} (IntT [3])
    = Ok (y, ls)
    ∧ ConvSubsampling_forward_values (F:=Q) Z_act (λ _, ones 1)
        (λ v, [foldr Z.add 0 v]) (striding_module 2 1 1 1 ReLU)
        {| t_shape := [2; 4; 1]; t_data := [1; 2; 3; 4; 5; 6; 7; 9] |}
        (IntT [4; 3])
      = Ok (y', ls')
    ∧ frame y 0 0 = frame y' 1 0.
Proof.
  apply (ConvSubsampling_forward_values_local (F:=Q) (D:=λ _, True) Z_act
           (λ _, ones 1) (λ v, [foldr Z.add 0 v]) "striding" 2 1 1 1 "ReLU"
           (striding_module 2 1 1 1 ReLU)
           {| t_shape := [1; 4; 1]; t_data := [5; 6; 7; 8] |}
           {| t_shape := [2; 4; 1]; t_data := [1; 2; 3; 4; 5; 6; 7; 9] |}
           (IntT [3]) (IntT [4; 3]) 1 2 4 0 1 0 3);
    example_side.
  intros [|[|[|i]]] Hi; (done || lia).
Defined.
