(* ===== verification/LinearData.v ===== *)
(** * LinearData: the output projections with their weights

    The two [forward] methods end in a [torch.nn.Linear]: [self.proj_out(x)]
    (subsampling.py, line 42) and [self.out(...)] (line 166).  The files
    [StackingData] and [ConvSubData] take the affine map of that layer as a
    parameter [W]; here it is the map of a weight matrix and a bias,
    [Linear_row], over the element operations of [ConvData], so that both
    methods are given element by element.

    [time_conv_at] is the reference for [StackingSubsampling.forward]: a
    convolution along the time axis with a kernel of [F] frames and stride
    [F], which reads zero from frame [T] on, and whose weight for kernel
    position [u] and feature [c] is column [u * H + c] of the projection.
    [channel_major_at] is the reference for the end of
    [ConvSubsampling.forward]: the projection reads feature [f] of channel
    [j] of the stack's output in column [j * D' + f].

    Sums are taken in index order.  The elements are those of any instance
    of [ElemOps]: no law of the arithmetic is used, so the theorems hold for
    floats with their rounding as they do for integers. *)

From Stdlib Require Import ZArith QArith Lia.
From stdpp Require Import base tactics numbers list strings.
From S2P Require Import Prelude.
From S2P Require Import Floats.
From S2P Require Import CalcLength.
From S2P Require Import Torch.
From S2P Require Import ConvSub.
From S2P Require Import Stacking.
From S2P Require Import Tensor.
From S2P Require Import StackingData.
From S2P Require Import ConvData.
From S2P Require Import ConvSubData.
From S2P Require Import ConvSubValues.

#[local] Open Scope Z_scope.

(** ** Definitions *)

(** The parameters of a linear layer: [l_weight o n] is [weight[o, n]],
    [l_bias o] is [bias[o]]. *)
Record linear_params (A : Type) : Type := {
  l_weight : nat → nat → A;
  l_bias : nat → A
}.
Arguments l_weight {A} _ _ _.
Arguments l_bias {A} _ _.

Section definitions.
Context `{ElemOps A}.
Implicit Types (θ : linear_params A) (v : list A) (x : tensor A).

(** Element [o] of the image of a row [v]:
    [bias[o] + sum_n weight[o, n] * v[n]]. *)
Definition affine_at θ v (o : nat) : A :=
  e_add (l_bias θ o)
    (sum_with (λ n, e_mul (l_weight θ o n) (default e_zero (v !! n)))
       (seq 0 (length v))).

(** The map of the layer [m] on one row of its input. *)
Definition Linear_row θ (m : Linear) v : list A :=
  affine_at θ v <$> seq 0 (Z.to_nat (out_features m)).

(** [x[i, j, c]] of a batch of [T] frames padded with zeros at its end. *)
Definition padded_at x (T i j c : nat) : A :=
  if decide (j < T)%nat then default e_zero (frame x i j !! c) else e_zero.

(** Element [o] of output frame [k] of item [i] of a convolution over time
    with kernel and stride [F] on frames of [H] features. *)
Definition time_conv_at θ (F H T : nat) x (i k o : nat) : A :=
  e_add (l_bias θ o)
    (sum_with (λ n, e_mul (l_weight θ o n)
                      (padded_at x T i (k * F + n / H) (n mod H)))
       (seq 0 (F * H))).

(** Element [o] of the projection of frame [k] of item [i] of a tensor
    (B, C, T, D) read channel after channel. *)
Definition channel_major_at θ (C D : nat) x (i k o : nat) : A :=
  e_add (l_bias θ o)
    (sum_with (λ n, e_mul (l_weight θ o n)
                      (default e_zero
                         (get4 x i (n / D) (Z.of_nat k) (Z.of_nat (n mod D)))))
       (seq 0 (C * D))).

End definitions.

(** The two laws of zero some of the corollaries use.  They hold of the
    integers and of the rationals; of floats they hold on finite values
    up to the sign of zero. *)
Class ElemLaws (A : Type) `{ElemOps A} : Prop := {
  e_mul_zero_r : ∀ a : A, e_mul a e_zero = e_zero;
  e_add_zero_r : ∀ a : A, e_add a e_zero = a
}.

#[export] Instance Z_elem_laws : ElemLaws Z.
Proof. split; intros; simpl; lia. Qed.

(** ** Lemmas *)

Section lemmas.
Context {A : Type} {ops : ElemOps A}.
Implicit Types (θ : linear_params A) (v g : list A) (x y : tensor A).
Implicit Types (fs : list (list A)) (B T H F O C i j k n o : nat).

(** A sum of zeros. *)
Lemma sum_with_zero `{!ElemLaws A} {X} (f : X → A) (l : list X) :
  (∀ a, a ∈ l → f a = e_zero) → sum_with f l = e_zero.
Proof.
  induction l as [|a l IH]; intros Hf; [done|]. simpl.
  rewrite IH by (intros; apply Hf; by right).
  rewrite e_add_zero_r. apply Hf. by left.
Qed.

Lemma length_Linear_row θ m v :
  length (Linear_row θ m v) = Z.to_nat (out_features m).
Proof. unfold Linear_row. by rewrite length_fmap, length_seq. Qed.

Lemma Linear_row_lookup θ m v o :
  (o < Z.to_nat (out_features m))%nat →
  Linear_row θ m v !! o = Some (affine_at θ v o).
Proof.
  intros Ho. unfold Linear_row. by rewrite list_lookup_fmap, lookup_seq_lt.
Qed.

(** The image of a row depends on its first [length v] elements, read with
    any function [a] that gives them. *)
Lemma affine_at_ext θ v (a : nat → A) N o :
  length v = N → (∀ n, (n < N)%nat → default e_zero (v !! n) = a n) →
  affine_at θ v o
  = e_add (l_bias θ o)
      (sum_with (λ n, e_mul (l_weight θ o n) (a n)) (seq 0 N)).
Proof.
  intros <- Ha. unfold affine_at. f_equal. apply sum_with_ext.
  intros n [_ Hn]%elem_of_seq. by rewrite Ha by lia.
Qed.

(** Element [n] of a row cut into pieces of [H] elements. *)
Lemma div_mod_lt n F H :
  (n < F * H)%nat →
  (n / H < F ∧ n mod H < H ∧ n = n / H * H + n mod H)%nat.
Proof.
  intros Hn. assert (0 < H)%nat by nia.
  pose proof (Nat.div_mod_eq n H). pose proof (Nat.mod_upper_bound n H).
  split; [apply Nat.Div0.div_lt_upper_bound|]; lia.
Qed.

(** Element [n] of stacked frame [k] of an item is element [n mod H] of
    frame [k * F + n / H] of the item, or the padding. *)
Lemma stack_item_elem F H fs k g n :
  (0 < F)%nat → Forall (λ fr, length fr = H) fs →
  stack_item e_zero F H fs !! k = Some g → (n < F * H)%nat →
  default e_zero (g !! n)
  = default e_zero (fs !! (k * F + n / H)%nat ≫= (.!! (n mod H)%nat)).
Proof.
  intros HF Hfs Hk Hn. destruct (div_mod_lt n F H Hn) as (Hu & Hc & Hdm).
  pose proof (lookup_lt_Some _ _ _ Hk) as Hlt.
  rewrite length_stack_item in Hlt. set (j := (k * F + n / H)%nat).
  set (padded := fs ++ replicate (F - length fs mod F) (replicate H e_zero)).
  assert (j < length padded)%nat as Hj.
  { unfold padded. rewrite length_app, length_replicate, padded_time_nat by done.
    unfold j. nia. }
  destruct (lookup_lt_is_Some_2 padded j Hj) as [fr Hfr].
  destruct (stack_item_lookup e_zero F H fs j fr) as (g' & Hg & _ & Hslice);
    [done..|].
  assert (j / F = k ∧ j mod F = n / H)%nat as [Hq Hr].
  { split; symmetry;
      [apply (Nat.div_unique j F k (n / H))|apply (Nat.mod_unique j F k (n / H))];
      unfold j; lia. }
  rewrite Hq, Hr in *. assert (g' = g) as -> by congruence.
  assert (g !! n = fr !! (n mod H)%nat) as ->.
  { rewrite <-Hslice, lookup_take_lt, lookup_drop by done. f_equal. lia. }
  unfold padded in Hfr. apply lookup_app_Some in Hfr as [Hfr|[Hge Hfr]].
  - by rewrite Hfr.
  - apply lookup_replicate in Hfr as [-> _].
    rewrite lookup_replicate_2, (lookup_ge_None_2 fs) by done. done.
Qed.

(** A stacked frame holds [F * H] elements. *)
Lemma stack_item_row_length F H fs k g :
  (0 < F)%nat → Forall (λ fr, length fr = H) fs →
  stack_item e_zero F H fs !! k = Some g → length g = (F * H)%nat.
Proof.
  intros HF Hfs Hk. pose proof (lookup_lt_Some _ _ _ Hk) as Hlt.
  rewrite length_stack_item in Hlt.
  destruct (lookup_lt_is_Some_2
              (fs ++ replicate (F - length fs mod F) (replicate H e_zero))
              (k * F)) as [fr Hfr].
  { rewrite length_app, length_replicate, padded_time_nat by done. nia. }
  destruct (stack_item_lookup e_zero F H fs (k * F) fr) as (g' & Hg & Hlen & _);
    [done..|].
  rewrite Nat.div_mul in Hg by lia. congruence.
Qed.

(** The padded read of a batch, from the frames of the item. *)
Lemma padded_at_frames x B T H i fs j c :
  t_shape x = shape3 B T H → (i < B)%nat →
  frames x !! i = Some fs → length fs = T →
  padded_at x T i j c = default e_zero (fs !! j ≫= (.!! c)).
Proof.
  intros Hs Hi Hfs Hlen. unfold padded_at. case_decide as Hj.
  - destruct (frames_lookup x B T H i j) as (fs' & Hfs' & Hfr); [done..|].
    simplify_eq. by rewrite Hfr.
  - by rewrite lookup_ge_None_2 by lia.
Qed.

(** The projection of stacked frame [k] of item [i] is the convolution over
    time at [k]. *)
Lemma Linear_row_stacked θ m x B T H F i fs k g o :
  (0 < F)%nat → t_shape x = shape3 B T H → (i < B)%nat →
  frames x !! i = Some fs → length fs = T →
  Forall (λ fr, length fr = H) fs →
  stack_item e_zero F H fs !! k = Some g →
  (o < Z.to_nat (out_features m))%nat →
  Linear_row θ m g !! o = Some (time_conv_at θ F H T x i k o).
Proof.
  intros HF Hs Hi Hfs Hlen HfsH Hg Ho. rewrite Linear_row_lookup by done.
  f_equal. apply affine_at_ext; [by eapply stack_item_row_length|].
  intros n Hn. rewrite (stack_item_elem F H fs k g n) by done.
  symmetry. by eapply padded_at_frames.
Qed.

(** The rows of frame [k] of an item of a tensor (B, C, T, D), joined
    channel after channel: element [n] is feature [n mod D] of channel
    [n / D]. *)
Lemma channel_rows_length x B C T D i k :
  t_shape x = shape4 B C T D → tensor_wf x → (i < B)%nat → (k < T)%nat →
  length (concat ((λ j, frame4 x i j k) <$> seq 0 C)) = (C * D)%nat.
Proof.
  intros Hs Hwf Hi Hk.
  rewrite (length_concat_uniform D), length_fmap, length_seq; [done|].
  apply Forall_fmap, Forall_forall. intros j [_ Hj]%elem_of_seq.
  by apply (length_frame4 x B C T D).
Qed.

Lemma channel_rows_lookup x B C T D i k n :
  t_shape x = shape4 B C T D → tensor_wf x →
  (i < B)%nat → (k < T)%nat → (n < C * D)%nat →
  concat ((λ j, frame4 x i j k) <$> seq 0 C) !! n
  = get4 x i (n / D) (Z.of_nat k) (Z.of_nat (n mod D)).
Proof.
  intros Hs Hwf Hi Hk Hn. destruct (div_mod_lt n C D Hn) as (Hj & Hf & Hdm).
  rewrite Hdm at 1.
  rewrite (lookup_concat_fmap_seq (λ j, frame4 x i j k) C D) by
    (done || (intros; by apply (length_frame4 x B C T D))).
  by apply (frame4_lookup x B C T D).
Qed.

(** The projection of those rows. *)
Lemma Linear_row_channels θ m x B C T D i k o :
  t_shape x = shape4 B C T D → tensor_wf x → (i < B)%nat → (k < T)%nat →
  (o < Z.to_nat (out_features m))%nat →
  Linear_row θ m (concat ((λ j, frame4 x i j k) <$> seq 0 C)) !! o
  = Some (channel_major_at θ C D x i k o).
Proof.
  intros Hs Hwf Hi Hk Ho. rewrite Linear_row_lookup by done. f_equal.
  apply affine_at_ext; [by eapply channel_rows_length|].
  intros n Hn. by erewrite channel_rows_lookup.
Qed.

End lemmas.

(** ** Theorems *)

Section theorems.
Context {A : Type} {ops : ElemOps A}.
Implicit Types (θ : linear_params A) (x y : tensor A) (lengths : list Z).
Implicit Types (B T H F O i k o : nat).

(** C27 (equivalence).  [StackingSubsampling.forward] is a convolution over
    time: for a module the constructor returned with a positive factor
    [F], on a well-formed batch (B, T, H), [forward] with the weights [θ] of
    the projection returns a well-formed tensor (B, T // F + 1, O) whose
    element [o] of frame [k] of item [i] is [time_conv_at]: the bias plus
    the sum over the kernel positions [u < F] and the features [c < H] of
    weight column [u * H + c] times [x[i, k * F + u, c]], read as zero from
    frame [T] on. *)
Theorem StackingSubsampling_forward_time_conv θ F O self x B T H lengths :
  StackingSubsampling_init (Z.of_nat F) (Z.of_nat H) (Z.of_nat O) = Ok self →
  (0 < F)%nat → t_shape x = shape3 B T H → tensor_wf x →
  ∃ y,
    StackingSubsampling_forward_data e_zero self
      (Linear_row θ (proj_out self)) x lengths
    = Ok (y, stacked_length (Z.of_nat T) (Z.of_nat F) <$> lengths)
    ∧ t_shape y = shape3 B (T / F + 1) O
    ∧ tensor_wf y
    ∧ ∀ i k o, (i < B)%nat → (k < T / F + 1)%nat → (o < O)%nat →
        frame y i k !! o = Some (time_conv_at θ F H T x i k o).
Proof.
  intros Hinit HF Hs Hwf.
  assert (∀ v, length (Linear_row θ (proj_out self) v) = O) as HW.
  { intros. rewrite length_Linear_row. stacking_init Hinit. apply Nat2Z.id. }
  destruct (StackingSubsampling_forward_data_wf e_zero _ F O self x B T H
              lengths Hinit HF Hs Hwf HW) as (y & ls & Hy & Hwfy).
  stacking_init Hinit.
  rewrite (forward_data_spec _ _ _ _ _ B T H) in Hy by done.
  injection Hy as <- <-.
  eexists. split; [by apply forward_data_spec|]. do 2 (split; [done|]).
  intros i k o Hi Hk Ho.
  destruct (frames_item x B T H i) as (fs & Hfs & HfsT & HfsH); [done..|].
  destruct (lookup_lt_is_Some_2 (stack_item e_zero F H fs) k) as [g Hg];
    [by rewrite length_stack_item, HfsT|].
  destruct (forward_data_stacked e_zero _ F O x B T H lengths i fs k g HF Hs
              Hwf HW Hfs Hg) as (y & Hy & Hframe).
  rewrite (forward_data_spec _ _ _ _ _ B T H) in Hy by done.
  injection Hy as <-. cbn [proj_out stacking_module] in *. rewrite Hframe.
  eapply Linear_row_stacked; [done..|]. cbn [out_features]. lia.
Qed.

(** Where products with zero and sums with zero vanish, the frame added
    when the factor divides the number of frames is the bias of the
    projection, whatever the batch holds: the frame a full-length item
    counts as valid carries nothing of the input. *)
Corollary StackingSubsampling_padding_frame_is_bias `{!ElemLaws A}
    θ F O self x B T H lengths :
  StackingSubsampling_init (Z.of_nat F) (Z.of_nat H) (Z.of_nat O) = Ok self →
  (0 < F)%nat → t_shape x = shape3 B T H → tensor_wf x → (T mod F = 0)%nat →
  ∃ y ls,
    StackingSubsampling_forward_data e_zero self
      (Linear_row θ (proj_out self)) x lengths = Ok (y, ls)
    ∧ ∀ i o, (i < B)%nat → (o < O)%nat →
        frame y i (T / F) !! o = Some (l_bias θ o).
Proof.
  intros Hinit HF Hs Hwf Hmod.
  destruct (StackingSubsampling_forward_time_conv θ F O self x B T H lengths)
    as (y & Hy & _ & _ & Hel); [done..|].
  eexists y, _. split; [done|]. intros i o Hi Ho.
  rewrite Hel by (done || lia). f_equal. unfold time_conv_at.
  rewrite (sum_with_zero _ (seq 0 (F * H))); [apply e_add_zero_r|].
  intros n _. unfold padded_at. rewrite decide_False; [apply e_mul_zero_r|].
  pose proof (Nat.div_mod_eq T F). nia.
Qed.

End theorems.

Section conv_theorems.
Context {A : Type} {ops : ElemOps A}.
Implicit Types (θ : linear_params A) (x y : tensor A) (i k o : nat).

(** C30 (functional).  [ConvSubsampling.forward] element by element: for a
    module the constructor returned with at least one channel, on a
    well-formed batch (n, t, feat_in) with positive dimensions, the stack
    of layers returns a tensor [x'] of shape (n, c, t', d') and [forward]
    with the weights [θ] of the projection returns the tensor
    (n, t', feat_out) whose element [o] of frame [k] of item [i] is
    [channel_major_at]: the bias plus the sum over the channels [j < c] and
    the features [f < d'] of weight column [j * d' + f] times
    [x'[i, j, k, f]]. *)
Theorem ConvSubsampling_forward_channel_major `{HalvingExact Fl D}
    act θs θ s factor feat_in feat_out c nm self x (lengths : tensor1 Fl) n t :
  D feat_in →
  ConvSubsampling_init (F:=Fl) s factor feat_in feat_out c (Elementwise nm)
  = Ok self →
  1 ≤ c → 1 ≤ feat_in → 1 ≤ n → 1 ≤ t →
  t_shape x = [n; t; feat_in] → tensor_wf x →
  let t' := cdiv t (2 ^ _sampling_num self) in
  let d' := cdiv feat_in (2 ^ _sampling_num self) in
  ∃ x' y,
    conv_stack act θs self
      {| t_shape := [n; 1; t; feat_in]; t_data := t_data x |} = Ok x'
    ∧ ConvSubsampling_forward_values act θs (Linear_row θ (out self)) self
        x lengths
      = Ok (y, calc_length lengths (_padding self) (_kernel_size self)
                 (_stride self) (_ceil_mode self) (_sampling_num self))
    ∧ t_shape y = [n; t'; feat_out]
    ∧ ∀ i k o, Z.of_nat i < n → Z.of_nat k < t' → Z.of_nat o < feat_out →
        frame y i k !! o
        = Some (channel_major_at θ (Z.to_nat c) (Z.to_nat d') x' i k o).
Proof.
  intros HD Hinit Hc Hd Hn Ht Hs Hwf t' d'.
  destruct (init_Ok_sizes _ _ _ _ _ _ _ HD Hinit) as (_ & _ & Ho).
  destruct (forward_values_spec act θs (Linear_row θ (out self)) s factor
              feat_in feat_out c nm self x lengths n t)
    as (x' & Hx' & Hsx' & Hwfx' & Hy); [done..|].
  destruct (init_stack _ _ _ _ _ _ _ HD Hinit) as (_ & _ & _ & HR & _ & Hout & _).
  assert (0 < 2 ^ _sampling_num self) by (apply Z.pow_pos_nonneg; lia).
  pose proof (cdiv_pos t (2 ^ _sampling_num self)).
  assert (out_features (out self) = feat_out) as Hof by by rewrite Hout.
  eexists x', _. do 3 (split; [done|]). intros i k o Hi Hk Hko.
  rewrite (forward_values_frame (Linear_row θ (out self)) x' n
             (cdiv t (2 ^ _sampling_num self)) c feat_out i k);
    [|lia|lia|done|by intros; rewrite length_Linear_row, Hof|lia|fold t'; lia].
  rewrite (stack_shape4 s factor feat_in feat_out c nm self n t) in Hsx'
    by (done || lia).
  eapply Linear_row_channels; [done|done|lia|fold t'; lia|rewrite Hof; lia].
Qed.

End conv_theorems.

(** ** Witnesses

    Integer elements; a projection with bias 10 whose weight in column [n]
    is [n + 1], and convolutions without bias whose weights for output
    channel [o] are [o + 1]. *)

Definition example_linear : linear_params Z :=
  {| l_weight _ n := Z.of_nat (n + 1); l_bias _ := 10 |}.

Definition example_conv : conv_params Z :=
  {| weight o _ _ _ := Z.of_nat (o + 1); bias _ := 0 |}.

Lemma StackingSubsampling_forward_time_conv_witness :
  ∃ y,
    StackingSubsampling_forward_data e_zero
      (stacking_module (Z.of_nat 2) (Z.of_nat 2) (Z.of_nat 1))
      (Linear_row example_linear
         (proj_out (stacking_module (Z.of_nat 2) (Z.of_nat 2) (Z.of_nat 1))))
      {| t_shape := [1; 3; 2]; t_data := [1; 2; 3; 4; 5; 6] |} [3]
    = Ok (y, stacked_length (Z.of_nat 3) (Z.of_nat 2) <$> [3])
    ∧ t_shape y = shape3 1 (3 / 2 + 1) 1
    ∧ tensor_wf y
    ∧ ∀ i k o, (i < 1)%nat → (k < 3 / 2 + 1)%nat → (o < 1)%nat →
        frame y i k !! o
        = Some (time_conv_at example_linear 2 2 3
                  {| t_shape := [1; 3; 2]; t_data := [1; 2; 3; 4; 5; 6] |}
                  i k o).
Proof.
  apply (StackingSubsampling_forward_time_conv example_linear 2 1 _ _ 1 3 2 [3]);
    [done|lia|done|example_wf].
Defined.

(** The same call, computed: the frames 1 2 | 3 4 and 5 6 | padding give
    [10 + 1*1 + 2*2 + 3*3 + 4*4] and [10 + 1*5 + 2*6]. *)
Example stacking_forward_computed :
  StackingSubsampling_forward_data e_zero (stacking_module 2 2 1)
    (Linear_row example_linear (proj_out (stacking_module 2 2 1)))
    {| t_shape := [1; 3; 2]; t_data := [1; 2; 3; 4; 5; 6] |} [3]
  = Ok ({| t_shape := [1; 2; 1]; t_data := [40; 27] |}, [2]).
Proof. vm_compute. reflexivity. Qed.

(** With two frames the factor divides the time axis: the second output
    frame is the bias, and the item of length 2 is reported with both. *)
Example stacking_padding_frame_computed :
  StackingSubsampling_forward_data e_zero (stacking_module 2 2 1)
    (Linear_row example_linear (proj_out (stacking_module 2 2 1)))
    {| t_shape := [1; 2; 2]; t_data := [1; 2; 3; 4] |} [2]
  = Ok ({| t_shape := [1; 2; 1]; t_data := [40; 10] |}, [2]).
Proof. vm_compute. reflexivity. Qed.

Lemma ConvSubsampling_forward_channel_major_witness :
  let self := striding_module 2 2 1 2 ReLU in
  let t' := cdiv 2 (2 ^ _sampling_num self) in
  let d' := cdiv 2 (2 ^ _sampling_num self) in
  ∃ x' y,
    conv_stack Z_act (λ _, example_conv) self
      {| t_shape := [1; 1; 2; 2]; t_data := [1; 2; 3; 4] |} = Ok x'
    ∧ ConvSubsampling_forward_values (F:=Q) Z_act (λ _, example_conv)
        (Linear_row example_linear (out self)) self
        {| t_shape := [1; 2; 2]; t_data := [1; 2; 3; 4] |} (IntT [2])
      = Ok (y, calc_length (IntT [2]) (_padding self) (_kernel_size self)
                 (_stride self) (_ceil_mode self) (_sampling_num self))
    ∧ t_shape y = [1; t'; 1]
    ∧ ∀ i k o, Z.of_nat i < 1 → Z.of_nat k < t' → Z.of_nat o < 1 →
        frame y i k !! o
        = Some (channel_major_at example_linear (Z.to_nat 2) (Z.to_nat d')
                  x' i k o).
Proof.
  apply (ConvSubsampling_forward_channel_major (Fl:=Q) (D:=λ _, True) Z_act
           (λ _, example_conv) example_linear "striding" 2 2 1 2 "ReLU"
           (striding_module 2 2 1 2 ReLU)
           {| t_shape := [1; 2; 2]; t_data := [1; 2; 3; 4] |} (IntT [2]) 1 2);
    example_side.
Defined.

(** The same call, computed: the one window covers the four elements, so
    that channel [o] holds [(o + 1) * 10]; the projection reads channel 0
    in column 0 and channel 1 in column 1. *)
Example conv_forward_computed :
  ConvSubsampling_forward_values (F:=Q) Z_act (λ _, example_conv)
    (Linear_row example_linear (out (striding_module 2 2 1 2 ReLU)))
    (striding_module 2 2 1 2 ReLU)
    {| t_shape := [1; 2; 2]; t_data := [1; 2; 3; 4] |} (IntT [2])
  = Ok ({| t_shape := [1; 1; 1]; t_data := [10 + 1 * 10 + 2 * 20] |}, [1]).
Proof. vm_compute. reflexivity. Qed.
