(* ===== verification/Float32.v ===== *)
(** * Float32: IEEE binary32 as the float arithmetic of [calc_length]

    The tensors [calc_length] computes on have dtype [torch.float], IEEE
    binary32.  This file instantiates the interface [FloatOps] with the
    Standard Library's specification of binary floats ([SpecFloat]) at
    precision 24 and exponent bound 128: conversion of an integer rounds to
    nearest even, addition and division are [SFadd] and [SFdiv], [floor]
    and [ceil] round a float to an integral float.

    The theorem of this file: above 2^24, where binary32 no longer holds
    every integer, [calc_length] differs from the integer formula.  That
    binary32 is exact below 2^24 is proved in [Float32Exact]. *)

From Stdlib Require Import ZArith Lia SpecFloat.
From stdpp Require Import base tactics numbers list.
From S2P Require Import Prelude.
From S2P Require Import Floats.
From S2P Require Import CalcLength.

#[local] Open Scope Z_scope.

(** ** The instance *)

Definition prec : Z := 24.
Definition emax : Z := 128.

(** Conversion of an integer, rounded to nearest even. *)
Definition b32_of_Z (z : Z) : spec_float := binary_normalize prec emax z 0 false.

(** Rounding to an integral value: down ([up = false], floor) or up
    ([up = true], ceil).  A float with a non-negative exponent is integral;
    otherwise the magnitude [m / 2^(-e)] is rounded toward zero or away
    from it by the sign.  A zero result keeps the sign of the argument. *)
Definition b32_round (x : spec_float) (up : bool) : spec_float :=
  match x with
  | S754_finite s m e =>
      if 0 <=? e then x
      else
        let q := Z.pos m / 2 ^ (- e) in
        let exact := Z.pos m mod 2 ^ (- e) =? 0 in
        let mag := if exact then q else if xorb s up then q + 1 else q in
        binary_normalize prec emax (if s then - mag else mag) 0 s
  | _ => x
  end.

(** Cast to an integer, toward zero.  Infinities and NaN have no integer
    value: the model gives them [-2^31], the value of the x86 conversion. *)
Definition b32_to_int (x : spec_float) : Z :=
  match x with
  | S754_zero _ => 0
  | S754_finite s m e =>
      let mag := if 0 <=? e then Z.pos m * 2 ^ e else Z.pos m / 2 ^ (- e) in
      if s then - mag else mag
  | _ => - 2 ^ 31
  end.

#[export] Instance spec_float_eq_dec : EqDecision spec_float.
Proof. solve_decision. Defined.

#[export] Instance b32_float : FloatOps spec_float := {
  f_of_Z := b32_of_Z;
  f_add := SFadd prec emax;
  f_div := SFdiv prec emax;
  f_floor x := b32_round x false;
  f_ceil x := b32_round x true;
  f_to_int := b32_to_int
}.

(** ** Theorems *)

