(* ===== verification/Float32Exact.v ===== *)
(** * Float32Exact: the lengths binary32 computes exactly

    Binary32 holds every integer of magnitude below 2^24 and every half of
    such an integer.  This file proves it of the Standard Library's
    [SpecFloat] operations: [canon v e] is the normalised float of value
    [v * 2^e]; conversion, addition, division by 2, [floor], [ceil] and the
    cast to an integer are computed without rounding on these values.  The
    halving stages of [calc_length] therefore meet the contract
    [HalvingExact] on every length from 0 to 2^24 - 1. *)

From Stdlib Require Import ZArith Lia SpecFloat Zpower.
From stdpp Require Import base tactics numbers list strings.
From S2P Require Import Prelude.
From S2P Require Import Floats.
From S2P Require Import CalcLength.
From S2P Require Import Torch.
From S2P Require Import ConvSub.
From S2P Require Import Float32.

#[local] Open Scope Z_scope.

(** ** Digits, shifts and iteration *)

Section digits.
Implicit Types (p : positive) (m d j k : Z).

Lemma digits2_pos_size p : digits2_pos p = Pos.size p.
Proof. induction p; simpl; congruence. Qed.

Lemma digits2_pos_bounds p :
  2 ^ (Z.pos (digits2_pos p) - 1) ≤ Z.pos p < 2 ^ Z.pos (digits2_pos p).
Proof.
  rewrite digits2_pos_size.
  pose proof (Pos.size_gt p) as Hgt. pose proof (Pos.size_le p) as Hle.
  apply Pos2Z.pos_lt_pos in Hgt. apply Pos2Z.pos_le_pos in Hle.
  rewrite Pos2Z.inj_pow in Hgt, Hle. rewrite (Pos2Z.inj_xO p) in Hle.
  assert (2 ^ Z.pos (Pos.size p) = 2 * 2 ^ (Z.pos (Pos.size p) - 1)) as Hpow.
  { rewrite <-Z.pow_succ_r by lia. f_equal. lia. }
  lia.
Qed.

(** The number of digits is determined by the binade. *)
Lemma pow2_binade_unique d d' m :
  2 ^ (d - 1) ≤ m < 2 ^ d → 2 ^ (d' - 1) ≤ m < 2 ^ d' → 0 < d → 0 < d' → d = d'.
Proof.
  intros [Hl Hu] [Hl' Hu'] Hd Hd'.
  destruct (Z.lt_trichotomy d d') as [Hlt|[->|Hlt]]; [|done|].
  - assert (2 ^ d ≤ 2 ^ (d' - 1)) by (apply Z.pow_le_mono_r; lia). lia.
  - assert (2 ^ d' ≤ 2 ^ (d - 1)) by (apply Z.pow_le_mono_r; lia). lia.
Qed.

Lemma Zdigits2_binade m d :
  0 < d → 2 ^ (d - 1) ≤ m < 2 ^ d → Zdigits2 m = d.
Proof.
  intros Hd Hm. assert (0 < m) by (pose proof (Z.pow_pos_nonneg 2 (d - 1)); lia).
  destruct m as [|p|p]; try lia. simpl.
  apply (pow2_binade_unique _ _ (Z.pos p)); [apply digits2_pos_bounds|done|lia|done].
Qed.

(** Shifting a binade. *)
Lemma binade_shift m d k :
  0 ≤ k → 0 < d → 2 ^ (d - 1) ≤ m < 2 ^ d →
  2 ^ (d + k - 1) ≤ m * 2 ^ k < 2 ^ (d + k).
Proof.
  intros Hk Hd [Hl Hu]. pose proof (Z.pow_pos_nonneg 2 k).
  replace (d + k - 1) with (d - 1 + k) by lia.
  rewrite !Z.pow_add_r by lia. nia.
Qed.

Lemma Z_pos_to_pos m : 0 < m → Z.pos (Z.to_pos m) = m.
Proof. apply Z2Pos.id. Qed.

(** Aligning a mantissa to a smaller exponent multiplies it by a power
    of 2. *)
Lemma shl_align_le p ex ex' :
  ex' ≤ ex →
  shl_align p ex ex' = (Z.to_pos (Z.pos p * 2 ^ (ex - ex')), ex').
Proof.
  intros Hle. unfold shl_align.
  destruct (ex' - ex) as [|q|q] eqn:Hd; [|lia|].
  - replace ex' with ex by lia. by rewrite Z.sub_diag, Z.mul_1_r.
  - replace (ex - ex') with (Z.pos q) by lia. f_equal. apply Pos2Z.inj.
    rewrite Z_pos_to_pos by lia.
    change (Pos.iter xO p q) with (shift_pos q p).
    rewrite shift_pos_correct, Zpower_pos_nat, Zpower_nat_Z.
    rewrite positive_nat_Z. lia.
Qed.

(** Aligning to a larger exponent does nothing. *)
Lemma shl_align_ge p ex ex' : ex ≤ ex' → shl_align p ex ex' = (p, ex).
Proof. intros. unfold shl_align. destruct (ex' - ex) eqn:?; done || lia. Qed.

Lemma iter_pos_nat {A} (f : A → A) p x :
  SpecFloat.iter_pos f p x = Nat.iter (Pos.to_nat p) f x.
Proof.
  revert x. induction p as [p IH|p IH|]; intros x;
    cbn [SpecFloat.iter_pos]; [| |done].
  - rewrite !IH, Pos2Nat.inj_xI, <-Nat.iter_add, <-Nat.iter_succ_r.
    f_equal. lia.
  - rewrite !IH, Pos2Nat.inj_xO, <-Nat.iter_add. f_equal. lia.
Qed.

(** A right shift that drops zeros only is exact. *)
Lemma shr_1_exact m :
  0 < m →
  shr_1 {| shr_m := 2 * m; shr_r := false; shr_s := false |}
  = {| shr_m := m; shr_r := false; shr_s := false |}.
Proof. intros. by destruct m. Qed.

Lemma iter_shr_1_exact (n : nat) m :
  0 < m →
  Nat.iter n shr_1
    {| shr_m := m * 2 ^ Z.of_nat n; shr_r := false; shr_s := false |}
  = {| shr_m := m; shr_r := false; shr_s := false |}.
Proof.
  intros Hm. induction n as [|n IH]; [by rewrite Z.mul_1_r|].
  rewrite Nat.iter_succ_r, Nat2Z.inj_succ, Z.pow_succ_r by lia.
  replace (m * (2 * 2 ^ Z.of_nat n)) with (2 * (m * 2 ^ Z.of_nat n)) by lia.
  rewrite shr_1_exact; [done|]. pose proof (Z.pow_pos_nonneg 2 (Z.of_nat n)). nia.
Qed.

Lemma shr_exact m j e :
  0 < m → 0 ≤ j →
  shr {| shr_m := m * 2 ^ j; shr_r := false; shr_s := false |} e j
  = ({| shr_m := m; shr_r := false; shr_s := false |}, e + j).
Proof.
  intros Hm Hj. unfold shr. destruct j as [|p|p]; [|clear Hj|lia].
  - by rewrite Z.mul_1_r, Z.add_0_r.
  - rewrite iter_pos_nat. f_equal.
    rewrite <-(positive_nat_Z p) at 1. by apply iter_shr_1_exact.
Qed.

End digits.

(** ** Rounding a value that needs no rounding *)

Section rounding.
Implicit Types (s : bool) (m v d j k e : Z).

(** Above the subnormal range the exponent leaves 24 digits. *)
Lemma fexp_normal e : -125 ≤ e → fexp prec emax e = e - 24.
Proof. unfold fexp, emin, prec, emax. lia. Qed.

Lemma shr_fexp_exact m j e :
  2 ^ 23 ≤ m < 2 ^ 24 → 0 ≤ j → -149 ≤ e + j →
  shr_fexp prec emax (m * 2 ^ j) e loc_Exact
  = ({| shr_m := m; shr_r := false; shr_s := false |}, e + j).
Proof.
  intros Hm Hj He. unfold shr_fexp.
  rewrite (Zdigits2_binade _ (24 + j)) by (by apply binade_shift || lia).
  rewrite fexp_normal by lia. cbn [shr_record_of_loc].
  replace (24 + j + e - 24 - e) with j by lia. apply shr_exact; lia.
Qed.

(** A mantissa of 24 digits followed by zeros is rounded to itself. *)
Lemma binary_round_aux_exact s m j e :
  2 ^ 23 ≤ m < 2 ^ 24 → 0 ≤ j → -149 ≤ e + j ≤ 104 →
  binary_round_aux prec emax s (m * 2 ^ j) e loc_Exact
  = S754_finite s (Z.to_pos m) (e + j).
Proof.
  intros Hm Hj He. unfold binary_round_aux. rewrite shr_fexp_exact by lia.
  cbn [shr_m loc_of_shr_record round_nearest_even].
  rewrite <-(Z.mul_1_r m) at 1. change 1 with (2 ^ 0) at 1.
  rewrite shr_fexp_exact by lia. cbn [shr_m]. rewrite Z.add_0_r.
  destruct m as [|p|p]; try lia.
  replace (e + j <=? emax - prec) with true; [done|].
  symmetry. apply Z.leb_le. unfold emax, prec. lia.
Qed.

Lemma binary_round_aux_exact0 s m e :
  2 ^ 23 ≤ m < 2 ^ 24 → -149 ≤ e ≤ 104 →
  binary_round_aux prec emax s m e loc_Exact = S754_finite s (Z.to_pos m) e.
Proof.
  intros Hm He. pose proof (binary_round_aux_exact s m 0 e) as H.
  rewrite Z.pow_0_r, Z.mul_1_r, Z.add_0_r in H. apply H; lia.
Qed.

Lemma binary_round_exact s v d k e :
  0 < d ≤ 24 → 2 ^ (d - 1) ≤ v < 2 ^ d → 0 ≤ k →
  -149 ≤ d + k + e - 24 ≤ 104 →
  binary_round prec emax s (Z.to_pos (v * 2 ^ k)) e
  = S754_finite s (Z.to_pos (v * 2 ^ (24 - d))) (d + k + e - 24).
Proof.
  intros Hd Hv Hk He. unfold binary_round.
  pose proof (binade_shift v d k Hk (proj1 Hd) Hv) as HM.
  pose proof (binade_shift v d (24 - d) ltac:(lia) (proj1 Hd) Hv) as Hm.
  replace (d + (24 - d) - 1) with 23 in Hm by lia.
  replace (d + (24 - d)) with 24 in Hm by lia.
  assert (0 < v * 2 ^ k) as Hpos
    by (pose proof (Z.pow_pos_nonneg 2 (d + k - 1)); lia).
  pose proof (Zdigits2_binade _ (d + k) ltac:(lia) HM) as Hdig.
  rewrite <-(Z_pos_to_pos (v * 2 ^ k)) in Hdig by done. cbn [Zdigits2] in Hdig.
  rewrite Hdig, fexp_normal by lia.
  destruct (Z.le_gt_cases (d + k) 24) as [Hle|Hgt].
  - rewrite shl_align_le, Z_pos_to_pos by lia.
    replace (e - (d + k + e - 24)) with (24 - d - k) by lia.
    rewrite Z_pos_to_pos, <-Z.mul_assoc, <-Z.pow_add_r by lia.
    replace (k + (24 - d - k)) with (24 - d) by lia.
    by rewrite binary_round_aux_exact0 by lia.
  - rewrite shl_align_ge, Z_pos_to_pos by lia.
    replace (v * 2 ^ k) with (v * 2 ^ (24 - d) * 2 ^ (d + k - 24)).
    + rewrite binary_round_aux_exact by lia. f_equal. lia.
    + rewrite <-Z.mul_assoc, <-Z.pow_add_r by lia. do 2 f_equal. lia.
Qed.

(** The number of binary digits of a positive integer. *)
Definition digits (v : Z) : Z := Z.log2 (Z.abs v) + 1.

(** The normalised float of value [v * 2^e], for [v] of at most 24 digits:
    a mantissa of exactly 24 digits. *)
Definition canon (v e : Z) : spec_float :=
  match v with
  | 0 => S754_zero false
  | _ => S754_finite (v <? 0) (Z.to_pos (Z.abs v * 2 ^ (24 - digits v)))
           (digits v + e - 24)
  end.

Lemma digits_binade v :
  v ≠ 0 → 0 < digits v ∧ 2 ^ (digits v - 1) ≤ Z.abs v < 2 ^ digits v.
Proof.
  intros Hv. unfold digits. pose proof (Z.log2_nonneg (Z.abs v)).
  pose proof (Z.log2_spec (Z.abs v) ltac:(lia)) as Hs.
  replace (Z.log2 (Z.abs v) + 1 - 1) with (Z.log2 (Z.abs v)) by lia.
  split; [lia|]. by rewrite <-Z.add_1_r in Hs.
Qed.

Lemma digits_le_24 v : v ≠ 0 → Z.abs v < 2 ^ 24 → digits v ≤ 24.
Proof.
  intros Hv Hlt. unfold digits.
  apply (Z.log2_lt_pow2 (Z.abs v)) in Hlt; lia.
Qed.

(** Normalising [v * 2^k] at exponent [e - k] gives the canonical float of
    [v * 2^e]: the result depends on the value only. *)
Lemma binary_normalize_exact v k e :
  Z.abs v < 2 ^ 24 → 0 ≤ k → -125 ≤ e ≤ 80 →
  binary_normalize prec emax (v * 2 ^ k) (e - k) false = canon v e.
Proof.
  intros Hv Hk He. destruct (decide (v = 0)) as [->|Hv0]; [done|].
  destruct (digits_binade v Hv0) as [Hd0 Hd].
  pose proof (digits_le_24 v Hv0 Hv) as Hd24.
  pose proof (Z.pow_pos_nonneg 2 k ltac:(lia) Hk) as Hpow.
  pose proof (binary_round_exact (v <? 0) (Z.abs v) (digits v) k (e - k)
                ltac:(lia) Hd Hk ltac:(lia)) as Hround.
  replace (digits v + k + (e - k) - 24) with (digits v + e - 24) in Hround by lia.
  destruct v as [|p|p]; [done|..]; cbn [canon]; rewrite <-Hround;
    cbn [Z.abs Z.ltb Z.compare].
  - rewrite <-(Z_pos_to_pos (Z.pos p * 2 ^ k)) at 1 by lia. done.
  - replace (Z.neg p * 2 ^ k) with (Z.neg (Z.to_pos (Z.pos p * 2 ^ k))); [done|].
    rewrite <-Pos2Z.opp_pos, Z_pos_to_pos by lia. lia.
Qed.

Lemma canon_finite v e :
  v ≠ 0 →
  canon v e
  = S754_finite (v <? 0) (Z.to_pos (Z.abs v * 2 ^ (24 - digits v)))
      (digits v + e - 24).
Proof. by destruct v. Qed.

(** The mantissa of [canon] has exactly 24 digits. *)
Lemma canon_mantissa v :
  v ≠ 0 → Z.abs v < 2 ^ 24 →
  2 ^ 23 ≤ Z.abs v * 2 ^ (24 - digits v) < 2 ^ 24.
Proof.
  intros Hv0 Hv. destruct (digits_binade v Hv0) as [Hd0 Hd].
  pose proof (digits_le_24 v Hv0 Hv).
  pose proof (binade_shift _ _ (24 - digits v) ltac:(lia) Hd0 Hd) as Hm.
  replace (digits v + (24 - digits v) - 1) with 23 in Hm by lia.
  by replace (digits v + (24 - digits v)) with 24 in Hm by lia.
Qed.

Lemma cond_Zopp_abs v x : cond_Zopp (v <? 0) (Z.abs v * x) = v * x.
Proof. destruct v; simpl; lia. Qed.

(** The mantissa of [canon v e] aligned to a smaller exponent [ez], with
    its sign, is [v * 2^(e - ez)]. *)
Lemma aligned_canon v e ez :
  v ≠ 0 → Z.abs v < 2 ^ 24 → ez ≤ digits v + e - 24 →
  cond_Zopp (v <? 0)
    (Z.pos (fst (shl_align (Z.to_pos (Z.abs v * 2 ^ (24 - digits v)))
                   (digits v + e - 24) ez)))
  = v * 2 ^ (e - ez).
Proof.
  intros Hv0 Hv Hez. pose proof (canon_mantissa v Hv0 Hv) as Hm.
  pose proof (digits_le_24 v Hv0 Hv).
  pose proof (Z.pow_pos_nonneg 2 (digits v + e - 24 - ez) ltac:(lia) ltac:(lia)).
  rewrite shl_align_le by done. cbn [fst]. rewrite !Z_pos_to_pos by nia.
  rewrite <-Z.mul_assoc, <-Z.pow_add_r by lia.
  replace (24 - digits v + (digits v + e - 24 - ez)) with (e - ez) by lia.
  apply cond_Zopp_abs.
Qed.

End rounding.

(** ** The operations on exact values *)

Section operations.
Implicit Types (v n a e : Z).

Lemma b32_of_Z_canon n : Z.abs n < 2 ^ 24 → b32_of_Z n = canon n 0.
Proof.
  intros. unfold b32_of_Z. rewrite <-(binary_normalize_exact n 0 0) by lia.
  by rewrite Z.pow_0_r, Z.mul_1_r.
Qed.

(** Addition of two values with the same unit is exact when the sum has at
    most 24 digits. *)
Lemma SFadd_canon v1 v2 e :
  Z.abs v1 < 2 ^ 24 → Z.abs v2 < 2 ^ 24 → Z.abs (v1 + v2) < 2 ^ 24 →
  -125 ≤ e ≤ 80 →
  SFadd prec emax (canon v1 e) (canon v2 e) = canon (v1 + v2) e.
Proof.
  intros H1 H2 H12 He.
  destruct (decide (v1 = 0)) as [->|Hv1]; [by destruct v2|].
  destruct (decide (v2 = 0)) as [->|Hv2]; [rewrite Z.add_0_r; by destruct v1|].
  pose proof (digits_le_24 v1 Hv1 H1). pose proof (digits_le_24 v2 Hv2 H2).
  rewrite (canon_finite v1), (canon_finite v2) by done. cbn [SFadd].
  set (ez := Z.min _ _). rewrite !aligned_canon by lia.
  rewrite <-Z.mul_add_distr_r.
  rewrite <-(binary_normalize_exact (v1 + v2) (e - ez) e) by lia.
  f_equal. lia.
Qed.

Lemma div_eucl_exact a b : 0 < b → Z.div_eucl (a * b) b = (a, 0).
Proof.
  intros Hb. destruct (Z.div_eucl (a * b) b) as [q r] eqn:E.
  assert (q = a * b / b) as -> by (unfold Z.div; by rewrite E).
  assert (r = (a * b) mod b) as -> by (unfold Z.modulo; by rewrite E).
  by rewrite Z.div_mul, Z.mod_mul by lia.
Qed.

(** Division by 2 is exact: it moves the unit from [2^0] to [2^-1]. *)
Lemma SFdiv_canon_2 v :
  Z.abs v < 2 ^ 24 →
  SFdiv prec emax (canon v 0) (canon 2 0) = canon v (-1).
Proof.
  intros Hv. destruct (decide (v = 0)) as [->|Hv0]; [done|].
  pose proof (canon_mantissa v Hv0 Hv) as Hm.
  pose proof (digits_binade v Hv0) as [Hd0 _].
  pose proof (digits_le_24 v Hv0 Hv) as Hd24.
  rewrite !(canon_finite v) by done.
  change (canon 2 0) with (S754_finite false 8388608 (-22)).
  cbn [SFdiv]. unfold SFdiv_core_binary.
  rewrite Z_pos_to_pos by lia. set (m := Z.abs v * 2 ^ (24 - digits v)) in *.
  rewrite (Zdigits2_binade m 24) by (done || lia).
  change (Zdigits2 (Z.pos 8388608)) with 24.
  rewrite fexp_normal by lia.
  replace (Z.min _ _) with (digits v - 26) by lia.
  replace (digits v + 0 - 24 - -22 - (digits v - 26)) with 24 by lia.
  rewrite Z.shiftl_mul_pow2 by lia.
  change (2 ^ 24) with (2 * Z.pos 8388608). rewrite Z.mul_assoc.
  rewrite div_eucl_exact by lia.
  change (new_location (Z.pos 8388608) 0) with loc_Exact.
  rewrite xorb_false_r. rewrite <-(Z.pow_1_r 2) at 1.
  rewrite binary_round_aux_exact by lia. f_equal. lia.
Qed.

Lemma sign_abs v : (if v <? 0 then - Z.abs v else Z.abs v) = v.
Proof. destruct v; simpl; lia. Qed.

(** The cast of an integer value is the integer. *)
Lemma b32_to_int_canon n : Z.abs n < 2 ^ 24 → b32_to_int (canon n 0) = n.
Proof.
  intros Hn. destruct (decide (n = 0)) as [->|Hn0]; [done|].
  pose proof (canon_mantissa n Hn0 Hn) as Hm.
  pose proof (digits_le_24 n Hn0 Hn) as Hd24.
  pose proof (Z.pow_pos_nonneg 2 (24 - digits n) ltac:(lia) ltac:(lia)).
  rewrite canon_finite by done. cbn [b32_to_int]. rewrite Z_pos_to_pos by lia.
  destruct (Z.leb_spec 0 (digits n + 0 - 24)).
  - replace (digits n + 0 - 24) with 0 by lia.
    replace (24 - digits n) with 0 by lia.
    rewrite !Z.pow_0_r, !Z.mul_1_r. apply sign_abs.
  - replace (- (digits n + 0 - 24)) with (24 - digits n) by lia.
    rewrite Z.div_mul by lia. apply sign_abs.
Qed.

(** Floor and ceiling of a half-integer [v / 2]. *)
Lemma round_half_magnitude v (up : bool) c :
  0 < c →
  (if v <? 0
   then - (if Z.abs v mod 2 * c =? 0 then Z.abs v / 2
           else if xorb true up then Z.abs v / 2 + 1 else Z.abs v / 2)
   else (if Z.abs v mod 2 * c =? 0 then Z.abs v / 2
         else if xorb false up then Z.abs v / 2 + 1 else Z.abs v / 2))
  = if up then cdiv v 2 else v / 2.
Proof.
  intros Hc. unfold cdiv.
  assert ((Z.abs v mod 2 * c =? 0) = (Z.abs v mod 2 =? 0)) as ->.
  { destruct (Z.eqb_spec (Z.abs v mod 2 * c) 0),
      (Z.eqb_spec (Z.abs v mod 2) 0); nia. }
  destruct (Z.ltb_spec v 0); destruct (Z.eqb_spec (Z.abs v mod 2) 0);
    destruct up; cbn [xorb]; divlia.
Qed.

Lemma b32_round_canon v up :
  Z.abs v < 2 ^ 24 →
  b32_round (canon v (-1)) up
  = binary_normalize prec emax (if up then cdiv v 2 else v / 2) 0 (v <? 0).
Proof.
  intros Hv. destruct (decide (v = 0)) as [->|Hv0]; [by destruct up|].
  pose proof (canon_mantissa v Hv0 Hv) as Hm.
  pose proof (digits_le_24 v Hv0 Hv) as Hd24.
  pose proof (Z.pow_pos_nonneg 2 (24 - digits v) ltac:(lia) ltac:(lia)).
  rewrite canon_finite by done. cbn [b32_round].
  replace (0 <=? digits v + -1 - 24) with false by (symmetry; apply Z.leb_gt; lia).
  rewrite Z_pos_to_pos by lia.
  replace (- (digits v + -1 - 24)) with (1 + (24 - digits v)) by lia.
  rewrite Z.pow_add_r, Z.pow_1_r by lia.
  rewrite Z.div_mul_cancel_r, Z.mul_mod_distr_r by lia.
  f_equal. destruct (v <? 0) eqn:Hs.
  - rewrite <-(round_half_magnitude v up (2 ^ (24 - digits v))) by done.
    by rewrite Hs.
  - rewrite <-(round_half_magnitude v up (2 ^ (24 - digits v))) by done.
    by rewrite Hs.
Qed.

(** One halving stage in binary32 is the stage on integers, whenever the
    intermediate values have at most 24 digits. *)
Lemma b32_stage_exact a c n :
  Z.abs n < 2 ^ 24 → Z.abs a < 2 ^ 24 → Z.abs (n + a) < 2 ^ 24 →
  0 ≤ n + a + 2 < 2 ^ 24 →
  f_stage (F:=spec_float) a 2 c (f_of_Z n) = f_of_Z (z_stage a 2 c n).
Proof.
  intros Hn Ha Hna Hv. unfold f_stage.
  cbn [f_add f_div f_of_Z f_ceil f_floor b32_float].
  change (b32_of_Z 2) with (canon 2 0). change (b32_of_Z 1) with (canon 2 (-1)).
  rewrite (b32_of_Z_canon n), (b32_of_Z_canon a) by done.
  rewrite SFadd_canon, SFdiv_canon_2, SFadd_canon by (done || lia).
  assert (∀ up, b32_round (canon (n + a + 2) (-1)) up
                = b32_of_Z (if up then cdiv (n + a + 2) 2 else (n + a + 2) / 2))
    as Hr.
  { intros up. rewrite b32_round_canon by lia.
    by replace (n + a + 2 <? 0) with false by (symmetry; apply Z.ltb_ge; lia). }
  destruct c; rewrite Hr; f_equal; unfold z_stage, cdiv; divlia.
Qed.

End operations.

(** ** The contract *)

(** The lengths binary32 treats exactly: the integers from 0 to 2^24 - 1. *)
Definition int24 (n : Z) : Prop := 0 ≤ n < 2 ^ 24.

#[export] Instance int24_dec n : Decision (int24 n).
Proof. unfold int24. apply _. Defined.

#[export] Instance b32_step_exact : StepExact spec_float int24 halving_params.
Proof.
  split.
  - intros n [??]. cbn [f_to_int f_of_Z b32_float].
    by rewrite b32_of_Z_canon, b32_to_int_canon by lia.
  - intros a s c n [-> Ha] [Hn0 Hn].
    destruct (decide (n = 2 ^ 24 - 1)) as [->|].
    + destruct Ha as [-> | ->], c; vm_compute; reflexivity.
    + apply b32_stage_exact; destruct Ha as [-> | ->]; lia.
Qed.

#[export] Instance b32_halving_exact : HalvingExact spec_float int24.
Proof.
  split; [apply _|]. intros n [??]. unfold int24, cdiv in *. split; divlia.
Qed.

(** ** Theorems *)

(** C18 (equivalence).  In binary32, for lengths from 0 to 2^24 - 1 held in
    a tensor of either dtype, [calc_length] with the parameters of either
    strategy (padding 0, kernel 2 and ceiling for "vggnet"; padding 1,
    kernel 3 and floor for "striding"; stride 2) returns [ceil(l / 2^r)]
    for every item, as exact arithmetic does. *)
Theorem calc_length_b32_closed_form (t : tensor1 spec_float) (ls : list Z) r
    (vggnet : bool) :
  0 ≤ r → Forall int24 ls →
  to_float t = b32_of_Z <$> ls → to_int t = ls →
  calc_length t (if vggnet then 0 else 1) (if vggnet then 2 else 3) 2 vggnet r
  = (λ l, cdiv l (2 ^ r)) <$> ls.
Proof.
  intros. destruct vggnet.
  - by apply (calc_length_vggnet_spec (H:=b32_float) (D:=int24)).
  - by apply (calc_length_striding_spec (H:=b32_float) (D:=int24)).
Qed.

(** C21 (functional).  [ConvSubsampling.forward] with binary32 lengths: for
    a module the constructor returned, with at least one channel, a batch
    (b, t, feat_in) with positive dimensions and lengths from 0 to
    2^24 - 1, [forward] returns the shape (b, ceil(t / 2^R), feat_out) and
    the lengths [ceil(l / 2^R)], with [R] the number of stages of the
    module. *)
Theorem ConvSubsampling_forward_b32
    s factor feat_in feat_out c nm self b t (lengths : tensor1 spec_float) ls :
  ConvSubsampling_init (F:=spec_float) s factor feat_in feat_out c
    (Elementwise nm) = Ok self →
  1 ≤ c → 1 ≤ feat_in < 2 ^ 24 → 1 ≤ b → 1 ≤ t → Forall int24 ls →
  to_float lengths = b32_of_Z <$> ls → to_int lengths = ls →
  ConvSubsampling_forward self [b; t; feat_in] lengths
  = Ok ([b; cdiv t (2 ^ _sampling_num self); feat_out],
        (λ l, cdiv l (2 ^ _sampling_num self)) <$> ls).
Proof.
  intros Hinit ? [??] ?????.
  apply (forward_spec (H:=b32_float) (D:=int24) s factor feat_in feat_out c nm);
    done || (unfold int24; lia).
Qed.

(** ** Witnesses *)

Ltac int24_list := repeat (constructor; [unfold int24; lia|]); constructor.

Lemma calc_length_b32_closed_form_witness :
  calc_length (F:=spec_float) (FloatT (b32_of_Z <$> [1600; 324; 1; 666]))
    1 3 2 false 2
  = (λ l, cdiv l (2 ^ 2)) <$> [1600; 324; 1; 666]
  ∧ calc_length (F:=spec_float) (IntT [1400; 16777215]) 0 2 2 true 3
    = (λ l, cdiv l (2 ^ 3)) <$> [1400; 16777215].
Proof.
  split.
  - apply (calc_length_b32_closed_form _ [1600; 324; 1; 666] 2 false);
      [lia|int24_list|done|vm_compute; reflexivity].
  - apply (calc_length_b32_closed_form _ [1400; 16777215] 3 true);
      [lia|int24_list|done|done].
Defined.

Lemma ConvSubsampling_forward_b32_witness :
  ConvSubsampling_forward (F:=spec_float) (striding_module 4 80 320 256 ReLU)
    [4; 1600; 80] (IntT [1600; 324; 1; 666])
  = Ok ([4; cdiv 1600 (2 ^ _sampling_num (striding_module 4 80 320 256 ReLU));
         320],
        (λ l, cdiv l (2 ^ _sampling_num (striding_module 4 80 320 256 ReLU)))
          <$> [1600; 324; 1; 666]).
Proof.
  apply (ConvSubsampling_forward_b32 "striding" 4 80 320 256 "ReLU"
           (striding_module 4 80 320 256 ReLU) 4 1600
           (IntT [1600; 324; 1; 666]) [1600; 324; 1; 666]);
    [vm_compute; reflexivity|lia|lia|lia|lia|int24_list|done|done].
Defined.
