(* ===== verification/Float32Div.v ===== *)
(** * Float32Div: the floor division of binary32 tensors

    [torch.div(x, y, rounding_mode="floor")] on float tensors is not the
    floor of the rounded quotient: PyTorch computes the remainder with
    [fmod], divides the difference, which is a multiple of the divisor, and
    corrects the result by the signs and by a last rounding step.
    [b32_fmod] is C's [fmodf] on the Standard Library's [SpecFloat], and
    [b32_floordiv] the floor division built on it, operation by operation.

    The file proves that on integers from 0 to 2^24 - 1 and a positive
    divisor every step is exact, so that the binary32 instance meets the
    contract [FloorDivExact] of [StackingFloat], and concludes on
    [StackingSubsampling.forward] with a binary32 tensor of lengths. *)

From Stdlib Require Import ZArith Lia SpecFloat Zpower.
From stdpp Require Import base tactics numbers list strings.
From S2P Require Import Prelude.
From S2P Require Import Floats.
From S2P Require Import Torch.
From S2P Require Import Stacking.
From S2P Require Import StackingFloat.
From S2P Require Import Float32.
From S2P Require Import Float32Exact.

#[local] Open Scope Z_scope.

(** ** The operations *)

Definition b32_zero : spec_float := S754_zero false.
Definition b32_one : spec_float := S754_finite false 8388608 (-23).
Definition b32_half : spec_float := S754_finite false 8388608 (-24).

(** The sign bit of a float; a NaN of [SpecFloat] carries none. *)
Definition b32_signbit (x : spec_float) : bool :=
  match x with
  | S754_zero s | S754_infinity s | S754_finite s _ _ => s
  | S754_nan => false
  end.

(** [x != y] of C: true when either is a NaN. *)
Definition b32_neq (x y : spec_float) : bool := negb (SFeqb x y).

(** [fmodf(x, y)]: the remainder of the division of the magnitudes, with
    the sign of [x].  The remainder of two floats is a float: nothing is
    rounded. *)
Definition b32_fmod (x y : spec_float) : spec_float :=
  match x with
  | S754_nan | S754_infinity _ => S754_nan
  | S754_zero _ =>
      match y with S754_nan | S754_zero _ => S754_nan | _ => x end
  | S754_finite sx mx ex =>
      match y with
      | S754_nan | S754_zero _ => S754_nan
      | S754_infinity _ => x
      | S754_finite _ my ey =>
          let e := Z.min ex ey in
          let r := (Z.pos mx * 2 ^ (ex - e)) mod (Z.pos my * 2 ^ (ey - e)) in
          binary_normalize prec emax (cond_Zopp sx r) e sx
      end
  end.

(** The floor division of two floats. *)
Definition b32_floordiv (a b : spec_float) : spec_float :=
  if SFeqb b b32_zero then SFdiv prec emax a b
  else
    let mod_ := b32_fmod a b in
    let div := SFdiv prec emax (SFsub prec emax a mod_) b in
    let div :=
      if b32_neq mod_ b32_zero
         && negb (eqb (SFltb b b32_zero) (SFltb mod_ b32_zero))
      then SFsub prec emax div b32_one else div in
    if b32_neq div b32_zero then
      let floordiv := b32_round div false in
      if SFltb b32_half (SFsub prec emax div floordiv)
      then SFadd prec emax floordiv b32_one else floordiv
    else S754_zero (b32_signbit (SFdiv prec emax a b)).

#[export] Instance b32_floordiv_ops : FloorDivOps spec_float := {
  f_floordiv := b32_floordiv
}.

(** ** Lemmas *)

Example b32_floordiv_examples :
  b32_floordiv (b32_of_Z 670) (b32_of_Z 4) = b32_of_Z 167
  ∧ b32_floordiv (b32_of_Z (-7)) (b32_of_Z 2) = b32_of_Z (-4)
  ∧ b32_floordiv (b32_of_Z 7) (b32_of_Z (-2)) = b32_of_Z (-4)
  ∧ b32_floordiv (b32_of_Z 3) (b32_of_Z 5) = b32_zero
  ∧ b32_floordiv (b32_of_Z (-3)) (b32_of_Z 5) = b32_of_Z (-1)
  ∧ b32_floordiv (b32_of_Z 7) b32_zero = S754_infinity false
  ∧ b32_floordiv b32_zero (b32_of_Z (-5)) = S754_zero true
  ∧ b32_fmod (b32_of_Z (-7)) (b32_of_Z 2) = b32_of_Z (-1)
  ∧ b32_fmod b32_half (b32_of_Z 3) = b32_half
  ∧ b32_fmod (b32_of_Z 7) b32_half = b32_zero.
Proof. repeat split; vm_compute; reflexivity. Qed.

Section exact.
Implicit Types (v n d q e : Z).

(** *** Comparisons with zero *)

Lemma b32_neq_canon_zero v e : b32_neq (canon v e) b32_zero = bool_decide (v ≠ 0).
Proof. by destruct v as [|p|p]. Qed.

Lemma SFltb_canon_zero v e : SFltb (canon v e) b32_zero = (v <? 0).
Proof. by destruct v as [|p|p]. Qed.

Lemma SFeqb_canon_pos d e : 0 < d → SFeqb (canon d e) b32_zero = false.
Proof. by destruct d as [|p|p]. Qed.

(** *** The remainder *)

(** The mantissa of [canon v 0] at a smaller exponent [e]. *)
Lemma canon_mantissa_at v e :
  0 < v < 2 ^ 24 → e ≤ digits v - 24 →
  Z.pos (Z.to_pos (Z.abs v * 2 ^ (24 - digits v))) * 2 ^ (digits v + 0 - 24 - e)
  = v * 2 ^ (- e).
Proof.
  intros Hv He. assert (v ≠ 0) as Hv0 by lia.
  pose proof (canon_mantissa v Hv0 ltac:(lia)).
  pose proof (digits_le_24 v Hv0 ltac:(lia)).
  rewrite Z_pos_to_pos, Z.abs_eq, <-Z.mul_assoc, <-Z.pow_add_r by lia.
  do 2 f_equal. lia.
Qed.

Lemma b32_fmod_canon n d :
  0 ≤ n < 2 ^ 24 → 0 < d < 2 ^ 24 →
  b32_fmod (canon n 0) (canon d 0) = canon (n mod d) 0.
Proof.
  intros Hn Hd. pose proof (Z.mod_pos_bound n d ltac:(lia)) as Hr.
  destruct (decide (n = 0)) as [->|Hn0].
  { rewrite Z.mod_0_l by lia. destruct d; done || lia. }
  pose proof (digits_le_24 n Hn0 ltac:(lia)).
  pose proof (digits_le_24 d ltac:(lia) ltac:(lia)).
  rewrite (canon_finite n), (canon_finite d) by lia. cbn [b32_fmod].
  set (e := Z.min _ _).
  rewrite !canon_mantissa_at by lia.
  replace (n <? 0) with false by (symmetry; apply Z.ltb_ge; lia).
  rewrite Z.mul_mod_distr_r by (try apply Z.pow_nonzero; lia).
  cbn [cond_Zopp]. replace e with (0 - - e) at 2 by lia.
  apply binary_normalize_exact; lia.
Qed.

(** *** Subtraction *)

Lemma canon_opp v e : v ≠ 0 →
  canon (- v) e
  = S754_finite (negb (v <? 0)) (Z.to_pos (Z.abs v * 2 ^ (24 - digits v)))
      (digits v + e - 24).
Proof.
  intros Hv. rewrite canon_finite by lia. unfold digits.
  rewrite Z.abs_opp. f_equal. destruct v; done.
Qed.

(** Subtraction of two values with the same unit is exact when the
    difference has at most 24 digits. *)
Lemma SFsub_canon v1 v2 e :
  Z.abs v1 < 2 ^ 24 → Z.abs v2 < 2 ^ 24 → Z.abs (v1 - v2) < 2 ^ 24 →
  -125 ≤ e ≤ 80 →
  SFsub prec emax (canon v1 e) (canon v2 e) = canon (v1 - v2) e.
Proof.
  intros H1 H2 H12 He.
  destruct (decide (v2 = 0)) as [->|Hv2]; [rewrite Z.sub_0_r; by destruct v1|].
  destruct (decide (v1 = 0)) as [->|Hv1].
  { rewrite Z.sub_0_l, canon_opp, (canon_finite v2) by done. done. }
  pose proof (digits_le_24 v1 Hv1 H1). pose proof (digits_le_24 v2 Hv2 H2).
  rewrite (canon_finite v1), (canon_finite v2) by done. cbn [SFsub].
  set (ez := Z.min _ _). rewrite !aligned_canon by lia.
  rewrite <-Z.mul_sub_distr_r.
  rewrite <-(binary_normalize_exact (v1 - v2) (e - ez) e) by lia.
  f_equal. lia.
Qed.

(** *** Division *)

Lemma new_location_exact m : new_location m 0 = loc_Exact.
Proof. unfold new_location. by destruct (Z.even m). Qed.

(** The digits of a product. *)
Lemma digits_mul_above q d :
  0 < q → 0 < d → digits (q * d) ≤ digits q + digits d.
Proof.
  intros Hq Hd. unfold digits. rewrite !Z.abs_eq by nia.
  pose proof (Z.log2_mul_above q d). lia.
Qed.

(** The quotient of two mantissas of 24 digits, the first shifted by 24
    digits, when the values divide exactly. *)
Lemma mantissa_quotient q d :
  0 < q → 0 < d → q * d < 2 ^ 24 →
  q * d * 2 ^ (24 - digits (q * d)) * 2 ^ 24
  = q * 2 ^ (24 - digits q) * 2 ^ (digits d + digits q - digits (q * d))
    * (d * 2 ^ (24 - digits d)).
Proof.
  intros Hq Hd Hn. pose proof (digits_mul_above q d Hq Hd).
  pose proof (digits_le_24 (q * d) ltac:(nia) ltac:(nia)).
  pose proof (digits_le_24 q ltac:(lia) ltac:(nia)).
  pose proof (digits_le_24 d ltac:(lia) ltac:(nia)).
  replace (q * 2 ^ (24 - digits q)
           * 2 ^ (digits d + digits q - digits (q * d))
           * (d * 2 ^ (24 - digits d)))
    with (q * d * (2 ^ (24 - digits q)
                   * 2 ^ (digits d + digits q - digits (q * d))
                   * 2 ^ (24 - digits d))) by lia.
  rewrite <-!Z.mul_assoc, <-!Z.pow_add_r by lia. do 3 f_equal. lia.
Qed.

(** The division of a multiple of [d] by [d] is exact. *)
Lemma SFdiv_canon_exact q d :
  0 ≤ q → 0 < d < 2 ^ 24 → q * d < 2 ^ 24 →
  SFdiv prec emax (canon (q * d) 0) (canon d 0) = canon q 0.
Proof.
  intros Hq Hd Hn.
  destruct (decide (q = 0)) as [->|Hq0]; [destruct d; done || lia|].
  assert (0 < q * d) as Hn0 by nia.
  pose proof (canon_mantissa (q * d) ltac:(lia) ltac:(lia)) as Hm1.
  pose proof (canon_mantissa d ltac:(lia) ltac:(lia)) as Hm2.
  pose proof (canon_mantissa q Hq0 ltac:(nia)) as Hm.
  pose proof (digits_mul_above q d ltac:(lia) ltac:(lia)).
  pose proof (digits_le_24 (q * d) ltac:(lia) ltac:(lia)).
  pose proof (digits_le_24 d ltac:(lia) ltac:(lia)).
  pose proof (digits_binade (q * d) ltac:(lia)) as [? _].
  pose proof (digits_binade q Hq0) as [? _].
  pose proof (digits_le_24 q Hq0 ltac:(nia)).
  rewrite (canon_finite (q * d)), (canon_finite d), (canon_finite q) by lia.
  rewrite !Z.abs_eq in * by lia.
  replace (q * d <? 0) with false by (symmetry; apply Z.ltb_ge; lia).
  replace (d <? 0) with false by (symmetry; apply Z.ltb_ge; lia).
  replace (q <? 0) with false by (symmetry; apply Z.ltb_ge; lia).
  cbn [SFdiv]. unfold SFdiv_core_binary. rewrite !Z_pos_to_pos by lia.
  rewrite !(Zdigits2_binade _ 24), fexp_normal by (done || lia).
  replace (Z.min _ _) with (digits (q * d) - digits d - 24) by lia.
  replace (digits (q * d) + 0 - 24 - (digits d + 0 - 24)
           - (digits (q * d) - digits d - 24)) with 24 by lia.
  rewrite Z.shiftl_mul_pow2, mantissa_quotient, div_eucl_exact by lia.
  rewrite new_location_exact, binary_round_aux_exact by (done || lia).
  cbn [xorb]. f_equal. lia.
Qed.

Lemma signbit_binary_round_aux m e l :
  b32_signbit (binary_round_aux prec emax false m e l) = false.
Proof.
  unfold binary_round_aux. destruct (shr_fexp _ _ _ _ _) as [r e1].
  destruct (shr_fexp _ _ _ _ _) as [r' e2].
  destruct (shr_m r'); [done| |done]. by destruct (_ <=? _).
Qed.

(** A quotient of non-negative values is not negative, rounded or not. *)
Lemma signbit_SFdiv_canon n d :
  0 ≤ n → 0 < d → b32_signbit (SFdiv prec emax (canon n 0) (canon d 0)) = false.
Proof.
  intros Hn Hd. destruct n as [|p|p]; [by destruct d|clear Hn|lia].
  destruct d as [|p'|p']; try lia. cbn [canon Z.ltb Z.compare SFdiv xorb].
  destruct (SFdiv_core_binary _ _ _ _ _ _) as [[mz ez] lz].
  apply signbit_binary_round_aux.
Qed.

(** *** Rounding to an integral value *)

Lemma b32_round_canon_int v up :
  Z.abs v < 2 ^ 24 → b32_round (canon v 0) up = canon v 0.
Proof.
  intros Hv. destruct (decide (v = 0)) as [->|Hv0]; [done|].
  pose proof (canon_mantissa v Hv0 Hv) as Hm.
  pose proof (digits_le_24 v Hv0 Hv) as Hd24.
  pose proof (Z.pow_pos_nonneg 2 (24 - digits v) ltac:(lia) ltac:(lia)).
  rewrite <-(b32_of_Z_canon v) at 2 by done.
  rewrite canon_finite by done. cbn [b32_round].
  destruct (Z.leb_spec 0 (digits v + 0 - 24)); [by rewrite <-canon_finite, <-b32_of_Z_canon|].
  rewrite Z_pos_to_pos by lia.
  replace (- (digits v + 0 - 24)) with (24 - digits v) by lia.
  rewrite Z.div_mul, Z.mod_mul, Z.eqb_refl, sign_abs by lia.
  unfold b32_of_Z. by destruct v.
Qed.

(** *** The floor division *)

Lemma b32_floordiv_exact n d :
  0 ≤ n < 2 ^ 24 → 0 < d < 2 ^ 24 →
  b32_floordiv (b32_of_Z n) (b32_of_Z d) = b32_of_Z (n / d).
Proof.
  intros Hn Hd. pose proof (Z.mod_pos_bound n d ltac:(lia)) as Hr.
  pose proof (Z.div_mod n d ltac:(lia)) as Hdm.
  assert (0 ≤ n / d ≤ n) as Hq by (split; [apply Z.div_pos|apply Z.div_le_upper_bound]; nia).
  rewrite !b32_of_Z_canon by lia. unfold b32_floordiv.
  rewrite SFeqb_canon_pos, b32_fmod_canon, SFsub_canon by lia.
  replace (n - n mod d) with (n / d * d) by lia.
  rewrite SFdiv_canon_exact, b32_neq_canon_zero, !SFltb_canon_zero by lia.
  replace (d <? 0) with false by (symmetry; apply Z.ltb_ge; lia).
  replace (n mod d <? 0) with false by (symmetry; apply Z.ltb_ge; lia).
  cbn [eqb negb]. rewrite andb_false_r, b32_neq_canon_zero.
  case_bool_decide as Hq0.
  - rewrite b32_round_canon_int, SFsub_canon, Z.sub_diag by lia. done.
  - rewrite signbit_SFdiv_canon by lia. by rewrite Hq0.
Qed.

End exact.

(** ** The contract *)

#[export] Instance b32_floordiv_int24 : FloorDivExact spec_float int24.
Proof.
  split.
  - intros n m [??] [??] [??]. cbn [f_add f_of_Z b32_float].
    rewrite !b32_of_Z_canon by lia. apply SFadd_canon; lia.
  - intros n d [??] [??] ?. apply b32_floordiv_exact; unfold int24 in *; lia.
Qed.

(** The lengths [forward] treats exactly in binary32 for the factor [f]:
    those that stay below 2^24 when the padding is added. *)
Definition length24 (f l : Z) : Prop := 0 ≤ l ∧ l + f < 2 ^ 24.

#[export] Instance length24_dec f l : Decision (length24 f l).
Proof. unfold length24. apply _. Defined.

Lemma length24_int24 f t ls :
  0 < f → Forall (length24 f) ls →
  Forall (λ l, int24 l ∧ int24 (l + pad_size_of t f)) ls.
Proof.
  intros Hf Hls. eapply Forall_impl; [done|]. intros l [??].
  pose proof (pad_size_bounds t f Hf). unfold int24. lia.
Qed.

Lemma forward_b32_spec f feat_in feat_out b t ls :
  0 < f < 2 ^ 24 → 0 ≤ b → 0 ≤ t → 0 ≤ feat_in → Forall (length24 f) ls →
  StackingSubsampling_forward_t (F:=spec_float)
    (stacking_module f feat_in feat_out) [b; t; feat_in]
    (FloatT (b32_of_Z <$> ls))
  = Ok ([b; t / f + 1; feat_out],
        FloatT (b32_of_Z <$> (stacked_length t f <$> ls))).
Proof.
  intros [Hf ?] Hb Ht Hh Hls. pose proof (pad_size_bounds t f Hf).
  apply (forward_t_float (H:=b32_float) (H0:=b32_floordiv_ops) (D:=int24));
    [done..| | |by apply length24_int24]; unfold int24; lia.
Qed.

(** ** Theorems *)

(** C12 (equivalence).  [StackingSubsampling.forward] with a binary32
    tensor of lengths: for a factor [f] from 1 to 2^24 - 1, a batch
    (b, t, feat_in) and lengths [l >= 0] with [l + f < 2^24], PyTorch's
    floor division of floats computes the integer formula without
    rounding, and [forward] returns the lengths [(l + f - t % f) // f] in a
    tensor that is still of dtype float; on an integer tensor it returns
    the same lengths as integers. *)
Theorem StackingSubsampling_forward_b32 f feat_in feat_out self b t ls
    (float : bool) :
  StackingSubsampling_init f feat_in feat_out = Ok self →
  0 < f < 2 ^ 24 → 0 ≤ b → 0 ≤ t → 0 ≤ feat_in → Forall (length24 f) ls →
  StackingSubsampling_forward_t (F:=spec_float) self [b; t; feat_in]
    (if float then FloatT (b32_of_Z <$> ls) else IntT ls)
  = Ok ([b; t / f + 1; feat_out],
        let ls' := (λ l, (l + (f - t mod f)) / f) <$> ls in
        if float then FloatT (b32_of_Z <$> ls') else IntT ls').
Proof.
  intros Hinit Hf Hb Ht Hh Hls. stacking_init Hinit.
  destruct float; [by apply forward_b32_spec|].
  rewrite forward_t_int, Stacking_forward_spec by (done || lia). done.
Qed.

(** ** Witnesses *)

Lemma StackingSubsampling_forward_b32_witness :
  StackingSubsampling_forward_t (F:=spec_float)
    (stacking_module 4 80 256) [4; 1600; 80]
    (FloatT (b32_of_Z <$> [1600; 324; 1; 666]))
  = Ok ([4; 1600 / 4 + 1; 256],
        FloatT (b32_of_Z <$> ((λ l, (l + (4 - 1600 mod 4)) / 4)
                              <$> [1600; 324; 1; 666]))).
Proof.
  apply (StackingSubsampling_forward_b32 4 80 256 (stacking_module 4 80 256)
           4 1600 [1600; 324; 1; 666] true);
    [exact Stacking_init_example|lia..|].
  repeat (constructor; [unfold length24; lia|]). constructor.
Defined.
