(* ===== verification/PackageInfo.v ===== *)
(** * PackageInfo: the version strings of package_info.py

    The module computes two strings from the tuple [VERSION]:
    [__shortversion__], the first three components joined by dots, and
    [__version__], the same followed by the remaining components.  A
    component is a Python value, an integer or a string; [str.join] raises
    [TypeError] on an integer.  The theorems give both strings, for any
    version tuple of this form relate the two, and show when the string
    determines the tuple: [parse_version] reads [__version__] back when the
    numbers are not negative and the pre-release string does not start
    with a digit, and two tuples can share a string otherwise. *)

From Stdlib Require Import ZArith Lia Ascii.
From stdpp Require Import base tactics numbers list strings pretty.
From S2P Require Import Prelude.

#[local] Open Scope Z_scope.

(** ** Python values and the string operations used *)

Inductive pyval : Type :=
| PInt (z : Z)
| PStr (s : string).

(** [str(v)] *)
Definition py_str (v : pyval) : pyval :=
  match v with
  | PInt z => PStr (pretty z)
  | PStr s => PStr s
  end.

(** [sep.join(xs)]: every element must be a string. *)
Fixpoint py_join (sep : string) (xs : list pyval) : result string :=
  match xs with
  | [] => Ok ""
  | [PStr s] => Ok s
  | PStr s :: rest => r ← py_join sep rest; Ok (s +:+ sep +:+ r)
  | PInt _ :: _ => Err (TypeError "sequence item: expected str instance, int found")
  end.

(** ** The module *)

Definition MAJOR : Z := 0.
Definition MINOR : Z := 1.
Definition PATCH : Z := 0.
Definition PRE_RELEASE : string := "rc0".

Definition VERSION : list pyval :=
  [PInt MAJOR; PInt MINOR; PInt PATCH; PStr PRE_RELEASE].

(** The two strings, for any version tuple. *)
Definition shortversion_of (version : list pyval) : result string :=
  py_join "." (py_str <$> take 3 version).

Definition version_of (version : list pyval) : result string :=
  s ← py_join "." (py_str <$> take 3 version);
  r ← py_join "" (drop 3 version);
  Ok (s +:+ r).

Definition __shortversion__ : result string := shortversion_of VERSION.
Definition __version__ : result string := version_of VERSION.

Definition __package_name__ : string := "chrispnet".
Definition __contact_names__ : string := "Eesung Kim".
Definition __contact_emails__ : string := "eesungk@gmail.com".
Definition __homepage__ : string := "".
Definition __repository_url__ : string := "https://github.com/eesungkim/e2e_asr".
Definition __download_url__ : string := "https://github.com/eesungkim/".
Definition __description__ : string := "Personal Library for Conversational AI".
Definition __license__ : string := "Apache2".
Definition __keywords__ : string := "".

(** ** Reading a version string back

    The module only writes the strings.  [parse_version] is the reader the
    theorems use to state that a string determines its tuple: three
    decimal numbers separated by dots, and what follows. *)

Definition is_digit (c : ascii) : bool := bool_decide (is_Some (Ascii.is_nat c)).

Fixpoint all_digits (s : string) : bool :=
  match s with
  | EmptyString => true
  | String c r => is_digit c && all_digits r
  end.

(** The string is empty or starts with a character that is not a digit. *)
Definition no_digit_head (s : string) : bool :=
  match s with
  | EmptyString => true
  | String c _ => negb (is_digit c)
  end.

(** The number a string of decimal digits denotes. *)
Fixpoint digits_value (s : string) : N :=
  match s with
  | EmptyString => 0
  | String c r =>
      N.of_nat (default 0%nat (Ascii.is_nat c)) * 10 ^ N.of_nat (String.length r)
      + digits_value r
  end%N.

(** The leading digits of a string, and the rest. *)
Fixpoint span_digits (s : string) : string * string :=
  match s with
  | EmptyString => (EmptyString, EmptyString)
  | String c r =>
      if is_digit c
      then let '(d, rest) := span_digits r in (String c d, rest)
      else (EmptyString, s)
  end.

Definition parse_number (s : string) : option (Z * string) :=
  let '(d, rest) := span_digits s in
  if decide (d = EmptyString) then None
  else Some (Z.of_N (digits_value d), rest).

Definition expect_dot (s : string) : option string :=
  match s with
  | String "." r => Some r
  | _ => None
  end.

Definition parse_version (s : string) : option (Z * Z * Z * string) :=
  '(major, s) ← parse_number s;
  s ← expect_dot s;
  '(minor, s) ← parse_number s;
  s ← expect_dot s;
  '(patch, s) ← parse_number s;
  Some (major, minor, patch, s).

(** ** Lemmas *)

Lemma py_join_str_Ok sep (xs : list pyval) :
  ∃ s, py_join sep (py_str <$> xs) = Ok s.
Proof.
  induction xs as [|v xs [s IH]]; [by eexists|].
  cbn [fmap list_fmap] in *. destruct v as [z|s']; cbn [py_str py_join];
    rewrite IH; destruct (py_str <$> xs); eauto.
Qed.

Lemma version_of_short major minor patch pre :
  version_of [PInt major; PInt minor; PInt patch; PStr pre]
  = (λ s, s +:+ pre) <$> shortversion_of [PInt major; PInt minor; PInt patch; PStr pre].
Proof. done. Qed.

Lemma string_app_assoc (s1 s2 s3 : string) :
  (s1 +:+ s2) +:+ s3 = s1 +:+ (s2 +:+ s3).
Proof.
  induction s1 as [|c s1 IH]; [done|].
  change (String c ((s1 +:+ s2) +:+ s3) = String c (s1 +:+ (s2 +:+ s3))).
  by f_equal.
Qed.

(** The decimal representation of a number: digits only, not empty, and
    the number is its value. *)
Lemma pretty_N_char_digit x :
  (x < 10)%N →
  Ascii.is_nat (pretty_N_char x) = Some (N.to_nat x).
Proof.
  intros Hx.
  assert (x = 0 ∨ x = 1 ∨ x = 2 ∨ x = 3 ∨ x = 4 ∨ x = 5 ∨ x = 6 ∨ x = 7
          ∨ x = 8 ∨ x = 9)%N as Hcases by lia.
  by repeat destruct Hcases as [->|Hcases]; [..|subst x].
Qed.

Lemma pretty_N_go_digits x s :
  all_digits s = true →
  all_digits (pretty_N_go x s) = true
  ∧ digits_value (pretty_N_go x s)
    = (x * 10 ^ N.of_nat (String.length s) + digits_value s)%N.
Proof.
  revert s. induction (N.lt_wf_0 x) as [x _ IH]. intros s Hs.
  destruct (decide (x = 0)%N) as [->|Hx]; [by rewrite pretty_N_go_0|].
  rewrite pretty_N_go_step by lia.
  pose proof (N.mod_lt x 10 ltac:(done)) as Hm.
  destruct (IH (x `div` 10)%N ltac:(apply N.div_lt; lia)
              (String (pretty_N_char (x `mod` 10)) s)) as [Hd Hv].
  { simpl. unfold is_digit. by rewrite pretty_N_char_digit, Hs. }
  split; [done|]. rewrite Hv. cbn [digits_value String.length].
  rewrite pretty_N_char_digit by done. cbn [default from_option id].
  rewrite N2Nat.id, Nat2N.inj_succ, N.pow_succ_r'.
  pose proof (N.div_mod x 10 ltac:(done)). nia.
Qed.

Lemma pretty_Z_digits z :
  0 ≤ z →
  all_digits (pretty z) = true ∧ pretty z ≠ EmptyString
  ∧ Z.of_N (digits_value (pretty z)) = z.
Proof.
  intros Hz. destruct z as [|p|p]; [done| |lia].
  change (pretty (Z.pos p)) with (pretty_N_go (N.pos p) EmptyString).
  destruct (pretty_N_go_digits (N.pos p) EmptyString) as [Hd Hv]; [done|].
  split; [done|]. split; [|rewrite Hv; simpl; lia].
  intros Hempty. rewrite Hempty in Hv. simpl in Hv. lia.
Qed.

(** Digits followed by something that does not start with a digit are
    split where the digits end. *)
Lemma span_digits_app d p :
  all_digits d = true → no_digit_head p = true →
  span_digits (d +:+ p) = (d, p).
Proof.
  intros Hd Hp. induction d as [|c d IH]; simpl in *.
  - destruct p as [|c p]; [done|]. simpl in *. by destruct (is_digit c).
  - apply andb_prop in Hd as [-> Hd]. by rewrite IH.
Qed.

Lemma expect_dot_app s : expect_dot ("." +:+ s) = Some s.
Proof. done. Qed.

Lemma parse_number_pretty z p :
  0 ≤ z → no_digit_head p = true →
  parse_number (pretty z +:+ p) = Some (z, p).
Proof.
  intros Hz Hp. destruct (pretty_Z_digits z Hz) as (Hd & Hne & Hv).
  unfold parse_number. rewrite span_digits_app by done.
  by rewrite decide_False, Hv by done.
Qed.

(** ** Theorems *)

(** The module's strings: [__shortversion__] is "0.1.0" and [__version__] is
    "0.1.0rc0"; neither computation raises. *)
Example package_version_strings :
  __shortversion__ = Ok "0.1.0" ∧ __version__ = Ok "0.1.0rc0".
Proof. split; reflexivity. Qed.

(** For every version tuple (major, minor, patch, pre-release string) the
    short version is the three numbers in decimal joined by dots and the
    version is the short version followed by the pre-release string. *)
Lemma version_of_tuple major minor patch pre :
  shortversion_of [PInt major; PInt minor; PInt patch; PStr pre]
  = Ok (pretty major +:+ "." +:+ pretty minor +:+ "." +:+ pretty patch)
  ∧ version_of [PInt major; PInt minor; PInt patch; PStr pre]
    = Ok ((pretty major +:+ "." +:+ pretty minor +:+ "." +:+ pretty patch)
          +:+ pre).
Proof. split; reflexivity. Qed.

(** C15 (roundtrip).  [__version__] can be read back: for a version tuple
    of three numbers that are not negative and a pre-release string that
    does not start with a digit, the computation does not raise, and
    reading three numbers separated by dots from the string gives the
    tuple back, the pre-release string being what is left. *)
Theorem version_roundtrip major minor patch pre :
  0 ≤ major → 0 ≤ minor → 0 ≤ patch → no_digit_head pre = true →
  ∃ s, version_of [PInt major; PInt minor; PInt patch; PStr pre] = Ok s
       ∧ parse_version s = Some (major, minor, patch, pre).
Proof.
  intros Hmajor Hminor Hpatch Hpre. eexists.
  split; [apply version_of_tuple|]. unfold parse_version.
  rewrite !string_app_assoc.
  do 2 (rewrite parse_number_pretty by done; cbn [mbind option_bind];
        rewrite expect_dot_app; cbn [mbind option_bind]).
  by rewrite parse_number_pretty by done.
Qed.

(** Version tuples with the same [__version__] are the same, under the
    same conditions. *)
Corollary version_of_inj major minor patch pre major' minor' patch' pre' :
  0 ≤ major → 0 ≤ minor → 0 ≤ patch → no_digit_head pre = true →
  0 ≤ major' → 0 ≤ minor' → 0 ≤ patch' → no_digit_head pre' = true →
  version_of [PInt major; PInt minor; PInt patch; PStr pre]
  = version_of [PInt major'; PInt minor'; PInt patch'; PStr pre'] →
  (major, minor, patch, pre) = (major', minor', patch', pre').
Proof.
  intros ???? ???? Heq.
  destruct (version_roundtrip major minor patch pre) as (s & Hs & Hp);
    [done..|].
  destruct (version_roundtrip major' minor' patch' pre') as (s' & Hs' & Hp');
    [done..|].
  congruence.
Qed.

(** The condition on the pre-release string is needed: the tuples
    (0, 1, 1, "0") and (0, 1, 10, "") have the same [__version__],
    since nothing separates the patch number from what follows. *)
Example version_ambiguous :
  version_of [PInt 0; PInt 1; PInt 1; PStr "0"]
  = version_of [PInt 0; PInt 1; PInt 10; PStr EmptyString]
  ∧ parse_version "0.1.10" = Some (0, 1, 10, EmptyString).
Proof. split; reflexivity. Qed.

Lemma version_roundtrip_witness :
  ∃ s, __version__ = Ok s
       ∧ parse_version s = Some (MAJOR, MINOR, PATCH, PRE_RELEASE).
Proof.
  apply (version_roundtrip MAJOR MINOR PATCH PRE_RELEASE); done.
Defined.

(** A version tuple whose fourth component is an integer makes the
    computation of [__version__] raise [TypeError], while
    [__shortversion__] is still computed. *)
Lemma version_of_int_suffix major minor patch (n : Z) :
  version_of [PInt major; PInt minor; PInt patch; PInt n]
  = Err (TypeError "sequence item: expected str instance, int found")
  ∧ is_ok (shortversion_of [PInt major; PInt minor; PInt patch; PInt n]) = true.
Proof. split; reflexivity. Qed.
