(* ===== verification/Scenario.v ===== *)
(** * Scenario: the [__main__] block and the grid of the test

    [main] is the script at the end of subsampling.py (lines 183-212): a
    striding module of factor 4 ([model]) applied to a batch of shape
    (4, 1600, 80) ([spect]) with the lengths 1600, 324, 1 and 666 given as
    a float tensor ([spect_length_mask]).  [main_stacking] runs the
    [StackingSubsampling] model the script keeps in a comment on the same
    input.
    [script] is the script with its two calls of [print]: a [run] holds the
    lines printed, in order, and the value or the exception the script ends
    with, so that what is printed before an exception is part of the
    result.  A printed line is the pair of the shape and the tensor given
    to [print] ([Printed]); the text PyTorch formats them to is not
    modelled.  [main_script] is the script as written, [script_cases] the
    order of its effects for any module.
    [test_subsampling], [test_subsampling_factor] and the other lists are
    the parameters of the test in test_conformer_encoder_nemo.py, whose
    encoder class is not among the sources: the theorems run the
    subsampling layer alone on the test's input for every strategy and
    factor of the grid, with the width [d_model] in the place of the
    placeholders -1 the test passes for the output width and the channel
    count, which the layer itself rejects. *)

From Stdlib Require Import ZArith QArith Lia SpecFloat.
From stdpp Require Import base tactics numbers list strings.
From S2P Require Import Prelude.
From S2P Require Import Floats.
From S2P Require Import CalcLength.
From S2P Require Import Torch.
From S2P Require Import ConvSub.
From S2P Require Import Stacking.
From S2P Require Import StackingFloat.
From S2P Require Import Float32.
From S2P Require Import Float32Div.

#[local] Open Scope Z_scope.

(** ** The script *)

Definition B : Z := 4.
Definition T : Z := 1600.
Definition D_feats : Z := 80.

Section main.
Context `{FloatOps F}.

(** [model = ConvSubsampling(subsampling="striding", ...)] *)
Definition model : result ConvSubsampling :=
  ConvSubsampling_init (F:=F) "striding" 4 80 320 256 ReLU.

(** [spect = torch.randn(B, T, D_feats)], by its shape. *)
Definition spect : shape := [B; T; D_feats].

(** [spect_length_mask = torch.Tensor([1600, 324, 1, 666])]: a tensor of
    dtype float. *)
Definition spect_length_mask : tensor1 F :=
  FloatT (f_of_Z <$> [1600; 324; 1; 666]).

Definition main : result (shape * list Z) :=
  model ← model;
  ConvSubsampling_forward model spect spect_length_mask.

End main.

(** ** The output of the script *)

(** What one call of [print] in the script writes: a shape and a tensor of
    lengths, with its dtype. *)
Inductive printed (F : Type) : Type :=
  Printed (s : shape) (lengths : tensor1 F).
Arguments Printed {F} _ _.

(** A run of a script: the lines it printed, in order, and the value it
    ends with or the exception that stops it.  What was printed before an
    exception stays printed. *)
Record run (F A : Type) : Type := Run {
  output : list (printed F);
  outcome : result A
}.
Arguments Run {F A} _ _.
Arguments output {F A} _.
Arguments outcome {F A} _.

#[export] Instance run_ret {F} : MRet (run F) := λ A a, Run [] (Ok a).
#[export] Instance run_bind {F} : MBind (run F) := λ A B f m,
  match outcome m with
  | Ok a => Run (output m ++ output (f a)) (outcome (f a))
  | Err e => Run (output m) (Err e)
  end.

(** A computation that prints nothing, and [print]. *)
Definition quiet {F A} (m : result A) : run F A := Run [] m.
Definition print {F} (s : shape) (lengths : tensor1 F) : run F unit :=
  Run [Printed s lengths] (Ok ()).

Section script.
Context `{FloatOps F} {M : Type}.

(** The statements of the script in their order (lines 188-211), for the
    module the expression [build] constructs and its method [forward]: the
    module is built, the input is printed, [forward] is called, its result
    is printed. *)
Definition script (build : result M)
    (forward : M → shape → tensor1 F → result (shape * tensor1 F)) :
    run F unit :=
  model ← quiet build;
  _ ← print spect spect_length_mask;
  '(subsampling_output, subsampling_length_mask) ←
    quiet (forward model spect spect_length_mask);
  print subsampling_output subsampling_length_mask.

End script.

(** The script as it is: the convolutional module, whose lengths are a
    tensor of integers. *)
Definition main_script `{FloatOps F} : run F unit :=
  script model (λ model x lengths,
    '(x, lengths) ← ConvSubsampling_forward model x lengths;
    Ok (x, IntT lengths)).

(** The script with the model it keeps in a comment (line 197). *)
Definition main_script_stacking `{FloatOps F} `{FloorDivOps F} : run F unit :=
  script (StackingSubsampling_init 4 D_feats 256) StackingSubsampling_forward_t.

(** ** The parameters of the test *)

Definition test_input_size : list Z := [80].
Definition test_n_layers : list Z := [1; 2].
Definition test_d_model : list Z := [256].
Definition test_feat_out : list Z := [-1].
Definition test_subsampling : list string := ["striding"; "vggnet"].
Definition test_subsampling_factor : list Z := [4; 8].
Definition test_subsampling_conv_channels : list Z := [-1].
Definition test_ff_expansion_factor : list Z := [4].
Definition test_self_attention_model : list string := ["rel_pos"].
Definition test_n_heads : list Z := [4].
Definition test_att_context_size : list (list Z) := [[-1; -1]; [5; 0]].
Definition test_conv_kernel_size : list Z := [31; 7].
Definition test_conv_norm_type : list string := ["batch_norm"; "layer_norm"].

(** The number of cases pytest generates: one for each combination of the
    parameters. *)
Definition test_cases : nat :=
  length test_input_size * length test_n_layers * length test_d_model
  * length test_feat_out * length test_subsampling
  * length test_subsampling_factor * length test_subsampling_conv_channels
  * length test_ff_expansion_factor * length test_self_attention_model
  * length test_n_heads * length test_att_context_size
  * length test_conv_kernel_size * length test_conv_norm_type.

(** The input the test feeds: a batch of 2 sequences of 1600 frames of 80
    features, with an integer tensor of lengths. *)
Definition test_audio_signal : shape := [2; 1600; 80].
Definition test_x_lens : list Z := [1400; 1600].

(** The subsampling layer on the test's input, for one point of the grid. *)
Definition test_subsampling_forward `{FloatOps F}
    (subsampling : string) (subsampling_factor input_size d_model : Z) :
    result (shape * list Z) :=
  model ← ConvSubsampling_init (F:=F) subsampling subsampling_factor
             input_size d_model d_model ReLU;
  ConvSubsampling_forward model test_audio_signal (IntT test_x_lens).

(** ** Theorems *)

(** The call of [forward] in the script returns, in binary32 and in exact
    arithmetic, the shape (4, 400, 320) and the lengths 400, 81, 1 and
    167. *)
Example main_result :
  main (F:=spec_float) = Ok ([4; 400; 320], [400; 81; 1; 167])
  ∧ main (F:=Q) = Ok ([4; 400; 320], [400; 81; 1; 167]).
Proof. split; vm_compute; reflexivity. Qed.

(** Runs form a monad: the output of a sequence is the output of its parts
    in their order. *)
Lemma run_ret_bind {F A B} (a : A) (f : A → run F B) : mret a ≫= f = f a.
Proof. unfold mbind, run_bind, mret, run_ret. simpl. by destruct (f a). Qed.

Lemma run_bind_ret {F A} (m : run F A) : m ≫= mret = m.
Proof.
  destruct m as [out [a|e]]; unfold mbind, run_bind; simpl; [|done].
  by rewrite app_nil_r.
Qed.

Lemma run_bind_assoc {F A B C} (m : run F A) (f : A → run F B)
    (g : B → run F C) :
  (m ≫= f) ≫= g = m ≫= (λ a, f a ≫= g).
Proof.
  destruct m as [out [a|e]]; unfold mbind, run_bind; simpl; [|done].
  destruct (f a) as [out' [b|e]]; simpl; [|done]. by rewrite app_assoc.
Qed.

(** The order of the effects of the script, for any module: nothing is
    printed when the constructor raises; the input is printed before
    [forward] is called, so it is the whole output when [forward] raises;
    otherwise the input and then the result are printed. *)
Theorem script_cases `{FloatOps F} {M : Type} (build : result M) forward :
  script build forward =
    match build with
    | Err e => Run [] (Err e)
    | Ok model =>
        match forward model spect spect_length_mask with
        | Err e => Run [Printed spect spect_length_mask] (Err e)
        | Ok (x, lengths) =>
            Run [Printed spect spect_length_mask; Printed x lengths] (Ok ())
        end
    end.
Proof.
  unfold script. destruct build as [model|e]; [|done].
  unfold quiet, print, mbind, run_bind. simpl.
  by destruct (forward model _ _) as [[x lengths]|e].
Qed.


(** With the model of the comment the second line holds the shape
    (4, 401, 256) and the lengths 401, 82, 1 and 167 as floats. *)
Example main_script_stacking_prints :
  main_script_stacking (F:=spec_float)
  = Run [Printed [4; 1600; 80] (FloatT (b32_of_Z <$> [1600; 324; 1; 666]));
         Printed [4; 401; 256] (FloatT (b32_of_Z <$> [401; 82; 1; 167]))]
      (Ok ()).
Proof. vm_compute; reflexivity. Qed.

(** The script on a module built for 40 features, which [forward] rejects
    in its projection: the first line is printed, then the exception is
    raised. *)
Example script_prints_before_raising :
  script (F:=spec_float)
    (ConvSubsampling_init (F:=spec_float) "striding" 4 40 320 256 ReLU)
    (λ model x lengths,
       '(x, lengths) ← ConvSubsampling_forward model x lengths;
       Ok (x, IntT lengths))
  = Run [Printed [4; 1600; 80] (FloatT (b32_of_Z <$> [1600; 324; 1; 666]))]
      (Err (RuntimeError "mat1 and mat2 shapes cannot be multiplied")).
Proof. vm_compute; reflexivity. Qed.

(** The model the script keeps in a comment,
    [StackingSubsampling(subsampling_factor=4, feat_in=D_feats,
    feat_out=256)], on the same input: 401 frames of 256 features, and the
    lengths 401, 82, 1 and 167 as floats, in binary32 and in exact
    arithmetic. *)
Example main_stacking :
  (model ← StackingSubsampling_init 4 D_feats 256;
   StackingSubsampling_forward_t (F:=spec_float) model spect spect_length_mask)
  = Ok ([4; 401; 256], FloatT (b32_of_Z <$> [401; 82; 1; 167]))
  ∧ (model ← StackingSubsampling_init 4 D_feats 256;
     StackingSubsampling_forward_t (F:=Q) model spect spect_length_mask)
    = Ok ([4; 401; 256], FloatT (inject_Z <$> [401; 82; 1; 167])).
Proof. split; vm_compute; reflexivity. Qed.

(** Every point of the test's grid (strategy "striding" or "vggnet", factor
    4 or 8, 80 input features, width 256) builds a module that maps the
    test's batch of 1600 frames to 1600 / factor frames and its lengths
    1400 and 1600 to their quotients by the factor, in binary32. *)
Example test_grid_forward :
  Forall (λ s, Forall (λ f, Forall (λ i, Forall (λ d,
    test_subsampling_forward (F:=spec_float) s f i d
    = Ok ([2; 1600 / f; d], [1400 / f; 1600 / f]))
    test_d_model) test_input_size) test_subsampling_factor) test_subsampling.
Proof. repeat constructor. Qed.

(** The test passes -1 for [feat_out] and [subsampling_conv_channels]: the
    encoder must replace them before it builds the layer, since
    [ConvSubsampling] called with the values of the test raises the
    allocation error for every strategy and factor of the grid, and
    [StackingSubsampling] does for the negative output width.  The test
    has 64 cases, which reach the subsampling layer in 4 configurations. *)
Example test_placeholders_rejected :
  Forall (λ s, Forall (λ f, Forall (λ i, Forall (λ o, Forall (λ c,
    ConvSubsampling_init (F:=spec_float) s f i o c ReLU = Err alloc_error
    ∧ StackingSubsampling_init f i o = Err alloc_error)
    test_subsampling_conv_channels) test_feat_out) test_input_size)
    test_subsampling_factor) test_subsampling
  ∧ test_cases = 64%nat
  ∧ length (test_subsampling ≫= λ s, test_subsampling_factor ≫= λ f,
            test_input_size ≫= λ i, test_d_model ≫= λ d, [(s, f, i, d)])
    = 4%nat.
Proof. split; [repeat constructor|done]. Qed.
