(* ===== verification/Contract.v ===== *)
(** * Contract: what a subsampling layer promises to its callers

    The script of subsampling.py calls [model.forward(spect,
    spect_length_mask)] on whichever of the two classes [model] is (lines
    188-196 and 206-208), and the encoder of the test chooses the class by
    a parameter: both classes are used through one interface, a module with
    a [forward] that takes a batch and its lengths and returns a batch and
    its lengths.

    [Subsampling] is that interface, with what a caller needs to know of a
    module (its two widths, the time axis [layer_time] and the length
    [layer_length] it returns), and [SubsamplingLaws] is its contract.
    [conv_layer] and [stack_layer] are the two classes as instances; the
    laws are proved of both, for every float arithmetic that meets the
    contracts of [Floats] and [StackingFloat] on a domain closed downwards.

    The clients are proved against the interface: a valid batch is mapped to
    a valid batch ([layer_forward_valid]), two layers in sequence are a
    layer ([compose_laws]), and the script returns a valid batch for every
    module that handles its input ([main_with_valid]). *)

From Stdlib Require Import ZArith QArith Lia SpecFloat.
From stdpp Require Import base tactics numbers list strings.
From S2P Require Import Prelude.
From S2P Require Import Floats.
From S2P Require Import CalcLength.
From S2P Require Import Torch.
From S2P Require Import ConvSub.
From S2P Require Import Stacking.
From S2P Require Import StackingFloat.
From S2P Require Import Float32.
From S2P Require Import Float32Exact.
From S2P Require Import Float32Div.
From S2P Require Import Scenario.

#[local] Open Scope Z_scope.

(** ** The interface *)

Section interface.
Context `{FloatOps F}.

(** The lengths a tensor holds: the elements of an integer tensor, or the
    integers whose floats are the elements of a float tensor. *)
Definition holds_lengths (lengths : tensor1 F) (ls : list Z) : Prop :=
  to_int lengths = ls ∧ to_float lengths = f_of_Z <$> ls.

(** A batch with its lengths: [b] items of [t] frames of width [w], and
    for every item a length between 0 and [t]. *)
Definition valid_batch (b t w : Z) (x : shape) (lengths : tensor1 F) : Prop :=
  x = [b; t; w] ∧ 1 ≤ b ∧ 1 ≤ t
  ∧ ∃ ls, holds_lengths lengths ls ∧ length ls = Z.to_nat b
          ∧ Forall (λ l, 0 ≤ l ≤ t) ls.

(** A subsampling layer as its callers see it: [forward], the widths it
    was built for, the time axis and the length it returns for a time axis
    and a length, and the time axes its arithmetic handles. *)
Class Subsampling (M : Type) : Type := {
  layer_forward : M → shape → tensor1 F → result (shape * tensor1 F);
  layer_feat_in : M → Z;
  layer_feat_out : M → Z;
  layer_time : M → Z → Z;
  layer_length : M → Z → Z → Z;
  layer_handles : M → Z → Prop
}.

(** The contract. *)
Class SubsamplingLaws (M : Type) `{Subsampling M} : Prop := {
  layer_forward_spec m b t lengths ls :
    layer_handles m t → 1 ≤ b → 1 ≤ t →
    Forall (λ l, 0 ≤ l ≤ t) ls → holds_lengths lengths ls →
    ∃ lengths',
      layer_forward m [b; t; layer_feat_in m] lengths
      = Ok ([b; layer_time m t; layer_feat_out m], lengths')
      ∧ holds_lengths lengths' (layer_length m t <$> ls);
  layer_length_mono m t l l' :
    layer_handles m t → 0 ≤ l ≤ l' → layer_length m t l ≤ layer_length m t l';
  layer_length_nonneg m t l :
    layer_handles m t → 0 ≤ l → 0 ≤ layer_length m t l;
  layer_length_full m t :
    layer_handles m t → 1 ≤ t → layer_length m t t = layer_time m t;
  layer_time_pos m t : layer_handles m t → 1 ≤ t → 1 ≤ layer_time m t
}.

(** ** The clients *)

Section clients.
Context `{SubsamplingLaws M}.

(** The lengths a layer returns are valid for the time axis it returns. *)
Lemma layer_length_bounds (m : M) t l :
  layer_handles m t → 1 ≤ t → 0 ≤ l ≤ t →
  0 ≤ layer_length m t l ≤ layer_time m t.
Proof.
  intros Hm Ht [??]. split; [by apply layer_length_nonneg|].
  rewrite <-(layer_length_full m t) by done. by apply layer_length_mono.
Qed.

(** A layer maps a valid batch to a valid batch. *)
Lemma layer_forward_valid (m : M) b t x lengths :
  layer_handles m t → valid_batch b t (layer_feat_in m) x lengths →
  ∃ x' lengths',
    layer_forward m x lengths = Ok (x', lengths')
    ∧ valid_batch b (layer_time m t) (layer_feat_out m) x' lengths'.
Proof.
  intros Hm (-> & Hb & Ht & ls & Hls & Hlen & Hbound).
  destruct (layer_forward_spec m b t lengths ls) as (lengths' & -> & Hls');
    [done..|].
  eexists _, _. split; [done|].
  split_and!; [done|done|by apply layer_time_pos|].
  eexists. split_and!; [done|by rewrite length_fmap|].
  rewrite Forall_fmap. eapply Forall_impl; [done|].
  intros l ?. by apply layer_length_bounds.
Qed.

(** The script (lines 206-208), for any module. *)
Definition main_with (model : M) : result (shape * tensor1 F) :=
  layer_forward model spect spect_length_mask.

End clients.

(** Two layers in sequence. *)
#[export] Instance compose_layer `{Subsampling M1} `{Subsampling M2} :
    Subsampling (M1 * M2) := {
  layer_forward m x lengths :=
    '(x, lengths) ← layer_forward m.1 x lengths; layer_forward m.2 x lengths;
  layer_feat_in m := layer_feat_in m.1;
  layer_feat_out m := layer_feat_out m.2;
  layer_time m t := layer_time m.2 (layer_time m.1 t);
  layer_length m t l := layer_length m.2 (layer_time m.1 t) (layer_length m.1 t l);
  layer_handles m t :=
    1 ≤ t ∧ layer_handles m.1 t ∧ layer_handles m.2 (layer_time m.1 t)
    ∧ layer_feat_out m.1 = layer_feat_in m.2
}.

#[export] Instance compose_laws `{SubsamplingLaws M1} `{SubsamplingLaws M2} :
  SubsamplingLaws (M1 * M2).
Proof.
  split.
  - intros [m1 m2] b t lengths ls (Ht & Hm1 & Hm2 & Hw) Hb _ Hls Hl.
    cbn [layer_forward layer_feat_in layer_feat_out layer_time layer_length
         compose_layer fst snd] in *.
    destruct (layer_forward_spec m1 b t lengths ls) as (l1 & -> & Hl1);
      [done..|].
    cbn [mbind result_bind]. rewrite Hw.
    destruct (layer_forward_spec m2 b (layer_time m1 t) l1
                (layer_length m1 t <$> ls)) as (l2 & -> & Hl2);
      [done|done|by apply layer_time_pos| |done|].
    { rewrite Forall_fmap. eapply Forall_impl; [done|].
      intros l ?. by apply layer_length_bounds. }
    exists l2. split; [done|]. by rewrite <-list_fmap_compose in Hl2.
  - intros [m1 m2] t l l' (Ht & Hm1 & Hm2 & _) [??]. simpl in *.
    apply layer_length_mono; [done|].
    split; [by apply layer_length_nonneg|by apply layer_length_mono].
  - intros [m1 m2] t l (Ht & Hm1 & Hm2 & _) ?. simpl in *.
    apply layer_length_nonneg; [done|by apply layer_length_nonneg].
  - intros [m1 m2] t (_ & Hm1 & Hm2 & _) Ht. simpl in *.
    rewrite (layer_length_full m1) by done.
    apply layer_length_full; [done|by apply layer_time_pos].
  - intros [m1 m2] t (_ & Hm1 & Hm2 & _) Ht. simpl in *.
    apply layer_time_pos; [done|by apply layer_time_pos].
Qed.

End interface.

(** ** The two classes *)

(** A module with the widths it was built for. *)
Record conv_layer : Type := ConvLayer {
  conv_self : ConvSubsampling;
  conv_feat_in : Z;
  conv_feat_out : Z
}.

Record stack_layer : Type := StackLayer {
  stack_self : StackingSubsampling;
  stack_feat_in : Z;
  stack_feat_out : Z
}.

Section classes.
Context `{HalvingExact F D} `{FloorDivOps F} `{!FloorDivExact F D}.
Context (D_down : ∀ n k, D n → 0 ≤ k ≤ n → D k).

(** The module was returned by the constructor, for widths and channels
    that are positive and an elementwise activation. *)
Definition conv_built (m : conv_layer) : Prop :=
  ∃ s factor c nm,
    1 ≤ c ∧ 1 ≤ conv_feat_in m ∧ D (conv_feat_in m)
    ∧ ConvSubsampling_init (F:=F) s factor (conv_feat_in m) (conv_feat_out m)
        c (Elementwise nm) = Ok (conv_self m).

Definition stack_built (m : stack_layer) : Prop :=
  0 < subsampling_factor (stack_self m) ∧ 0 ≤ stack_feat_in m
  ∧ StackingSubsampling_init (subsampling_factor (stack_self m))
      (stack_feat_in m) (stack_feat_out m) = Ok (stack_self m).

(** [ConvSubsampling]: [forward] returns its lengths in an integer
    tensor. *)
#[export] Instance conv_subsampling : Subsampling (F:=F) conv_layer := {
  layer_forward m x lengths :=
    fmap (M:=result) (λ r, (r.1, IntT r.2))
      (ConvSubsampling_forward (conv_self m) x lengths);
  layer_feat_in := conv_feat_in;
  layer_feat_out := conv_feat_out;
  layer_time m t := cdiv t (2 ^ _sampling_num (conv_self m));
  layer_length m _ l := cdiv l (2 ^ _sampling_num (conv_self m));
  layer_handles m t := conv_built m ∧ D t
}.

(** [StackingSubsampling]: [forward] returns its lengths in the dtype it
    was given. *)
#[export] Instance stack_subsampling : Subsampling (F:=F) stack_layer := {
  layer_forward m := StackingSubsampling_forward_t (stack_self m);
  layer_feat_in := stack_feat_in;
  layer_feat_out := stack_feat_out;
  layer_time m t := t / subsampling_factor (stack_self m) + 1;
  layer_length m t l := stacked_length t (subsampling_factor (stack_self m)) l;
  layer_handles m t := stack_built m ∧ D (t + subsampling_factor (stack_self m))
}.

Lemma conv_built_pow m : conv_built m → 0 < 2 ^ _sampling_num (conv_self m).
Proof.
  intros (s & factor & c & nm & _ & _ & HDf & Hinit).
  destruct (init_Ok_inv _ _ _ _ _ _ _ HDf Hinit) as (_ & _ & Hself).
  apply Z.pow_pos_nonneg; [lia|].
  destruct Hself as [[_ ->]|[_ ->]]; apply Z.log2_nonneg.
Qed.

#[export] Instance conv_laws : SubsamplingLaws conv_layer.
Proof.
  split.
  - intros m b t lengths ls [Hm HDt] Hb Ht Hls [Hin Hfl].
    destruct Hm as (s & factor & c & nm & Hc & Hd & HDf & Hinit).
    eexists. cbn [layer_forward layer_feat_in layer_feat_out layer_time
                  layer_length conv_subsampling].
    rewrite (forward_spec s factor (conv_feat_in m) (conv_feat_out m) c nm
               (conv_self m) b t lengths ls); [done|done..| |done|done].
    eapply Forall_impl; [done|]. intros l ?. by apply (D_down t).
  - intros m t l l' [Hm _] [??]. apply cdiv_mono; [by apply conv_built_pow|done].
  - intros m t l [Hm _] ?. apply cdiv_nonneg; [by apply conv_built_pow|done].
  - done.
  - intros m t [Hm _] Ht. apply Z.lt_pred_le, cdiv_pos; [by apply conv_built_pow|lia].
Qed.

(** The lengths of the stacking layer stay in the domain of the float
    arithmetic. *)
Lemma stacked_lengths_domain t f ls :
  0 < f → 1 ≤ t → D (t + f) → Forall (λ l, 0 ≤ l ≤ t) ls →
  D f ∧ D (pad_size_of t f)
  ∧ Forall (λ l, D l ∧ D (l + pad_size_of t f)) ls
  ∧ Forall D (stacked_length t f <$> ls).
Proof.
  intros Hf Ht HD Hls. pose proof (pad_size_bounds t f Hf).
  split_and!; [apply (D_down (t + f)); [done|lia]..| |].
  - eapply Forall_impl; [done|]. intros l [??].
    split; apply (D_down (t + f)); done || lia.
  - rewrite Forall_fmap. eapply Forall_impl; [done|]. intros l [??]. simpl.
    apply (D_down (t + f)); [done|].
    split; [by apply stacked_length_nonneg|].
    etrans; [by apply (stacked_length_mono t f l t)|].
    rewrite stacked_length_full by done. divlia.
Qed.

#[export] Instance stack_laws : SubsamplingLaws stack_layer.
Proof.
  split.
  - intros [[f proj] fi fo] b t lengths ls [(Hf & Hh & Hinit) HDt] Hb Ht Hls
      [Hin Hfl].
    cbn [layer_forward layer_feat_in layer_feat_out layer_time layer_length
         stack_subsampling stack_self stack_feat_in stack_feat_out
         subsampling_factor] in *.
    apply Stacking_init_inv in Hinit as (-> & _ & _).
    destruct (stacked_lengths_domain t f ls) as (? & ? & ? & ?); [done..|].
    destruct lengths as [xs|xs]; simpl in Hin, Hfl; [subst ls|subst xs].
    + rewrite forward_t_int, Stacking_forward_spec by (done || lia).
      eexists. split; done.
    + rewrite (forward_t_float (D:=D)) by (done || lia).
      eexists. split; [done|]. split; [|done]. by apply to_int_of_Z.
  - intros m t l l' [(Hf & _) _] [??]. by apply stacked_length_mono.
  - intros m t l [(Hf & _) _] ?. by apply stacked_length_nonneg.
  - intros m t [(Hf & _) _] ?. by apply stacked_length_full.
  - intros m t [(Hf & _) _] ?. simpl.
    pose proof (Z.div_pos t (subsampling_factor (stack_self m))). lia.
Qed.

End classes.

(** ** Theorems *)

(** The script for any module: for a module that handles a time axis of
    1600 frames and was built for 80 features, and lengths the float
    arithmetic represents, it returns a valid batch of 4 items. *)
Theorem main_with_valid `{SubsamplingLaws F M} (model : M) :
  layer_handles model T → layer_feat_in model = D_feats →
  holds_lengths spect_length_mask [1600; 324; 1; 666] →
  ∃ x' lengths',
    main_with model = Ok (x', lengths')
    ∧ valid_batch B (layer_time model T) (layer_feat_out model) x' lengths'.
Proof.
  intros Hm Hw Hls. apply layer_forward_valid; [done|].
  rewrite Hw. split_and!; [done|done|done|].
  eexists. split_and!; [done|done|]. by repeat constructor.
Qed.

(** The script with its output, for such a module: it prints its input,
    then a valid batch, and ends without an exception. *)
Corollary script_prints_valid `{SubsamplingLaws F M} (model : M) :
  layer_handles model T → layer_feat_in model = D_feats →
  holds_lengths spect_length_mask [1600; 324; 1; 666] →
  ∃ x' lengths',
    script (Ok model) layer_forward
    = Run [Printed spect spect_length_mask; Printed x' lengths'] (Ok ())
    ∧ valid_batch B (layer_time model T) (layer_feat_out model) x' lengths'.
Proof.
  intros Hm Hw Hls.
  destruct (main_with_valid model Hm Hw Hls) as (x' & lengths' & Hrun & Hv).
  exists x', lengths'. split; [|done]. rewrite script_cases.
  unfold main_with in Hrun. by rewrite Hrun.
Qed.

(** C36 (invariant).  Both classes meet the contract of a subsampling
    layer, and so does one after the other.  For modules the constructors
    returned (a convolutional module with at least one channel and an
    elementwise activation, a stacking module with a positive factor) and a
    batch of [b >= 1] items, [t >= 1] frames, the width the first module was
    built for, and lengths between 0 and [t], in a float arithmetic that
    represents the integers up to [t] and up to [t' + f]: the convolutional
    [forward] and then the stacking [forward] succeed, with the time axes
    [t' = ceil(t / 2^R)] and [t' // f + 1] and lengths that are valid for
    them. *)
Theorem conv_then_stack_valid `{HalvingExact F D} `{FloorDivOps F}
    `{!FloorDivExact F D} (m1 : conv_layer) (m2 : stack_layer) b t x
    (lengths : tensor1 F) :
  (∀ n k, D n → 0 ≤ k ≤ n → D k) →
  conv_built (F:=F) (D:=D) m1 → stack_built m2 →
  conv_feat_out m1 = stack_feat_in m2 →
  let t' := cdiv t (2 ^ _sampling_num (conv_self m1)) in
  let f := subsampling_factor (stack_self m2) in
  D t → D (t' + f) →
  valid_batch b t (conv_feat_in m1) x lengths →
  ∃ x1 lengths1 x2 lengths2,
    ConvSubsampling_forward (conv_self m1) x lengths = Ok (x1, lengths1)
    ∧ valid_batch b t' (conv_feat_out m1) x1 (IntT lengths1)
    ∧ StackingSubsampling_forward_t (stack_self m2) x1 (IntT lengths1)
      = Ok (x2, lengths2)
    ∧ valid_batch b (t' / f + 1) (stack_feat_out m2) x2 lengths2.
Proof.
  intros Hdown Hm1 Hm2 Hw t' f HDt HDt' Hvalid.
  pose proof (conv_laws Hdown) as Hlaws1. pose proof (stack_laws Hdown) as Hlaws2.
  destruct (@layer_forward_valid _ _ _ _ Hlaws1 m1 b t x lengths)
    as (x1 & l1 & Hf1 & Hv1); [done..|].
  cbn [layer_forward conv_subsampling] in Hf1.
  destruct (ConvSubsampling_forward _ _ _) as [[x1' ls1]|] eqn:E1; [|done].
  injection Hf1 as <- <-.
  destruct (@layer_forward_valid _ _ _ _ Hlaws2 m2 b t' x1' (IntT ls1))
    as (x2 & l2 & Hf2 & Hv2);
    [done|cbn [layer_feat_in stack_subsampling]; by rewrite <-Hw|].
  by eexists _, _, _, _.
Qed.

(** ** Witnesses *)

Lemma int24_down n k : int24 n → 0 ≤ k ≤ n → int24 k.
Proof. unfold int24. lia. Qed.

(** The module of the script and a stacking module of factor 2 built for
    its output width, as layers. *)
Definition main_conv_layer : conv_layer :=
  ConvLayer (striding_module 4 80 320 256 ReLU) 80 320.

Definition main_stack_layer : stack_layer :=
  StackLayer (stacking_module 2 320 256) 320 256.

Lemma main_conv_built : conv_built (F:=spec_float) (D:=int24) main_conv_layer.
Proof.
  exists "striding", 4, 256, "ReLU". split_and!; [done|done|by vm_compute|].
  apply (init_striding (F:=spec_float) (D:=int24)); by vm_compute.
Defined.

Lemma main_stack_built : stack_built main_stack_layer.
Proof. split_and!; [done|done|reflexivity]. Defined.

Lemma main_lengths_held :
  holds_lengths (F:=spec_float) spect_length_mask [1600; 324; 1; 666].
Proof. split; [vm_compute; reflexivity|reflexivity]. Defined.

Lemma conv_then_stack_valid_witness :
  ∃ x1 lengths1 x2 lengths2,
    ConvSubsampling_forward (F:=spec_float) (conv_self main_conv_layer)
      spect spect_length_mask = Ok (x1, lengths1)
    ∧ valid_batch (F:=spec_float) 4 (cdiv 1600 (2 ^ 2)) 320 x1 (IntT lengths1)
    ∧ StackingSubsampling_forward_t (F:=spec_float)
        (stack_self main_stack_layer) x1 (IntT lengths1) = Ok (x2, lengths2)
    ∧ valid_batch (F:=spec_float) 4 (cdiv 1600 (2 ^ 2) / 2 + 1) 256 x2 lengths2.
Proof.
  apply (conv_then_stack_valid (F:=spec_float) (D:=int24) main_conv_layer
           main_stack_layer 4 1600 spect spect_length_mask int24_down
           main_conv_built main_stack_built);
    [done|by vm_compute|by vm_compute|].
  split_and!; [done|done|done|].
  exists [1600; 324; 1; 666].
  split_and!; [exact main_lengths_held|done|by repeat constructor].
Defined.

(** The two classes in binary32, on the lengths below 2^24. *)
#[export] Instance b32_conv_subsampling :
  Subsampling (F:=spec_float) conv_layer := conv_subsampling (D:=int24).

#[export] Instance b32_stack_subsampling :
  Subsampling (F:=spec_float) stack_layer := stack_subsampling (D:=int24).

#[export] Instance b32_conv_laws : SubsamplingLaws conv_layer :=
  conv_laws (D:=int24) int24_down.

#[export] Instance b32_stack_laws : SubsamplingLaws stack_layer :=
  stack_laws (D:=int24) int24_down.

(** The two layers in sequence on the batch of the script: 1600 frames
    become 400 and then 201, and the lengths 400, 81, 1 and 167 become 201,
    41, 1 and 84. *)
Example conv_then_stack_script :
  layer_forward (F:=spec_float) (main_conv_layer, main_stack_layer)
    spect spect_length_mask
  = Ok ([4; 201; 256], IntT [201; 41; 1; 84]).
Proof. vm_compute. reflexivity. Qed.

(** The script with its module and with a stacking module in its place:
    both return a valid batch. *)
Example main_with_models :
  (∃ x' lengths',
     main_with (F:=spec_float) main_conv_layer = Ok (x', lengths')
     ∧ valid_batch 4 400 320 x' lengths')
  ∧ (∃ x' lengths',
       main_with (F:=spec_float) (StackLayer (stacking_module 4 80 256) 80 256)
       = Ok (x', lengths')
       ∧ valid_batch 4 401 256 x' lengths').
Proof.
  split.
  - refine (main_with_valid (F:=spec_float) main_conv_layer _ _ _);
      [split; [exact main_conv_built|by vm_compute]|done|exact main_lengths_held].
  - refine (main_with_valid (F:=spec_float)
              (StackLayer (stacking_module 4 80 256) 80 256) _ _ _);
      [|done|exact main_lengths_held].
    split; [split_and!; [done|done|reflexivity]|by vm_compute].
Qed.
